(** * Karyotype chart reader: a shallow embedding of [karyotype.py]

    The Python module reads a karyotype chart: it takes the external
    contours of the chart image, finds the printed chromosome numbers
    (four rows of labels), gives every other contour the number of the
    nearest label of its row and merges small pieces of a chromosome into
    its main branch.

    Conventions of the embedding.
    - Every contour record of the program is a Python dict that is shared
      between [self.cntr_dicts] and all the lists and dicts derived from it.
      The embedding keeps the records in one store (the list
      [self.cntr_dicts]) and lets every derived list hold references, i.e.
      positions in that store.  A mutation of a record is a store update.
    - A Python dict keyed by [cy] keeps its insertion order, and the code
      depends on that order: it is an association list.
    - Python floats are rationals ([Q]); [int(x)] truncates toward zero.
      The only irrational values, the centroid distances computed by
      [np.linalg.norm], are kept as the integer under the square root.
    - OpenCV, the helpers of [utils] and the configuration file are not part
      of the module: they are parameters ([Externals], [Config]).
    - An exception is a value of [exn]; a computation that may raise
      returns a [result]. *)

From Stdlib Require Import String Ascii.
From Stdlib Require Import ZArith QArith Bool Lia Arith List Permutation.
Import ListNotations.

Close Scope Q_scope.
Local Open Scope nat_scope.

Set Implicit Arguments.

(** ** Exceptions and results *)

Inductive exn : Type :=
| ValueError_row_count (found : nat)
    (* line 186: the number of label rows is [found], should be 4 *)
| ValueError_row_id_num (row found expected : nat)
    (* line 219: row [row] (1-based) has [found] labels, should have [expected] *)
| ValueError (msg : string)
| FileNotFoundError (fp : string)
| ZeroDivisionError
| TypeError
| IndexError.

Inductive result (A : Type) : Type :=
| Ok (a : A)
| Raise (e : exn).

Arguments Ok {A} a.
Arguments Raise {A} e.

Definition bind {A B : Type} (m : result A) (k : A -> result B) : result B :=
  match m with
  | Ok a => k a
  | Raise e => Raise e
  end.

Notation "x <- m ;; k" := (bind m (fun x => k))
  (at level 61, m at next level, right associativity).
Notation "' p <- m ;; k" := (bind m (fun x => let p := x in k))
  (at level 61, p pattern, m at next level, right associativity).

Definition is_ok {A : Type} (m : result A) : bool :=
  match m with Ok _ => true | Raise _ => false end.

(** ** Python numbers *)

(** [int(x)] of a float: truncation toward zero. *)
Definition py_int (q : Q) : Z := Z.quot (Qnum q) (Zpos (Qden q)).

(** [a / b] on floats raises [ZeroDivisionError] when [b] is zero. *)
Definition py_div (a b : Q) : result Q :=
  if Qeq_bool b 0 then Raise ZeroDivisionError else Ok (a / b)%Q.

Definition Qlt_bool (a b : Q) : bool := negb (Qle_bool b a).

(** A distance between points with integer coordinates: [float('inf')] or
    the Euclidean norm of an integer vector, kept as the sum of squares
    under the root. *)
Inductive distance : Type :=
| inf
| sqrt_of (d2 : Z).

(** [a < b] on distances. *)
Definition distance_ltb (a b : distance) : bool :=
  match a, b with
  | inf, _ => false
  | sqrt_of _, inf => true
  | sqrt_of x, sqrt_of y => (x <? y)%Z
  end.

(** [np.linalg.norm(np.array(p) - np.array(q))]. *)
Definition linalg_norm_diff (p q : Z * Z) : distance :=
  let dx := (fst p - fst q)%Z in
  let dy := (snd p - snd q)%Z in
  sqrt_of (dx * dx + dy * dy)%Z.

(** ** Contours and contour records *)

Definition Point : Type := Z * Z.
Definition Contour : Type := list Point.
Definition Rect : Type := Z * Z * Z * Z.
Definition RotatedRect : Type := (Q * Q) * (Q * Q) * Q.

Record Moments : Type := { m00 : Q; m10 : Q; m01 : Q }.

(** The dict of one contour.  The keys [chromo_id], [chromo_idx] and
    [distance_to_id] are absent until the code assigns them. *)
Record ContourRecord : Type := {
  cntr_idx : nat;
  cntr : Contour;
  area : Q;
  rect : Rect;
  min_area_rect : RotatedRect;
  cx : Z;
  cy : Z;
  center : Z * Z;
  chromo_id : option string;
  chromo_idx : option nat;
  distance_to_id : option distance
}.

Definition set_chromo (id : option string) (idx : option nat) (c : ContourRecord)
  : ContourRecord :=
  {| cntr_idx := cntr_idx c; cntr := cntr c; area := area c; rect := rect c;
     min_area_rect := min_area_rect c; cx := cx c; cy := cy c;
     center := center c;
     chromo_id := id; chromo_idx := idx;
     distance_to_id := distance_to_id c |}.

Definition set_distance_to_id (d : distance) (c : ContourRecord) : ContourRecord :=
  {| cntr_idx := cntr_idx c; cntr := cntr c; area := area c; rect := rect c;
     min_area_rect := min_area_rect c; cx := cx c; cy := cy c;
     center := center c;
     chromo_id := chromo_id c; chromo_idx := chromo_idx c;
     distance_to_id := Some d |}.

(** ** The store of records *)

Definition ref : Type := nat.
Definition store : Type := list ContourRecord.

Definition empty_record : ContourRecord :=
  {| cntr_idx := 0; cntr := []; area := 0%Q; rect := (0, 0, 0, 0)%Z;
     min_area_rect := ((0, 0), (0, 0), 0)%Q; cx := 0%Z; cy := 0%Z;
     center := (0, 0)%Z;
     chromo_id := None; chromo_idx := None; distance_to_id := None |}.

Definition get (st : store) (r : ref) : ContourRecord := nth r st empty_record.

Fixpoint modify (f : ContourRecord -> ContourRecord) (r : ref) (st : store) : store :=
  match st, r with
  | [], _ => []
  | c :: t, O => f c :: t
  | c :: t, S r' => c :: modify f r' t
  end.

(** ** Ordered dicts keyed by [cy] *)

Definition dict (V : Type) : Type := list (Z * V).

Definition keys {V : Type} (d : dict V) : list Z := map fst d.
Definition values {V : Type} (d : dict V) : list V := map snd d.

Fixpoint dict_get {V : Type} (k : Z) (d : dict V) : option V :=
  match d with
  | [] => None
  | (k', v) :: t => if (k =? k')%Z then Some v else dict_get k t
  end.

(** [d[k] = v]: replaces the value of an existing key in place, appends a
    new key at the end. *)
Fixpoint dict_set {V : Type} (k : Z) (v : V) (d : dict V) : dict V :=
  match d with
  | [] => [(k, v)]
  | (k', v') :: t =>
      if (k =? k')%Z then (k, v) :: t else (k', v') :: dict_set k v t
  end.

(** [d[k]].  The code reads a dict only at a key that it has just
    inserted (line 175, after line 171) or that it takes from the keys of
    the same layout (line 293: the keys of the rows of contours are keys of
    the rows of labels), so the [KeyError] of a missing key is not part of
    the embedding: the lookup gives the empty list there. *)
Definition dict_item {A : Type} (k : Z) (d : dict (list A)) : list A :=
  match dict_get k d with
  | Some l => l
  | None => []
  end.

(** [if k not in d: d[k] = []] followed by [d[k].append(r)]. *)
Definition dict_append {A : Type} (k : Z) (r : A) (d : dict (list A))
  : dict (list A) :=
  match dict_get k d with
  | None => dict_set k [r] d
  | Some l => dict_set k (l ++ [r]) d
  end.

(** ** [sorted]: a stable sort by an integer key *)

Section Sorted.
Variable A : Type.
Variable key : A -> Z.

Fixpoint insert_by (x : A) (l : list A) : list A :=
  match l with
  | [] => [x]
  | y :: t => if (key x <=? key y)%Z then x :: y :: t else y :: insert_by x t
  end.

Definition sorted_by (l : list A) : list A := fold_right insert_by [] l.
End Sorted.

(** [enumerate(l)]. *)
Definition enumerate {A : Type} (l : list A) : list (nat * A) :=
  combine (seq 0 (length l)) l.

(** ** Configuration ([config/karyotype.ini]) *)

Record Config : Type := {
  BIN_THRESH : Z;
  ID_CHAR_Y_TOLERANCE : Z;
  MAX_ID_CHAR_AREA : Z;
  MIN_ID_CHAR_AREA : Z;
  ROW_ID_CHAR_MIN_NUM : nat;
  ROW_ID_CHAR_MAX_NUM : nat;
  ID_CHAR_X_TOLERANCE : Z;
  TOTAL_ID_NUM : nat;
  ROW_1_ID_NUM : nat;
  ROW_2_ID_NUM : nat;
  ROW_3_ID_NUM : nat;
  ROW_4_ID_NUM : nat;
  SMALL_PIECE_AREA_RATIO : Q
}.

(** The values that the comments of lines 44 to 68 give for the keys of the
    configuration file. *)
Definition karyotype_ini : Config :=
  {| BIN_THRESH := 253;
     ID_CHAR_Y_TOLERANCE := 4;
     MAX_ID_CHAR_AREA := 80;
     MIN_ID_CHAR_AREA := 15;
     ROW_ID_CHAR_MIN_NUM := 5;
     ROW_ID_CHAR_MAX_NUM := 12;
     ID_CHAR_X_TOLERANCE := 40;
     TOTAL_ID_NUM := 24;
     ROW_1_ID_NUM := 5;
     ROW_2_ID_NUM := 7;
     ROW_3_ID_NUM := 6;
     ROW_4_ID_NUM := 6;
     SMALL_PIECE_AREA_RATIO := 4 # 10 |}.

(** ** External collaborators: OpenCV, [utils], the Python runtime *)

Record Externals (Image : Type) : Type := {
  (* os.path.exists *)
  os_path_exists : string -> bool;
  (* os.path.split *)
  os_path_split : string -> string * string;
  (* cv2.imread: None when the file is not an image *)
  imread : string -> option Image;
  (* utils.chromo_cv_utils.find_external_contours *)
  find_external_contours : Image -> Z -> list Contour;
  (* cv2.contourArea, cv2.boundingRect, cv2.minAreaRect, cv2.moments *)
  contourArea : Contour -> Q;
  boundingRect : Contour -> Rect;
  minAreaRect : Contour -> RotatedRect;
  moments : Contour -> Moments;
  (* utils.utils.get_distance_between_two_contours:
     (distance, index of the nearest point in the first contour,
      index of the nearest point in the second contour) *)
  get_distance_between_two_contours : Contour -> Contour -> distance * nat * nat;
  (* utils.utils.merge_two_contours_by_npi *)
  merge_two_contours_by_npi : Contour -> Contour -> nat -> nat -> Contour;
  (* list(set(l)): the distinct elements of l in the order in which the
     set iterates *)
  list_set : list (option string) -> list (option string)
}.

(** ** [str.split('.')] *)

Fixpoint split_dot (s : string) : list string :=
  match s with
  | EmptyString => [EmptyString]
  | String c t =>
      if Ascii.eqb c "."%char then EmptyString :: split_dot t
      else match split_dot t with
           | [] => [String c EmptyString]
           | field :: fields => String c field :: fields
           end
  end.

(** ** The [Karyotype] object *)

Section KaryotypeClass.

Variable Image : Type.

(** [self.img] *)
Record ImgInfo : Type := {
  img_fp : string;
  img_fpath : string;
  img_fname : string;
  img_type : string;
  img_fext : string;
  img_img : Image
}.

Record Karyotype : Type := {
  img : ImgInfo;
  case_id : string;
  pic_id : string;
  cntr_dicts : store;
  id_cntr_dicts_orgby_cy : dict (list ref);
  id_cntr_dicts : list (list ref);
  id_char_cntr_dicts_orgby_cy : dict (list ref);
  id_char_cntr_dicts : list (list ref);
  chromo_cntr_dicts_orgby_cy : dict (list ref);
  chromo_cntr_dicts : list (list ref)
}.

Definition with_cntr_dicts (st : store) (self : Karyotype) : Karyotype :=
  {| img := img self; case_id := case_id self; pic_id := pic_id self;
     cntr_dicts := st;
     id_cntr_dicts_orgby_cy := id_cntr_dicts_orgby_cy self;
     id_cntr_dicts := id_cntr_dicts self;
     id_char_cntr_dicts_orgby_cy := id_char_cntr_dicts_orgby_cy self;
     id_char_cntr_dicts := id_char_cntr_dicts self;
     chromo_cntr_dicts_orgby_cy := chromo_cntr_dicts_orgby_cy self;
     chromo_cntr_dicts := chromo_cntr_dicts self |}.

Definition with_id_char (d : dict (list ref)) (l : list (list ref))
    (self : Karyotype) : Karyotype :=
  {| img := img self; case_id := case_id self; pic_id := pic_id self;
     cntr_dicts := cntr_dicts self;
     id_cntr_dicts_orgby_cy := id_cntr_dicts_orgby_cy self;
     id_cntr_dicts := id_cntr_dicts self;
     id_char_cntr_dicts_orgby_cy := d;
     id_char_cntr_dicts := l;
     chromo_cntr_dicts_orgby_cy := chromo_cntr_dicts_orgby_cy self;
     chromo_cntr_dicts := chromo_cntr_dicts self |}.

Definition with_id (d : dict (list ref)) (self : Karyotype) : Karyotype :=
  {| img := img self; case_id := case_id self; pic_id := pic_id self;
     cntr_dicts := cntr_dicts self;
     id_cntr_dicts_orgby_cy := d;
     id_cntr_dicts := values d;
     id_char_cntr_dicts_orgby_cy := id_char_cntr_dicts_orgby_cy self;
     id_char_cntr_dicts := id_char_cntr_dicts self;
     chromo_cntr_dicts_orgby_cy := chromo_cntr_dicts_orgby_cy self;
     chromo_cntr_dicts := chromo_cntr_dicts self |}.

Definition with_chromo (d : dict (list ref)) (self : Karyotype) : Karyotype :=
  {| img := img self; case_id := case_id self; pic_id := pic_id self;
     cntr_dicts := cntr_dicts self;
     id_cntr_dicts_orgby_cy := id_cntr_dicts_orgby_cy self;
     id_cntr_dicts := id_cntr_dicts self;
     id_char_cntr_dicts_orgby_cy := id_char_cntr_dicts_orgby_cy self;
     id_char_cntr_dicts := id_char_cntr_dicts self;
     chromo_cntr_dicts_orgby_cy := d;
     chromo_cntr_dicts := values d |}.

Variable E : Externals Image.
Variable cfg : Config.

(** *** [__init__] (lines 89 to 128)

    The calls that reach the file system are logged, in order. *)

Inductive io_event : Type :=
| io_exists (fp : string)
| io_imread (fp : string).

Definition __init__ (karyotype_img_fp : option string)
  : list io_event * result Karyotype :=
  match karyotype_img_fp with
  | None => ([], Raise (ValueError "karyotype_img_fp is None"))
  | Some fp =>
      if negb (os_path_exists E fp)
      then ([io_exists fp], Raise (FileNotFoundError fp))
      else
        let '(fpath, fname) := os_path_split E fp in
        match split_dot fname with
        | [f1; f2; f3; f4] =>
            match imread E fp with
            | None =>
                ([io_exists fp; io_imread fp],
                 Raise (ValueError "not a valid image"))
            | Some image =>
                ([io_exists fp; io_imread fp],
                 Ok {| img := {| img_fp := fp; img_fpath := fpath;
                                 img_fname := fname; img_type := f3;
                                 img_fext := f4; img_img := image |};
                       case_id := f1;
                       pic_id := f2;
                       cntr_dicts := [];
                       id_cntr_dicts_orgby_cy := [];
                       id_cntr_dicts := [];
                       id_char_cntr_dicts_orgby_cy := [];
                       id_char_cntr_dicts := [];
                       chromo_cntr_dicts_orgby_cy := [];
                       chromo_cntr_dicts := [] |})
            end
        | _ =>
            (* the tuple assignment of lines 109-110 cannot unpack *)
            ([io_exists fp], Raise (ValueError "unpack"))
        end
  end.

(** *** [_gather_contours_dict] (lines 392 to 406) *)

Definition _gather_contours_dict (idx : nat) (contour : Contour)
  : ContourRecord :=
  let moments := moments E contour in
  let '(cx, cy) :=
    if negb (Qeq_bool (m00 moments) 0)
    then (py_int (m10 moments / m00 moments)%Q,
          py_int (m01 moments / m00 moments)%Q)
    else
      let '((cx, cy), _, _) := minAreaRect E contour in
      (py_int cx, py_int cy) in
  {| cntr_idx := idx;
     cntr := contour;
     area := contourArea E contour;
     rect := boundingRect E contour;
     min_area_rect := minAreaRect E contour;
     cx := cx;
     cy := cy;
     center := (cx, cy);
     chromo_id := None;
     chromo_idx := None;
     distance_to_id := None |}.

(** Lines 247 to 249: one record per contour, in the order of the
    contours. *)
Definition gather_contours (cntrs : list Contour) : store :=
  map (fun ic => _gather_contours_dict (fst ic) (snd ic)) (enumerate cntrs).

(** *** [_id_info] (lines 131 to 237) *)

(** Lines 152 to 154. *)
Definition is_id_char (c : ContourRecord) : bool :=
  Qlt_bool (area c) (inject_Z (MAX_ID_CHAR_AREA cfg))
  && Qlt_bool (inject_Z (MIN_ID_CHAR_AREA cfg)) (area c).

Definition filter_id_cntr_dicts (st : store) : list ref :=
  filter (fun r => is_id_char (get st r)) (seq 0 (length st)).

(** Lines 158 to 163. *)
Definition organize_by_cy (st : store) (l : list ref) : dict (list ref) :=
  fold_left (fun d r => dict_append (cy (get st r)) r d) l [].

(** Lines 172 to 176: one step of the inner loop. *)
Definition merge_chk (given_key : Z) (acc : dict (list ref) * list Z)
    (chk : Z * list ref) : dict (list ref) * list Z :=
  let '(merged, merged_keys) := acc in
  let '(chk_key, chk_cntr_dicts) := chk in
  if negb (given_key =? chk_key)%Z
     && (Z.abs (given_key - chk_key) <=? ID_CHAR_Y_TOLERANCE cfg)%Z
     && negb (existsb (Z.eqb chk_key) merged_keys)
  then (dict_set given_key (dict_item given_key merged ++ chk_cntr_dicts) merged,
        merged_keys ++ [chk_key])
  else acc.

(** Lines 168 to 176: one step of the outer loop. *)
Definition merge_given (orgby_cy : dict (list ref))
    (acc : dict (list ref) * list Z) (given : Z * list ref)
  : dict (list ref) * list Z :=
  let '(merged, merged_keys) := acc in
  let '(given_key, given_cntr_dicts) := given in
  if existsb (Z.eqb given_key) merged_keys then acc
  else fold_left (merge_chk given_key) orgby_cy
         (dict_set given_key given_cntr_dicts merged, merged_keys).

Definition merge_by_cy (orgby_cy : dict (list ref)) : dict (list ref) :=
  fst (fold_left (merge_given orgby_cy) orgby_cy ([], [])).

(** Lines 179 to 182. *)
Definition filter_row_size (merged : dict (list ref)) : dict (list ref) :=
  filter (fun kv => (ROW_ID_CHAR_MIN_NUM cfg <=? length (snd kv))
                    && (length (snd kv) <=? ROW_ID_CHAR_MAX_NUM cfg)) merged.

(** Lines 199 to 201. *)
Definition sort_rows_by_cx (st : store) (d : dict (list ref)) : dict (list ref) :=
  map (fun kv => (fst kv, sorted_by (fun r => cx (get st r)) (snd kv))) d.

(** Lines 205 to 212: the loop over one row. *)
Fixpoint collapse_loop (st : store) (cntr_dicts : list ref)
    (pre_cx : option Z) (merged : list ref) : list ref :=
  match cntr_dicts with
  | [] => merged
  | cntr_dict :: rest =>
      let cur_cx := cx (get st cntr_dict) in
      let merged' :=
        match pre_cx with
        | None => merged ++ [cntr_dict]
        | Some pre =>
            if (ID_CHAR_X_TOLERANCE cfg <? Z.abs (cur_cx - pre))%Z
            then merged ++ [cntr_dict] else merged
        end in
      collapse_loop st rest (Some cur_cx) merged'
  end.

Definition collapse_row (st : store) (cntr_dicts : list ref) : list ref :=
  collapse_loop st cntr_dicts None [].

(** Lines 204 to 213. *)
Definition collapse_rows (st : store) (d : dict (list ref)) : dict (list ref) :=
  map (fun kv => (fst kv, collapse_row st (snd kv))) d.

(** Line 216. *)
Definition id_num_in_rows : list nat :=
  [ROW_1_ID_NUM cfg; ROW_2_ID_NUM cfg; ROW_3_ID_NUM cfg; ROW_4_ID_NUM cfg].

(** Lines 217 to 220: the first row with a wrong number of labels
    raises. *)
Fixpoint check_rows (rows : dict (list ref)) (idx : nat) : option exn :=
  match rows with
  | [] => None
  | (_, l) :: rest =>
      match nth_error id_num_in_rows idx with
      | None => Some IndexError
      | Some n =>
          if length l =? n then check_rows rest (S idx)
          else Some (ValueError_row_id_num (idx + 1) (length l) n)
      end
  end.

(** Lines 223 to 226. *)
Definition chromo_id_list : list string :=
  ["1"; "2"; "3"; "4"; "5";
   "6"; "7"; "8"; "9"; "10"; "11"; "12";
   "13"; "14"; "15"; "16"; "17"; "18";
   "19"; "20"; "21"; "22"; "X"; "Y"]%string.

(** Lines 229 to 232.  The records assigned before an exception keep
    their assignment. *)
Fixpoint assign_cntrs (st : store) (cntr_dicts : list ref) (chromo_idx : nat)
  : store * nat * option exn :=
  match cntr_dicts with
  | [] => (st, chromo_idx, None)
  | cntr :: rest =>
      match nth_error chromo_id_list chromo_idx with
      | None => (st, chromo_idx, Some IndexError)
      | Some id =>
          assign_cntrs (modify (set_chromo (Some id) (Some chromo_idx)) cntr st)
            rest (S chromo_idx)
      end
  end.

(** Lines 227 to 232. *)
Fixpoint assign_rows (st : store) (rows : list (list ref)) (chromo_idx : nat)
  : store * nat * option exn :=
  match rows with
  | [] => (st, chromo_idx, None)
  | cntr_dicts :: rest =>
      match assign_cntrs st cntr_dicts chromo_idx with
      | (st', chromo_idx', None) => assign_rows st' rest chromo_idx'
      | raised => raised
      end
  end.

(** The rows of label characters that survive the size filter
    (lines 152 to 182). *)
Definition label_char_rows (st : store) : dict (list ref) :=
  filter_row_size (merge_by_cy (organize_by_cy st (filter_id_cntr_dicts st))).

(** The rows of labels after the sort and the collapse (lines 190 to
    213). *)
Definition label_rows (st : store) : dict (list ref) :=
  collapse_rows st
    (sort_rows_by_cx st (sorted_by (fun kv => fst kv) (label_char_rows st))).

(** The method.  It returns the object as the method leaves it and the
    exception, if one is raised. *)
Definition _id_info (self : Karyotype) : Karyotype * option exn :=
  let st := cntr_dicts self in
  let merged := label_char_rows st in
  if negb (length merged =? 4)
  then (self, Some (ValueError_row_count (length merged)))
  else
    let merged := sorted_by (fun kv => fst kv) merged in
    (* lines 194 to 196: the dict itself and the lists it holds now *)
    let id_char := values merged in
    let merged := sort_rows_by_cx st merged in
    let merged := collapse_rows st merged in
    (* the dict saved at line 194 is the one that lines 199 to 213 update *)
    let self := with_id_char merged id_char self in
    match check_rows merged 0 with
    | Some e => (self, Some e)
    | None =>
        match assign_rows st (values merged) 0 with
        | (st', _, Some e) => (with_cntr_dicts st' self, Some e)
        | (st', _, None) => (with_id merged (with_cntr_dicts st' self), None)
        end
    end.

(** *** [read_karyotype] (lines 239 to 388) *)

(** Lines 257 to 261. *)
Definition id_char_cntrs_cntr_idx (st : store) (id_char : list (list ref))
  : list nat :=
  flat_map (fun id_char_cntrs => map (fun r => cntr_idx (get st r)) id_char_cntrs)
    id_char.

(** Lines 263 and 264. *)
Definition left_cntr_dicts (st : store) (idxs : list nat) : list ref :=
  filter (fun r => negb (existsb (Nat.eqb (cntr_idx (get st r))) idxs))
    (seq 0 (length st)).

(** Lines 272 to 279: the loop over [cy_keys] for one contour; the result
    is the key of the row that takes the contour, if one does. *)
Fixpoint find_row (cntr_cy : Z) (cy_keys : list Z) (top_y_limit : Z)
  : option Z :=
  match cy_keys with
  | [] => None
  | cy :: rest =>
      let bottom_y_limit := cy in
      if (top_y_limit <? cntr_cy)%Z && (cntr_cy <? bottom_y_limit)%Z
      then Some bottom_y_limit
      else find_row cntr_cy rest bottom_y_limit
  end.

(** Lines 269 to 279. *)
Fixpoint organize_left (st : store) (cy_keys : list Z) (left : list ref)
    (d : dict (list ref)) : result (dict (list ref)) :=
  match left with
  | [] => Ok d
  | cntr :: rest =>
      match cy_keys with
      | [] => Raise IndexError (* cy_keys[0], line 271 *)
      | _ :: _ =>
          organize_left st cy_keys rest
            match find_row (cy (get st cntr)) cy_keys 0 with
            | Some bottom_y_limit => dict_append bottom_y_limit cntr d
            | None => d
            end
      end
  end.

(** Lines 293 to 301: the loop over the labels of the row. *)
Fixpoint nearest_id (st : store) (left_cnt : ref) (id_cnts : list ref)
    (acc : distance * option string * option nat)
  : distance * option string * option nat :=
  match id_cnts with
  | [] => acc
  | id_cnt :: rest =>
      let '(min_distance, _, _) := acc in
      let distance :=
        linalg_norm_diff (center (get st left_cnt)) (center (get st id_cnt)) in
      nearest_id st left_cnt rest
        (if distance_ltb distance min_distance
         then (distance, chromo_id (get st id_cnt), chromo_idx (get st id_cnt))
         else acc)
  end.

(** Lines 289 to 304: one contour of a row. *)
Definition match_left_cnt (id_rows : dict (list ref)) (cy_key : Z) (st : store)
    (left_cnt : ref) : store :=
  let '(min_distance, chromo_id, chromo_idx) :=
    nearest_id st left_cnt (dict_item cy_key id_rows) (inf, None, None) in
  modify (fun c => set_distance_to_id min_distance
                     (set_chromo chromo_id chromo_idx c)) left_cnt st.

(** Lines 288 to 304. *)
Definition match_rows (id_rows : dict (list ref)) (st : store)
    (left_rows : dict (list ref)) : store :=
  fold_left
    (fun st row => fold_left (match_left_cnt id_rows (fst row)) (snd row) st)
    left_rows st.

(** The state of lines 242 to 304: the object after [_id_info], the store
    after the match and the rows of the other contours. *)
Definition classify (self : Karyotype)
  : result (Karyotype * store * dict (list ref)) :=
  let cntrs := find_external_contours E (img_img (img self)) (BIN_THRESH cfg) in
  let self := with_cntr_dicts (gather_contours cntrs) self in
  match _id_info self with
  | (_, Some e) => Raise e
  | (self, None) =>
      let st := cntr_dicts self in
      let idxs := id_char_cntrs_cntr_idx st (id_char_cntr_dicts self) in
      let left := left_cntr_dicts st idxs in
      let cy_keys := keys (id_cntr_dicts_orgby_cy self) in
      left_orgby_cy <- organize_left st cy_keys left [] ;;
      let left_orgby_cy := sort_rows_by_cx st left_orgby_cy in
      Ok (self, match_rows (id_cntr_dicts_orgby_cy self) st left_orgby_cy,
          left_orgby_cy)
  end.

(** A loop whose body may raise. *)
Fixpoint for_each {A S : Type} (body : S -> A -> result S) (l : list A) (s : S)
  : result S :=
  match l with
  | [] => Ok s
  | x :: rest => s' <- body s x ;; for_each body rest s'
  end.

(** [max] and [min] of a sequence of floats. *)
Definition py_max (l : list Q) : Q :=
  match l with
  | [] => 0%Q
  | x :: rest => fold_left (fun m y => if Qlt_bool m y then y else m) rest x
  end.

Definition py_min (l : list Q) : Q :=
  match l with
  | [] => 0%Q
  | x :: rest => fold_left (fun m y => if Qlt_bool y m then y else m) rest x
  end.

Definition chromo_id_eqb (a b : option string) : bool :=
  match a, b with
  | Some x, Some y => String.eqb x y
  | None, None => true
  | _, _ => false
  end.

(** Lines 347 to 353: the loop over the main branches. *)
Fixpoint nearest_main_branch (st : store) (small_piece : ref)
    (main_branch : list ref) (acc : distance * option (ref * nat * nat))
  : distance * option (ref * nat * nat) :=
  match main_branch with
  | [] => acc
  | main :: rest =>
      let '(distance, cntr_npi1, cntr_npi2) :=
        get_distance_between_two_contours E
          (cntr (get st small_piece)) (cntr (get st main)) in
      nearest_main_branch st small_piece rest
        (if distance_ltb distance (fst acc)
         then (distance, Some (main, cntr_npi1, cntr_npi2))
         else acc)
  end.

(** Lines 359 to 366: the record of the main branch with the merged
    contour and its descriptors. *)
Definition set_merged_cnt (merged_cnt : Contour) (cx cy : Q) (c : ContourRecord)
  : ContourRecord :=
  {| cntr_idx := cntr_idx c;
     cntr := merged_cnt;
     area := contourArea E merged_cnt;
     rect := boundingRect E merged_cnt;
     min_area_rect := minAreaRect E merged_cnt;
     cx := py_int cx;
     cy := py_int cy;
     center := (py_int cx, py_int cy);
     chromo_id := chromo_id c;
     chromo_idx := chromo_idx c;
     distance_to_id := distance_to_id c |}.

(** Lines 358 to 366: the update of the main branch after a merge. *)
Definition update_merged_cnt (st : store) (main : ref) (merged_cnt : Contour)
  : result store :=
  let moments := moments E merged_cnt in
  cx <- py_div (m10 moments) (m00 moments) ;;
  cy <- py_div (m01 moments) (m00 moments) ;;
  Ok (modify (set_merged_cnt merged_cnt cx cy) main st).

(** Lines 337 to 369: one small piece. *)
Definition merge_small_piece (main_branch : list ref)
    (acc : store * list nat) (small_piece : ref) : result (store * list nat) :=
  let '(st, small_cnts_need_delete) := acc in
  match snd (nearest_main_branch st small_piece main_branch (inf, None)) with
  | None => Raise TypeError (* None['cntr'], line 356 *)
  | Some (nearest, small_cntr_npi, main_cntr_npi) =>
      let merged_cnt :=
        merge_two_contours_by_npi E
          (cntr (get st small_piece)) (cntr (get st nearest))
          small_cntr_npi main_cntr_npi in
      st' <- update_merged_cnt st nearest merged_cnt ;;
      Ok (st', small_cnts_need_delete ++ [cntr_idx (get st' small_piece)])
  end.

(** Lines 318 to 369: one chromosome number of a row. *)
Definition merge_chromo_id (same_cy_left : list ref) (acc : store * list nat)
    (id : option string) : result (store * list nat) :=
  let st := fst acc in
  let same_chromo_id :=
    filter (fun r => chromo_id_eqb (chromo_id (get st r)) id) same_cy_left in
  if length same_chromo_id <=? 1 then Ok acc
  else
    let max_area := py_max (map (fun r => area (get st r)) same_chromo_id) in
    let min_area := py_min (map (fun r => area (get st r)) same_chromo_id) in
    ratio <- py_div min_area max_area ;;
    if Qlt_bool (SMALL_PIECE_AREA_RATIO cfg) ratio then Ok acc
    else
      let small_piece :=
        filter (fun r => Qlt_bool (area (get st r) / max_area)%Q
                           (SMALL_PIECE_AREA_RATIO cfg)) same_chromo_id in
      let main_branch :=
        filter (fun r => Qle_bool (SMALL_PIECE_AREA_RATIO cfg)
                           (area (get st r) / max_area)%Q) same_chromo_id in
      for_each (merge_small_piece main_branch) small_piece acc.

(** Lines 311 to 369: one row. *)
Definition merge_row (acc : store * list nat) (same_cy_left : list ref)
  : result (store * list nat) :=
  let chromo_id_list := map (fun r => chromo_id (get (fst acc) r)) same_cy_left in
  let unq_chromo_id_list := list_set E chromo_id_list in
  for_each (merge_chromo_id same_cy_left) unq_chromo_id_list acc.

(** Lines 309 to 369. *)
Definition merge_rows (st : store) (left_rows : dict (list ref))
  : result (store * list nat) :=
  for_each merge_row (values left_rows) (st, []).

(** [del l[idx]] *)
Fixpoint del_at {A : Type} (idx : nat) (l : list A) : list A :=
  match l, idx with
  | [], _ => []
  | _ :: t, O => t
  | x :: t, S i => x :: del_at i t
  end.

(** Lines 374 to 380: one row. *)
Definition delete_small_cnts (st : store) (small_cnts_need_delete : list nat)
    (same_cy_left : list ref) : list ref :=
  let cnts_idx_need_delete :=
    map fst
      (filter (fun ic => existsb (Nat.eqb (cntr_idx (get st (snd ic))))
                           small_cnts_need_delete)
         (enumerate same_cy_left)) in
  fold_left (fun l idx => del_at idx l)
    (sorted_by (fun idx => (- Z.of_nat idx)%Z) cnts_idx_need_delete)
    same_cy_left.

(** Lines 373 to 380. *)
Definition delete_rows (st : store) (small_cnts_need_delete : list nat)
    (left_rows : dict (list ref)) : dict (list ref) :=
  map (fun kv => (fst kv, delete_small_cnts st small_cnts_need_delete (snd kv)))
    left_rows.

(** Lines 309 to 380 on the state left by the match. *)
Definition merge_fragments (st : store) (left_rows : dict (list ref))
  : result (store * dict (list ref)) :=
  '(st', small_cnts_need_delete) <- merge_rows st left_rows ;;
  Ok (st', delete_rows st' small_cnts_need_delete left_rows).

Definition read_karyotype (self : Karyotype) : result Karyotype :=
  '(self', st, left_orgby_cy) <- classify self ;;
  '(st', left_orgby_cy') <- merge_fragments st left_orgby_cy ;;
  Ok (with_chromo left_orgby_cy' (with_cntr_dicts st' self')).

End KaryotypeClass.

Arguments ImgInfo : clear implicits.
Arguments Karyotype : clear implicits.

(** * [main.py] *)

(** What the script draws on the canvas. *)
Inductive canvas_op : Type :=
| drawContours (contour : Contour) (color : Z * Z * Z)
| putText (text : string) (org : Z * Z).

(** Lines 32 to 34: the outlines of the labels, in green. *)
Definition draw_id_cntrs {Image : Type} (karyotype_chart : Karyotype Image)
  : list canvas_op :=
  flat_map
    (fun cntrs =>
       map (fun r => drawContours (cntr (get (cntr_dicts karyotype_chart) r))
                       (0, 255, 0)%Z)
         cntrs)
    (values (id_cntr_dicts_orgby_cy karyotype_chart)).

(** Lines 38 to 60: the outline of a chromosome in red and its number, at
    the centroid for the even positions of the row and 8 pixels to the left
    and 20 pixels below it for the odd ones.  [cv2.putText] takes no
    [None] as text. *)
Definition draw_chromo_cntr (st : store) (canvas : list canvas_op)
    (ic : nat * ref) : result (list canvas_op) :=
  let '(idx, r) := ic in
  let cntr_dict := get st r in
  let canvas := canvas ++ [drawContours (cntr cntr_dict) (0, 0, 255)%Z] in
  let x := cx cntr_dict in
  let y := cy cntr_dict in
  match chromo_id cntr_dict with
  | None => Raise TypeError
  | Some text =>
      Ok (canvas
          ++ [putText text
                (if idx mod 2 =? 0 then (x, y) else (x - 8, y + 20)%Z)])
  end.

(** Lines 36 to 60. *)
Definition draw_chromo_cntrs {Image : Type} (karyotype_chart : Karyotype Image)
    (canvas : list canvas_op) : result (list canvas_op) :=
  for_each
    (fun canvas cntrs =>
       for_each (draw_chromo_cntr (cntr_dicts karyotype_chart))
         (enumerate cntrs) canvas)
    (values (chromo_cntr_dicts_orgby_cy karyotype_chart)) canvas.

(** Lines 27 to 60: the script up to the last drawing.  The canvas is the
    image file read once more; the result is what is drawn on it. *)
Definition main {Image : Type} (E : Externals Image) (cfg : Config)
    (KYT_IMG_FP : string) : result (list canvas_op) :=
  karyotype_chart <- snd (__init__ E (Some KYT_IMG_FP)) ;;
  karyotype_chart <- read_karyotype E cfg karyotype_chart ;;
  match imread E KYT_IMG_FP with
  | None => Raise TypeError (* drawing on [None] *)
  | Some _ =>
      draw_chromo_cntrs karyotype_chart (draw_id_cntrs karyotype_chart)
  end.

(** ** A concrete geometry: polygons with integer vertices

    The collaborators on contours that are given as the list of their
    vertices.  This instance runs the embedding on charts that are drawn
    with axis-parallel boxes. *)

Module Polygon.

Local Open Scope Z_scope.

Definition cross (p q : Point) : Z := fst p * snd q - fst q * snd p.

(** The edges of the closed polygon, the first one from the last vertex
    to the first. *)
Fixpoint edges_from (prev : Point) (c : Contour) : list (Point * Point) :=
  match c with
  | [] => []
  | p :: rest => (prev, p) :: edges_from p rest
  end.

Definition edges (c : Contour) : list (Point * Point) :=
  edges_from (last c (0, 0)) c.

Definition sum_edges (f : Point -> Point -> Z) (es : list (Point * Point)) : Z :=
  fold_right (fun e acc => f (fst e) (snd e) + acc) 0 es.

(** The sums of Green's formula, as OpenCV accumulates them. *)
Definition a00 (c : Contour) : Z := sum_edges cross (edges c).
Definition a10 (c : Contour) : Z :=
  sum_edges (fun p q => cross p q * (fst p + fst q)) (edges c).
Definition a01 (c : Contour) : Z :=
  sum_edges (fun p q => cross p q * (snd p + snd q)) (edges c).

(** [cv2.contourArea]: the magnitude of the signed area. *)
Definition contourArea (c : Contour) : Q := Qmake (Z.abs (a00 c)) 2.

(** [cv2.moments]: all moments are zero when the signed area is; they are
    those of the positively oriented polygon otherwise. *)
Definition moments (c : Contour) : Moments :=
  {| m00 := Qmake (Z.abs (a00 c)) 2;
     m10 := Qmake (Z.sgn (a00 c) * a10 c) 6;
     m01 := Qmake (Z.sgn (a00 c) * a01 c) 6 |}.

Definition min_of (l : list Z) : Z :=
  match l with [] => 0 | x :: rest => fold_left Z.min rest x end.
Definition max_of (l : list Z) : Z :=
  match l with [] => 0 | x :: rest => fold_left Z.max rest x end.

(** [cv2.boundingRect]: left, top, width and height in pixels. *)
Definition boundingRect (c : Contour) : Rect :=
  let xs := map fst c in
  let ys := map snd c in
  (min_of xs, min_of ys, max_of xs - min_of xs + 1, max_of ys - min_of ys + 1).

(** [cv2.minAreaRect] of a contour whose smallest enclosing rectangle is
    axis-parallel, as that of a box, of a point and of a horizontal or
    vertical segment is.  The code reads the centre only (line 403), and
    the centre is exact here; the size is given as width along x and height
    along y with the angle 0, where OpenCV chooses between this and the
    rectangle turned by 90 degrees. *)
Definition minAreaRect (c : Contour) : RotatedRect :=
  let xs := map fst c in
  let ys := map snd c in
  ((Qmake (min_of xs + max_of xs) 2, Qmake (min_of ys + max_of ys) 2),
   (inject_Z (max_of xs - min_of xs), inject_Z (max_of ys - min_of ys)),
   0%Q).

Definition dist2 (p q : Point) : Z :=
  (fst p - fst q) * (fst p - fst q) + (snd p - snd q) * (snd p - snd q).

(** Modelled from the spec: [get_distance_between_two_contours] of
    [utils.utils], "for any two contours, the minimum point-to-point
    distance and the index of the closest point on each".  The first
    pair that attains the minimum is returned. *)
Definition get_distance_between_two_contours (c1 c2 : Contour)
  : distance * nat * nat :=
  fold_left
    (fun best ip =>
       fold_left
         (fun best jq =>
            let d := sqrt_of (dist2 (snd ip) (snd jq)) in
            if distance_ltb d (fst (fst best)) then (d, fst ip, fst jq)
            else best)
         (enumerate c2) best)
    (enumerate c1) (inf, O, O).

(** Modelled from the spec: [merge_two_contours_by_npi] of [utils.utils],
    "a single closed boundary incorporating both point sequences, joined
    at the matched indices".  The boundary runs along the first contour
    to its matched point, crosses to the matched point of the second
    contour, runs around the second contour, crosses back and finishes
    the first contour. *)
Definition merge_two_contours_by_npi (c1 c2 : Contour) (i j : nat) : Contour :=
  firstn (S i) c1 ++ skipn j c2 ++ firstn (S j) c2 ++ skipn i c1.

(** [list(set(l))]: the distinct elements, in one of the possible
    orders. *)
Definition option_string_dec (a b : option string) : {a = b} + {a <> b}.
Proof. decide equality. apply string_dec. Defined.

Definition list_set (l : list (option string)) : list (option string) :=
  nodup option_string_dec l.

(** A traced image: the external contours that the tracer finds in it. *)
Definition Image : Type := list Contour.

(** [os.path.split] of [posixpath]. *)
Definition is_slash (c : ascii) : bool := Ascii.eqb c "/"%char.

Fixpoint rstrip_slash_rev (rev_s : list ascii) : list ascii :=
  match rev_s with
  | c :: rest => if is_slash c then rstrip_slash_rev rest else rev_s
  | [] => []
  end.

(** The reversed tail and the reversed head of a reversed path. *)
Fixpoint split_rev (rev_s : list ascii) (tail_rev : list ascii)
  : list ascii * list ascii :=
  match rev_s with
  | [] => (tail_rev, [])
  | c :: rest =>
      if is_slash c then (tail_rev, rev_s) else split_rev rest (tail_rev ++ [c])
  end.

Definition os_path_split (p : string) : string * string :=
  let '(tail_rev, head_rev) :=
    split_rev (List.rev (list_ascii_of_string p)) [] in
  let head_rev' :=
    if forallb is_slash head_rev then head_rev else rstrip_slash_rev head_rev in
  (string_of_list_ascii (List.rev head_rev'),
   string_of_list_ascii (List.rev tail_rev)).

(** The files of a test: the paths that exist and the images that
    [cv2.imread] decodes. *)
Definition Files : Type := list (string * option Image).

Fixpoint lookup_file (fs : Files) (fp : string) : option (option Image) :=
  match fs with
  | [] => None
  | (p, f) :: rest => if String.eqb fp p then Some f else lookup_file rest fp
  end.

Definition externals (fs : Files) : Externals Image :=
  Build_Externals
    (fun fp => match lookup_file fs fp with Some _ => true | None => false end)
    os_path_split
    (fun fp => match lookup_file fs fp with Some (Some i) => Some i | _ => None end)
    (fun image _ => image)
    contourArea
    boundingRect
    minAreaRect
    moments
    get_distance_between_two_contours
    merge_two_contours_by_npi
    list_set.

(** The box with corners [(x, y)] and [(x + w, y + h)]. *)
Definition box (x y w h : Z) : Contour :=
  [(x, y); (x + w, y); (x + w, y + h); (x, y + h)].

(** A label: a box of 4 by 4 whose centroid is [(x, y)]. *)
Definition label (x y : Z) : Contour := box (x - 2) (y - 2) 4 4.

(** A chart with the labels "1" to "Y" in four rows of 5, 7, 6 and 6
    labels, listed from the bottom row to the top row and from right to
    left, as a tracer returns them. *)
Definition label_row (y : Z) (n : nat) : list Contour :=
  List.rev (map (fun i => label (100 * Z.of_nat (S i)) y) (seq 0 n)).

Definition labels : list Contour :=
  label_row 800 6 ++ label_row 600 6 ++ label_row 400 7 ++ label_row 200 5.

(** The object that the constructor builds for the chart with the
    contours [cntrs], stored as [/data/L1.001.K.TIF]. *)
Definition chart_fp : string := "/data/L1.001.K.TIF".

Definition chart_files (cntrs : Image) : Files := [(chart_fp, Some cntrs)].

Definition chart_externals (cntrs : Image) : Externals Image :=
  externals (chart_files cntrs).

Definition chart_object (cntrs : Image) : Karyotype Image :=
  {| img := {| img_fp := chart_fp; img_fpath := "/data";
               img_fname := "L1.001.K.TIF"; img_type := "K";
               img_fext := "TIF"; img_img := cntrs |};
     case_id := "L1";
     pic_id := "001";
     cntr_dicts := [];
     id_cntr_dicts_orgby_cy := [];
     id_cntr_dicts := [];
     id_char_cntr_dicts_orgby_cy := [];
     id_char_cntr_dicts := [];
     chromo_cntr_dicts_orgby_cy := [];
     chromo_cntr_dicts := [] |}.

(** The state after the classification of the chart, when it passes. *)
Definition chart_classified (cntrs : Image)
  : Karyotype Image * store * dict (list ref) :=
  match classify (chart_externals cntrs) karyotype_ini (chart_object cntrs) with
  | Ok out => out
  | Raise _ => (chart_object cntrs, [], [])
  end.

Definition chart_self (cntrs : Image) : Karyotype Image :=
  fst (fst (chart_classified cntrs)).
Definition chart_store (cntrs : Image) : store :=
  snd (fst (chart_classified cntrs)).
Definition chart_rows (cntrs : Image) : dict (list ref) :=
  snd (chart_classified cntrs).

(** The state after the merge of the small pieces, when it returns. *)
Definition chart_merged (cntrs : Image) : store * dict (list ref) :=
  match merge_fragments (chart_externals cntrs) karyotype_ini
          (chart_store cntrs) (chart_rows cntrs) with
  | Ok out => out
  | Raise _ => ([], [])
  end.

(** The splice of a small piece into a main branch at the pair of
    nearest points, as the merge calls the two collaborators. *)
Definition splice_nearest (small main : Contour) : Contour :=
  let '(_, i, j) := get_distance_between_two_contours small main in
  merge_two_contours_by_npi small main i j.

(** A chromosome of 20 by 60 above the label "1" with a small piece of 4 by
    4 next to it, and a contour below the last row of labels. *)
Definition chart_with_piece : Image :=
  labels ++ [box 90 100 20 60; box 95 170 4 4; box 300 900 10 10].

(** Two chromosomes of one size above the labels "1" and "2". *)
Definition chart_whole : Image :=
  labels ++ [box 90 100 20 60; box 190 100 20 60].


(** The labels and one more label in the first row, 100 pixels to the
    right of the label "5". *)
Definition chart_extra_label : Image := labels ++ [label 600 200].

(** A row of three strokes whose horizontal centroids are 100, 130 and
    160. *)
Definition three_strokes : store :=
  gather_contours (externals [])
    [label 100 200; label 130 200; label 160 200].

(** Two strokes, 5 pixels apart. *)
Definition two_strokes : store :=
  gather_contours (externals []) [label 100 200; label 105 200].

End Polygon.

(** * Properties *)

Unset Implicit Arguments.

(** ** The constructor *)

Lemma split_dot_not_nil : forall s, split_dot s <> [].
Proof.
  induction s as [|c t IH]; simpl; [discriminate|].
  destruct (Ascii.eqb c "."); [discriminate|].
  destruct (split_dot t); discriminate.
Qed.

(** C10.  A path whose file name does not split at its dots into exactly
    four fields makes the constructor raise, and no image has been read by
    then; with exactly four fields the object that the constructor builds
    has the first field as [case_id] and the second as [pic_id], and it
    builds one when the file exists and is an image. *)
Theorem init_splits_file_name :
  forall (Image : Type) (E : Externals Image) (fp : string),
    let fname := snd (os_path_split E fp) in
    let run := __init__ E (Some fp) in
    (length (split_dot fname) <> 4 ->
       is_ok (snd run) = false /\ forall p, ~ In (io_imread p) (fst run))
    /\ (forall f1 f2 f3 f4,
          split_dot fname = [f1; f2; f3; f4] ->
          (forall self, snd run = Ok self -> case_id self = f1 /\ pic_id self = f2)
          /\ (os_path_exists E fp = true ->
              forall image, imread E fp = Some image ->
                exists self, snd run = Ok self)).
Proof.
  intros Image E fp fname run. subst fname run. unfold __init__.
  destruct (os_path_exists E fp); simpl.
  2:{ split.
      - intros _. split; [reflexivity|].
        intros p [H|[]]; discriminate.
      - intros f1 f2 f3 f4 _. split; [discriminate|discriminate]. }
  destruct (os_path_split E fp) as [fpath fname]; simpl.
  split.
  - intros Hlen.
    destruct (split_dot fname) as [|a [|b [|c [|d [|e l]]]]]; simpl in *;
      try (split; [reflexivity|intros p [H|[]]; discriminate]).
    exfalso; apply Hlen; reflexivity.
  - intros f1 f2 f3 f4 Hsplit. rewrite Hsplit.
    destruct (imread E fp) as [image|]; simpl.
    + split.
      * intros self Hself. inversion Hself; subst; simpl. split; reflexivity.
      * intros _ image' _. eexists; reflexivity.
    + split; [discriminate|]. intros _ image' H; discriminate.
Qed.

(** ** The collapse of the strokes of one label *)

Section Collapse.

Variable cfg : Config.
Variable st : store.

(** The horizontal centroid that the loop remembers after the records
    of [l]. *)
Definition last_cx (pre_cx : option Z) (l : list ref) : option Z :=
  match l with
  | [] => pre_cx
  | _ :: _ => Some (cx (get st (last l O)))
  end.

Lemma collapse_loop_app :
  forall l1 l2 pre_cx merged,
    collapse_loop cfg st (l1 ++ l2) pre_cx merged
    = collapse_loop cfg st l2 (last_cx pre_cx l1)
        (collapse_loop cfg st l1 pre_cx merged).
Proof.
  induction l1 as [|r l1 IH]; intros l2 pre_cx merged; [reflexivity|].
  simpl app. simpl collapse_loop. rewrite IH.
  destruct l1 as [|r' l1]; reflexivity.
Qed.

(** Whether the record [r] that follows the records [pre] of its row is
    kept. *)
Definition kept_after (pre : list ref) (r : ref) : bool :=
  match pre with
  | [] => true
  | _ :: _ =>
      (ID_CHAR_X_TOLERANCE cfg
       <? Z.abs (cx (get st r) - cx (get st (last pre O))))%Z
  end.

Lemma collapse_row_snoc :
  forall pre r,
    collapse_row cfg st (pre ++ [r])
    = collapse_row cfg st pre ++ (if kept_after pre r then [r] else []).
Proof.
  intros pre r. unfold collapse_row. rewrite collapse_loop_app. simpl.
  destruct pre as [|p pre]; [reflexivity|].
  unfold last_cx, kept_after.
  destruct (_ <? _)%Z; [reflexivity|]. symmetry; apply app_nil_r.
Qed.

(** The rule as the specification words it: a record is compared with
    the record that was kept last. *)
Fixpoint collapse_kept_loop (cntr_dicts : list ref) (kept_cx : option Z)
    (merged : list ref) : list ref :=
  match cntr_dicts with
  | [] => merged
  | cntr_dict :: rest =>
      let cur_cx := cx (get st cntr_dict) in
      match kept_cx with
      | None => collapse_kept_loop rest (Some cur_cx) (merged ++ [cntr_dict])
      | Some kept =>
          if (ID_CHAR_X_TOLERANCE cfg <? Z.abs (cur_cx - kept))%Z
          then collapse_kept_loop rest (Some cur_cx) (merged ++ [cntr_dict])
          else collapse_kept_loop rest kept_cx merged
      end
  end.

Definition collapse_row_kept (cntr_dicts : list ref) : list ref :=
  collapse_kept_loop cntr_dicts None [].

End Collapse.

(** ** Lists, the store and dicts *)

Lemma existsb_nat_eqb : forall x l, existsb (Nat.eqb x) l = true <-> In x l.
Proof.
  intros x l. rewrite existsb_exists. split.
  - intros [y [Hy Heq]]. apply Nat.eqb_eq in Heq. subst; assumption.
  - intros H. exists x. split; [assumption|apply Nat.eqb_refl].
Qed.

Lemma existsb_Z_eqb : forall x l, existsb (Z.eqb x) l = true <-> In x l.
Proof.
  intros x l. rewrite existsb_exists. split.
  - intros [y [Hy Heq]]. apply Z.eqb_eq in Heq. subst; assumption.
  - intros H. exists x. split; [assumption|apply Z.eqb_refl].
Qed.

Lemma modify_length : forall f r st, length (modify f r st) = length st.
Proof.
  intros f r st. revert r.
  induction st as [|c t IH]; intros [|r]; simpl; try reflexivity.
  now rewrite IH.
Qed.

Lemma get_modify_eq :
  forall f r st, r < length st -> get (modify f r st) r = f (get st r).
Proof.
  intros f r st. revert r.
  induction st as [|c t IH]; intros [|r] H; simpl in *; try lia.
  - reflexivity.
  - apply IH. lia.
Qed.

Lemma get_modify_ne :
  forall f r r' st, r <> r' -> get (modify f r st) r' = get st r'.
Proof.
  intros f r r' st. revert r r'.
  induction st as [|c t IH]; intros [|r] [|r'] H; simpl in *;
    try reflexivity; try congruence.
  apply IH. congruence.
Qed.

Lemma get_modify_ge :
  forall f r st, length st <= r -> modify f r st = st.
Proof.
  intros f r st. revert r.
  induction st as [|c t IH]; intros [|r] H; simpl in *; try reflexivity; try lia.
  f_equal. apply IH. lia.
Qed.

Lemma get_modify :
  forall f r r' st,
    get (modify f r st) r'
    = if (r' =? r) && (r <? length st) then f (get st r') else get st r'.
Proof.
  intros f r r' st.
  destruct (Nat.eqb_spec r' r) as [->|Hne]; simpl.
  - destruct (Nat.ltb_spec r (length st)).
    + now apply get_modify_eq.
    + now rewrite get_modify_ge.
  - apply get_modify_ne. congruence.
Qed.

Lemma dict_get_None : forall V k (d : dict V), dict_get k d = None <-> ~ In k (keys d).
Proof.
  intros V k d. induction d as [|[k' v] t IH]; simpl.
  - tauto.
  - destruct (Z.eqb_spec k k') as [->|Hne].
    + split; [discriminate|]. intros H; exfalso; apply H; now left.
    + rewrite IH. split; intros H; [intros [H1|H1]; [congruence|tauto]|tauto].
Qed.

Lemma dict_get_In : forall V k v (d : dict V), dict_get k d = Some v -> In (k, v) d.
Proof.
  intros V k v d. induction d as [|[k' v'] t IH]; simpl; [discriminate|].
  destruct (Z.eqb_spec k k') as [->|Hne].
  - intros H; inversion H; subst. now left.
  - intros H. right. now apply IH.
Qed.

Lemma In_dict_get :
  forall V k v (d : dict V), NoDup (keys d) -> In (k, v) d -> dict_get k d = Some v.
Proof.
  intros V k v d. induction d as [|[k' v'] t IH]; simpl; [tauto|].
  intros Hnd [H|H].
  - inversion H; subst. now rewrite Z.eqb_refl.
  - inversion Hnd as [|? ? Hnotin Hnd']; subst.
    destruct (Z.eqb_spec k k') as [->|Hne].
    + exfalso. apply Hnotin. unfold keys. change k' with (fst (k', v)).
      now apply in_map.
    + now apply IH.
Qed.

Lemma dict_set_new :
  forall V k v (d : dict V), dict_get k d = None -> dict_set k v d = d ++ [(k, v)].
Proof.
  intros V k v d. induction d as [|[k' v'] t IH]; simpl; [reflexivity|].
  destruct (Z.eqb_spec k k'); [discriminate|].
  intros H. now rewrite IH.
Qed.

Lemma dict_set_keys :
  forall V k v v0 (d : dict V),
    dict_get k d = Some v0 -> keys (dict_set k v d) = keys d.
Proof.
  intros V k v v0 d. induction d as [|[k' v'] t IH]; simpl; [discriminate|].
  destruct (Z.eqb_spec k k') as [->|Hne]; [reflexivity|].
  intros H. simpl. f_equal. now apply IH.
Qed.

Lemma dict_get_set_eq :
  forall V k v (d : dict V), dict_get k (dict_set k v d) = Some v.
Proof.
  intros V k v d. induction d as [|[k' v'] t IH]; simpl.
  - now rewrite Z.eqb_refl.
  - destruct (Z.eqb_spec k k') as [->|Hne]; simpl.
    + now rewrite Z.eqb_refl.
    + destruct (Z.eqb_spec k k'); [congruence|assumption].
Qed.

Lemma dict_get_set_ne :
  forall V k k' v (d : dict V),
    k <> k' -> dict_get k' (dict_set k v d) = dict_get k' d.
Proof.
  intros V k k' v d Hne. induction d as [|[k0 v0] t IH]; simpl.
  - destruct (Z.eqb_spec k' k); [congruence|reflexivity].
  - destruct (Z.eqb_spec k k0) as [->|Hne0]; simpl.
    + destruct (Z.eqb_spec k' k0); [congruence|reflexivity].
    + destruct (Z.eqb_spec k' k0); [reflexivity|assumption].
Qed.

(** Replacing the list of a key by a longer one adds the new elements to
    the elements of the dict. *)
Lemma dict_set_extend_perm :
  forall A k (l x : list A) (d : dict (list A)),
    dict_get k d = Some l ->
    Permutation (concat (values (dict_set k (l ++ x) d)))
                (concat (values d) ++ x).
Proof.
  intros A k l x d. induction d as [|[k' v'] t IH]; simpl; [discriminate|].
  destruct (Z.eqb_spec k k') as [->|Hne]; simpl.
  - intros H; inversion H; subst.
    rewrite <- !app_assoc. apply Permutation_app_head. apply Permutation_app_comm.
  - intros H. rewrite <- app_assoc. apply Permutation_app_head. now apply IH.
Qed.

Lemma values_app :
  forall V (d1 d2 : dict V), values (d1 ++ d2) = values d1 ++ values d2.
Proof. intros; unfold values; apply map_app. Qed.

Lemma keys_app :
  forall V (d1 d2 : dict V), keys (d1 ++ d2) = keys d1 ++ keys d2.
Proof. intros; unfold keys; apply map_app. Qed.

(** ** [sorted_by] *)

Section SortedFacts.

Variable A : Type.
Variable key : A -> Z.

Lemma insert_by_perm : forall x l, Permutation (insert_by key x l) (x :: l).
Proof.
  intros x l. induction l as [|y t IH]; simpl; [reflexivity|].
  destruct (key x <=? key y)%Z; [reflexivity|].
  rewrite IH. apply perm_swap.
Qed.

Lemma sorted_by_perm : forall l, Permutation (sorted_by key l) l.
Proof.
  induction l as [|x t IH]; simpl; [reflexivity|].
  rewrite insert_by_perm. now constructor.
Qed.

Lemma sorted_by_length : forall l, length (sorted_by key l) = length l.
Proof. intros l. apply Permutation_length, sorted_by_perm. Qed.

Lemma sorted_by_In : forall x l, In x (sorted_by key l) <-> In x l.
Proof.
  intros x l. split; apply Permutation_in;
    [apply sorted_by_perm|symmetry; apply sorted_by_perm].
Qed.

(** The keys of a sorted list ascend. *)
Fixpoint ascending (l : list Z) : Prop :=
  match l with
  | [] => True
  | x :: t => (forall y, In y t -> (x <= y)%Z) /\ ascending t
  end.

Lemma insert_by_ascending :
  forall x l, ascending (map key l) -> ascending (map key (insert_by key x l)).
Proof.
  intros x l. induction l as [|y t IH]; simpl; [tauto|].
  intros [Hy Ht]. destruct (Z.leb_spec (key x) (key y)); simpl.
  - split; [|tauto]. intros z [<-|Hz]; [assumption|].
    specialize (Hy z Hz). lia.
  - split; [|now apply IH].
    intros z Hz. apply in_map_iff in Hz. destruct Hz as [a [<- Ha]].
    apply (Permutation_in _ (insert_by_perm x t)) in Ha.
    destruct Ha as [<-|Ha]; [lia|]. apply Hy. now apply in_map.
Qed.

Lemma sorted_by_ascending : forall l, ascending (map key (sorted_by key l)).
Proof.
  induction l as [|x t IH]; simpl; [exact I|]. now apply insert_by_ascending.
Qed.

End SortedFacts.

Lemma NoDup_app_inv :
  forall (A : Type) (l1 l2 : list A),
    NoDup (l1 ++ l2) ->
    NoDup l1 /\ NoDup l2 /\ (forall a, In a l1 -> ~ In a l2).
Proof.
  intros A l1 l2. induction l1 as [|x t IH]; simpl; intros H.
  - repeat split; [constructor|assumption|tauto].
  - inversion H as [|? ? Hx Ht]; subst. destruct (IH Ht) as [H1 [H2 H3]].
    repeat split.
    + constructor; [|assumption]. intros Hin. apply Hx, in_or_app. now left.
    + assumption.
    + intros a [<-|Ha] Hin; [apply Hx, in_or_app; now right|].
      now apply (H3 a).
Qed.

Lemma Permutation_concat :
  forall (A : Type) (l l' : list (list A)),
    Permutation l l' -> Permutation (concat l) (concat l').
Proof.
  intros A l l' H.
  assert (Hc : forall m : list (list A), concat m = flat_map (fun x => x) m).
  { intros m. now rewrite flat_map_concat_map, map_id. }
  rewrite !Hc. now apply Permutation_flat_map.
Qed.

Lemma concat_sub_incl :
  forall (A : Type) (ls ls' : list (list A)),
    Forall2 (fun l' l => incl l' l /\ (NoDup l -> NoDup l')) ls' ls ->
    incl (concat ls') (concat ls).
Proof.
  intros A ls ls' H. induction H as [|l' l t' t [Hincl _] _ IH]; simpl.
  - intros a Ha; exact Ha.
  - intros a Ha. apply in_app_or in Ha. apply in_or_app.
    destruct Ha as [Ha|Ha]; [left; now apply Hincl|right; now apply IH].
Qed.

(** Rows that are taken from the rows of a dict without repetition. *)
Lemma NoDup_concat_sub :
  forall (A : Type) (ls ls' : list (list A)),
    Forall2 (fun l' l => incl l' l /\ (NoDup l -> NoDup l')) ls' ls ->
    NoDup (concat ls) -> NoDup (concat ls').
Proof.
  intros A ls ls' H. induction H as [|l' l t' t [Hincl Hnd] Ht IH]; simpl.
  - trivial.
  - intros Happ. apply NoDup_app_inv in Happ. destruct Happ as [H1 [H2 H3]].
    apply NoDup_app; [now apply Hnd|now apply IH|].
    intros a Ha Hin. apply (H3 a); [now apply Hincl|].
    eapply concat_sub_incl; eassumption.
Qed.

(** Two rows of a dict without repeated elements share no element. *)
Lemma dict_rows_disjoint :
  forall (A : Type) (d : dict (list A)) k l k' l' x,
    NoDup (keys d) -> NoDup (concat (values d)) ->
    In (k, l) d -> In (k', l') d -> In x l -> In x l' -> k = k'.
Proof.
  intros A d k l k' l' x. induction d as [|[k0 l0] t IH]; simpl; [tauto|].
  intros Hk Hv H1 H2 Hx Hx'.
  apply NoDup_app_inv in Hv. destruct Hv as [Hv0 [Hvt Hdis]].
  inversion Hk as [|? ? Hk0 Hkt]; subst.
  assert (Hin : forall k1 l1, In (k1, l1) t -> In x l1 -> In x (concat (values t))).
  { intros k1 l1 Hin Hxl. apply in_concat. exists l1. split; [|assumption].
    unfold values. change l1 with (snd (k1, l1)). now apply in_map. }
  destruct H1 as [H1|H1]; destruct H2 as [H2|H2].
  - congruence.
  - inversion H1; subst. exfalso. apply (Hdis x Hx). now apply (Hin k' l').
  - inversion H2; subst. exfalso. apply (Hdis x Hx'). now apply (Hin k l).
  - now apply IH.
Qed.

(** ** The rows of labels *)

Section LabelRows.

Variable cfg : Config.
Variable st : store.

Lemma filter_id_cntr_dicts_NoDup : NoDup (filter_id_cntr_dicts cfg st).
Proof. apply NoDup_filter, seq_NoDup. Qed.

Lemma filter_id_cntr_dicts_valid :
  forall r, In r (filter_id_cntr_dicts cfg st) -> r < length st.
Proof.
  intros r H. apply filter_In in H. destruct H as [H _].
  apply in_seq in H. lia.
Qed.

(** *** Grouping by [cy] *)

Lemma dict_append_keys_NoDup :
  forall (k : Z) (r : ref) (d : dict (list ref)),
    NoDup (keys d) -> NoDup (keys (dict_append k r d)).
Proof.
  intros k r d H. unfold dict_append.
  destruct (dict_get k d) as [l|] eqn:Hget.
  - erewrite dict_set_keys by eassumption. assumption.
  - rewrite dict_set_new by assumption. rewrite keys_app. simpl.
    apply NoDup_app; [assumption|repeat constructor; simpl; tauto|].
    intros a Ha [<-|[]]. now apply dict_get_None in Hget.
Qed.

Lemma dict_append_perm :
  forall (k : Z) (r : ref) (d : dict (list ref)),
    Permutation (concat (values (dict_append k r d))) (concat (values d) ++ [r]).
Proof.
  intros k r d. unfold dict_append.
  destruct (dict_get k d) as [l|] eqn:Hget.
  - now apply dict_set_extend_perm.
  - rewrite dict_set_new by assumption. rewrite values_app, concat_app. simpl.
    reflexivity.
Qed.

Lemma organize_by_cy_inv :
  forall l d,
    NoDup (keys d) ->
    NoDup (keys (fold_left (fun d r => dict_append (cy (get st r)) r d) l d))
    /\ Permutation
         (concat (values (fold_left (fun d r => dict_append (cy (get st r)) r d) l d)))
         (concat (values d) ++ l).
Proof.
  induction l as [|r t IH]; intros d Hd; simpl.
  - split; [assumption|]. now rewrite app_nil_r.
  - destruct (IH (dict_append (cy (get st r)) r d)) as [H1 H2].
    + now apply dict_append_keys_NoDup.
    + split; [assumption|]. rewrite H2, dict_append_perm, <- app_assoc.
      reflexivity.
Qed.

Lemma organize_by_cy_keys : forall l, NoDup (keys (organize_by_cy st l)).
Proof. intros l. apply (organize_by_cy_inv l []). constructor. Qed.

Lemma organize_by_cy_perm :
  forall l, Permutation (concat (values (organize_by_cy st l))) l.
Proof.
  intros l. destruct (organize_by_cy_inv l []) as [_ H]; [constructor|].
  exact H.
Qed.

End LabelRows.

(** *** Merging the groups of one row

    The loop of lines 168 to 176 uses every group of [orgby_cy] once: as
    the group that starts a row or as a group that a row absorbs. *)

Section MergeByCy.

Variable cfg : Config.
Variable d : dict (list ref).
Hypothesis d_keys : NoDup (keys d).

Definition items (ks : list Z) : list ref := flat_map (fun k => dict_item k d) ks.

Definition merge_inv (merged : dict (list ref)) (merged_keys : list Z) : Prop :=
  NoDup (keys merged ++ merged_keys)
  /\ incl (keys merged ++ merged_keys) (keys d)
  /\ Permutation (concat (values merged)) (items (keys merged ++ merged_keys)).

(** Every other group within the tolerance of the row [g] is merged. *)
Definition closed_row (g : Z) (merged_keys : list Z) : Prop :=
  forall k, In k (keys d) -> k <> g ->
            (Z.abs (g - k) <= ID_CHAR_Y_TOLERANCE cfg)%Z -> In k merged_keys.

Lemma dict_item_In : forall k l, In (k, l) d -> dict_item k d = l.
Proof.
  intros k l H. unfold dict_item. now rewrite (In_dict_get _ k l d d_keys H).
Qed.

Lemma In_keys : forall k (l : list ref) (m : dict (list ref)), In (k, l) m -> In k (keys m).
Proof.
  intros k l m H. unfold keys. change k with (fst (k, l)). now apply in_map.
Qed.

Lemma merge_chk_step :
  forall g merged mk ck cl,
    In (ck, cl) d ->
    merge_inv merged mk ->
    In g (keys merged) ->
    ~ In g mk ->
    (forall g', In g' (keys merged) -> g' <> g -> closed_row g' mk) ->
    let r := merge_chk cfg g (merged, mk) (ck, cl) in
    merge_inv (fst r) (snd r)
    /\ keys (fst r) = keys merged
    /\ ~ In g (snd r)
    /\ incl mk (snd r)
    /\ (ck <> g -> (Z.abs (g - ck) <= ID_CHAR_Y_TOLERANCE cfg)%Z -> In ck (snd r)).
Proof.
  intros g merged mk ck cl Hc [Hnd [Hincl Hperm]] Hg Hgmk Hothers.
  unfold merge_chk.
  destruct (Z.eqb_spec g ck) as [Heq|Hne]; simpl.
  { repeat split; try assumption; try (intros a Ha; exact Ha).
    intros H; congruence. }
  destruct (Z.leb_spec (Z.abs (g - ck)) (ID_CHAR_Y_TOLERANCE cfg)) as [Hnear|Hfar];
    simpl.
  2:{ repeat split; try assumption; try (intros a Ha; exact Ha).
      intros _ H; lia. }
  destruct (existsb (Z.eqb ck) mk) eqn:Hex; simpl.
  { apply existsb_Z_eqb in Hex.
    repeat split; try assumption; try (intros a Ha; exact Ha).
    intros _ _; assumption. }
  assert (Hck : ~ In ck mk).
  { intros H. apply existsb_Z_eqb in H. congruence. }
  assert (Hckm : ~ In ck (keys merged)).
  { intros H. apply Hgmk.
    assert (Hcl : closed_row ck mk) by (apply Hothers; [assumption|congruence]).
    apply Hcl; [apply Hincl, in_or_app; now left|assumption|lia]. }
  destruct (dict_get g merged) as [l0|] eqn:Hget.
  2:{ apply dict_get_None in Hget. contradiction. }
  assert (Hkeys : keys (dict_set g (dict_item g merged ++ cl) merged) = keys merged).
  { eapply dict_set_keys; eassumption. }
  unfold merge_inv. simpl fst. simpl snd. rewrite !Hkeys. repeat split.
  - rewrite app_assoc. apply (Permutation_NoDup (Permutation_cons_append _ ck)).
    constructor; [|assumption].
    intros H. apply in_app_or in H. tauto.
  - rewrite app_assoc. intros a Ha. apply in_app_or in Ha.
    destruct Ha as [Ha|[<-|[]]]; [now apply Hincl|now apply (In_keys ck cl)].
  - unfold dict_item at 1. rewrite Hget.
    rewrite (dict_set_extend_perm _ g l0 cl merged Hget).
    rewrite app_assoc. unfold items at 1. rewrite flat_map_app. simpl.
    rewrite (dict_item_In ck cl Hc), app_nil_r.
    now apply Permutation_app_tail.
  - intros H. apply in_app_or in H. destruct H as [H|[H|[]]]; congruence.
  - intros a Ha. apply in_or_app. now left.
  - intros _ _. apply in_or_app. right. now left.
Qed.

Lemma closed_row_incl :
  forall g mk mk', incl mk mk' -> closed_row g mk -> closed_row g mk'.
Proof. intros g mk mk' Hi Hc k H1 H2 H3. apply Hi. now apply Hc. Qed.

Lemma merge_chk_loop :
  forall g chks merged mk,
    incl chks d ->
    merge_inv merged mk ->
    In g (keys merged) ->
    ~ In g mk ->
    (forall g', In g' (keys merged) -> g' <> g -> closed_row g' mk) ->
    let r := fold_left (merge_chk cfg g) chks (merged, mk) in
    merge_inv (fst r) (snd r)
    /\ keys (fst r) = keys merged
    /\ ~ In g (snd r)
    /\ incl mk (snd r)
    /\ (forall ck, In ck (keys chks) -> ck <> g ->
                   (Z.abs (g - ck) <= ID_CHAR_Y_TOLERANCE cfg)%Z -> In ck (snd r)).
Proof.
  intros g chks. induction chks as [|[ck cl] t IH];
    intros merged mk Hsub Hinv Hg Hgmk Hothers; cbv zeta; cbn [fold_left].
  - simpl. repeat split; try apply Hinv; try assumption;
      try (intros a Ha; exact Ha).
    intros ck [].
  - destruct (merge_chk_step g merged mk ck cl) as [H1 [H2 [H3 [H4 H5]]]];
      try assumption.
    { apply Hsub. now left. }
    destruct (merge_chk cfg g (merged, mk) (ck, cl)) as [m1 mk1] eqn:Hstep.
    cbn [fst snd] in H1, H2, H3, H4, H5.
    destruct (IH m1 mk1) as [K1 [K2 [K3 [K4 K5]]]]; try assumption.
    { intros a Ha. apply Hsub. now right. }
    { now rewrite H2. }
    { rewrite H2. intros g' Hg' Hne. eapply closed_row_incl; [eassumption|].
      now apply Hothers. }
    split; [exact K1|]. split; [now rewrite K2|]. split; [exact K3|]. split.
    + intros a Ha. now apply K4, H4.
    + intros k [<-|Hk] Hne Hnear; [apply K4; now apply H5|now apply K5].
Qed.

Lemma merge_given_loop :
  forall todo done merged mk,
    d = done ++ todo ->
    merge_inv merged mk ->
    incl (keys merged) (keys done) ->
    (forall g, In g (keys merged) -> closed_row g mk) ->
    let r := fold_left (merge_given cfg d) todo (merged, mk) in
    merge_inv (fst r) (snd r).
Proof.
  induction todo as [|[g gl] t IH]; intros done merged mk Hd Hinv Hdone Hclosed;
    simpl; [assumption|].
  assert (Hd' : d = (done ++ [(g, gl)]) ++ t) by (now rewrite <- app_assoc).
  assert (Hgd : In (g, gl) d).
  { rewrite Hd. apply in_or_app. right. now left. }
  destruct (existsb (Z.eqb g) mk) eqn:Hex.
  - apply (IH (done ++ [(g, gl)])); try assumption.
    rewrite keys_app. intros a Ha. apply in_or_app. left. now apply Hdone.
  - assert (Hgmk : ~ In g mk).
    { intros H. apply existsb_Z_eqb in H. congruence. }
    assert (Hgm : ~ In g (keys merged)).
    { intros H. apply Hdone in H.
      pose proof d_keys as Hnd. rewrite Hd, keys_app in Hnd.
      apply NoDup_app_inv in Hnd. destruct Hnd as [_ [_ Hdis]].
      apply (Hdis g H). now left. }
    assert (Hget : dict_get g merged = None) by (now apply dict_get_None).
    rewrite (dict_set_new _ g gl merged Hget).
    destruct Hinv as [Hnd [Hincl Hperm]].
    assert (Hinv1 : merge_inv (merged ++ [(g, gl)]) mk).
    { unfold merge_inv. rewrite keys_app, values_app, concat_app. simpl.
      rewrite app_nil_r.
      assert (Hp : Permutation ((keys merged ++ [g]) ++ mk) (g :: keys merged ++ mk)).
      { rewrite <- app_assoc. simpl. symmetry. apply Permutation_middle. }
      repeat split.
      - apply (Permutation_NoDup (Permutation_sym Hp)).
        constructor; [|assumption].
        intros H. apply in_app_or in H. tauto.
      - intros a Ha. apply (Permutation_in _ Hp) in Ha.
        destruct Ha as [<-|Ha]; [now apply (In_keys g gl)|now apply Hincl].
      - unfold items. rewrite (Permutation_flat_map _ Hp). simpl.
        rewrite (dict_item_In g gl Hgd).
        rewrite Permutation_app_comm. now apply Permutation_app_head. }
    destruct (merge_chk_loop g d (merged ++ [(g, gl)]) mk)
      as [K1 [K2 [K3 [K4 K5]]]]; try assumption.
    { intros a Ha; exact Ha. }
    { rewrite keys_app. apply in_or_app. right. now left. }
    { rewrite keys_app. intros g' Hg' Hne. apply Hclosed.
      apply in_app_or in Hg'. simpl in Hg'.
      destruct Hg' as [Hg'|[Hg'|[]]]; [assumption|congruence]. }
    match goal with
    | |- context [fold_left (merge_given cfg d) t ?s] =>
        destruct s as [m1 mk1] eqn:Hloop
    end.
    cbn [fst snd] in K1, K2, K3, K4, K5.
    apply (IH (done ++ [(g, gl)])); try assumption.
    + rewrite K2, !keys_app. simpl. intros a Ha. apply in_app_or in Ha.
      apply in_or_app. destruct Ha as [Ha|Ha]; [left; now apply Hdone|now right].
    + rewrite K2, keys_app. intros g' Hg'. apply in_app_or in Hg'.
      destruct Hg' as [Hg'|[<-|[]]].
      * eapply closed_row_incl; [eassumption|]. now apply Hclosed.
      * intros k Hk Hne Hnear. now apply K5.
Qed.

Lemma merge_by_cy_inv :
  exists ks, NoDup ks /\ incl ks (keys d)
             /\ Permutation (concat (values (merge_by_cy cfg d))) (items ks).
Proof.
  unfold merge_by_cy.
  destruct (merge_given_loop d [] [] []) as [H1 [H2 H3]].
  - reflexivity.
  - repeat split; [constructor|intros a []|constructor].
  - intros a [].
  - intros g [].
  - eexists. repeat split; eassumption.
Qed.

Lemma items_incl :
  forall ks, incl (items ks) (concat (values d)).
Proof.
  intros ks a Ha. unfold items in Ha. apply in_flat_map in Ha.
  destruct Ha as [k [_ Ha]]. unfold dict_item in Ha.
  destruct (dict_get k d) as [l|] eqn:Hget; [|destruct Ha].
  apply in_concat. exists l. split; [|assumption].
  apply dict_get_In in Hget. unfold values. change l with (snd (k, l)).
  now apply in_map.
Qed.

Lemma items_NoDup :
  forall ks, NoDup ks -> NoDup (concat (values d)) -> NoDup (items ks).
Proof.
  induction ks as [|k t IH]; intros Hks Hd; simpl; [constructor|].
  inversion Hks as [|? ? Hk Ht]; subst.
  apply NoDup_app; [|now apply IH|].
  - unfold dict_item. destruct (dict_get k d) as [l|] eqn:Hget; [|constructor].
    apply dict_get_In in Hget. clear - Hget Hd.
    induction d as [|[k0 l0] d0 IHd]; simpl in *; [tauto|].
    apply NoDup_app_inv in Hd. destruct Hd as [H1 [H2 _]].
    destruct Hget as [H|H]; [inversion H; now subst|now apply IHd].
  - intros a Ha Hin. unfold items in Hin. apply in_flat_map in Hin.
    destruct Hin as [k' [Hk' Ha']]. unfold dict_item in Ha, Ha'.
    destruct (dict_get k d) as [l|] eqn:Hget; [|destruct Ha].
    destruct (dict_get k' d) as [l'|] eqn:Hget'; [|destruct Ha'].
    apply dict_get_In in Hget, Hget'.
    assert (k = k') by (eapply dict_rows_disjoint; eassumption).
    congruence.
Qed.

Lemma merge_by_cy_NoDup :
  NoDup (concat (values d)) -> NoDup (concat (values (merge_by_cy cfg d))).
Proof.
  intros Hd. destruct merge_by_cy_inv as [ks [H1 [H2 H3]]].
  apply (Permutation_NoDup (Permutation_sym H3)). now apply items_NoDup.
Qed.

Lemma merge_by_cy_incl :
  incl (concat (values (merge_by_cy cfg d))) (concat (values d)).
Proof.
  destruct merge_by_cy_inv as [ks [H1 [H2 H3]]].
  intros a Ha. apply (Permutation_in _ H3) in Ha. now apply (items_incl ks).
Qed.

End MergeByCy.

Lemma merge_by_cy_keys :
  forall cfg (d : dict (list ref)), NoDup (keys d) -> NoDup (keys (merge_by_cy cfg d)).
Proof.
  intros cfg d Hd. unfold merge_by_cy.
  destruct (merge_given_loop cfg d Hd d [] [] []) as [H1 _].
  - reflexivity.
  - repeat split; [constructor|intros a []|constructor].
  - intros a [].
  - intros g [].
  - apply NoDup_app_inv in H1. tauto.
Qed.

Lemma filter_dict_sub :
  forall (A : Type) (p : Z * list A -> bool) (d : dict (list A)),
    incl (concat (values (filter p d))) (concat (values d))
    /\ (NoDup (concat (values d)) -> NoDup (concat (values (filter p d))))
    /\ incl (keys (filter p d)) (keys d)
    /\ (NoDup (keys d) -> NoDup (keys (filter p d))).
Proof.
  intros A p d. induction d as [|[k l] t [IH1 [IH2 [IH3 IH4]]]]; simpl.
  - repeat split; try (intros a Ha; exact Ha); trivial.
  - destruct (p (k, l)); simpl.
    + repeat split.
      * intros a Ha. apply in_app_or in Ha. apply in_or_app.
        destruct Ha as [Ha|Ha]; [now left|right; now apply IH1].
      * intros H. apply NoDup_app_inv in H. destruct H as [H1 [H2 H3]].
        apply NoDup_app; [assumption|now apply IH2|].
        intros a Ha Hin. apply (H3 a Ha). now apply IH1.
      * intros a [<-|Ha]; [now left|right; now apply IH3].
      * intros H. inversion H as [|? ? Hk Ht]; subst.
        constructor; [|now apply IH4]. intros Hin. apply Hk. now apply IH3.
    + repeat split.
      * intros a Ha. apply in_or_app. right. now apply IH1.
      * intros H. apply NoDup_app_inv in H. now apply IH2.
      * intros a Ha. right. now apply IH3.
      * intros H. inversion H; subst. now apply IH4.
Qed.

Section LabelRowsFacts.

Variable cfg : Config.
Variable st : store.

Lemma label_char_rows_keys : NoDup (keys (label_char_rows cfg st)).
Proof.
  unfold label_char_rows, filter_row_size. apply filter_dict_sub.
  apply merge_by_cy_keys, organize_by_cy_keys.
Qed.

Lemma label_char_rows_NoDup : NoDup (concat (values (label_char_rows cfg st))).
Proof.
  unfold label_char_rows, filter_row_size. apply filter_dict_sub.
  apply merge_by_cy_NoDup; [apply organize_by_cy_keys|].
  apply (Permutation_NoDup (Permutation_sym (organize_by_cy_perm st _))).
  apply filter_id_cntr_dicts_NoDup.
Qed.

Lemma label_char_rows_id_char :
  forall r, In r (concat (values (label_char_rows cfg st))) ->
            r < length st /\ is_id_char cfg (get st r) = true.
Proof.
  intros r H. unfold label_char_rows, filter_row_size in H.
  apply filter_dict_sub in H.
  apply merge_by_cy_incl in H; [|apply organize_by_cy_keys].
  apply (Permutation_in _ (organize_by_cy_perm st _)) in H.
  unfold filter_id_cntr_dicts in H. apply filter_In in H.
  destruct H as [H1 H2]. apply in_seq in H1. split; [lia|assumption].
Qed.

(** *** The collapse keeps a part of the row *)

Lemma collapse_loop_sub :
  forall l pre_cx merged,
    exists kept,
      collapse_loop cfg st l pre_cx merged = merged ++ kept
      /\ incl kept l /\ (NoDup l -> NoDup kept).
Proof.
  induction l as [|r t IH]; intros pre_cx merged; simpl.
  - exists []. rewrite app_nil_r. repeat split; [intros a []|constructor].
  - match goal with
    | |- context [collapse_loop cfg st t ?p ?m] => destruct (IH p m) as [kept [H1 [H2 H3]]]
    end.
    rewrite H1.
    assert (Hcase : forall b : bool,
               exists kept',
                 (if b then merged ++ [r] else merged) ++ kept = merged ++ kept'
                 /\ incl kept' (r :: t) /\ (NoDup (r :: t) -> NoDup kept')).
    { intros [|].
      - exists (r :: kept). rewrite <- app_assoc. repeat split.
        + intros a [<-|Ha]; [now left|right; now apply H2].
        + intros Hnd. inversion Hnd as [|? ? Hr Ht]; subst.
          constructor; [|now apply H3]. intros Hin. apply Hr. now apply H2.
      - exists kept. repeat split.
        + intros a Ha. right. now apply H2.
        + intros Hnd. inversion Hnd; subst. now apply H3. }
    destruct pre_cx as [pre|].
    + apply Hcase.
    + apply (Hcase true).
Qed.

Lemma collapse_row_sub :
  forall l, incl (collapse_row cfg st l) l /\ (NoDup l -> NoDup (collapse_row cfg st l)).
Proof.
  intros l. unfold collapse_row.
  destruct (collapse_loop_sub l None []) as [kept [H1 [H2 H3]]].
  rewrite H1. simpl. split; assumption.
Qed.

(** *** The rows of labels *)

Definition sorted_char_rows : dict (list ref) :=
  sorted_by (fun kv : Z * list ref => fst kv) (label_char_rows cfg st).

Lemma label_rows_keys : keys (label_rows cfg st) = keys sorted_char_rows.
Proof.
  unfold label_rows, collapse_rows, sort_rows_by_cx, keys.
  rewrite !map_map. simpl. reflexivity.
Qed.

Lemma label_rows_length :
  length (label_rows cfg st) = length (label_char_rows cfg st).
Proof.
  unfold label_rows, collapse_rows, sort_rows_by_cx.
  now rewrite !length_map, sorted_by_length.
Qed.

Lemma sorted_char_rows_keys : NoDup (keys sorted_char_rows).
Proof.
  unfold sorted_char_rows, keys.
  apply (Permutation_NoDup
           (Permutation_map fst (Permutation_sym (sorted_by_perm _ _ _)))).
  apply label_char_rows_keys.
Qed.

Lemma sorted_char_rows_NoDup : NoDup (concat (values sorted_char_rows)).
Proof.
  unfold sorted_char_rows, values.
  apply (Permutation_NoDup
           (Permutation_concat _ _ _
              (Permutation_map snd (Permutation_sym (sorted_by_perm _ _ _))))).
  apply label_char_rows_NoDup.
Qed.

Lemma sorted_char_rows_id_char :
  forall r, In r (concat (values sorted_char_rows)) ->
            r < length st /\ is_id_char cfg (get st r) = true.
Proof.
  intros r H. apply label_char_rows_id_char.
  unfold sorted_char_rows, values in H.
  eapply Permutation_in; [|exact H].
  apply Permutation_concat, Permutation_map, sorted_by_perm.
Qed.

Lemma label_rows_sub :
  Forall2 (fun l' l => incl l' l /\ (NoDup l -> NoDup l'))
    (values (label_rows cfg st)) (values sorted_char_rows).
Proof.
  unfold label_rows. fold sorted_char_rows.
  induction sorted_char_rows as [|[k l] t IH]; simpl; constructor; [|exact IH].
  simpl. destruct (collapse_row_sub (sorted_by (fun r => cx (get st r)) l))
    as [H1 H2].
  split.
  - intros a Ha. apply H1 in Ha. now apply sorted_by_In in Ha.
  - intros Hnd. apply H2.
    apply (Permutation_NoDup (Permutation_sym (sorted_by_perm _ _ _))). exact Hnd.
Qed.

Lemma label_rows_NoDup : NoDup (concat (values (label_rows cfg st))).
Proof.
  eapply NoDup_concat_sub; [apply label_rows_sub|apply sorted_char_rows_NoDup].
Qed.

Lemma label_rows_incl :
  incl (concat (values (label_rows cfg st))) (concat (values sorted_char_rows)).
Proof. eapply concat_sub_incl. apply label_rows_sub. Qed.

Lemma label_rows_keys_NoDup : NoDup (keys (label_rows cfg st)).
Proof. rewrite label_rows_keys. apply sorted_char_rows_keys. Qed.

Lemma label_rows_keys_ascending : ascending (keys (label_rows cfg st)).
Proof.
  rewrite label_rows_keys. unfold sorted_char_rows, keys.
  apply sorted_by_ascending.
Qed.

End LabelRowsFacts.

(** *** The rule of the collapse *)

(** A record of a row is kept when it is the first one or stands more than
    the tolerance from the record before it. *)
Lemma collapse_row_In :
  forall (cfg : Config) (st : store) (row : list ref) (i : nat) (r : ref),
    NoDup row ->
    nth_error row i = Some r ->
    (In r (collapse_row cfg st row)
     <-> i = 0
         \/ exists p,
              nth_error row (i - 1) = Some p
              /\ (ID_CHAR_X_TOLERANCE cfg
                  < Z.abs (cx (get st r) - cx (get st p)))%Z).
Proof.
  intros cfg st row. induction row as [|x pre IH] using rev_ind;
    intros i r Hnd Hi.
  - destruct i; discriminate.
  - rewrite collapse_row_snoc, in_app_iff.
    apply NoDup_app_inv in Hnd. destruct Hnd as [Hpre [_ Hdis]].
    assert (Hx : ~ In x pre).
    { intros Hin. apply (Hdis x Hin). now left. }
    destruct (Nat.lt_ge_cases i (length pre)) as [Hlt|Hge].
    + rewrite nth_error_app1 in Hi by assumption.
      assert (Hr : In r pre) by (eapply nth_error_In; eassumption).
      assert (Hne : r <> x) by (intros ->; contradiction).
      assert (Hprev : forall p, nth_error (pre ++ [x]) (i - 1) = Some p
                                <-> nth_error pre (i - 1) = Some p).
      { intros p. rewrite nth_error_app1 by lia. tauto. }
      rewrite (IH i r Hpre Hi). split.
      * intros [[H|[p [Hp Hd]]]|H].
        -- now left.
        -- right. exists p. split; [now apply Hprev|assumption].
        -- exfalso. destruct (kept_after cfg st pre x); [|destruct H].
           destruct H as [H|[]]. congruence.
      * intros [H|[p [Hp Hd]]]; left; [now left|].
        right. exists p. split; [now apply Hprev|assumption].
    + assert (Hlen : i = length pre).
      { assert (H : i < length (pre ++ [x])).
        { apply nth_error_Some. congruence. }
        rewrite length_app in H. simpl in H. lia. }
      subst i. rewrite nth_error_app2 in Hi by lia.
      rewrite Nat.sub_diag in Hi. simpl in Hi. inversion Hi; subst x. clear Hi.
      assert (Hnot : ~ In r (collapse_row cfg st pre)).
      { intros Hin. apply Hx. now apply (proj1 (collapse_row_sub cfg st pre)). }
      destruct pre as [|p0 pre0] eqn:Hpre_eq.
      * simpl. split; [intros _; now left|intros _; right; now left].
      * rewrite <- Hpre_eq in *.
        assert (Hlast : nth_error (pre ++ [r]) (length pre - 1)
                        = Some (last pre O)).
        { rewrite nth_error_app1 by (rewrite Hpre_eq; simpl; lia).
          rewrite Hpre_eq. clear. revert p0.
          induction pre0 as [|y t IHt]; intros p0; [reflexivity|].
          simpl length. replace (S (S (length t)) - 1) with (S (length t)) by lia.
          change (nth_error (y :: t) (length t) = Some (last (y :: t) O)).
          specialize (IHt y). simpl length in IHt.
          replace (S (length t) - 1) with (length t) in IHt by lia. exact IHt. }
        assert (Hk : kept_after cfg st pre r
                     = (ID_CHAR_X_TOLERANCE cfg
                        <? Z.abs (cx (get st r) - cx (get st (last pre O))))%Z).
        { rewrite Hpre_eq. reflexivity. }
        rewrite Hk. split.
        -- intros [H|H]; [contradiction|]. right. exists (last pre O).
           split; [assumption|].
           destruct (Z.ltb_spec (ID_CHAR_X_TOLERANCE cfg)
                       (Z.abs (cx (get st r) - cx (get st (last pre O)))));
             [assumption|destruct H].
        -- intros [H|[p [Hp Hd]]].
           ++ rewrite Hpre_eq in H. discriminate.
           ++ right. rewrite Hlast in Hp. inversion Hp; subst p.
              apply Z.ltb_lt in Hd. rewrite Hd. now left.
Qed.

(** C3, as amended.  The collapse keeps the first record of a row, and a
    later record if and only if its horizontal centroid differs by more
    than the tolerance from that of the record just before it in the row,
    kept or not; so two records 5 pixels apart, with 5 not above the
    tolerance, collapse to the first of them. *)
Theorem collapse_compares_with_previous_record :
  forall (cfg : Config) (st : store),
    collapse_row cfg st [] = []
    /\ (forall pre r,
          collapse_row cfg st (pre ++ [r])
          = collapse_row cfg st pre
            ++ (if kept_after cfg st pre r then [r] else []))
    /\ (forall r, kept_after cfg st [] r = true)
    /\ (forall pre p r,
          kept_after cfg st (pre ++ [p]) r
          = (ID_CHAR_X_TOLERANCE cfg
             <? Z.abs (cx (get st r) - cx (get st p)))%Z)
    /\ (forall row i r,
          NoDup row ->
          nth_error row i = Some r ->
          (In r (collapse_row cfg st row)
           <-> i = 0
               \/ exists p,
                    nth_error row (i - 1) = Some p
                    /\ (ID_CHAR_X_TOLERANCE cfg
                        < Z.abs (cx (get st r) - cx (get st p)))%Z))
    /\ (forall r1 r2,
          (cx (get st r2) - cx (get st r1) = 5)%Z ->
          (5 <= ID_CHAR_X_TOLERANCE cfg)%Z ->
          collapse_row cfg st (sorted_by (fun x => cx (get st x)) [r1; r2])
          = [r1]).
Proof.
  intros cfg st.
  split; [reflexivity|]. split; [apply collapse_row_snoc|].
  split; [reflexivity|]. split.
  { intros pre p r. unfold kept_after.
    destruct (pre ++ [p]) as [|a l] eqn:Heq; [now destruct pre|].
    rewrite <- Heq. now rewrite last_last. }
  split; [apply collapse_row_In|].
  intros r1 r2 Hcx Htol.
  simpl. replace (cx (get st r1) <=? cx (get st r2))%Z with true
    by (symmetry; apply Z.leb_le; lia).
  unfold collapse_row; simpl. rewrite Hcx. simpl.
  replace (ID_CHAR_X_TOLERANCE cfg <? 5)%Z with false
    by (symmetry; apply Z.ltb_ge; lia).
  reflexivity.
Qed.

(** ** The records of the store *)

(** The descriptors of a record: everything but the chromosome number. *)
Definition geometry (c : ContourRecord) :=
  (cntr_idx c, cntr c, area c, rect c, min_area_rect c, cx c, cy c, center c).

(** A record at position [r] of the store carries [r] as its [cntr_idx]
    and its centre is [(cx, cy)]. *)
Definition wf_record (r : nat) (c : ContourRecord) : Prop :=
  cntr_idx c = r /\ center c = (cx c, cy c).

Definition wf_store (st : store) : Prop :=
  forall r, r < length st -> wf_record r (get st r).

Lemma geometry_wf :
  forall r c c', geometry c' = geometry c -> wf_record r c -> wf_record r c'.
Proof.
  intros r c c' H [H1 H2]. unfold geometry in H. inversion H.
  unfold wf_record. split; congruence.
Qed.

Section Gather.

Variable Image : Type.
Variable E : Externals Image.

Lemma gather_contours_length :
  forall cntrs, length (gather_contours E cntrs) = length cntrs.
Proof.
  intros cntrs. unfold gather_contours, enumerate.
  rewrite length_map, length_combine, length_seq. lia.
Qed.

Lemma gather_contours_get :
  forall cntrs r,
    r < length cntrs ->
    get (gather_contours E cntrs) r = _gather_contours_dict E r (nth r cntrs []).
Proof.
  intros cntrs r Hr. unfold gather_contours, enumerate, get.
  assert (Hgen : forall l off n,
             n < length l ->
             nth n (map (fun ic => _gather_contours_dict E (fst ic) (snd ic))
                      (combine (seq off (length l)) l)) empty_record
             = _gather_contours_dict E (off + n) (nth n l [])).
  { induction l as [|c t IH]; intros off n Hn; simpl in *; [lia|].
    destruct n as [|n]; simpl.
    - now rewrite Nat.add_0_r.
    - rewrite IH by lia. f_equal. lia. }
  now rewrite Hgen.
Qed.

Lemma gather_contours_wf : forall cntrs, wf_store (gather_contours E cntrs).
Proof.
  intros cntrs r Hr. rewrite gather_contours_length in Hr.
  rewrite gather_contours_get by assumption.
  unfold wf_record, _gather_contours_dict.
  destruct (negb _); [simpl; split; reflexivity|].
  destruct (minAreaRect E (nth r cntrs [])) as [[[x y] s] a].
  simpl; split; reflexivity.
Qed.

Lemma gather_contours_no_id :
  forall cntrs r,
    chromo_id (get (gather_contours E cntrs) r) = None
    /\ chromo_idx (get (gather_contours E cntrs) r) = None.
Proof.
  intros cntrs r.
  destruct (Nat.lt_ge_cases r (length cntrs)) as [Hr|Hr].
  - rewrite gather_contours_get by assumption.
    unfold _gather_contours_dict.
    destruct (negb _); [simpl; split; reflexivity|].
    destruct (minAreaRect E (nth r cntrs [])) as [[[x y] s] a].
    simpl; split; reflexivity.
  - unfold get. rewrite nth_overflow; [split; reflexivity|].
    now rewrite gather_contours_length.
Qed.

End Gather.

(** ** The assignment of the chromosome numbers to the labels *)

Lemma assign_cntrs_app :
  forall l1 l2 st i,
    assign_cntrs st (l1 ++ l2) i
    = match assign_cntrs st l1 i with
      | (st', i', None) => assign_cntrs st' l2 i'
      | raised => raised
      end.
Proof.
  induction l1 as [|r t IH]; intros l2 st i; simpl; [reflexivity|].
  destruct (nth_error chromo_id_list i); [apply IH|reflexivity].
Qed.

Lemma assign_rows_concat :
  forall rows st i, assign_rows st rows i = assign_cntrs st (concat rows) i.
Proof.
  induction rows as [|l t IH]; intros st i; simpl; [reflexivity|].
  rewrite assign_cntrs_app.
  destruct (assign_cntrs st l i) as [[st' i'] [e|]]; [reflexivity|apply IH].
Qed.

Lemma assign_cntrs_geometry :
  forall l st i,
    length (fst (fst (assign_cntrs st l i))) = length st
    /\ forall r, geometry (get (fst (fst (assign_cntrs st l i))) r)
                 = geometry (get st r).
Proof.
  induction l as [|x t IH]; intros st i; simpl.
  - split; reflexivity.
  - destruct (nth_error chromo_id_list i) as [id|]; [|split; reflexivity].
    destruct (IH (modify (set_chromo (Some id) (Some i)) x st) (S i)) as [H1 H2].
    split.
    + now rewrite H1, modify_length.
    + intros r. rewrite H2, get_modify.
      destruct (_ && _); reflexivity.
Qed.

Lemma assign_cntrs_ok :
  forall l st i,
    i + length l <= length chromo_id_list ->
    exists st',
      assign_cntrs st l i = (st', i + length l, None)
      /\ (forall r, ~ In r l -> get st' r = get st r)
      /\ (NoDup l -> (forall r, In r l -> r < length st) ->
          forall j r, nth_error l j = Some r ->
            get st' r
            = set_chromo (nth_error chromo_id_list (i + j)) (Some (i + j))
                (get st r)).
Proof.
  induction l as [|x t IH]; intros st i Hlen; simpl in *.
  - exists st. rewrite Nat.add_0_r. repeat split.
    intros _ _ j r H. destruct j; discriminate.
  - destruct (nth_error chromo_id_list i) as [id|] eqn:Hid.
    2:{ apply nth_error_None in Hid. simpl in Hid. lia. }
    destruct (IH (modify (set_chromo (Some id) (Some i)) x st) (S i))
      as [st' [H1 [H2 H3]]]; [lia|].
    exists st'. split; [rewrite H1; f_equal; f_equal; lia|]. split.
    + intros r Hr. rewrite H2 by tauto. apply get_modify_ne. tauto.
    + intros Hnd Hvalid j r Hj. inversion Hnd as [|? ? Hx Ht]; subst.
      destruct j as [|j]; simpl in Hj.
      * inversion Hj; subst. rewrite H2 by assumption.
        rewrite get_modify_eq by (apply Hvalid; now left).
        now rewrite Nat.add_0_r, Hid.
      * rewrite (H3 Ht) with (j := j) by
          (try assumption; intros r' Hr'; rewrite modify_length; apply Hvalid; now right).
        rewrite get_modify_ne.
        -- f_equal; [f_equal; lia|f_equal; lia].
        -- intros ->. apply Hx. eapply nth_error_In; eassumption.
Qed.

(** ** The two gates of [_id_info] *)

Definition row_sizes (rows : dict (list ref)) : list nat :=
  map (fun kv => length (snd kv)) rows.

(** The first row whose number of labels is not the expected one. *)
Definition first_wrong_row (cfg : Config) (rows : dict (list ref))
    (idx : nat) (l : list ref) (n : nat) : Prop :=
  (exists key, nth_error rows idx = Some (key, l))
  /\ nth_error (id_num_in_rows cfg) idx = Some n
  /\ length l <> n
  /\ forall j, j < idx ->
       nth_error (row_sizes rows) j = nth_error (id_num_in_rows cfg) j.

Lemma check_rows_spec :
  forall cfg rows,
    length rows = 4 ->
    match check_rows cfg rows 0 with
    | None => row_sizes rows = id_num_in_rows cfg
    | Some e =>
        exists idx l n,
          first_wrong_row cfg rows idx l n
          /\ e = ValueError_row_id_num (S idx) (length l) n
    end.
Proof.
  intros cfg rows Hlen.
  destruct rows as [|[k1 l1] [|[k2 l2] [|[k3 l3] [|[k4 l4] [|? ?]]]]];
    try discriminate.
  unfold check_rows, id_num_in_rows, row_sizes. simpl.
  destruct (Nat.eqb_spec (length l1) (ROW_1_ID_NUM cfg)) as [H1|H1].
  2:{ exists 0, l1, (ROW_1_ID_NUM cfg). split; [|reflexivity].
      repeat split; simpl; eauto. intros j Hj; lia. }
  destruct (Nat.eqb_spec (length l2) (ROW_2_ID_NUM cfg)) as [H2|H2].
  2:{ exists 1, l2, (ROW_2_ID_NUM cfg). split; [|reflexivity].
      repeat split; simpl; eauto.
      intros [|j] Hj; simpl; [congruence|lia]. }
  destruct (Nat.eqb_spec (length l3) (ROW_3_ID_NUM cfg)) as [H3|H3].
  2:{ exists 2, l3, (ROW_3_ID_NUM cfg). split; [|reflexivity].
      repeat split; simpl; eauto.
      intros [|[|j]] Hj; simpl; [congruence|congruence|lia]. }
  destruct (Nat.eqb_spec (length l4) (ROW_4_ID_NUM cfg)) as [H4|H4].
  2:{ exists 3, l4, (ROW_4_ID_NUM cfg). split; [|reflexivity].
      repeat split; simpl; eauto.
      intros [|[|[|j]]] Hj; simpl; [congruence|congruence|congruence|lia]. }
  congruence.
Qed.

Lemma row_sizes_concat :
  forall rows, length (concat (values rows)) = list_sum (row_sizes rows).
Proof.
  induction rows as [|[k l] t IH]; simpl; [reflexivity|].
  now rewrite length_app, IH.
Qed.

Section IdInfo.

Variable Image : Type.
Variable cfg : Config.
Hypothesis cfg_rows : id_num_in_rows cfg = [5; 7; 6; 6].

(** The object that [_id_info] leaves when it returns. *)
Definition id_info_done (self : Karyotype Image) (st' : store) : Karyotype Image :=
  let st := cntr_dicts self in
  with_id (label_rows cfg st)
    (with_cntr_dicts st'
       (with_id_char (label_rows cfg st) (values (sorted_char_rows cfg st)) self)).

(** The three ways through [_id_info]. *)
Lemma id_info_cases :
  forall self : Karyotype Image,
    let st := cntr_dicts self in
    let rows := label_rows cfg st in
    (length (label_char_rows cfg st) <> 4
     /\ _id_info cfg self
        = (self, Some (ValueError_row_count (length (label_char_rows cfg st)))))
    \/ (length (label_char_rows cfg st) = 4
        /\ exists idx l n,
             first_wrong_row cfg rows idx l n
             /\ _id_info cfg self
                = (with_id_char rows (values (sorted_char_rows cfg st)) self,
                   Some (ValueError_row_id_num (S idx) (length l) n)))
    \/ (length (label_char_rows cfg st) = 4
        /\ row_sizes rows = [5; 7; 6; 6]
        /\ exists st',
             assign_cntrs st (concat (values rows)) 0 = (st', 24, None)
             /\ _id_info cfg self = (id_info_done self st', None)).
Proof.
  intros self st rows. unfold _id_info. fold st.
  destruct (Nat.eqb_spec (length (label_char_rows cfg st)) 4) as [Hlen|Hlen];
    simpl; [|left; split; [assumption|reflexivity]].
  right. fold (sorted_char_rows cfg st).
  change (collapse_rows cfg st (sort_rows_by_cx st (sorted_char_rows cfg st)))
    with rows.
  assert (Hlen' : length rows = 4).
  { unfold rows. now rewrite label_rows_length. }
  pose proof (check_rows_spec cfg rows Hlen') as Hchk.
  destruct (check_rows cfg rows 0) as [e|].
  - left. split; [assumption|].
    destruct Hchk as [idx [l [n [Hw ->]]]]. exists idx, l, n.
    split; [assumption|reflexivity].
  - right. rewrite cfg_rows in Hchk. split; [assumption|]. split; [assumption|].
    rewrite assign_rows_concat.
    destruct (assign_cntrs_ok (concat (values rows)) st 0) as [st' [H1 _]].
    { rewrite row_sizes_concat, Hchk. simpl. lia. }
    rewrite row_sizes_concat, Hchk in H1. simpl in H1.
    exists st'. split; [assumption|]. rewrite H1. reflexivity.
Qed.

End IdInfo.

(** ** The contours that are not label characters *)

Lemma id_char_cntrs_cntr_idx_wf :
  forall st rows,
    wf_store st ->
    (forall r, In r (concat rows) -> r < length st) ->
    id_char_cntrs_cntr_idx st rows = concat rows.
Proof.
  intros st rows Hwf. unfold id_char_cntrs_cntr_idx.
  induction rows as [|l t IH]; simpl; intros Hvalid; [reflexivity|].
  rewrite IH by (intros r Hr; apply Hvalid, in_or_app; now right).
  f_equal.
  assert (Hl : forall r, In r l -> r < length st)
    by (intros r Hr; apply Hvalid, in_or_app; now left).
  clear - Hwf Hl. induction l as [|x l IH]; simpl; [reflexivity|].
  rewrite IH by (intros r Hr; apply Hl; now right).
  f_equal. apply Hwf, Hl. now left.
Qed.

Lemma left_cntr_dicts_In :
  forall st idxs r,
    wf_store st ->
    (In r (left_cntr_dicts st idxs) <-> r < length st /\ ~ In r idxs).
Proof.
  intros st idxs r Hwf. unfold left_cntr_dicts. rewrite filter_In, in_seq.
  split.
  - intros [Hr Hb]. split; [lia|]. intros Hin.
    apply negb_true_iff in Hb.
    assert (Hidx : cntr_idx (get st r) = r) by (apply Hwf; lia).
    rewrite Hidx in Hb.
    apply existsb_nat_eqb in Hin. congruence.
  - intros [Hr Hnot]. split; [lia|]. apply negb_true_iff.
    assert (Hidx : cntr_idx (get st r) = r) by (apply Hwf; lia).
    rewrite Hidx.
    destruct (existsb (Nat.eqb r) idxs) eqn:Hex; [|reflexivity].
    apply existsb_nat_eqb in Hex. contradiction.
Qed.

Lemma left_cntr_dicts_NoDup : forall st idxs, NoDup (left_cntr_dicts st idxs).
Proof. intros. apply NoDup_filter, seq_NoDup. Qed.

(** *** The rows of the other contours *)

(** The row that takes the record [r], if one does. *)
Definition row_of (st : store) (cy_keys : list Z) (r : ref) : option Z :=
  find_row (cy (get st r)) cy_keys 0.

Definition organize_step (st : store) (cy_keys : list Z)
    (d : dict (list ref)) (r : ref) : dict (list ref) :=
  match row_of st cy_keys r with
  | Some bottom_y_limit => dict_append bottom_y_limit r d
  | None => d
  end.

Lemma organize_left_fold :
  forall st cy_keys left d,
    cy_keys <> [] ->
    organize_left st cy_keys left d
    = Ok (fold_left (organize_step st cy_keys) left d).
Proof.
  intros st cy_keys left. induction left as [|r t IH]; intros d Hk; simpl.
  - reflexivity.
  - destruct cy_keys as [|k ks]; [congruence|].
    rewrite IH by assumption. reflexivity.
Qed.

Lemma dict_append_In :
  forall (k : Z) (r : ref) (d : dict (list ref)) k' l' x,
    In (k', l') (dict_append k r d) -> In x l' ->
    (k' = k /\ x = r) \/ exists l0, In (k', l0) d /\ In x l0.
Proof.
  intros k r d k' l' x. unfold dict_append.
  destruct (dict_get k d) as [l|] eqn:Hget.
  - apply dict_get_In in Hget. revert Hget.
    induction d as [|[k0 l0] t IH]; simpl; [tauto|].
    intros Hget Hin Hx. destruct (Z.eqb_spec k k0) as [->|Hne].
    + destruct Hget as [Hget|Hget].
      * inversion Hget; subst. destruct Hin as [Hin|Hin].
        -- inversion Hin; subst. apply in_app_or in Hx.
           destruct Hx as [Hx|[<-|[]]]; [right|left; tauto].
           exists l. split; [now left|assumption].
        -- right. exists l'. split; [now right|assumption].
      * destruct Hin as [Hin|Hin].
        -- inversion Hin; subst. apply in_app_or in Hx.
           destruct Hx as [Hx|[<-|[]]]; [right|left; tauto].
           exists l. split; [now right|assumption].
        -- right. exists l'. split; [now right|assumption].
    + destruct Hget as [Hget|Hget]; [congruence|].
      destruct Hin as [Hin|Hin].
      * inversion Hin; subst. right. exists l'. split; [now left|assumption].
      * destruct (IH Hget Hin Hx) as [H|[l1 [H1 H2]]]; [now left|].
        right. exists l1. split; [now right|assumption].
  - rewrite dict_set_new by assumption. intros Hin Hx.
    apply in_app_or in Hin. destruct Hin as [Hin|[Hin|[]]].
    + right. exists l'. split; assumption.
    + inversion Hin; subst. destruct Hx as [<-|[]]. left; tauto.
Qed.

Section OrganizeLeft.

Variable st : store.
Variable cy_keys : list Z.

Definition rows_placed (d : dict (list ref)) : Prop :=
  NoDup (keys d)
  /\ forall k l r, In (k, l) d -> In r l -> row_of st cy_keys r = Some k.

Lemma organize_step_placed :
  forall d r, rows_placed d -> rows_placed (organize_step st cy_keys d r).
Proof.
  intros d r [H1 H2]. unfold organize_step.
  destruct (row_of st cy_keys r) as [b|] eqn:Hrow; [|split; assumption].
  split; [now apply dict_append_keys_NoDup|].
  intros k l x Hin Hx.
  destruct (dict_append_In b r d k l x Hin Hx) as [[-> ->]|[l0 [Hl0 Hx0]]].
  - assumption.
  - now apply (H2 k l0).
Qed.

Lemma organize_step_perm :
  forall d r,
    Permutation (concat (values (organize_step st cy_keys d r)))
      (concat (values d)
       ++ match row_of st cy_keys r with Some _ => [r] | None => [] end).
Proof.
  intros d r. unfold organize_step.
  destruct (row_of st cy_keys r); [apply dict_append_perm|].
  now rewrite app_nil_r.
Qed.

Definition placed (r : ref) : bool :=
  match row_of st cy_keys r with Some _ => true | None => false end.

Lemma organize_fold_inv :
  forall left d,
    rows_placed d ->
    rows_placed (fold_left (organize_step st cy_keys) left d)
    /\ Permutation
         (concat (values (fold_left (organize_step st cy_keys) left d)))
         (concat (values d) ++ filter placed left).
Proof.
  induction left as [|r t IH]; intros d Hd; simpl.
  - split; [assumption|]. now rewrite app_nil_r.
  - destruct (IH (organize_step st cy_keys d r)) as [H1 H2];
      [now apply organize_step_placed|].
    split; [assumption|]. rewrite H2, organize_step_perm.
    rewrite <- app_assoc. apply Permutation_app_head.
    unfold placed at 2. destruct (row_of st cy_keys r); reflexivity.
Qed.

End OrganizeLeft.

Lemma sort_rows_by_cx_keys :
  forall st (d : dict (list ref)), keys (sort_rows_by_cx st d) = keys d.
Proof.
  intros st d. unfold sort_rows_by_cx, keys. rewrite map_map. reflexivity.
Qed.

Lemma sort_rows_by_cx_In :
  forall st (d : dict (list ref)) k l',
    In (k, l') (sort_rows_by_cx st d) ->
    exists l, In (k, l) d /\ l' = sorted_by (fun r => cx (get st r)) l.
Proof.
  intros st d k l' H. unfold sort_rows_by_cx in H. apply in_map_iff in H.
  destruct H as [[k0 l0] [Heq Hin]]. simpl in Heq. inversion Heq; subst.
  exists l0. split; [assumption|reflexivity].
Qed.

Lemma sort_rows_by_cx_perm :
  forall st (d : dict (list ref)),
    Permutation (concat (values (sort_rows_by_cx st d))) (concat (values d)).
Proof.
  intros st d. induction d as [|[k l] t IH]; simpl; [reflexivity|].
  apply Permutation_app; [apply sorted_by_perm|exact IH].
Qed.

(** ** The nearest label *)

(** The square of the distance between the centroids of two records. *)
Definition d2 (c c' : ContourRecord) : Z :=
  ((cx c - cx c') * (cx c - cx c') + (cy c - cy c') * (cy c - cy c'))%Z.

Lemma linalg_norm_diff_d2 :
  forall c c',
    center c = (cx c, cy c) -> center c' = (cx c', cy c') ->
    linalg_norm_diff (center c) (center c') = sqrt_of (d2 c c').
Proof. intros c c' H H'. rewrite H, H'. reflexivity. Qed.

Lemma distance_ltb_irrefl : forall a, distance_ltb a a = false.
Proof. intros [|v]; simpl; [reflexivity|apply Z.ltb_irrefl]. Qed.

Lemma distance_ltb_trans :
  forall a b c,
    distance_ltb a b = true -> distance_ltb b c = true -> distance_ltb a c = true.
Proof.
  intros [|a] [|b] [|c]; simpl; try discriminate; try reflexivity.
  rewrite !Z.ltb_lt. lia.
Qed.

Lemma distance_ltb_asym :
  forall a b, distance_ltb a b = true -> distance_ltb b a = false.
Proof.
  intros [|a] [|b]; simpl; try discriminate; try reflexivity.
  rewrite Z.ltb_lt, Z.ltb_ge. lia.
Qed.

(** A distance below a bound is below every distance that is not. *)
Lemma distance_ltb_below :
  forall a x m,
    distance_ltb a m = false -> distance_ltb x m = true ->
    distance_ltb x a = true.
Proof.
  intros [|a] [|x] [|m]; simpl; try discriminate; try reflexivity.
  rewrite Z.ltb_lt, Z.ltb_ge, Z.ltb_lt. lia.
Qed.

Lemma nearest_id_ext :
  forall st st' left_cnt id_cnts acc,
    get st' left_cnt = get st left_cnt ->
    (forall x, In x id_cnts -> get st' x = get st x) ->
    nearest_id st' left_cnt id_cnts acc = nearest_id st left_cnt id_cnts acc.
Proof.
  intros st st' left_cnt id_cnts. induction id_cnts as [|x t IH];
    intros acc Hl Hx; simpl; [reflexivity|].
  destruct acc as [[m i] j]. rewrite Hl, (Hx x) by now left.
  apply IH; [assumption|]. intros y Hy. apply Hx. now right.
Qed.

Section NearestId.

Variable st : store.
Variable left_cnt : ref.

Definition dist_to (id_cnt : ref) : distance :=
  linalg_norm_diff (center (get st left_cnt)) (center (get st id_cnt)).

Definition label_of (id_cnt : ref) : distance * option string * option nat :=
  (dist_to id_cnt, chromo_id (get st id_cnt), chromo_idx (get st id_cnt)).

(** The loop returns its start value when no label is nearer than it, and
    otherwise the first of the labels whose distance is the smallest. *)
Lemma nearest_id_spec :
  forall id_cnts acc,
    (nearest_id st left_cnt id_cnts acc = acc
     /\ forall x, In x id_cnts -> distance_ltb (dist_to x) (fst (fst acc)) = false)
    \/ exists j x,
         nth_error id_cnts j = Some x
         /\ nearest_id st left_cnt id_cnts acc = label_of x
         /\ distance_ltb (dist_to x) (fst (fst acc)) = true
         /\ (forall y, In y id_cnts -> distance_ltb (dist_to y) (dist_to x) = false)
         /\ (forall j' y, j' < j -> nth_error id_cnts j' = Some y ->
                          distance_ltb (dist_to x) (dist_to y) = true).
Proof.
  induction id_cnts as [|a t IH]; intros acc.
  - left. split; [reflexivity|intros x []].
  - destruct acc as [[m i] k]. cbn [nearest_id fst].
    change (linalg_norm_diff (center (get st left_cnt)) (center (get st a)))
      with (dist_to a).
    destruct (distance_ltb (dist_to a) m) eqn:Ham.
    + destruct (IH (dist_to a, chromo_id (get st a), chromo_idx (get st a)))
        as [[Hres Hnone]|[j [x [Hj [Hres [Hlt [Hmin Hfirst]]]]]]]; cbn [fst] in *.
      * right. exists 0, a. split; [reflexivity|]. split; [exact Hres|].
        split; [exact Ham|]. split.
        -- intros y [<-|Hy]; [apply distance_ltb_irrefl|now apply Hnone].
        -- intros j' y Hj'. lia.
      * right. exists (S j), x. split; [exact Hj|]. split; [exact Hres|].
        split; [eapply distance_ltb_trans; eassumption|]. split.
        -- intros y [<-|Hy]; [now apply distance_ltb_asym|now apply Hmin].
        -- intros [|j'] y Hj' Hy; cbn [nth_error] in Hy.
           ++ inversion Hy; subst. assumption.
           ++ apply (Hfirst j'); [lia|assumption].
    + destruct (IH (m, i, k))
        as [[Hres Hnone]|[j [x [Hj [Hres [Hlt [Hmin Hfirst]]]]]]]; cbn [fst] in *.
      * left. split; [assumption|]. intros y [<-|Hy]; [assumption|now apply Hnone].
      * right. exists (S j), x. split; [exact Hj|]. split; [exact Hres|].
        split; [exact Hlt|]. split.
        -- intros y [<-|Hy]; [|now apply Hmin].
           apply distance_ltb_asym. eapply distance_ltb_below; eassumption.
        -- intros [|j'] y Hj' Hy; cbn [nth_error] in Hy.
           ++ inversion Hy; subst. eapply distance_ltb_below; eassumption.
           ++ apply (Hfirst j'); [lia|assumption].
Qed.

End NearestId.

(** ** The match of the other contours with the labels *)

Definition pairs_of (rows : dict (list ref)) : list (Z * ref) :=
  flat_map (fun row => map (pair (fst row)) (snd row)) rows.

(** The record of a contour of the row [cy_key] after the match. *)
Definition matched (id_rows : dict (list ref)) (st : store) (cy_key : Z)
    (left_cnt : ref) : ContourRecord :=
  let '(min_distance, chromo_id, chromo_idx) :=
    nearest_id st left_cnt (dict_item cy_key id_rows) (inf, None, None) in
  set_distance_to_id min_distance (set_chromo chromo_id chromo_idx (get st left_cnt)).

Lemma pairs_of_snd :
  forall rows, map snd (pairs_of rows) = concat (values rows).
Proof.
  induction rows as [|[k l] t IH]; simpl; [reflexivity|].
  rewrite map_app, IH, map_map. simpl. now rewrite map_id.
Qed.

Lemma pairs_of_In :
  forall rows k r, In (k, r) (pairs_of rows) <-> exists l, In (k, l) rows /\ In r l.
Proof.
  intros rows k r. unfold pairs_of. rewrite in_flat_map. split.
  - intros [[k0 l0] [Hin Hmap]]. simpl in Hmap. apply in_map_iff in Hmap.
    destruct Hmap as [x [Heq Hx]]. inversion Heq; subst. eauto.
  - intros [l [Hin Hr]]. exists (k, l). split; [assumption|].
    simpl. apply in_map_iff. eauto.
Qed.

Lemma match_rows_pairs :
  forall id_rows rows st,
    match_rows id_rows st rows
    = fold_left (fun st p => match_left_cnt id_rows (fst p) st (snd p))
        (pairs_of rows) st.
Proof.
  intros id_rows rows. unfold match_rows.
  induction rows as [|[k l] t IH]; intros st; simpl; [reflexivity|].
  rewrite fold_left_app, IH. f_equal.
  clear. revert st. induction l as [|r l IH]; intros st; simpl; [reflexivity|].
  apply IH.
Qed.

Lemma match_left_cnt_get :
  forall id_rows k st r x,
    get (match_left_cnt id_rows k st r) x
    = if (x =? r) && (r <? length st) then matched id_rows st k x else get st x.
Proof.
  intros id_rows k st r x. unfold match_left_cnt, matched.
  destruct (Nat.eqb_spec x r) as [->|Hne].
  - destruct (nearest_id st r (dict_item k id_rows) (inf, None, None))
      as [[m i] j]. now rewrite get_modify, Nat.eqb_refl.
  - destruct (nearest_id st r (dict_item k id_rows) (inf, None, None))
      as [[m i] j]. rewrite get_modify.
    destruct (Nat.eqb_spec x r); [congruence|reflexivity].
Qed.

Lemma match_left_cnt_length :
  forall id_rows k st r, length (match_left_cnt id_rows k st r) = length st.
Proof.
  intros id_rows k st r. unfold match_left_cnt.
  destruct (nearest_id st r (dict_item k id_rows) (inf, None, None)) as [[m i] j].
  apply modify_length.
Qed.

Lemma dict_item_incl :
  forall (d : dict (list ref)) k, incl (dict_item k d) (concat (values d)).
Proof.
  intros d k a Ha. unfold dict_item in Ha.
  destruct (dict_get k d) as [l|] eqn:Hget; [|destruct Ha].
  apply dict_get_In in Hget. apply in_concat. exists l. split; [|assumption].
  unfold values. change l with (snd (k, l)). now apply in_map.
Qed.

Lemma match_pairs_effect :
  forall id_rows pairs st,
    NoDup (map snd pairs) ->
    (forall p, In p pairs ->
               snd p < length st /\ ~ In (snd p) (concat (values id_rows))) ->
    let st' := fold_left (fun st p => match_left_cnt id_rows (fst p) st (snd p))
                 pairs st in
    length st' = length st
    /\ (forall r, ~ In r (map snd pairs) -> get st' r = get st r)
    /\ (forall k r, In (k, r) pairs -> get st' r = matched id_rows st k r).
Proof.
  intros id_rows pairs. induction pairs as [|[k r] t IH]; intros st Hnd Hp; simpl.
  - repeat split. intros k r [].
  - simpl in Hnd. inversion Hnd as [|? ? Hr Ht]; subst.
    destruct (Hp (k, r)) as [Hlen Hlab]; [now left|]. simpl in Hlen, Hlab.
    destruct (IH (match_left_cnt id_rows k st r) Ht) as [H1 [H2 H3]].
    { intros p Hin. rewrite match_left_cnt_length. apply Hp. now right. }
    split; [now rewrite H1, match_left_cnt_length|]. split.
    + intros x Hx. rewrite H2 by tauto. rewrite match_left_cnt_get.
      destruct (Nat.eqb_spec x r); [subst; tauto|reflexivity].
    + intros k' x [Heq|Hin].
      * inversion Heq; subst. rewrite H2 by assumption.
        rewrite match_left_cnt_get, Nat.eqb_refl.
        apply Nat.ltb_lt in Hlen. now rewrite Hlen.
      * rewrite (H3 k' x Hin). unfold matched.
        assert (Hx : x <> r).
        { intros ->. apply Hr. change r with (snd (k', r)). now apply in_map. }
        assert (Hget : forall y, y <> r ->
                         get (match_left_cnt id_rows k st r) y = get st y).
        { intros y Hy. rewrite match_left_cnt_get.
          destruct (Nat.eqb_spec y r); [congruence|reflexivity]. }
        rewrite (nearest_id_ext st (match_left_cnt id_rows k st r)).
        -- now rewrite Hget.
        -- now apply Hget.
        -- intros y Hy. apply Hget. intros ->. apply Hlab.
           now apply (dict_item_incl id_rows k').
Qed.

(** ** The state after the classification *)

Section Classify.

Variable Image : Type.
Variable E : Externals Image.
Variable cfg : Config.
Hypothesis cfg_rows : id_num_in_rows cfg = [5; 7; 6; 6].

Variable self : Karyotype Image.

(** The store after line 249. *)
Definition gathered : store :=
  gather_contours E (find_external_contours E (img_img (img self)) (BIN_THRESH cfg)).

Definition id_rows : dict (list ref) := label_rows cfg gathered.
Definition id_chars : list ref := concat (values (sorted_char_rows cfg gathered)).
Definition id_labels : list ref := concat (values id_rows).

(** The rows of lines 267 to 283 over the store [st]. *)
Definition left_rows (st : store) : dict (list ref) :=
  sort_rows_by_cx st
    (fold_left (organize_step st (keys id_rows)) (left_cntr_dicts st id_chars) []).

Lemma gathered_wf : wf_store gathered.
Proof. apply gather_contours_wf. Qed.

Lemma id_labels_NoDup : NoDup id_labels.
Proof. apply label_rows_NoDup. Qed.

Lemma id_labels_chars : incl id_labels id_chars.
Proof. apply label_rows_incl. Qed.

Lemma id_chars_valid : forall r, In r id_chars -> r < length gathered.
Proof. intros r H. now apply (sorted_char_rows_id_char cfg gathered). Qed.

Lemma id_labels_valid : forall r, In r id_labels -> r < length gathered.
Proof. intros r H. apply id_chars_valid. now apply id_labels_chars. Qed.

Lemma classify_unfold :
  forall self' st1 left,
    classify E cfg self = Ok (self', st1, left) ->
    exists stA,
      assign_cntrs gathered id_labels 0 = (stA, 24, None)
      /\ row_sizes id_rows = [5; 7; 6; 6]
      /\ self' = id_info_done Image cfg (with_cntr_dicts gathered self) stA
      /\ left = left_rows stA
      /\ st1 = match_rows id_rows stA left.
Proof.
  intros self' st1 left. unfold classify. fold gathered.
  destruct (id_info_cases Image cfg cfg_rows (with_cntr_dicts gathered self))
    as [[Hlen Hout]|[[Hlen [idx [l [n [Hw Hout]]]]]|[Hlen [Hsz [stA [Hasg Hout]]]]]];
    rewrite Hout; try discriminate.
  cbn [cntr_dicts with_cntr_dicts] in Hsz, Hasg.
  fold id_rows in Hsz, Hasg. fold id_labels in Hasg.
  unfold id_info_done.
  cbn [cntr_dicts with_cntr_dicts with_id with_id_char id_char_cntr_dicts
       id_cntr_dicts_orgby_cy].
  fold id_rows.
  assert (HgA : forall r, geometry (get stA r) = geometry (get gathered r)).
  { intros r. pose proof (assign_cntrs_geometry id_labels gathered 0) as [_ H].
    rewrite Hasg in H. apply H. }
  assert (HlenA : length stA = length gathered).
  { pose proof (assign_cntrs_geometry id_labels gathered 0) as [H _].
    now rewrite Hasg in H. }
  assert (HwfA : wf_store stA).
  { intros r Hr. apply (geometry_wf r (get gathered r)); [apply HgA|].
    apply gathered_wf. now rewrite <- HlenA. }
  rewrite (id_char_cntrs_cntr_idx_wf stA _ HwfA).
  2:{ intros r Hr. rewrite HlenA. now apply id_chars_valid. }
  fold id_chars.
  assert (Hkeys : keys id_rows <> []).
  { intros Hnil.
    assert (H : length (row_sizes id_rows) = 4) by now rewrite Hsz.
    unfold row_sizes in H. rewrite length_map in H.
    unfold keys in Hnil. apply (f_equal (@length Z)) in Hnil.
    rewrite length_map in Hnil. simpl in Hnil. lia. }
  rewrite organize_left_fold by assumption. cbn [bind].
  intros Heq. inversion Heq; subst. exists stA.
  repeat split; assumption.
Qed.

(** From here on: the store [stA] that [_id_info] leaves. *)

Variable stA : store.
Hypothesis stA_assigned : assign_cntrs gathered id_labels 0 = (stA, 24, None).
Hypothesis id_rows_sizes : row_sizes id_rows = [5; 7; 6; 6].

Lemma stA_length : length stA = length gathered.
Proof.
  pose proof (assign_cntrs_geometry id_labels gathered 0) as [H _].
  now rewrite stA_assigned in H.
Qed.

Lemma stA_geometry : forall r, geometry (get stA r) = geometry (get gathered r).
Proof.
  intros r. pose proof (assign_cntrs_geometry id_labels gathered 0) as [_ H].
  rewrite stA_assigned in H. apply H.
Qed.

Lemma stA_wf : wf_store stA.
Proof.
  intros r Hr. apply (geometry_wf r (get gathered r)); [apply stA_geometry|].
  apply gathered_wf. now rewrite <- stA_length.
Qed.

Lemma id_labels_length : length id_labels = 24.
Proof.
  unfold id_labels. now rewrite row_sizes_concat, id_rows_sizes.
Qed.

Lemma stA_labels :
  forall j r,
    nth_error id_labels j = Some r ->
    get stA r = set_chromo (nth_error chromo_id_list j) (Some j) (get gathered r).
Proof.
  intros j r Hj.
  destruct (assign_cntrs_ok id_labels gathered 0) as [st' [H1 [_ H3]]].
  { rewrite id_labels_length. simpl. lia. }
  rewrite stA_assigned in H1. inversion H1; subst st'.
  apply (H3 id_labels_NoDup id_labels_valid j r Hj).
Qed.

Lemma stA_others : forall r, ~ In r id_labels -> get stA r = get gathered r.
Proof.
  intros r Hr.
  destruct (assign_cntrs_ok id_labels gathered 0) as [st' [H1 [H2 _]]].
  { rewrite id_labels_length. simpl. lia. }
  rewrite stA_assigned in H1. inversion H1; subst st'. now apply H2.
Qed.

Lemma stA_cy : forall r, cy (get stA r) = cy (get gathered r).
Proof.
  intros r. pose proof (stA_geometry r) as H. unfold geometry in H.
  now inversion H.
Qed.

(** *** The rows of the other contours *)

Definition unsorted_left_rows : dict (list ref) :=
  fold_left (organize_step stA (keys id_rows)) (left_cntr_dicts stA id_chars) [].

Lemma unsorted_left_rows_placed : rows_placed stA (keys id_rows) unsorted_left_rows.
Proof.
  apply organize_fold_inv. split; [constructor|intros k l r []].
Qed.

Lemma unsorted_left_rows_perm :
  Permutation (concat (values unsorted_left_rows))
    (filter (placed stA (keys id_rows)) (left_cntr_dicts stA id_chars)).
Proof.
  destruct (organize_fold_inv stA (keys id_rows) (left_cntr_dicts stA id_chars) [])
    as [_ H]; [split; [constructor|intros k l r []]|].
  exact H.
Qed.

Lemma left_rows_keys : NoDup (keys (left_rows stA)).
Proof.
  unfold left_rows. rewrite sort_rows_by_cx_keys.
  apply unsorted_left_rows_placed.
Qed.

Lemma left_rows_perm :
  Permutation (concat (values (left_rows stA)))
    (filter (placed stA (keys id_rows)) (left_cntr_dicts stA id_chars)).
Proof.
  unfold left_rows. rewrite sort_rows_by_cx_perm. apply unsorted_left_rows_perm.
Qed.

Lemma left_rows_NoDup : NoDup (concat (values (left_rows stA))).
Proof.
  apply (Permutation_NoDup (Permutation_sym left_rows_perm)).
  apply NoDup_filter, left_cntr_dicts_NoDup.
Qed.

Lemma In_values_concat :
  forall (d : dict (list ref)) k l r, In (k, l) d -> In r l -> In r (concat (values d)).
Proof.
  intros d k l r H Hr. apply in_concat. exists l. split; [|assumption].
  unfold values. change l with (snd (k, l)). now apply in_map.
Qed.

Lemma left_rows_In :
  forall k l r,
    In (k, l) (left_rows stA) -> In r l ->
    r < length gathered /\ ~ In r id_chars
    /\ row_of gathered (keys id_rows) r = Some k.
Proof.
  intros k l r Hin Hr.
  assert (Hc : In r (concat (values (left_rows stA))))
    by (eapply In_values_concat; eassumption).
  apply (Permutation_in _ left_rows_perm) in Hc.
  apply filter_In in Hc. destruct Hc as [Hleft _].
  apply (left_cntr_dicts_In stA id_chars r stA_wf) in Hleft.
  destruct Hleft as [Hlen Hnot]. rewrite stA_length in Hlen.
  split; [assumption|]. split; [assumption|].
  unfold left_rows in Hin. apply sort_rows_by_cx_In in Hin.
  destruct Hin as [l0 [Hl0 ->]]. apply sorted_by_In in Hr.
  destruct unsorted_left_rows_placed as [_ H].
  specialize (H k l0 r Hl0 Hr). unfold row_of in *. now rewrite <- stA_cy.
Qed.

Lemma left_rows_complete :
  forall k r,
    r < length gathered -> ~ In r id_chars ->
    row_of gathered (keys id_rows) r = Some k ->
    exists l, In (k, l) (left_rows stA) /\ In r l.
Proof.
  intros k r Hlen Hnot Hrow.
  assert (Hrow' : row_of stA (keys id_rows) r = Some k).
  { unfold row_of in *. now rewrite stA_cy. }
  assert (Hc : In r (concat (values unsorted_left_rows))).
  { apply (Permutation_in _ (Permutation_sym unsorted_left_rows_perm)).
    apply filter_In. split.
    - apply (left_cntr_dicts_In stA id_chars r stA_wf).
      rewrite stA_length. tauto.
    - unfold placed. now rewrite Hrow'. }
  apply in_concat in Hc. destruct Hc as [l [Hl Hr]].
  unfold values in Hl. apply in_map_iff in Hl.
  destruct Hl as [[k' l'] [Heq Hin]]. simpl in Heq. subst l'.
  destruct unsorted_left_rows_placed as [_ H].
  pose proof (H k' l r Hin Hr) as Hk. rewrite Hrow' in Hk. inversion Hk; subst k'.
  exists (sorted_by (fun x => cx (get stA x)) l). split.
  - unfold left_rows, sort_rows_by_cx. apply in_map_iff.
    exists (k, l). split; [reflexivity|assumption].
  - now apply sorted_by_In.
Qed.

Lemma left_rows_unplaced :
  forall r,
    row_of gathered (keys id_rows) r = None ->
    ~ In r (concat (values (left_rows stA))).
Proof.
  intros r Hrow Hc. apply (Permutation_in _ left_rows_perm) in Hc.
  apply filter_In in Hc. destruct Hc as [_ Hp]. unfold placed, row_of in Hp.
  rewrite stA_cy in Hp. unfold row_of in Hrow. rewrite Hrow in Hp. discriminate.
Qed.

(** *** The store after the match *)

Definition classified : store := match_rows id_rows stA (left_rows stA).

Lemma classified_effect :
  length classified = length gathered
  /\ (forall r, ~ In r (concat (values (left_rows stA))) ->
                get classified r = get stA r)
  /\ (forall k l r, In (k, l) (left_rows stA) -> In r l ->
                    get classified r = matched id_rows stA k r).
Proof.
  unfold classified. rewrite match_rows_pairs.
  destruct (match_pairs_effect id_rows (pairs_of (left_rows stA)) stA)
    as [H1 [H2 H3]].
  - rewrite pairs_of_snd. apply left_rows_NoDup.
  - intros [k r] Hp. apply pairs_of_In in Hp. destruct Hp as [l [Hl Hr]].
    destruct (left_rows_In k l r Hl Hr) as [Hlen [Hnot _]]. simpl.
    rewrite stA_length. split; [assumption|].
    intros Hlab. apply Hnot. now apply id_labels_chars.
  - rewrite pairs_of_snd in H2. split; [now rewrite H1, stA_length|].
    split; [assumption|].
    intros k l r Hl Hr. apply H3. apply pairs_of_In. eauto.
Qed.

End Classify.

Arguments gathered {Image} E cfg self.
Arguments id_rows {Image} E cfg self.
Arguments id_chars {Image} E cfg self.
Arguments id_labels {Image} E cfg self.
Arguments left_rows {Image} E cfg self st.
Arguments classified {Image} E cfg self stA.

(** ** The rows as bands *)

Lemma last_cons_default :
  forall (l : list Z) x d d', last (x :: l) d = last (x :: l) d'.
Proof.
  induction l as [|y t IH]; intros x d d'; [reflexivity|].
  change (last (y :: t) d = last (y :: t) d'). apply IH.
Qed.

Lemma last_cons_last :
  forall (l : list Z) x d, last (x :: l) d = last l x.
Proof.
  induction l as [|y t IH]; intros x d; [reflexivity|].
  change (last (y :: t) d = last (y :: t) x). apply last_cons_default.
Qed.

Lemma find_row_Some :
  forall c cy_keys top b,
    find_row c cy_keys top = Some b ->
    exists pre post,
      cy_keys = pre ++ b :: post /\ (last pre top < c)%Z /\ (c < b)%Z.
Proof.
  intros c cy_keys. induction cy_keys as [|k t IH]; intros top b; simpl;
    [discriminate|].
  destruct (Z.ltb_spec top c) as [H1|H1]; simpl.
  - destruct (Z.ltb_spec c k) as [H2|H2].
    + intros H; inversion H; subst. exists [], t. simpl. tauto.
    + intros H. destruct (IH k b H) as [pre [post [Heq [Hl Hb]]]].
      exists (k :: pre), post. rewrite Heq. split; [reflexivity|].
      split; [|assumption]. now rewrite last_cons_last.
  - intros H. destruct (IH k b H) as [pre [post [Heq [Hl Hb]]]].
    exists (k :: pre), post. rewrite Heq. split; [reflexivity|].
    split; [|assumption]. now rewrite last_cons_last.
Qed.

Lemma find_row_None :
  forall c cy_keys top,
    find_row c cy_keys top = None ->
    forall pre b post,
      cy_keys = pre ++ b :: post -> ~ (last pre top < c /\ c < b)%Z.
Proof.
  intros c cy_keys. induction cy_keys as [|k t IH]; intros top Hnone pre b post Heq.
  - destruct pre; discriminate.
  - simpl in Hnone.
    destruct (Z.ltb_spec top c) as [H1|H1]; destruct (Z.ltb_spec c k) as [H2|H2];
      simpl in Hnone; try discriminate;
      (destruct pre as [|p pre]; simpl in Heq; inversion Heq; subst;
       [simpl; lia|]);
      (intros Hb; apply (IH p Hnone pre b post eq_refl);
       rewrite last_cons_last in Hb; assumption).
Qed.

Lemma find_row_In :
  forall c cy_keys top b, find_row c cy_keys top = Some b -> In b cy_keys.
Proof.
  intros c cy_keys top b H. destruct (find_row_Some c cy_keys top b H)
    as [pre [post [-> _]]]. apply in_or_app. right. now left.
Qed.

(** ** The labels after [_id_info] *)

Section Labels.

Variable Image : Type.
Variable E : Externals Image.
Variable cfg : Config.
Variable self : Karyotype Image.
Variable stA : store.
Hypothesis stA_assigned :
  assign_cntrs (gathered E cfg self) (id_labels E cfg self) 0 = (stA, 24, None).
Hypothesis id_rows_sizes : row_sizes (id_rows E cfg self) = [5; 7; 6; 6].

Lemma id_rows_nonempty :
  forall k lk, In (k, lk) (id_rows E cfg self) -> lk <> [].
Proof.
  intros k lk Hin. apply In_nth_error in Hin. destruct Hin as [n Hn].
  assert (Hs : nth_error (row_sizes (id_rows E cfg self)) n = Some (length lk)).
  { unfold row_sizes. now rewrite nth_error_map, Hn. }
  rewrite id_rows_sizes in Hs. intros ->. simpl in Hs.
  destruct n as [|[|[|[|n]]]]; simpl in Hs; try discriminate.
  destruct n; discriminate.
Qed.

Lemma label_has_id :
  forall x,
    In x (id_labels E cfg self) ->
    exists j id,
      nth_error (id_labels E cfg self) j = Some x
      /\ nth_error chromo_id_list j = Some id
      /\ chromo_id (get stA x) = Some id
      /\ chromo_idx (get stA x) = Some j.
Proof.
  intros x Hx. apply In_nth_error in Hx. destruct Hx as [j Hj].
  assert (Hlt : j < 24).
  { rewrite <- (id_labels_length Image E cfg self id_rows_sizes).
    apply nth_error_Some. congruence. }
  destruct (nth_error chromo_id_list j) as [id|] eqn:Hid.
  2:{ apply nth_error_None in Hid. simpl in Hid. lia. }
  exists j, id. split; [assumption|]. split; [exact Hid|].
  rewrite (stA_labels Image E cfg self stA stA_assigned id_rows_sizes j x Hj).
  rewrite Hid. split; reflexivity.
Qed.

(** The record of a contour of a row after the match: the number of the
    first nearest label of the row. *)
Lemma matched_spec :
  forall k lk r,
    In (k, lk) (id_rows E cfg self) ->
    wf_record r (get stA r) ->
    (forall x, In x lk -> wf_record x (get stA x)) ->
    exists j x,
      nth_error lk j = Some x
      /\ matched (id_rows E cfg self) stA k r
         = set_distance_to_id (sqrt_of (d2 (get stA r) (get stA x)))
             (set_chromo (chromo_id (get stA x)) (chromo_idx (get stA x))
                (get stA r))
      /\ (forall y, In y lk ->
            (d2 (get stA r) (get stA x) <= d2 (get stA r) (get stA y))%Z)
      /\ (forall j' y, j' < j -> nth_error lk j' = Some y ->
            (d2 (get stA r) (get stA x) < d2 (get stA r) (get stA y))%Z).
Proof.
  intros k lk r Hin Hr Hlk.
  assert (Hitem : dict_item k (id_rows E cfg self) = lk).
  { unfold dict_item.
    rewrite (In_dict_get _ k lk (id_rows E cfg self)
               (label_rows_keys_NoDup cfg _) Hin). reflexivity. }
  assert (Hd : forall x, In x lk ->
                 dist_to stA r x = sqrt_of (d2 (get stA r) (get stA x))).
  { intros x Hx. unfold dist_to. apply linalg_norm_diff_d2;
      [apply Hr|apply (Hlk x Hx)]. }
  unfold matched. rewrite Hitem.
  destruct (nearest_id_spec stA r lk (inf, None, None))
    as [[_ Hnone]|[j [x [Hj [Hres [_ [Hmin Hfirst]]]]]]].
  - exfalso. destruct lk as [|x t] eqn:Hlk0.
    + now apply (id_rows_nonempty k [] Hin).
    + specialize (Hnone x (or_introl eq_refl)). rewrite Hd in Hnone by now left.
      discriminate.
  - exists j, x. split; [assumption|].
    assert (Hx : In x lk) by (eapply nth_error_In; eassumption).
    rewrite Hres. unfold label_of. rewrite (Hd x Hx). split; [reflexivity|].
    split.
    + intros y Hy. specialize (Hmin y Hy). rewrite (Hd x Hx), (Hd y Hy) in Hmin.
      simpl in Hmin. now apply Z.ltb_ge in Hmin.
    + intros j' y Hj' Hy. specialize (Hfirst j' y Hj' Hy).
      assert (Hy' : In y lk) by (eapply nth_error_In; eassumption).
      rewrite (Hd x Hx), (Hd y Hy') in Hfirst. simpl in Hfirst.
      now apply Z.ltb_lt in Hfirst.
Qed.

End Labels.

Lemma In_keys_exists :
  forall (d : dict (list ref)) k, In k (keys d) -> exists l, In (k, l) d.
Proof.
  intros d k H. unfold keys in H. apply in_map_iff in H.
  destruct H as [[k' l] [Heq Hin]]. simpl in Heq. subst. eauto.
Qed.

Lemma d2_geometry :
  forall a a' b b',
    geometry a = geometry a' -> geometry b = geometry b' -> d2 a b = d2 a' b'.
Proof.
  intros a a' b b' Ha Hb. unfold geometry in *. inversion Ha. inversion Hb.
  unfold d2. congruence.
Qed.

(** The record of a contour of a row after the classification. *)
Lemma classified_row_record :
  forall (Image : Type) (E : Externals Image) (cfg : Config)
         (self self' : Karyotype Image) (st : store) (left : dict (list ref))
         (k : Z) (l : list ref) (r : ref),
    id_num_in_rows cfg = [5; 7; 6; 6] ->
    classify E cfg self = Ok (self', st, left) ->
    In (k, l) left ->
    In r l ->
    exists j lab J id,
      nth_error (dict_item k (id_cntr_dicts_orgby_cy self')) j = Some lab
      /\ nth_error chromo_id_list J = Some id
      /\ chromo_id (get st lab) = Some id
      /\ chromo_idx (get st lab) = Some J
      /\ chromo_id (get st r) = Some id
      /\ chromo_idx (get st r) = Some J
      /\ distance_to_id (get st r) = Some (sqrt_of (d2 (get st r) (get st lab)))
      /\ (forall lab', In lab' (dict_item k (id_cntr_dicts_orgby_cy self')) ->
            (d2 (get st r) (get st lab) <= d2 (get st r) (get st lab'))%Z)
      /\ (forall j' lab',
            j' < j ->
            nth_error (dict_item k (id_cntr_dicts_orgby_cy self')) j' = Some lab' ->
            (d2 (get st r) (get st lab) < d2 (get st r) (get st lab'))%Z).
Proof.
  intros Image E cfg self self' st left k l r Hcfg Hcl Hin Hr.
  destruct (classify_unfold Image E cfg Hcfg self self' st left Hcl)
    as [stA [Hasg [Hsz [-> [-> ->]]]]].
  fold (classified E cfg self stA).
  destruct (classified_effect Image E cfg self stA Hasg) as [Hlen [Hout Hrow]].
  destruct (left_rows_In Image E cfg self stA Hasg k l r Hin Hr)
    as [Hvalid [Hnot Hband]].
  assert (Hk : In k (keys (id_rows E cfg self))).
  { unfold row_of in Hband. eapply find_row_In; eassumption. }
  destruct (In_keys_exists _ k Hk) as [lk Hlk].
  assert (Hitem : dict_item k (id_rows E cfg self) = lk).
  { unfold dict_item.
    rewrite (In_dict_get _ k lk (id_rows E cfg self)
               (label_rows_keys_NoDup cfg _) Hlk). reflexivity. }
  assert (Hwf := stA_wf Image E cfg self stA Hasg).
  assert (Hlab : forall x, In x lk -> In x (id_labels E cfg self)).
  { intros x Hx. eapply In_values_concat; eassumption. }
  assert (HlenA := stA_length Image E cfg self stA Hasg).
  destruct (matched_spec Image E cfg self stA Hsz k lk r Hlk)
    as [j [x [Hj [Hm [Hmin Hfirst]]]]].
  { apply Hwf. now rewrite HlenA. }
  { intros x Hx. apply Hwf. rewrite HlenA.
    apply (id_labels_valid Image E cfg self). now apply Hlab. }
  assert (Hsame : forall y, In y lk -> get (classified E cfg self stA) y = get stA y).
  { intros y Hy. apply Hout. intros Hc.
    apply in_concat in Hc. destruct Hc as [l' [Hl' Hyl']].
    unfold values in Hl'. apply in_map_iff in Hl'.
    destruct Hl' as [[k' l0] [Heq Hin']]. simpl in Heq. subst l0.
    destruct (left_rows_In Image E cfg self stA Hasg k' l' y Hin' Hyl')
      as [_ [Hnot' _]].
    apply Hnot'. apply (id_labels_chars Image E cfg self). now apply Hlab. }
  assert (Hget := Hrow k l r Hin Hr). rewrite Hm in Hget.
  assert (Hgeo : geometry (get (classified E cfg self stA) r) = geometry (get stA r)).
  { rewrite Hget. reflexivity. }
  assert (Hd2 : forall y, In y lk ->
                  d2 (get (classified E cfg self stA) r)
                     (get (classified E cfg self stA) y)
                  = d2 (get stA r) (get stA y)).
  { intros y Hy. apply d2_geometry; [assumption|]. now rewrite (Hsame y Hy). }
  assert (Hx : In x lk) by (eapply nth_error_In; eassumption).
  cbn [id_info_done id_cntr_dicts_orgby_cy with_id cntr_dicts with_cntr_dicts].
  fold (gathered E cfg self). fold (id_rows E cfg self). rewrite Hitem.
  destruct (label_has_id Image E cfg self stA Hasg Hsz x (Hlab x Hx))
    as [J [id [_ [HJ [Hid Hidx]]]]].
  exists j, x, J, id. split; [assumption|]. split; [assumption|].
  rewrite (Hd2 x Hx), (Hsame x Hx).
  split; [assumption|]. split; [assumption|].
  split; [rewrite Hget; simpl; assumption|].
  split; [rewrite Hget; simpl; assumption|].
  split; [now rewrite Hget|]. split.
  - intros y Hy. rewrite (Hd2 y Hy). now apply Hmin.
  - intros j' y Hj' Hy.
    rewrite (Hd2 y) by (eapply nth_error_In; eassumption).
    now apply (Hfirst j').
Qed.

(** C7.  After the classification every contour of a row carries the
    number and the index of a label of the same row whose centroid is at the
    smallest Euclidean distance from its own, its [distance_to_id] is that
    distance, and among the labels at that distance it is the first of the
    row that gives its number. *)
Theorem classified_by_first_nearest_label :
  forall (Image : Type) (E : Externals Image) (cfg : Config)
         (self self' : Karyotype Image) (st : store) (left : dict (list ref))
         (k : Z) (l : list ref) (r : ref),
    id_num_in_rows cfg = [5; 7; 6; 6] ->
    classify E cfg self = Ok (self', st, left) ->
    In (k, l) left ->
    In r l ->
    exists j lab,
      nth_error (dict_item k (id_cntr_dicts_orgby_cy self')) j = Some lab
      /\ chromo_id (get st r) = chromo_id (get st lab)
      /\ chromo_idx (get st r) = chromo_idx (get st lab)
      /\ (exists id, chromo_id (get st r) = Some id)
      /\ distance_to_id (get st r) = Some (sqrt_of (d2 (get st r) (get st lab)))
      /\ (forall lab', In lab' (dict_item k (id_cntr_dicts_orgby_cy self')) ->
            (d2 (get st r) (get st lab) <= d2 (get st r) (get st lab'))%Z)
      /\ (forall j' lab',
            j' < j ->
            nth_error (dict_item k (id_cntr_dicts_orgby_cy self')) j' = Some lab' ->
            (d2 (get st r) (get st lab) < d2 (get st r) (get st lab'))%Z).
Proof.
  intros Image E cfg self self' st left k l r Hcfg Hcl Hin Hr.
  destruct (classified_row_record Image E cfg self self' st left k l r
              Hcfg Hcl Hin Hr)
    as [j [lab [J [id [H1 [H2 [H3 [H4 [H5 [H6 [H7 [H8 H9]]]]]]]]]]]].
  exists j, lab. split; [assumption|]. split; [congruence|].
  split; [congruence|]. split; [eauto|]. repeat split; assumption.
Qed.

Lemma matched_geometry :
  forall rows st k r, geometry (matched rows st k r) = geometry (get st r).
Proof.
  intros rows st k r. unfold matched.
  destruct (nearest_id st r (dict_item k rows) (inf, None, None)) as [[m i] j].
  reflexivity.
Qed.

Lemma classified_geometry :
  forall (Image : Type) (E : Externals Image) (cfg : Config)
         (self : Karyotype Image) (stA : store),
    assign_cntrs (gathered E cfg self) (id_labels E cfg self) 0 = (stA, 24, None) ->
    forall r, geometry (get (classified E cfg self stA) r)
              = geometry (get (gathered E cfg self) r).
Proof.
  intros Image E cfg self stA Hasg r.
  destruct (classified_effect Image E cfg self stA Hasg) as [_ [Hout Hrow]].
  rewrite <- (stA_geometry Image E cfg self stA Hasg r).
  destruct (in_dec Nat.eq_dec r (concat (values (left_rows E cfg self stA))))
    as [Hin|Hnot].
  - apply in_concat in Hin. destruct Hin as [l [Hl Hr]].
    unfold values in Hl. apply in_map_iff in Hl.
    destruct Hl as [[k l0] [Heq Hin]]. simpl in Heq. subst l0.
    rewrite (Hrow k l r Hin Hr). apply matched_geometry.
  - now rewrite (Hout r Hnot).
Qed.

(** What the classification does with a contour that is not a label
    character.  When its vertical centroid lies strictly between the
    boundary above a row (0 for the first row) and the vertical centroid of
    the labels of the row, it stands in the list of that row and of no other
    row, once, and carries one chromosome number with its index.  When its
    vertical centroid lies in no such range, the loop of lines 272 to 279
    runs to its end without a row for it: the contour stands in no row and
    carries no number. *)
Lemma contour_inside_a_band_is_classified :
  forall (Image : Type) (E : Externals Image) (cfg : Config)
         (self self' : Karyotype Image) (st : store) (left : dict (list ref))
         (r : ref),
    id_num_in_rows cfg = [5; 7; 6; 6] ->
    classify E cfg self = Ok (self', st, left) ->
    r < length st ->
    ~ In r (concat (id_char_cntr_dicts self')) ->
    let cy_keys := keys (id_cntr_dicts_orgby_cy self') in
    cntr_idx (get st r) = r
    /\ NoDup (concat (values left))
    /\ match find_row (cy (get st r)) cy_keys 0 with
       | Some k =>
           (exists pre post,
              cy_keys = pre ++ k :: post
              /\ (last pre 0 < cy (get st r))%Z /\ (cy (get st r) < k)%Z)
           /\ (exists l, In (k, l) left /\ In r l)
           /\ (forall k' l', In (k', l') left -> In r l' -> k' = k)
           /\ exists id idx,
                chromo_id (get st r) = Some id
                /\ chromo_idx (get st r) = Some idx
                /\ nth_error chromo_id_list idx = Some id
       | None =>
           (forall pre b post,
              cy_keys = pre ++ b :: post ->
              ~ (last pre 0 < cy (get st r) /\ cy (get st r) < b)%Z)
           /\ ~ In r (concat (values left))
           /\ chromo_id (get st r) = None
           /\ chromo_idx (get st r) = None
       end.
Proof.
  intros Image E cfg self self' st left r Hcfg Hcl Hlen Hnot cy_keys.
  destruct (classify_unfold Image E cfg Hcfg self self' st left Hcl)
    as [stA [Hasg [Hsz [Hself [Hleft Hst]]]]].
  assert (Hst' : st = classified E cfg self stA) by (now subst).
  destruct (classified_effect Image E cfg self stA Hasg) as [HlenC [Hout Hrow]].
  assert (Hgeo := classified_geometry Image E cfg self stA Hasg r).
  rewrite <- Hst' in Hgeo, HlenC.
  assert (Hkeys : cy_keys = keys (id_rows E cfg self)).
  { unfold cy_keys. rewrite Hself. reflexivity. }
  assert (Hchars : concat (id_char_cntr_dicts self') = id_chars E cfg self).
  { rewrite Hself. reflexivity. }
  rewrite Hchars in Hnot. rewrite HlenC in Hlen.
  assert (Hcy : cy (get st r) = cy (get (gathered E cfg self) r)).
  { unfold geometry in Hgeo. now inversion Hgeo. }
  assert (Hidx : cntr_idx (get st r) = r).
  { unfold geometry in Hgeo. inversion Hgeo as [[H1 H2]].
    rewrite H1. now apply (gathered_wf Image E cfg self). }
  assert (Hnd : NoDup (concat (values left))).
  { rewrite Hleft. apply (left_rows_NoDup Image E cfg self stA). }
  split; [assumption|]. split; [assumption|].
  rewrite Hkeys, Hcy.
  destruct (find_row (cy (get (gathered E cfg self) r)) (keys (id_rows E cfg self)) 0)
    as [k|] eqn:Hrowof.
  - split; [now apply find_row_Some|].
    destruct (left_rows_complete Image E cfg self stA Hasg k r Hlen Hnot Hrowof)
      as [l [Hl Hr]].
    rewrite <- Hleft in Hl.
    split; [eauto|]. split.
    + intros k' l' Hl' Hr'.
      apply (dict_rows_disjoint _ left k' l' k l r); try assumption.
      rewrite Hleft. apply (left_rows_keys Image E cfg self stA).
    + destruct (classified_row_record Image E cfg self self' st left k l r
                  Hcfg Hcl Hl Hr)
        as [j [lab [J [id [_ [H2 [_ [_ [H5 [H6 _]]]]]]]]]].
      exists id, J. repeat split; assumption.
  - split; [now apply find_row_None|].
    assert (Hno : ~ In r (concat (values (left_rows E cfg self stA)))).
    { now apply (left_rows_unplaced Image E cfg self stA Hasg). }
    rewrite Hleft. split; [assumption|].
    rewrite Hst', (Hout r Hno).
    rewrite (stA_others Image E cfg self stA Hasg Hsz r).
    + apply gather_contours_no_id.
    + intros Hlab. apply Hnot. now apply (id_labels_chars Image E cfg self).
Qed.

(** ** The removal of the merged pieces *)

Lemma insert_by_last :
  forall (A : Type) (key : A -> Z) (x : A) (l : list A),
    (forall y, In y l -> (key y < key x)%Z) -> insert_by key x l = l ++ [x].
Proof.
  intros A key x l. induction l as [|y t IH]; intros H; simpl; [reflexivity|].
  destruct (Z.leb_spec (key x) (key y)) as [Hle|Hlt].
  - specialize (H y (or_introl eq_refl)). lia.
  - rewrite IH; [reflexivity|]. intros z Hz. apply H. now right.
Qed.

(** [sorted(l, reverse=True)] of ascending indices. *)
Fixpoint strictly_ascending (l : list nat) : Prop :=
  match l with
  | [] => True
  | x :: t => (forall y, In y t -> x < y) /\ strictly_ascending t
  end.

Lemma sorted_reverse_ascending :
  forall l, strictly_ascending l ->
            sorted_by (fun idx => (- Z.of_nat idx)%Z) l = rev l.
Proof.
  induction l as [|x t IH]; intros H; simpl; [reflexivity|].
  destruct H as [Hx Ht]. rewrite (IH Ht). apply insert_by_last.
  intros y Hy. apply in_rev in Hy. specialize (Hx y Hy). lia.
Qed.

Section Delete.

Variable A : Type.
Variable marked : A -> bool.

Definition marked_idx (l : list A) : list nat :=
  map fst (filter (fun ic => marked (snd ic)) (enumerate l)).

Lemma marked_idx_cons :
  forall x l,
    marked_idx (x :: l)
    = (if marked x then [0] else []) ++ map S (marked_idx l).
Proof.
  intros x l. unfold marked_idx, enumerate. simpl.
  assert (H : map fst (filter (fun ic : nat * A => marked (snd ic))
                         (combine (seq 1 (length l)) l))
              = map S (map fst (filter (fun ic : nat * A => marked (snd ic))
                                  (combine (seq 0 (length l)) l)))).
  { generalize 0. induction l as [|y t IH]; intros off; simpl; [reflexivity|].
    destruct (marked y); simpl; [f_equal|]; apply (IH (S off)). }
  destruct (marked x); simpl; now rewrite H.
Qed.

Lemma marked_idx_ascending : forall l, strictly_ascending (marked_idx l).
Proof.
  induction l as [|x t IH]; [exact I|].
  rewrite marked_idx_cons.
  assert (Hs : strictly_ascending (map S (marked_idx t))).
  { clear - IH. induction (marked_idx t) as [|a m IHm]; simpl; [exact I|].
    destruct IH as [H1 H2]. split; [|now apply IHm].
    intros y Hy. apply in_map_iff in Hy. destruct Hy as [z [<- Hz]].
    specialize (H1 z Hz). lia. }
  destruct (marked x); simpl; [|assumption].
  split; [|assumption]. intros y Hy. apply in_map_iff in Hy.
  destruct Hy as [z [<- _]]. lia.
Qed.

Lemma del_at_shift :
  forall (idxs : list nat) (x : A) (l : list A),
    fold_left (fun l idx => del_at idx l) (map S idxs) (x :: l)
    = x :: fold_left (fun l idx => del_at idx l) idxs l.
Proof.
  induction idxs as [|i t IH]; intros x l; simpl; [reflexivity|].
  apply IH.
Qed.

Lemma delete_marked_filter :
  forall l,
    fold_left (fun l idx => del_at idx l) (rev (marked_idx l)) l
    = filter (fun x => negb (marked x)) l.
Proof.
  induction l as [|x t IH]; [reflexivity|].
  rewrite marked_idx_cons, rev_app_distr, fold_left_app, <- map_rev.
  rewrite del_at_shift, IH. simpl.
  destruct (marked x); reflexivity.
Qed.

End Delete.

Lemma delete_small_cnts_filter :
  forall st del row,
    delete_small_cnts st del row
    = filter (fun r => negb (existsb (Nat.eqb (cntr_idx (get st r))) del)) row.
Proof.
  intros st del row. unfold delete_small_cnts.
  change (map fst
            (filter (fun ic : nat * ref =>
                       existsb (Nat.eqb (cntr_idx (get st (snd ic)))) del)
               (enumerate row)))
    with (marked_idx ref (fun r => existsb (Nat.eqb (cntr_idx (get st r))) del) row).
  rewrite sorted_reverse_ascending by apply marked_idx_ascending.
  apply delete_marked_filter.
Qed.

(** ** The merge of the small pieces *)

(** What a merge leaves untouched in a record. *)
Definition ids (c : ContourRecord) :=
  (cntr_idx c, chromo_id c, chromo_idx c, distance_to_id c).

Lemma chromo_id_eqb_eq : forall a b, chromo_id_eqb a b = true <-> a = b.
Proof.
  intros [a|] [b|]; simpl; split; intros H; try discriminate; try reflexivity.
  - apply String.eqb_eq in H. now subst.
  - inversion H. apply String.eqb_refl.
Qed.

Lemma for_each_app :
  forall (A S : Type) (body : S -> A -> result S) (l1 l2 : list A) (s : S),
    for_each body (l1 ++ l2) s
    = bind (for_each body l1 s) (for_each body l2).
Proof.
  intros A S body l1. induction l1 as [|x t IH]; intros l2 s; simpl; [reflexivity|].
  destruct (body s x) as [s'|e]; simpl; [apply IH|reflexivity].
Qed.

Section Merger.

Variable Image : Type.
Variable E : Externals Image.
Variable cfg : Config.

Lemma update_merged_cnt_cases :
  forall main merged_cnt,
    (Qeq_bool (m00 (moments E merged_cnt)) 0 = true
     /\ forall st, update_merged_cnt E st main merged_cnt = Raise ZeroDivisionError)
    \/ (Qeq_bool (m00 (moments E merged_cnt)) 0 = false
        /\ exists cx cy,
             forall st,
               update_merged_cnt E st main merged_cnt
               = Ok (modify (set_merged_cnt E merged_cnt cx cy) main st)).
Proof.
  intros main merged_cnt. unfold update_merged_cnt, py_div.
  destruct (Qeq_bool (m00 (moments E merged_cnt)) 0); simpl.
  - left. split; reflexivity.
  - right. split; [reflexivity|]. eexists; eexists; reflexivity.
Qed.

Lemma nearest_main_branch_agree :
  forall st_a st_b small mains acc,
    (forall r, In r (small :: mains) -> get st_a r = get st_b r) ->
    nearest_main_branch E st_a small mains acc
    = nearest_main_branch E st_b small mains acc.
Proof.
  intros st_a st_b small mains. induction mains as [|m t IH]; intros acc H;
    simpl; [reflexivity|].
  rewrite (H small) by now left. rewrite (H m) by (right; now left).
  destruct (get_distance_between_two_contours E (cntr (get st_b small))
              (cntr (get st_b m))) as [[d i] j].
  apply IH. intros r [Hr|Hr]; apply H; [now left|right; now right].
Qed.

Lemma nearest_main_branch_In :
  forall st small mains acc m i j,
    snd (nearest_main_branch E st small mains acc) = Some (m, i, j) ->
    In m mains \/ snd acc = Some (m, i, j).
Proof.
  intros st small mains. induction mains as [|x t IH]; intros acc m i j; simpl.
  - intros H; now right.
  - destruct (get_distance_between_two_contours E (cntr (get st small))
                (cntr (get st x))) as [[d i0] j0].
    intros H. apply IH in H. destruct H as [H|H]; [left; now right|].
    destruct (distance_ltb d (fst acc)); simpl in H.
    + inversion H; subst. left. now left.
    + now right.
Qed.

Lemma set_merged_cnt_ids :
  forall m cx cy c, ids (set_merged_cnt E m cx cy c) = ids c.
Proof. reflexivity. Qed.

Lemma modify_ids :
  forall f main st r,
    (forall c, ids (f c) = ids c) -> ids (get (modify f main st) r) = ids (get st r).
Proof.
  intros f main st r Hf. rewrite get_modify.
  destruct (_ && _); [apply Hf|reflexivity].
Qed.

(** One small piece, run on two stores that agree on the records that the
    step reads. *)
Lemma merge_small_piece_frame :
  forall (mains : list ref) (s : ref) (st_a st_b : store) (del_a del_b : list nat),
    (forall r, In r (s :: mains) -> get st_a r = get st_b r) ->
    match merge_small_piece E mains (st_a, del_a) s,
          merge_small_piece E mains (st_b, del_b) s with
    | Ok (a', da), Ok (b', db) =>
        exists main m cx cy,
          In main mains
          /\ a' = modify (set_merged_cnt E m cx cy) main st_a
          /\ b' = modify (set_merged_cnt E m cx cy) main st_b
          /\ da = del_a ++ [cntr_idx (get st_a s)]
          /\ db = del_b ++ [cntr_idx (get st_a s)]
    | Raise e, Raise e' => e = e'
    | _, _ => False
    end.
Proof.
  intros mains s st_a st_b del_a del_b Hagree.
  unfold merge_small_piece.
  rewrite (nearest_main_branch_agree st_a st_b s mains (inf, None) Hagree).
  destruct (snd (nearest_main_branch E st_b s mains (inf, None)))
    as [[[main i] j]|] eqn:Hnear; [|reflexivity].
  assert (Hmain : In main mains).
  { apply nearest_main_branch_In in Hnear. destruct Hnear as [H|H];
      [assumption|discriminate]. }
  rewrite (Hagree s) by now left.
  rewrite (Hagree main) by now right.
  destruct (update_merged_cnt_cases main
              (merge_two_contours_by_npi E (cntr (get st_b s))
                 (cntr (get st_b main)) i j))
    as [[_ Hraise]|[_ [qx [qy Hok]]]].
  - rewrite !Hraise. reflexivity.
  - rewrite !Hok. cbn [bind].
    exists main, (merge_two_contours_by_npi E (cntr (get st_b s))
                    (cntr (get st_b main)) i j), qx, qy.
    split; [assumption|].
    split; [reflexivity|]. split; [reflexivity|].
    assert (Hidx : forall st, cntr_idx (get (modify (set_merged_cnt E
                      (merge_two_contours_by_npi E (cntr (get st_b s))
                         (cntr (get st_b main)) i j) qx qy) main st) s)
                   = cntr_idx (get st s)).
    { intros st.
      pose proof (modify_ids (set_merged_cnt E
                      (merge_two_contours_by_npi E (cntr (get st_b s))
                         (cntr (get st_b main)) i j) qx qy) main st s
                    (set_merged_cnt_ids _ _ _)) as H.
      unfold ids in H. now inversion H. }
    rewrite !Hidx. rewrite (Hagree s) by (now left). split; reflexivity.
Qed.

Lemma get_modify_agree :
  forall f main st_a st_b r,
    length st_a = length st_b ->
    get st_a r = get st_b r ->
    get (modify f main st_a) r = get (modify f main st_b) r.
Proof.
  intros f main st_a st_b r Hlen H. rewrite !get_modify, Hlen, H. reflexivity.
Qed.

(** The small pieces of one chromosome number, run on two stores that agree
    on the records of that number. *)
Lemma small_pieces_frame :
  forall (mains smalls : list ref) (st_a st_b : store) (del_a del_b : list nat),
    length st_a = length st_b ->
    (forall r, In r (smalls ++ mains) -> get st_a r = get st_b r) ->
    match for_each (merge_small_piece E mains) smalls (st_a, del_a),
          for_each (merge_small_piece E mains) smalls (st_b, del_b) with
    | Ok (a', da), Ok (b', db) =>
        da = del_a ++ map (fun r => cntr_idx (get st_a r)) smalls
        /\ db = del_b ++ map (fun r => cntr_idx (get st_a r)) smalls
        /\ length a' = length st_a
        /\ length b' = length st_b
        /\ (forall r, ids (get a' r) = ids (get st_a r))
        /\ (forall r, ids (get b' r) = ids (get st_b r))
        /\ (forall r, ~ In r mains ->
                      get a' r = get st_a r /\ get b' r = get st_b r)
        /\ (forall r, In r (smalls ++ mains) -> get a' r = get b' r)
    | Raise e, Raise e' => e = e'
    | _, _ => False
    end.
Proof.
  intros mains smalls. induction smalls as [|s t IH];
    intros st_a st_b del_a del_b Hlen Hagree.
  - simpl. rewrite !app_nil_r. repeat split; try reflexivity. exact Hagree.
  - cbn [for_each].
    assert (Hag : forall r, In r (s :: mains) -> get st_a r = get st_b r).
    { intros r [<-|Hr]; apply Hagree; [now left|apply in_or_app; now right]. }
    pose proof (merge_small_piece_frame mains s st_a st_b del_a del_b Hag)
      as Hstep.
    destruct (merge_small_piece E mains (st_a, del_a) s) as [[a1 da1]|ea];
      destruct (merge_small_piece E mains (st_b, del_b) s) as [[b1 db1]|eb];
      cbn [bind]; try exact Hstep; try contradiction.
    destruct Hstep as [main [m [qx [qy [Hmain [-> [-> [-> ->]]]]]]]].
    set (f := set_merged_cnt E m qx qy).
    specialize (IH (modify f main st_a) (modify f main st_b)
                  (del_a ++ [cntr_idx (get st_a s)])
                  (del_b ++ [cntr_idx (get st_a s)])).
    destruct (for_each (merge_small_piece E mains) t
                (modify f main st_a, del_a ++ [cntr_idx (get st_a s)]))
      as [[a' da]|ea];
      destruct (for_each (merge_small_piece E mains) t
                  (modify f main st_b, del_b ++ [cntr_idx (get st_a s)]))
        as [[b' db]|eb].
    + destruct IH as [H1 [H2 [H3 [H4 [H5 [H6 [H7 H8]]]]]]].
      { now rewrite !modify_length. }
      { intros r Hr. apply get_modify_agree; [assumption|].
        apply Hagree. now right. }
      assert (Hmap : map (fun r => cntr_idx (get (modify f main st_a) r)) t
                     = map (fun r => cntr_idx (get st_a r)) t).
      { apply map_ext. intros r.
        pose proof (modify_ids f main st_a r (set_merged_cnt_ids m qx qy)) as H.
        unfold ids in H. now inversion H. }
      rewrite Hmap in H1, H2.
      split; [rewrite H1, <- app_assoc; reflexivity|].
      split; [rewrite H2, <- app_assoc; reflexivity|].
      split; [now rewrite H3, modify_length|].
      split; [now rewrite H4, modify_length|].
      split; [intros r; rewrite H5; apply modify_ids, set_merged_cnt_ids|].
      split; [intros r; rewrite H6; apply modify_ids, set_merged_cnt_ids|].
      split.
      * intros r Hr. destruct (H7 r Hr) as [Ha Hb]. rewrite Ha, Hb.
        rewrite !get_modify_ne by (intros ->; contradiction). split; reflexivity.
      * intros r [<-|Hr].
        -- destruct (in_dec Nat.eq_dec s mains) as [Hin|Hnot].
           ++ apply H8. apply in_or_app. now right.
           ++ destruct (H7 s Hnot) as [Ha Hb]. rewrite Ha, Hb.
              apply get_modify_agree; [assumption|]. apply Hagree. now left.
        -- now apply H8.
    + apply IH; [now rewrite !modify_length|].
      intros r Hr. apply get_modify_agree; [assumption|]. apply Hagree. now right.
    + apply IH; [now rewrite !modify_length|].
      intros r Hr. apply get_modify_agree; [assumption|]. apply Hagree. now right.
    + apply IH; [now rewrite !modify_length|].
      intros r Hr. apply get_modify_agree; [assumption|]. apply Hagree. now right.
Qed.

(** The records of the row [row] that carry the number [Y]. *)
Definition same_chromo_id (st : store) (row : list ref) (Y : option string)
  : list ref :=
  filter (fun r => chromo_id_eqb (chromo_id (get st r)) Y) row.

Lemma same_chromo_id_In :
  forall st row Y r,
    In r (same_chromo_id st row Y) <-> In r row /\ chromo_id (get st r) = Y.
Proof.
  intros st row Y r. unfold same_chromo_id. rewrite filter_In.
  now rewrite chromo_id_eqb_eq.
Qed.

(** One chromosome number of a row, run on two stores that agree on the
    records of that number. *)
Lemma merge_chromo_id_frame :
  forall (row : list ref) (Y : option string) (st_a st_b : store)
         (del_a del_b : list nat),
    length st_a = length st_b ->
    (forall r, In r row -> chromo_id (get st_a r) = chromo_id (get st_b r)) ->
    (forall r, In r row -> chromo_id (get st_a r) = Y -> get st_a r = get st_b r) ->
    match merge_chromo_id E cfg row (st_a, del_a) Y,
          merge_chromo_id E cfg row (st_b, del_b) Y with
    | Ok (a', da), Ok (b', db) =>
        exists d,
          da = del_a ++ d
          /\ db = del_b ++ d
          /\ (forall i, In i d ->
                exists r, In r row /\ chromo_id (get st_a r) = Y
                          /\ i = cntr_idx (get st_a r))
          /\ length a' = length st_a
          /\ length b' = length st_b
          /\ (forall r, ids (get a' r) = ids (get st_a r))
          /\ (forall r, ids (get b' r) = ids (get st_b r))
          /\ (forall r, ~ (In r row /\ chromo_id (get st_a r) = Y) ->
                        get a' r = get st_a r /\ get b' r = get st_b r)
          /\ (forall r, In r row -> chromo_id (get st_a r) = Y ->
                        get a' r = get b' r)
    | Raise e, Raise e' => e = e'
    | _, _ => False
    end.
Proof.
  intros row Y st_a st_b del_a del_b Hlen Hids Hagree.
  assert (Hnoop : exists d : list nat,
             del_a = del_a ++ d
             /\ del_b = del_b ++ d
             /\ (forall i, In i d ->
                   exists r, In r row /\ chromo_id (get st_a r) = Y
                             /\ i = cntr_idx (get st_a r))
             /\ length st_a = length st_a
             /\ length st_b = length st_b
             /\ (forall r, ids (get st_a r) = ids (get st_a r))
             /\ (forall r, ids (get st_b r) = ids (get st_b r))
             /\ (forall r, ~ (In r row /\ chromo_id (get st_a r) = Y) ->
                           get st_a r = get st_a r /\ get st_b r = get st_b r)
             /\ (forall r, In r row -> chromo_id (get st_a r) = Y ->
                           get st_a r = get st_b r)).
  { exists []. rewrite !app_nil_r. repeat split; try reflexivity.
    - intros i [].
    - exact Hagree. }
  unfold merge_chromo_id. cbn [fst].
  fold (same_chromo_id st_a row Y). fold (same_chromo_id st_b row Y).
  assert (Hsame : same_chromo_id st_a row Y = same_chromo_id st_b row Y).
  { unfold same_chromo_id. apply filter_ext_in. intros r Hr.
    now rewrite (Hids r Hr). }
  rewrite Hsame.
  set (same := same_chromo_id st_b row Y).
  assert (Hin : forall r, In r same -> In r row /\ chromo_id (get st_a r) = Y).
  { intros r Hr. unfold same in Hr. rewrite <- Hsame in Hr.
    now apply same_chromo_id_In in Hr. }
  assert (Hag : forall r, In r same -> get st_a r = get st_b r).
  { intros r Hr. destruct (Hin r Hr). now apply Hagree. }
  assert (Harea : map (fun r => area (get st_a r)) same
                  = map (fun r => area (get st_b r)) same).
  { apply map_ext_in. intros r Hr. now rewrite (Hag r Hr). }
  rewrite Harea.
  destruct (length same <=? 1); [exact Hnoop|].
  set (max_area := py_max (map (fun r => area (get st_b r)) same)).
  destruct (py_div (py_min (map (fun r => area (get st_b r)) same)) max_area)
    as [ratio|e]; cbn [bind]; [|reflexivity].
  destruct (Qlt_bool (SMALL_PIECE_AREA_RATIO cfg) ratio); [exact Hnoop|].
  assert (Hsmall :
            filter (fun r => Qlt_bool (area (get st_a r) / max_area)
                               (SMALL_PIECE_AREA_RATIO cfg)) same
            = filter (fun r => Qlt_bool (area (get st_b r) / max_area)
                                 (SMALL_PIECE_AREA_RATIO cfg)) same).
  { apply filter_ext_in. intros r Hr. now rewrite (Hag r Hr). }
  assert (Hmain :
            filter (fun r => Qle_bool (SMALL_PIECE_AREA_RATIO cfg)
                               (area (get st_a r) / max_area)) same
            = filter (fun r => Qle_bool (SMALL_PIECE_AREA_RATIO cfg)
                                 (area (get st_b r) / max_area)) same).
  { apply filter_ext_in. intros r Hr. now rewrite (Hag r Hr). }
  rewrite Hsmall, Hmain.
  set (smalls := filter (fun r => Qlt_bool (area (get st_b r) / max_area)
                                    (SMALL_PIECE_AREA_RATIO cfg)) same).
  set (mains := filter (fun r => Qle_bool (SMALL_PIECE_AREA_RATIO cfg)
                                   (area (get st_b r) / max_area)) same).
  assert (Hsub : forall r, In r (smalls ++ mains) -> In r same).
  { intros r Hr. apply in_app_or in Hr.
    destruct Hr as [Hr|Hr]; apply filter_In in Hr; tauto. }
  pose proof (small_pieces_frame mains smalls st_a st_b del_a del_b Hlen) as Hf.
  destruct (for_each (merge_small_piece E mains) smalls (st_a, del_a))
    as [[a' da]|ea];
    destruct (for_each (merge_small_piece E mains) smalls (st_b, del_b))
      as [[b' db]|eb];
    try (apply Hf; intros r Hr; apply Hag; now apply Hsub).
  destruct Hf as [H1 [H2 [H3 [H4 [H5 [H6 [H7 H8]]]]]]].
  { intros r Hr. apply Hag. now apply Hsub. }
  exists (map (fun r => cntr_idx (get st_a r)) smalls).
  split; [assumption|]. split; [assumption|]. split.
  { intros i Hi. apply in_map_iff in Hi. destruct Hi as [r [<- Hr]].
    exists r. destruct (Hin r) as [Ha Hb].
    - apply Hsub, in_or_app. now left.
    - repeat split; assumption. }
  split; [assumption|]. split; [assumption|].
  split; [assumption|]. split; [assumption|]. split.
  - intros r Hr. apply H7. intros Hm. apply Hr. apply Hin, Hsub, in_or_app.
    now right.
  - intros r Hr HY.
    assert (Hrs : In r same).
    { unfold same. rewrite <- Hsame. apply same_chromo_id_In. tauto. }
    destruct (in_dec Nat.eq_dec r mains) as [Hm|Hm].
    + apply H8, in_or_app. now right.
    + destruct (H7 r Hm) as [Ha Hb]. rewrite Ha, Hb. now apply Hag.
Qed.

(** *** The steps of the merge are independent

    Every step [merge_chromo_id] reads and writes the records of one
    chromosome number of one row only.  The rows share no record, so what
    the whole loop leaves in these records is what the step leaves when it
    runs alone on the store [st0] that the loop starts from. *)

(** [list(set(l))] holds the elements of [l], each once. *)
Definition list_set_spec : Prop :=
  forall l, NoDup (list_set E l) /\ forall x, In x (list_set E l) <-> In x l.

Variable st0 : store.

(** The result of the step of the record [r] of the row [row], alone. *)
Definition step_alone (row : list ref) (r : ref) : result (store * list nat) :=
  merge_chromo_id E cfg row (st0, []) (chromo_id (get st0 r)).

Definition local_result (row : list ref) (r : ref) (st' : store)
    (del_cur del' : list nat) : Prop :=
  exists stY delY,
    step_alone row r = Ok (stY, delY)
    /\ get st' r = get stY r
    /\ (In r del' <-> In r del_cur \/ In r delY).

Lemma ids_chromo_id :
  forall c c', ids c = ids c' -> chromo_id c = chromo_id c'.
Proof. intros c c' H. unfold ids in H. now inversion H. Qed.

Lemma ids_cntr_idx :
  forall c c', ids c = ids c' -> cntr_idx c = cntr_idx c'.
Proof. intros c c' H. unfold ids in H. now inversion H. Qed.

Lemma merge_ids_local :
  forall (row : list ref) (ys : list (option string)) (st_cur : store)
         (del_cur : list nat) (st' : store) (del' : list nat),
    (forall r, In r row -> cntr_idx (get st0 r) = r) ->
    NoDup ys ->
    length st_cur = length st0 ->
    (forall r, ids (get st_cur r) = ids (get st0 r)) ->
    (forall r, In r row -> In (chromo_id (get st0 r)) ys ->
               get st_cur r = get st0 r) ->
    for_each (merge_chromo_id E cfg row) ys (st_cur, del_cur) = Ok (st', del') ->
    length st' = length st0
    /\ (forall r, ids (get st' r) = ids (get st0 r))
    /\ (forall r, ~ (In r row /\ In (chromo_id (get st0 r)) ys) ->
                  get st' r = get st_cur r)
    /\ (exists d, del' = del_cur ++ d
                  /\ forall i, In i d ->
                       In i row /\ In (chromo_id (get st0 i)) ys)
    /\ (forall r, In r row -> In (chromo_id (get st0 r)) ys ->
                  local_result row r st' del_cur del').
Proof.
  intros row ys. induction ys as [|Y t IH];
    intros st_cur del_cur st' del' Hidx Hnd Hlen Hids Hpend Hrun.
  - simpl in Hrun. inversion Hrun; subst.
    split; [assumption|]. split; [assumption|]. split; [reflexivity|].
    split; [exists []; rewrite app_nil_r; split; [reflexivity|intros i []]|].
    intros r _ [].
  - cbn [for_each] in Hrun.
    inversion Hnd as [|? ? HYt Hndt]; subst.
    pose proof (merge_chromo_id_frame row Y st_cur st0 del_cur [] Hlen) as Hf.
    destruct (merge_chromo_id E cfg row (st_cur, del_cur) Y) as [[st1 del1]|e]
      eqn:Hstep; [|discriminate].
    cbn [bind] in Hrun.
    destruct (merge_chromo_id E cfg row (st0, []) Y) as [[stY delY]|e]
      eqn:Halone.
    2:{ exfalso. apply Hf.
        - intros r Hr. apply ids_chromo_id, Hids.
        - intros r Hr HY. apply Hpend; [assumption|].
          rewrite <- (ids_chromo_id _ _ (Hids r)), HY. now left. }
    destruct Hf as [d [Hd1 [HdY [Hd [Hl1 [HlY [Hids1 [HidsY [Hout Hin]]]]]]]]].
    { intros r Hr. apply ids_chromo_id, Hids. }
    { intros r Hr HY. apply Hpend; [assumption|].
      rewrite <- (ids_chromo_id _ _ (Hids r)), HY. now left. }
    simpl in HdY. subst delY.
    assert (HidY : forall r, chromo_id (get st_cur r) = chromo_id (get st0 r)).
    { intros r. apply ids_chromo_id, Hids. }
    destruct (IH st1 del1 st' del' Hidx Hndt) as [K1 [K2 [K3 [[dt [K4 K5]] K6]]]];
      try assumption.
    { now rewrite Hl1. }
    { intros r. now rewrite Hids1. }
    { intros r Hr Ht.
      destruct (Hout r) as [Ha _].
      - intros [_ HY]. rewrite HidY in HY. rewrite HY in Ht. contradiction.
      - rewrite Ha. apply Hpend; [assumption|now right]. }
    assert (Hdrow : forall i, In i d -> In i row /\ chromo_id (get st0 i) = Y).
    { intros i Hi. destruct (Hd i Hi) as [r [Hr [HY ->]]].
      rewrite (ids_cntr_idx _ _ (Hids r)), (Hidx r Hr).
      split; [assumption|]. now rewrite <- HidY. }
    split; [assumption|]. split; [assumption|]. split.
    { intros r Hr. rewrite K3.
      - apply Hout. intros [Hrow HY]. apply Hr. split; [assumption|].
        rewrite <- HidY, HY. now left.
      - intros [Hrow Ht]. apply Hr. split; [assumption|now right]. }
    split.
    { exists (d ++ dt). split; [rewrite K4, Hd1, app_assoc; reflexivity|].
      intros i Hi. apply in_app_or in Hi. destruct Hi as [Hi|Hi].
      - destruct (Hdrow i Hi) as [H1 H2]. split; [assumption|]. rewrite H2.
        now left.
      - destruct (K5 i Hi) as [H1 H2]. split; [assumption|now right]. }
    intros r Hr [HY|Ht].
    + exists stY, d. unfold step_alone. rewrite <- HY. split; [assumption|].
      split.
      * rewrite K3.
        -- apply Hin; [assumption|]. now rewrite HidY.
        -- intros [_ Ht]. rewrite <- HY in Ht. contradiction.
      * rewrite K4, Hd1. rewrite !in_app_iff. split; [|tauto].
        intros [[H|H]|H]; [tauto|tauto|].
        destruct (K5 r H) as [_ Ht]. rewrite <- HY in Ht. contradiction.
    + destruct (K6 r Hr Ht) as [stR [delR [HR1 [HR2 HR3]]]].
      exists stR, delR. split; [assumption|]. split; [assumption|].
      rewrite HR3, Hd1, in_app_iff. split; [|tauto].
      intros [[H|H]|H]; [tauto| |tauto].
      destruct (Hdrow r H) as [_ HY]. rewrite HY in Ht. contradiction.
Qed.

Hypothesis list_set_ok : list_set_spec.

Lemma merge_rows_local_from :
  forall (rs : list (list ref)) (st_cur : store) (del_cur : list nat)
         (st' : store) (del' : list nat),
    NoDup (concat rs) ->
    (forall r, In r (concat rs) -> cntr_idx (get st0 r) = r) ->
    length st_cur = length st0 ->
    (forall r, ids (get st_cur r) = ids (get st0 r)) ->
    (forall r, In r (concat rs) -> get st_cur r = get st0 r) ->
    for_each (merge_row E cfg) rs (st_cur, del_cur) = Ok (st', del') ->
    length st' = length st0
    /\ (forall r, ids (get st' r) = ids (get st0 r))
    /\ (forall r, ~ In r (concat rs) -> get st' r = get st_cur r)
    /\ (exists d, del' = del_cur ++ d /\ forall i, In i d -> In i (concat rs))
    /\ (forall row r, In row rs -> In r row ->
                      local_result row r st' del_cur del').
Proof.
  induction rs as [|row rest IH];
    intros st_cur del_cur st' del' Hnd Hidx Hlen Hids Hpend Hrun.
  - simpl in Hrun. inversion Hrun; subst.
    split; [assumption|]. split; [assumption|]. split; [reflexivity|].
    split; [exists []; rewrite app_nil_r; split; [reflexivity|intros i []]|].
    intros row r [].
  - cbn [for_each] in Hrun. simpl in Hnd, Hidx, Hpend.
    apply NoDup_app_inv in Hnd. destruct Hnd as [Hndrow [Hndrest Hdis]].
    destruct (merge_row E cfg (st_cur, del_cur) row) as [[st1 del1]|e] eqn:Hrow;
      [|discriminate].
    cbn [bind] in Hrun. unfold merge_row in Hrow. cbn [fst] in Hrow.
    assert (Hmap : map (fun r => chromo_id (get st_cur r)) row
                   = map (fun r => chromo_id (get st0 r)) row).
    { apply map_ext. intros r. apply ids_chromo_id, Hids. }
    rewrite Hmap in Hrow.
    set (ys := list_set E (map (fun r => chromo_id (get st0 r)) row)) in Hrow.
    assert (Hys : forall r, In r row -> In (chromo_id (get st0 r)) ys).
    { intros r Hr. apply list_set_ok. apply in_map_iff. eauto. }
    destruct (merge_ids_local row ys st_cur del_cur st1 del1)
      as [L1 [L2 [L3 [[d [L4 L5]] L6]]]]; try assumption.
    { intros r Hr. apply Hidx, in_or_app. now left. }
    { apply list_set_ok. }
    { intros r Hr _. apply Hpend, in_or_app. now left. }
    destruct (IH st1 del1 st' del') as [K1 [K2 [K3 [[dt [K4 K5]] K6]]]];
      try assumption.
    { intros r Hr. apply Hidx, in_or_app. now right. }
    { intros r Hr. rewrite L3.
      - apply Hpend, in_or_app. now right.
      - intros [Hrow' _]. now apply (Hdis r). }
    split; [assumption|]. split; [assumption|]. split.
    { intros r Hr. rewrite K3.
      - apply L3. intros [Hrow' _]. apply Hr, in_or_app. now left.
      - intros Hrest. apply Hr, in_or_app. now right. }
    split.
    { exists (d ++ dt). split; [rewrite K4, L4, app_assoc; reflexivity|].
      intros i Hi. apply in_app_or in Hi. apply in_or_app.
      destruct Hi as [Hi|Hi]; [left; now apply L5|right; now apply K5]. }
    intros row' r Hrow' Hr.
    assert (Hcase : (row' = row) \/ (row' <> row /\ In row' rest)).
    { destruct (list_eq_dec Nat.eq_dec row' row) as [->|Hne]; [now left|].
      right. split; [assumption|]. destruct Hrow' as [<-|H]; [congruence|assumption]. }
    destruct Hcase as [->|[Hne Hrest]].
    + destruct (L6 r Hr (Hys r Hr)) as [stY [delY [Y1 [Y2 Y3]]]].
      exists stY, delY. split; [assumption|].
      assert (Hnr : ~ In r (concat rest)) by now apply Hdis.
      split; [now rewrite (K3 r Hnr)|].
      rewrite K4, in_app_iff, Y3. split; [|tauto].
      intros [H|H]; [assumption|]. exfalso. apply Hnr. now apply K5.
    + destruct (K6 row' r Hrest Hr) as [stY [delY [Y1 [Y2 Y3]]]].
      exists stY, delY. split; [assumption|]. split; [assumption|].
      rewrite Y3, L4, in_app_iff. split; [|tauto].
      intros [[H|H]|H]; [tauto| |tauto].
      exfalso. apply (Hdis r); [now apply L5|].
      apply in_concat. exists row'. split; assumption.
Qed.

(** The loop of lines 311 to 369 over rows that share no record. *)
Lemma merge_rows_local :
  forall (rows : dict (list ref)) (st' : store) (del : list nat),
    NoDup (concat (values rows)) ->
    (forall r, In r (concat (values rows)) -> cntr_idx (get st0 r) = r) ->
    merge_rows E cfg st0 rows = Ok (st', del) ->
    length st' = length st0
    /\ (forall r, ids (get st' r) = ids (get st0 r))
    /\ (forall r, ~ In r (concat (values rows)) -> get st' r = get st0 r)
    /\ (forall i, In i del -> In i (concat (values rows)))
    /\ (forall k row r, In (k, row) rows -> In r row ->
          exists stY delY,
            step_alone row r = Ok (stY, delY)
            /\ get st' r = get stY r
            /\ (In r del <-> In r delY)).
Proof.
  intros rows st' del Hnd Hidx Hrun. unfold merge_rows in Hrun.
  destruct (merge_rows_local_from (values rows) st0 [] st' del)
    as [K1 [K2 [K3 [[d [K4 K5]] K6]]]]; try assumption; try reflexivity.
  split; [assumption|]. split; [assumption|]. split; [assumption|].
  split; [intros i Hi; apply K5; now rewrite K4 in Hi|].
  intros k row r Hrow Hr.
  destruct (K6 row r) as [stY [delY [Y1 [Y2 Y3]]]]; [|assumption|].
  { unfold values. change row with (snd (k, row)). now apply in_map. }
  exists stY, delY. split; [assumption|]. split; [assumption|].
  rewrite Y3. simpl. tauto.
Qed.

End Merger.

(** ** Rows without small pieces *)

Lemma Qlt_bool_iff : forall a b, Qlt_bool a b = true <-> (a < b)%Q.
Proof.
  intros a b. unfold Qlt_bool. rewrite negb_true_iff. split.
  - intros H. apply Qnot_le_lt. intros Hle. apply Qle_bool_iff in Hle. congruence.
  - intros H. destruct (Qle_bool b a) eqn:Hle; [|reflexivity].
    apply Qle_bool_iff in Hle. exfalso. now apply (Qlt_not_le a b).
Qed.

(** [min_area / max_area] over the records [same] (line 328). *)
Definition area_ratio (st : store) (same : list ref) : result Q :=
  py_div (py_min (map (fun r => area (get st r)) same))
         (py_max (map (fun r => area (get st r)) same)).

(** The number [Y] has no small piece in the row: at most one record
    carries it, or the ratio of the smallest area to the largest is above
    [SMALL_PIECE_AREA_RATIO]. *)
Definition not_fragmented (cfg : Config) (st : store) (row : list ref)
    (Y : option string) : Prop :=
  length (same_chromo_id st row Y) <= 1
  \/ exists q, area_ratio st (same_chromo_id st row Y) = Ok q
               /\ (SMALL_PIECE_AREA_RATIO cfg < q)%Q.

Lemma merge_chromo_id_not_fragmented :
  forall (Image : Type) (E : Externals Image) cfg st row Y del,
    not_fragmented cfg st row Y ->
    merge_chromo_id E cfg row (st, del) Y = Ok (st, del).
Proof.
  intros Image E cfg st row Y del H. unfold merge_chromo_id. cbn [fst].
  fold (same_chromo_id st row Y).
  destruct (Nat.leb_spec (length (same_chromo_id st row Y)) 1) as [Hle|Hgt];
    [reflexivity|].
  destruct H as [H|[q [Hq Hlt]]]; [lia|].
  unfold area_ratio in Hq. rewrite Hq. cbn [bind].
  apply Qlt_bool_iff in Hlt. now rewrite Hlt.
Qed.

Lemma merge_rows_not_fragmented :
  forall (Image : Type) (E : Externals Image) cfg st (rs : list (list ref)) del,
    (forall row Y, In row rs -> not_fragmented cfg st row Y) ->
    for_each (merge_row E cfg) rs (st, del) = Ok (st, del).
Proof.
  intros Image E cfg st rs del. induction rs as [|row rest IH]; intros H;
    [reflexivity|].
  cbn [for_each]. unfold merge_row at 1. cbn [fst].
  assert (Hrow : forall ys,
             for_each (merge_chromo_id E cfg row) ys (st, del) = Ok (st, del)).
  { induction ys as [|Y t IHt]; [reflexivity|]. cbn [for_each].
    rewrite merge_chromo_id_not_fragmented by (apply H; now left).
    exact IHt. }
  rewrite Hrow. cbn [bind]. apply IH. intros r Y Hr. apply H. now right.
Qed.

Lemma delete_rows_nil :
  forall st (rows : dict (list ref)), delete_rows st [] rows = rows.
Proof.
  intros st rows. unfold delete_rows.
  induction rows as [|[k l] t IH]; simpl; [reflexivity|].
  rewrite IH, delete_small_cnts_filter. simpl. f_equal. f_equal.
  clear. induction l as [|x l IH]; simpl; [reflexivity|]. now rewrite IH.
Qed.

Lemma filter_filter_same :
  forall (A : Type) (p q : A -> bool) (l : list A),
    (forall x, In x l -> p x = true -> q x = true) ->
    filter p (filter q l) = filter p l.
Proof.
  intros A p q l. induction l as [|x t IH]; intros H; simpl; [reflexivity|].
  destruct (q x) eqn:Hq; simpl.
  - destruct (p x); [f_equal|]; apply IH; intros y Hy; apply H; now right.
  - destruct (p x) eqn:Hp.
    + rewrite (H x (or_introl eq_refl) Hp) in Hq. discriminate.
    + apply IH. intros y Hy. apply H. now right.
Qed.

Lemma filter_all :
  forall (A : Type) (q : A -> bool) (l : list A),
    (forall x, In x l -> q x = true) -> filter q l = l.
Proof.
  intros A q l. induction l as [|x t IH]; intros H; simpl; [reflexivity|].
  rewrite (H x) by now left. f_equal. apply IH. intros y Hy. apply H. now right.
Qed.

Lemma delete_rows_item :
  forall st del (rows : dict (list ref)) k row,
    NoDup (keys rows) -> In (k, row) rows ->
    dict_item k (delete_rows st del rows) = delete_small_cnts st del row.
Proof.
  intros st del rows k row Hnd Hin. unfold dict_item.
  assert (Hin' : In (k, delete_small_cnts st del row) (delete_rows st del rows)).
  { unfold delete_rows. apply in_map_iff. exists (k, row). split; [reflexivity|assumption]. }
  assert (Hnd' : NoDup (keys (delete_rows st del rows))).
  { unfold delete_rows, keys. rewrite map_map. simpl. exact Hnd. }
  now rewrite (In_dict_get _ k _ _ Hnd' Hin').
Qed.

(** ** The state after the merge *)

Lemma classify_rows_wf :
  forall (Image : Type) (E : Externals Image) (cfg : Config)
         (self self' : Karyotype Image) (st : store) (left : dict (list ref)),
    id_num_in_rows cfg = [5; 7; 6; 6] ->
    classify E cfg self = Ok (self', st, left) ->
    NoDup (keys left)
    /\ NoDup (concat (values left))
    /\ (forall r, In r (concat (values left)) ->
                  r < length st /\ cntr_idx (get st r) = r).
Proof.
  intros Image E cfg self self' st left Hcfg Hcl.
  destruct (classify_unfold Image E cfg Hcfg self self' st left Hcl)
    as [stA [Hasg [Hsz [Hself [Hleft Hst]]]]].
  rewrite Hleft.
  split; [apply (left_rows_keys Image E cfg self stA)|].
  split; [apply (left_rows_NoDup Image E cfg self stA)|].
  intros r Hr. apply in_concat in Hr. destruct Hr as [l [Hl Hr]].
  unfold values in Hl. apply in_map_iff in Hl.
  destruct Hl as [[k l0] [Heq Hin]]. simpl in Heq. subst l0.
  destruct (left_rows_In Image E cfg self stA Hasg k l r Hin Hr) as [Hv _].
  assert (Hst' : st = classified E cfg self stA) by (now subst).
  destruct (classified_effect Image E cfg self stA Hasg) as [HlenC _].
  rewrite Hst', HlenC. split; [assumption|].
  pose proof (classified_geometry Image E cfg self stA Hasg r) as Hg.
  unfold geometry in Hg. inversion Hg as [[H1 H2]]. rewrite H1.
  now apply (gathered_wf Image E cfg self).
Qed.

Lemma merge_fragments_spec :
  forall (Image : Type) (E : Externals Image) (cfg : Config)
         (st : store) (left : dict (list ref)) (st' : store)
         (left' : dict (list ref)),
    list_set_spec Image E ->
    NoDup (keys left) ->
    NoDup (concat (values left)) ->
    (forall r, In r (concat (values left)) -> cntr_idx (get st r) = r) ->
    merge_fragments E cfg st left = Ok (st', left') ->
    exists del,
      left' = delete_rows st' del left
      /\ length st' = length st
      /\ (forall r, ids (get st' r) = ids (get st r))
      /\ (forall r, ~ In r (concat (values left)) -> get st' r = get st r)
      /\ (forall k row r, In (k, row) left -> In r row ->
            exists stY delY,
              step_alone Image E cfg st row r = Ok (stY, delY)
              /\ get st' r = get stY r
              /\ (In r del <-> In r delY))
      /\ (forall k row, In (k, row) left ->
            dict_item k left'
            = filter (fun r => negb (existsb (Nat.eqb r) del)) row).
Proof.
  intros Image E cfg st left st' left' Hset Hkeys Hnd Hidx Hrun.
  unfold merge_fragments in Hrun.
  destruct (merge_rows E cfg st left) as [[st1 del]|e] eqn:Hrows;
    [|discriminate].
  cbn [bind] in Hrun. inversion Hrun; subst st1 left'. clear Hrun.
  destruct (merge_rows_local Image E cfg st Hset left st' del Hnd Hidx Hrows)
    as [K1 [K2 [K3 [K4 K5]]]].
  exists del. split; [reflexivity|]. split; [assumption|].
  split; [assumption|]. split; [assumption|]. split; [assumption|].
  intros k row Hrow.
  rewrite (delete_rows_item st' del left k row Hkeys Hrow).
  rewrite delete_small_cnts_filter. apply filter_ext_in. intros r Hr.
  rewrite (ids_cntr_idx _ _ (K2 r)), Hidx; [reflexivity|].
  eapply In_values_concat; eassumption.
Qed.

(** C8.  For a row and a chromosome number without small pieces (at most
    one record of the row carries the number, or the smallest area over the
    largest is above the threshold) the merger merges nothing: its step for
    that number leaves the store and the list of pieces to delete as they
    are, and after the whole merge the records of that number are the same
    records of the row, in the same order and unchanged.  When this holds
    for every number of the row, the row and its records are unchanged; when
    it holds for every row, the merge returns the store and the rows that it
    was given. *)
Theorem no_merge_without_small_pieces :
  forall (Image : Type) (E : Externals Image) (cfg : Config)
         (self self' : Karyotype Image) (st : store) (left : dict (list ref)),
    id_num_in_rows cfg = [5; 7; 6; 6] ->
    list_set_spec Image E ->
    classify E cfg self = Ok (self', st, left) ->
    (forall k row Y del,
        In (k, row) left -> not_fragmented cfg st row Y ->
        merge_chromo_id E cfg row (st, del) Y = Ok (st, del))
    /\ (forall st' left' k row Y,
          merge_fragments E cfg st left = Ok (st', left') ->
          In (k, row) left -> not_fragmented cfg st row Y ->
          same_chromo_id st' (dict_item k left') Y = same_chromo_id st row Y
          /\ forall r, In r (same_chromo_id st row Y) -> get st' r = get st r)
    /\ (forall st' left' k row,
          merge_fragments E cfg st left = Ok (st', left') ->
          In (k, row) left ->
          (forall Y, not_fragmented cfg st row Y) ->
          dict_item k left' = row
          /\ length (dict_item k left') = length row
          /\ forall r, In r row -> get st' r = get st r)
    /\ ((forall k row Y, In (k, row) left -> not_fragmented cfg st row Y) ->
        merge_fragments E cfg st left = Ok (st, left)).
Proof.
  intros Image E cfg self self' st left Hcfg Hset Hcl.
  destruct (classify_rows_wf Image E cfg self self' st left Hcfg Hcl)
    as [Hkeys [Hnd Hwf]].
  assert (Hidx : forall r, In r (concat (values left)) -> cntr_idx (get st r) = r).
  { intros r Hr. now apply Hwf. }
  assert (Hlocal : forall st' left',
             merge_fragments E cfg st left = Ok (st', left') ->
             exists del,
               (forall r, ids (get st' r) = ids (get st r))
               /\ (forall k row, In (k, row) left ->
                     dict_item k left'
                     = filter (fun r => negb (existsb (Nat.eqb r) del)) row)
               /\ forall k row r, In (k, row) left -> In r row ->
                    not_fragmented cfg st row (chromo_id (get st r)) ->
                    get st' r = get st r /\ ~ In r del).
  { intros st' left' Hrun.
    destruct (merge_fragments_spec Image E cfg st left st' left'
                Hset Hkeys Hnd Hidx Hrun)
      as [del [_ [_ [Hids [_ [Hstep Hitem]]]]]].
    exists del. split; [assumption|]. split; [assumption|].
    intros k row r Hrow Hr Hnf.
    destruct (Hstep k row r Hrow Hr) as [stY [delY [Y1 [Y2 Y3]]]].
    unfold step_alone in Y1.
    rewrite (merge_chromo_id_not_fragmented Image E cfg st row _ [] Hnf) in Y1.
    inversion Y1; subst stY delY. split; [assumption|].
    rewrite Y3. intros []. }
  split; [|split; [|split]].
  - intros k row Y del _ Hnf. now apply merge_chromo_id_not_fragmented.
  - intros st' left' k row Y Hrun Hrow Hnf.
    destruct (Hlocal st' left' Hrun) as [del [Hids [Hitem Hkeep]]].
    rewrite (Hitem k row Hrow). split.
    + unfold same_chromo_id.
      rewrite filter_filter_same.
      * apply filter_ext. intros r. now rewrite (ids_chromo_id _ _ (Hids r)).
      * intros r Hr HY. rewrite (ids_chromo_id _ _ (Hids r)) in HY.
        apply chromo_id_eqb_eq in HY. apply negb_true_iff.
        destruct (existsb (Nat.eqb r) del) eqn:Hex; [|reflexivity].
        apply existsb_nat_eqb in Hex. exfalso.
        rewrite <- HY in Hnf. now apply (Hkeep k row r Hrow Hr Hnf).
    + intros r Hr. apply same_chromo_id_In in Hr. destruct Hr as [Hr HY].
      rewrite <- HY in Hnf. now apply (Hkeep k row r Hrow Hr Hnf).
  - intros st' left' k row Hrun Hrow Hnf.
    destruct (Hlocal st' left' Hrun) as [del [Hids [Hitem Hkeep]]].
    assert (Hrow' : dict_item k left' = row).
    { rewrite (Hitem k row Hrow). apply filter_all. intros r Hr.
      apply negb_true_iff.
      destruct (existsb (Nat.eqb r) del) eqn:Hex; [|reflexivity].
      apply existsb_nat_eqb in Hex. exfalso.
      now apply (Hkeep k row r Hrow Hr (Hnf _)). }
    split; [assumption|]. split; [now rewrite Hrow'|].
    intros r Hr. now apply (Hkeep k row r Hrow Hr (Hnf _)).
  - intros Hall. unfold merge_fragments, merge_rows.
    rewrite merge_rows_not_fragmented.
    + cbn [bind]. now rewrite delete_rows_nil.
    + intros row Y Hrow. unfold values in Hrow. apply in_map_iff in Hrow.
      destruct Hrow as [[k row'] [Heq Hin]]. simpl in Heq. subst row'.
      now apply (Hall k).
Qed.

(** ** Two records of one chromosome number *)

Lemma Qlt_bool_false : forall a b, Qlt_bool a b = false <-> (b <= a)%Q.
Proof.
  intros a b. unfold Qlt_bool. rewrite negb_false_iff. apply Qle_bool_iff.
Qed.

Lemma Qle_bool_false : forall a b, Qle_bool a b = false <-> (b < a)%Q.
Proof.
  intros a b. split.
  - intros H. apply Qnot_le_lt. intros Hle. apply Qle_bool_iff in Hle. congruence.
  - intros H. destruct (Qle_bool a b) eqn:Hle; [|reflexivity].
    apply Qle_bool_iff in Hle. exfalso. now apply (Qlt_not_le b a).
Qed.

Lemma Qdiv_self : forall x : Q, ~ (x == 0)%Q -> (x / x == 1)%Q.
Proof. intros x H. unfold Qdiv. now apply Qmult_inv_r. Qed.

(** Of two records whose ratio of areas is below the threshold, the one
    with the smaller area is the small piece and the other one the main
    branch. *)
Lemma two_records_split :
  forall cfg st a b q,
    area_ratio st [a; b] = Ok q ->
    (q < SMALL_PIECE_AREA_RATIO cfg)%Q ->
    (SMALL_PIECE_AREA_RATIO cfg <= 1)%Q ->
    let max_area := py_max [area (get st a); area (get st b)] in
    exists small main,
      ((small = a /\ main = b) \/ (small = b /\ main = a))
      /\ (area (get st small) < area (get st main))%Q
      /\ filter (fun r => Qlt_bool (area (get st r) / max_area)%Q
                            (SMALL_PIECE_AREA_RATIO cfg)) [a; b] = [small]
      /\ filter (fun r => Qle_bool (SMALL_PIECE_AREA_RATIO cfg)
                            (area (get st r) / max_area)%Q) [a; b] = [main]
      /\ Qlt_bool (SMALL_PIECE_AREA_RATIO cfg) q = false.
Proof.
  intros cfg st a b q Hq Hlt Hthr max_area.
  assert (Hnot : Qlt_bool (SMALL_PIECE_AREA_RATIO cfg) q = false).
  { apply Qlt_bool_false. now apply Qlt_le_weak. }
  unfold area_ratio, py_div in Hq. simpl map in Hq.
  fold max_area in Hq.
  destruct (Qeq_bool max_area 0) eqn:Hz; [discriminate|].
  apply Qeq_bool_neq in Hz. inversion Hq as [Hq']. clear Hq.
  assert (Hself : Qlt_bool (max_area / max_area)%Q (SMALL_PIECE_AREA_RATIO cfg) = false
                  /\ Qle_bool (SMALL_PIECE_AREA_RATIO cfg) (max_area / max_area)%Q = true).
  { split.
    - apply Qlt_bool_false. now rewrite (Qdiv_self max_area Hz).
    - apply Qle_bool_iff. now rewrite (Qdiv_self max_area Hz). }
  destruct Hself as [Hs1 Hs2].
  assert (Hsmall : Qlt_bool q (SMALL_PIECE_AREA_RATIO cfg) = true
                   /\ Qle_bool (SMALL_PIECE_AREA_RATIO cfg) q = false).
  { split; [now apply Qlt_bool_iff|now apply Qle_bool_false]. }
  destruct Hsmall as [Hq1 Hq2].
  unfold py_max, py_min in *. simpl in max_area, Hq'.
  destruct (Qlt_bool (area (get st a)) (area (get st b))) eqn:HAB;
    destruct (Qlt_bool (area (get st b)) (area (get st a))) eqn:HBA.
  - apply Qlt_bool_iff in HAB, HBA. exfalso.
    apply (Qlt_irrefl (area (get st a))). now apply (Qlt_trans _ (area (get st b))).
  - exists a, b. split; [left; tauto|]. split; [now apply Qlt_bool_iff|].
    subst q. subst max_area. simpl. rewrite Hq1, Hs1, Hq2, Hs2.
    repeat split; try reflexivity. assumption.
  - exists b, a. split; [right; tauto|]. split; [now apply Qlt_bool_iff|].
    subst q. subst max_area. simpl. rewrite Hq1, Hs1, Hq2, Hs2.
    repeat split; try reflexivity. assumption.
  - exfalso. subst q. subst max_area.
    rewrite Hq1 in Hs1. discriminate.
Qed.

Lemma bind_Ok : forall (A : Type) (m : result A), bind m (fun a => Ok a) = m.
Proof. intros A [a|e]; reflexivity. Qed.

(** The step of a chromosome number that two records of the row carry,
    with a ratio of areas below the threshold: the smaller record is merged
    into the larger one. *)
Lemma merge_chromo_id_two :
  forall (Image : Type) (E : Externals Image) cfg st row Y a b q,
    same_chromo_id st row Y = [a; b] ->
    area_ratio st [a; b] = Ok q ->
    (q < SMALL_PIECE_AREA_RATIO cfg)%Q ->
    (SMALL_PIECE_AREA_RATIO cfg <= 1)%Q ->
    exists small main,
      ((small = a /\ main = b) \/ (small = b /\ main = a))
      /\ (area (get st small) < area (get st main))%Q
      /\ forall del,
           merge_chromo_id E cfg row (st, del) Y
           = merge_small_piece E [main] (st, del) small.
Proof.
  intros Image E cfg st row Y a b q Hsame Hq Hlt Hthr.
  destruct (two_records_split cfg st a b q Hq Hlt Hthr)
    as [small [main [Hcase [Harea [Hs [Hm Hnot]]]]]].
  exists small, main. split; [assumption|]. split; [assumption|].
  intros del. unfold merge_chromo_id. cbn [fst].
  fold (same_chromo_id st row Y). rewrite Hsame.
  unfold area_ratio in Hq. simpl map in *. simpl length. cbn [Nat.leb].
  rewrite Hq. cbn [bind]. rewrite Hnot, Hs, Hm.
  cbn [for_each]. apply bind_Ok.
Qed.

(** When exactly two records of a row carry a chromosome number and the
    smaller of their areas over the larger is below the threshold, a merge
    that returns leaves one record of that number in the row, the record
    with the larger area, with the splice of the two contours at the pair
    of nearest points as its contour. *)
Lemma merge_of_two_spec :
  forall (Image : Type) (E : Externals Image) (cfg : Config)
         (self self' : Karyotype Image) (st : store) (left : dict (list ref))
         (st' : store) (left' : dict (list ref))
         (k : Z) (row : list ref) (Y : option string) (a b : ref) (q : Q),
    id_num_in_rows cfg = [5; 7; 6; 6] ->
    list_set_spec Image E ->
    classify E cfg self = Ok (self', st, left) ->
    merge_fragments E cfg st left = Ok (st', left') ->
    In (k, row) left ->
    same_chromo_id st row Y = [a; b] ->
    area_ratio st [a; b] = Ok q ->
    (q < SMALL_PIECE_AREA_RATIO cfg)%Q ->
    (SMALL_PIECE_AREA_RATIO cfg <= 1)%Q ->
    exists small main d i j,
      ((small = a /\ main = b) \/ (small = b /\ main = a))
      /\ (area (get st small) < area (get st main))%Q
      /\ same_chromo_id st' (dict_item k left') Y = [main]
      /\ length (same_chromo_id st' (dict_item k left') Y) = 1
      /\ get_distance_between_two_contours E
           (cntr (get st small)) (cntr (get st main)) = (d, i, j)
      /\ cntr (get st' main)
         = merge_two_contours_by_npi E
             (cntr (get st small)) (cntr (get st main)) i j
      /\ area (get st' main) = contourArea E (cntr (get st' main)).
Proof.
  intros Image E cfg self self' st left st' left' k row Y a b q
         Hcfg Hset Hcl Hrun Hrow Hsame Hq Hlt Hthr.
  destruct (classify_rows_wf Image E cfg self self' st left Hcfg Hcl)
    as [Hkeys [Hnd Hwf]].
  assert (Hidx : forall r, In r (concat (values left)) -> cntr_idx (get st r) = r).
  { intros r Hr. now apply Hwf. }
  destruct (merge_fragments_spec Image E cfg st left st' left'
              Hset Hkeys Hnd Hidx Hrun)
    as [del [_ [_ [Hids [_ [Hstep Hitem]]]]]].
  destruct (merge_chromo_id_two Image E cfg st row Y a b q Hsame Hq Hlt Hthr)
    as [small [main [Hcase [Harea Hone]]]].
  assert (Hab : In a row /\ chromo_id (get st a) = Y
                /\ In b row /\ chromo_id (get st b) = Y).
  { assert (Ha : In a (same_chromo_id st row Y)) by (rewrite Hsame; now left).
    assert (Hb : In b (same_chromo_id st row Y))
      by (rewrite Hsame; right; now left).
    apply same_chromo_id_In in Ha, Hb. tauto. }
  assert (Hsm : In small row /\ chromo_id (get st small) = Y
                /\ In main row /\ chromo_id (get st main) = Y).
  { destruct Hcase as [[-> ->]|[-> ->]]; tauto. }
  destruct Hsm as [Hsrow [HsY [Hmrow HmY]]].
  assert (Hne : small <> main).
  { intros Heq. rewrite Heq in Harea. now apply (Qlt_irrefl (area (get st main))). }
  (* the step alone *)
  destruct (Hstep k row main Hrow Hmrow) as [stY [delY [Y1 [Y2 Y3]]]].
  destruct (Hstep k row small Hrow Hsrow) as [stS [delS [S1 [S2 S3]]]].
  unfold step_alone in Y1, S1. rewrite HmY in Y1. rewrite HsY in S1.
  rewrite S1 in Y1. inversion Y1; subst stS delS. clear Y1.
  rewrite (Hone []) in S1. unfold merge_small_piece in S1.
  cbn [nearest_main_branch] in S1.
  destruct (get_distance_between_two_contours E (cntr (get st small))
              (cntr (get st main))) as [[d i] j] eqn:Hdist.
  cbn [fst] in S1.
  destruct (distance_ltb d inf); cbn [snd] in S1; [|discriminate].
  destruct (update_merged_cnt_cases Image E main
              (merge_two_contours_by_npi E (cntr (get st small))
                 (cntr (get st main)) i j))
    as [[_ Hraise]|[_ [qx [qy Hok]]]].
  { rewrite Hraise in S1. discriminate. }
  rewrite Hok in S1. cbn [bind] in S1. inversion S1 as [[HstY HdelY]].
  clear S1.
  assert (Hvalid : main < length st).
  { apply Hwf. eapply In_values_concat; eassumption. }
  assert (Hdel : delY = [small]).
  { rewrite <- HdelY. rewrite get_modify_ne by congruence.
    rewrite Hidx; [reflexivity|]. eapply In_values_concat; eassumption. }
  assert (Hmain' : get st' main
                   = set_merged_cnt E
                       (merge_two_contours_by_npi E (cntr (get st small))
                          (cntr (get st main)) i j) qx qy (get st main)).
  { rewrite Y2, <- HstY. now apply get_modify_eq. }
  exists small, main, d, i, j.
  split; [assumption|]. split; [assumption|].
  assert (Hrow' : same_chromo_id st' (dict_item k left') Y = [main]).
  { rewrite (Hitem k row Hrow). unfold same_chromo_id.
    assert (Hcomm : forall (p p' : ref -> bool) (l : list ref),
               filter p (filter p' l) = filter p' (filter p l)).
    { intros p p' l. induction l as [|x t IH]; simpl; [reflexivity|].
      destruct (p' x) eqn:H1; destruct (p x) eqn:H2; simpl;
        rewrite ?H1, ?H2, IH; reflexivity. }
    rewrite Hcomm.
    assert (Hf : filter (fun r => chromo_id_eqb (chromo_id (get st' r)) Y) row
                 = same_chromo_id st row Y).
    { unfold same_chromo_id. apply filter_ext. intros r.
      now rewrite (ids_chromo_id _ _ (Hids r)). }
    rewrite Hf, Hsame.
    assert (Hin_s : existsb (Nat.eqb small) del = true).
    { apply existsb_nat_eqb. apply S3. rewrite Hdel. now left. }
    assert (Hin_m : existsb (Nat.eqb main) del = false).
    { destruct (existsb (Nat.eqb main) del) eqn:Hex; [|reflexivity].
      apply existsb_nat_eqb in Hex. apply Y3 in Hex. rewrite Hdel in Hex.
      destruct Hex as [Hex|[]]. congruence. }
    destruct Hcase as [[-> ->]|[-> ->]]; simpl; rewrite Hin_s, Hin_m;
      reflexivity. }
  split; [assumption|]. split; [now rewrite Hrow'|].
  split; [exact Hdist|]. rewrite Hmain'. split; reflexivity.
Qed.

(** ** The chromosome numbers of the records *)

(** The number and the index of a record belong together. *)
Definition id_consistent (c : ContourRecord) : Prop :=
  match chromo_id c, chromo_idx c with
  | Some id, Some idx => nth_error chromo_id_list idx = Some id
  | None, None => True
  | _, _ => False
  end.

Lemma map_nth_seq_from :
  forall (A B : Type) (f : A -> B) (g : nat -> B) (l : list A) (off : nat),
    (forall j x, nth_error l j = Some x -> f x = g (off + j)) ->
    map f l = map g (seq off (length l)).
Proof.
  intros A B f g l. induction l as [|x t IH]; intros off Hl; simpl;
    [reflexivity|].
  f_equal.
  - rewrite (Hl 0 x eq_refl). f_equal. lia.
  - apply IH. intros j y Hj. rewrite (Hl (S j) y Hj). f_equal. lia.
Qed.

Lemma map_nth_seq :
  forall (A B : Type) (f : A -> B) (g : nat -> B) (l : list A),
    (forall j x, nth_error l j = Some x -> f x = g j) ->
    map f l = map g (seq 0 (length l)).
Proof.
  intros A B f g l Hl. apply map_nth_seq_from. intros j x Hj. simpl.
  now apply Hl.
Qed.

Lemma for_each_preserves :
  forall (A S : Type) (R : S -> S -> Prop) (body : S -> A -> result S),
    (forall s, R s s) ->
    (forall s1 s2 s3, R s1 s2 -> R s2 s3 -> R s1 s3) ->
    forall l : list A,
      (forall s x s', In x l -> body s x = Ok s' -> R s s') ->
      forall s s', for_each body l s = Ok s' -> R s s'.
Proof.
  intros A S R body Hrefl Htrans l. induction l as [|x t IH];
    intros Hbody s s' Hrun; simpl in Hrun.
  - inversion Hrun; subst. apply Hrefl.
  - destruct (body s x) as [s1|e] eqn:Hstep; [|discriminate]. simpl in Hrun.
    apply (Htrans s s1 s').
    + apply (Hbody s x s1); [now left|assumption].
    + apply IH; [|assumption]. intros s0 y s0' Hy. apply Hbody. now right.
Qed.

(** A merge changes no chromosome number. *)
Lemma merge_fragments_ids :
  forall (Image : Type) (E : Externals Image) cfg st left st' left',
    merge_fragments E cfg st left = Ok (st', left') ->
    forall r, ids (get st' r) = ids (get st r).
Proof.
  intros Image E cfg st left st' left' Hrun.
  unfold merge_fragments in Hrun.
  destruct (merge_rows E cfg st left) as [[st1 del]|e] eqn:Hrows; [|discriminate].
  cbn [bind] in Hrun. inversion Hrun; subst st1 left'. clear Hrun.
  unfold merge_rows in Hrows.
  set (R := fun s s' : store * list nat =>
              forall r, ids (get (fst s') r) = ids (get (fst s) r)).
  assert (Hrefl : forall s, R s s) by (intros s r; reflexivity).
  assert (Htrans : forall s1 s2 s3, R s1 s2 -> R s2 s3 -> R s1 s3).
  { intros s1 s2 s3 H12 H23 r. now rewrite H23, H12. }
  apply (for_each_preserves _ _ R (merge_row E cfg) Hrefl Htrans (values left)
           ) with (s := (st, [])) (s' := (st', del)); [|assumption].
  intros s row s' _ Hrow. unfold merge_row in Hrow.
  apply (for_each_preserves _ _ R (merge_chromo_id E cfg row) Hrefl Htrans
           (list_set E (map (fun r => chromo_id (get (fst s) r)) row))
           ) with (s := s) (s' := s'); [|exact Hrow].
  intros [sa da] Y [sb db] _ Hstep r. cbn [fst].
  pose proof (merge_chromo_id_frame Image E cfg row Y sa sa da da eq_refl
                (fun r _ => eq_refl) (fun r _ _ => eq_refl)) as Hf.
  rewrite Hstep in Hf.
  destruct Hf as [d [_ [_ [_ [_ [_ [Hids _]]]]]]]. apply Hids.
Qed.

(** C6.  When [_id_info] passes its two gates, the labels of the four rows
    taken row by row are 24 different records that carry the numbers "1" to
    "22", "X" and "Y" in this order, each with its position in that sequence
    as index; and every record of the store, after the classification and
    after a merge, carries a number and the index of that number in the
    sequence, or neither. *)
Theorem labels_carry_the_canonical_numbers :
  forall (Image : Type) (E : Externals Image) (cfg : Config)
         (self self' : Karyotype Image) (st : store) (left : dict (list ref)),
    id_num_in_rows cfg = [5; 7; 6; 6] ->
    classify E cfg self = Ok (self', st, left) ->
    let labels := concat (id_cntr_dicts self') in
    id_cntr_dicts self' = values (id_cntr_dicts_orgby_cy self')
    /\ map (@length ref) (id_cntr_dicts self') = [5; 7; 6; 6]
    /\ NoDup labels
    /\ map (fun r => chromo_id (get (cntr_dicts self') r)) labels
       = map Some chromo_id_list
    /\ map (fun r => chromo_idx (get (cntr_dicts self') r)) labels
       = map Some (seq 0 24)
    /\ map (fun r => chromo_id (get st r)) labels = map Some chromo_id_list
    /\ map (fun r => chromo_idx (get st r)) labels = map Some (seq 0 24)
    /\ (forall r, id_consistent (get st r))
    /\ (forall st' left',
          merge_fragments E cfg st left = Ok (st', left') ->
          map (fun r => chromo_id (get st' r)) labels = map Some chromo_id_list
          /\ map (fun r => chromo_idx (get st' r)) labels = map Some (seq 0 24)
          /\ forall r, id_consistent (get st' r)).
Proof.
  intros Image E cfg self self' st left Hcfg Hcl labels.
  destruct (classify_unfold Image E cfg Hcfg self self' st left Hcl)
    as [stA [Hasg [Hsz [Hself [Hleft Hst]]]]].
  assert (Hst' : st = classified E cfg self stA) by (now subst).
  destruct (classified_effect Image E cfg self stA Hasg) as [HlenC [Hout Hrow]].
  assert (Hlabels : labels = id_labels E cfg self).
  { unfold labels. rewrite Hself. reflexivity. }
  assert (HstA : cntr_dicts self' = stA) by (rewrite Hself; reflexivity).
  assert (Hlen := id_labels_length Image E cfg self Hsz).
  assert (Hlab_st : forall x, In x (id_labels E cfg self) -> get st x = get stA x).
  { intros x Hx. rewrite Hst'. apply Hout. intros Hc.
    apply in_concat in Hc. destruct Hc as [l' [Hl' Hxl']].
    unfold values in Hl'. apply in_map_iff in Hl'.
    destruct Hl' as [[k' l0] [Heq Hin']]. simpl in Heq. subst l0.
    destruct (left_rows_In Image E cfg self stA Hasg k' l' x Hin' Hxl')
      as [_ [Hnot' _]].
    apply Hnot'. now apply (id_labels_chars Image E cfg self). }
  assert (HidA : map (fun r => chromo_id (get stA r)) (id_labels E cfg self)
                 = map Some chromo_id_list).
  { rewrite (map_nth_seq _ _ _ (fun j => nth_error chromo_id_list j)).
    - rewrite Hlen. reflexivity.
    - intros j x Hj.
      now rewrite (stA_labels Image E cfg self stA Hasg Hsz j x Hj). }
  assert (HidxA : map (fun r => chromo_idx (get stA r)) (id_labels E cfg self)
                  = map Some (seq 0 24)).
  { rewrite (map_nth_seq _ _ _ (fun j => Some j)).
    - now rewrite Hlen.
    - intros j x Hj.
      now rewrite (stA_labels Image E cfg self stA Hasg Hsz j x Hj). }
  assert (Hid : map (fun r => chromo_id (get st r)) (id_labels E cfg self)
                = map Some chromo_id_list).
  { rewrite <- HidA. apply map_ext_in. intros x Hx. now rewrite Hlab_st. }
  assert (Hidx : map (fun r => chromo_idx (get st r)) (id_labels E cfg self)
                 = map Some (seq 0 24)).
  { rewrite <- HidxA. apply map_ext_in. intros x Hx. now rewrite Hlab_st. }
  assert (Hcons : forall r, id_consistent (get st r)).
  { intros r. unfold id_consistent.
    destruct (in_dec Nat.eq_dec r (concat (values left))) as [Hin|Hnot].
    - apply in_concat in Hin. destruct Hin as [l [Hl Hr]].
      unfold values in Hl. apply in_map_iff in Hl.
      destruct Hl as [[k l0] [Heq Hin]]. simpl in Heq. subst l0.
      destruct (classified_row_record Image E cfg self self' st left k l r
                  Hcfg Hcl Hin Hr)
        as [j [lab [J [id [_ [H2 [_ [_ [H5 [H6 _]]]]]]]]]].
      now rewrite H5, H6.
    - rewrite Hleft in Hnot. rewrite Hst', (Hout r Hnot).
      destruct (in_dec Nat.eq_dec r (id_labels E cfg self)) as [Hlab|Hnlab].
      + destruct (label_has_id Image E cfg self stA Hasg Hsz r Hlab)
          as [j [id [_ [H2 [H3 H4]]]]].
        now rewrite H3, H4.
      + rewrite (stA_others Image E cfg self stA Hasg Hsz r Hnlab).
        destruct (gather_contours_no_id Image E
                    (find_external_contours E (img_img (img self))
                       (BIN_THRESH cfg)) r) as [H1 H2].
        unfold gathered. now rewrite H1, H2. }
  rewrite Hlabels, HstA.
  split; [rewrite Hself; reflexivity|]. split.
  { rewrite Hself. cbn [id_info_done id_cntr_dicts with_id cntr_dicts
                        with_cntr_dicts].
    unfold values. rewrite map_map. exact Hsz. }
  split; [apply (id_labels_NoDup Image E cfg self)|].
  split; [assumption|]. split; [assumption|].
  split; [assumption|]. split; [assumption|]. split; [assumption|].
  intros st' left' Hrun.
  pose proof (merge_fragments_ids Image E cfg st left st' left' Hrun) as Hids.
  assert (Hc : forall r, chromo_id (get st' r) = chromo_id (get st r)
                         /\ chromo_idx (get st' r) = chromo_idx (get st r)).
  { intros r. pose proof (Hids r) as H. unfold ids in H. inversion H.
    split; reflexivity. }
  split; [rewrite <- Hid; apply map_ext; intros r; apply Hc|].
  split; [rewrite <- Hidx; apply map_ext; intros r; apply Hc|].
  intros r. unfold id_consistent. destruct (Hc r) as [-> ->]. apply Hcons.
Qed.

(** ** The bands of the final rows *)

(** A contour of a row of the classification has its vertical centroid
    in the band of that row. *)
Lemma classified_row_band :
  forall (Image : Type) (E : Externals Image) (cfg : Config)
         (self self' : Karyotype Image) (st : store) (left : dict (list ref))
         (k : Z) (l : list ref) (r : ref),
    id_num_in_rows cfg = [5; 7; 6; 6] ->
    classify E cfg self = Ok (self', st, left) ->
    In (k, l) left ->
    In r l ->
    find_row (cy (get st r)) (keys (id_cntr_dicts_orgby_cy self')) 0 = Some k.
Proof.
  intros Image E cfg self self' st left k l r Hcfg Hcl Hin Hr.
  destruct (classify_unfold Image E cfg Hcfg self self' st left Hcl)
    as [stA [Hasg [Hsz [Hself [Hleft Hst]]]]].
  assert (Hst' : st = classified E cfg self stA) by (now subst).
  assert (Hgeo := classified_geometry Image E cfg self stA Hasg r).
  rewrite <- Hst' in Hgeo.
  assert (Hcy : cy (get st r) = cy (get (gathered E cfg self) r)).
  { unfold geometry in Hgeo. now inversion Hgeo. }
  assert (Hkeys : keys (id_cntr_dicts_orgby_cy self')
                  = keys (id_rows E cfg self)).
  { rewrite Hself. reflexivity. }
  rewrite Hleft in Hin.
  destruct (left_rows_In Image E cfg self stA Hasg k l r Hin Hr)
    as [_ [_ Hrow]].
  unfold row_of in Hrow. now rewrite Hkeys, Hcy.
Qed.

Lemma classified_keys :
  forall (Image : Type) (E : Externals Image) (cfg : Config)
         (self self' : Karyotype Image) (st : store) (left : dict (list ref)),
    id_num_in_rows cfg = [5; 7; 6; 6] ->
    classify E cfg self = Ok (self', st, left) ->
    ascending (keys (id_cntr_dicts_orgby_cy self'))
    /\ length (keys (id_cntr_dicts_orgby_cy self')) = 4.
Proof.
  intros Image E cfg self self' st left Hcfg Hcl.
  destruct (classify_unfold Image E cfg Hcfg self self' st left Hcl)
    as [stA [Hasg [Hsz [Hself [Hleft Hst]]]]].
  assert (Hkeys : keys (id_cntr_dicts_orgby_cy self')
                  = keys (id_rows E cfg self)).
  { rewrite Hself. reflexivity. }
  rewrite Hkeys. split; [apply label_rows_keys_ascending|].
  unfold keys. rewrite length_map.
  assert (H : length (row_sizes (id_rows E cfg self)) = 4)
    by (now rewrite Hsz).
  unfold row_sizes in H. now rewrite length_map in H.
Qed.

(** The rows after the merge are parts of the rows before it. *)
Lemma merge_fragments_rows :
  forall (Image : Type) (E : Externals Image) (cfg : Config)
         (st : store) (left : dict (list ref)) (st' : store)
         (left' : dict (list ref)),
    merge_fragments E cfg st left = Ok (st', left') ->
    keys left' = keys left
    /\ forall k row' r,
         In (k, row') left' -> In r row' ->
         exists row, In (k, row) left /\ In r row.
Proof.
  intros Image E cfg st left st' left' Hrun.
  unfold merge_fragments in Hrun.
  destruct (merge_rows E cfg st left) as [[st1 del]|e] eqn:Hrows;
    [|discriminate].
  cbn [bind] in Hrun. inversion Hrun; subst st1 left'. clear Hrun.
  split.
  - unfold delete_rows, keys. rewrite map_map. reflexivity.
  - intros k row' r Hin Hr. unfold delete_rows in Hin.
    apply in_map_iff in Hin. destruct Hin as [[k0 row] [Heq Hin]].
    simpl in Heq. inversion Heq; subst k0 row'. clear Heq.
    exists row. split; [assumption|].
    rewrite delete_small_cnts_filter in Hr. apply filter_In in Hr. tauto.
Qed.

(** ** The gates of [_id_info] in [read_karyotype] *)

Lemma for_each_raise :
  forall (A S : Type) (body : S -> A -> result S) (l : list A) (s : S) (e : exn),
    for_each body l s = Raise e ->
    exists s0 x, In x l /\ body s0 x = Raise e.
Proof.
  intros A S body l. induction l as [|x t IH]; intros s e H; simpl in H;
    [discriminate|].
  destruct (body s x) as [s1|e1] eqn:Hb; simpl in H.
  - destruct (IH s1 e H) as [s0 [y [Hy Hr]]]. exists s0, y. split; [now right|assumption].
  - inversion H; subst. exists s, x. split; [now left|assumption].
Qed.

Lemma merge_small_piece_raises :
  forall (Image : Type) (E : Externals Image) (mains : list ref)
         (acc : store * list nat) (s : ref) (e : exn),
    merge_small_piece E mains acc s = Raise e ->
    e = TypeError \/ e = ZeroDivisionError.
Proof.
  intros Image E mains [st del] s e H. unfold merge_small_piece in H.
  destruct (snd (nearest_main_branch E st s mains (inf, None)))
    as [[[n i] j]|]; [|inversion H; now left].
  destruct (update_merged_cnt_cases Image E n
              (merge_two_contours_by_npi E (cntr (get st s)) (cntr (get st n)) i j))
    as [[_ Hraise]|[_ [qx [qy Hok]]]].
  - rewrite Hraise in H. inversion H. now right.
  - rewrite Hok in H. discriminate.
Qed.

Lemma merge_chromo_id_raises :
  forall (Image : Type) (E : Externals Image) (cfg : Config) (row : list ref)
         (acc : store * list nat) (Y : option string) (e : exn),
    merge_chromo_id E cfg row acc Y = Raise e ->
    e = TypeError \/ e = ZeroDivisionError.
Proof.
  intros Image E cfg row acc Y e H. unfold merge_chromo_id in H.
  destruct (length _ <=? 1); [discriminate|].
  unfold py_div in H. destruct (Qeq_bool _ 0); [inversion H; now right|].
  cbn [bind] in H.
  destruct (Qlt_bool _ _); [discriminate|].
  apply for_each_raise in H. destruct H as [s0 [x [_ H]]].
  now apply merge_small_piece_raises in H.
Qed.

Lemma merge_fragments_raises :
  forall (Image : Type) (E : Externals Image) (cfg : Config) (st : store)
         (left : dict (list ref)) (e : exn),
    merge_fragments E cfg st left = Raise e ->
    e = TypeError \/ e = ZeroDivisionError.
Proof.
  intros Image E cfg st left e H. unfold merge_fragments in H.
  destruct (merge_rows E cfg st left) as [[st1 del]|e1] eqn:Hrows;
    [discriminate|].
  cbn [bind] in H. inversion H; subst e1. clear H.
  unfold merge_rows in Hrows. apply for_each_raise in Hrows.
  destruct Hrows as [s0 [row [_ Hrow]]]. unfold merge_row in Hrow.
  apply for_each_raise in Hrow. destruct Hrow as [s1 [Y [_ HY]]].
  now apply merge_chromo_id_raises in HY.
Qed.

(** The two ways in which [read_karyotype] raises. *)
Lemma read_karyotype_raise_cases :
  forall (Image : Type) (E : Externals Image) (cfg : Config)
         (self : Karyotype Image) (e : exn),
    id_num_in_rows cfg = [5; 7; 6; 6] ->
    read_karyotype E cfg self = Raise e ->
    let gate := snd (_id_info cfg (with_cntr_dicts (gathered E cfg self) self)) in
    (gate = Some e
     /\ ((exists n, n <> 4 /\ e = ValueError_row_count n)
         \/ exists row found expected,
              found <> expected /\ e = ValueError_row_id_num row found expected))
    \/ (gate = None
        /\ (exists self' st left,
              classify E cfg self = Ok (self', st, left)
              /\ merge_fragments E cfg st left = Raise e)
        /\ (e = TypeError \/ e = ZeroDivisionError)).
Proof.
  intros Image E cfg self e Hcfg Hrun gate. subst gate.
  unfold read_karyotype in Hrun.
  destruct (classify E cfg self) as [[[self' st] left]|e0] eqn:Hcl.
  - right. cbn [bind] in Hrun.
    destruct (merge_fragments E cfg st left) as [[st' left']|e1] eqn:Hm;
      [discriminate|].
    cbn [bind] in Hrun. inversion Hrun; subst e1. clear Hrun.
    split.
    + unfold classify in Hcl. fold (gathered E cfg self) in Hcl.
      destruct (_id_info cfg (with_cntr_dicts (gathered E cfg self) self))
        as [s [e2|]]; [discriminate|reflexivity].
    + split; [exists self', st, left; tauto|].
      now apply (merge_fragments_raises Image E cfg st left).
  - left. cbn [bind] in Hrun. inversion Hrun; subst e0. clear Hrun.
    unfold classify in Hcl. fold (gathered E cfg self) in Hcl.
    destruct (id_info_cases Image cfg Hcfg
                (with_cntr_dicts (gathered E cfg self) self))
      as [[Hlen Hid]|[[Hlen [idx [l [n [Hw Hid]]]]]|[Hlen [Hsz [st' [_ Hid]]]]]];
      cbv zeta in Hid; rewrite Hid in Hcl; rewrite Hid; cbn [snd].
    + inversion Hcl; subst e. split; [reflexivity|]. left. eauto.
    + inversion Hcl; subst e. split; [reflexivity|]. right.
      destruct Hw as [_ [_ [Hne _]]]. eauto.
    + exfalso. cbv zeta in Hsz.
      cbn [id_info_done cntr_dicts with_cntr_dicts with_id with_id_char
           id_cntr_dicts_orgby_cy id_char_cntr_dicts] in Hcl.
      rewrite organize_left_fold in Hcl; [discriminate|].
      intros Hnil. unfold keys in Hnil. apply map_eq_nil in Hnil.
      cbn [cntr_dicts with_cntr_dicts] in Hsz.
      rewrite Hnil in Hsz. discriminate.
Qed.

Lemma read_karyotype_gate :
  forall (Image : Type) (E : Externals Image) (cfg : Config)
         (self : Karyotype Image) (e : exn),
    snd (_id_info cfg (with_cntr_dicts (gathered E cfg self) self)) = Some e ->
    read_karyotype E cfg self = Raise e.
Proof.
  intros Image E cfg self e H. unfold read_karyotype, classify.
  fold (gathered E cfg self).
  destruct (_id_info cfg (with_cntr_dicts (gathered E cfg self) self))
    as [s [e'|]]; simpl in H; [|discriminate].
  inversion H; subst. reflexivity.
Qed.

(** C2, as amended.  With the expected numbers of labels 5, 7, 6 and 6,
    [_id_info] raises if and only if the number of label rows is not 4 or
    some row has, after the collapse, a number of labels that is not the
    expected one; the exception carries the offending count, and
    [read_karyotype] raises it and returns nothing.  When the number of
    rows is wrong the object is left as it was.  When a row has a wrong
    number of labels, lines 194 to 196 have stored the rows of label
    characters in the object, and nothing else: the records, the labels and
    the rows of chromosomes are as they were.  When the layout passes,
    [read_karyotype] raises no [ValueError]. *)
Theorem id_info_raises_iff_layout_violated :
  forall (Image : Type) (cfg : Config) (self : Karyotype Image),
    id_num_in_rows cfg = [5; 7; 6; 6] ->
    let st := cntr_dicts self in
    let rows := label_rows cfg st in
    let out := _id_info cfg self in
    (snd out <> None
     <-> length (label_char_rows cfg st) <> 4
         \/ exists idx key l n,
              nth_error rows idx = Some (key, l)
              /\ nth_error [5; 7; 6; 6] idx = Some n
              /\ length l <> n)
    /\ (forall e, snd out = Some e ->
          (e = ValueError_row_count (length (label_char_rows cfg st))
           /\ length (label_char_rows cfg st) <> 4
           /\ fst out = self)
          \/ (length (label_char_rows cfg st) = 4
              /\ (exists idx l n,
                    first_wrong_row cfg rows idx l n
                    /\ e = ValueError_row_id_num (S idx) (length l) n)
              /\ fst out
                 = with_id_char rows (values (sorted_char_rows cfg st)) self))
    /\ (forall e, snd out = Some e ->
          img (fst out) = img self
          /\ case_id (fst out) = case_id self
          /\ pic_id (fst out) = pic_id self
          /\ cntr_dicts (fst out) = st
          /\ id_cntr_dicts (fst out) = id_cntr_dicts self
          /\ id_cntr_dicts_orgby_cy (fst out) = id_cntr_dicts_orgby_cy self
          /\ chromo_cntr_dicts (fst out) = chromo_cntr_dicts self
          /\ chromo_cntr_dicts_orgby_cy (fst out) = chromo_cntr_dicts_orgby_cy self)
    /\ (forall (E : Externals Image) (self0 : Karyotype Image),
          self = with_cntr_dicts
                   (gather_contours E
                      (find_external_contours E (img_img (img self0))
                         (BIN_THRESH cfg)))
                   self0 ->
          (forall e, snd out = Some e -> read_karyotype E cfg self0 = Raise e)
          /\ (snd out = None ->
              forall e, read_karyotype E cfg self0 = Raise e ->
                        e = TypeError \/ e = ZeroDivisionError)).
Proof.
  intros Image cfg self Hcfg st rows out.
  assert (Hread : forall (E : Externals Image) (self0 : Karyotype Image),
            self = with_cntr_dicts
                     (gather_contours E
                        (find_external_contours E (img_img (img self0))
                           (BIN_THRESH cfg)))
                     self0 ->
            (forall e, snd out = Some e -> read_karyotype E cfg self0 = Raise e)
            /\ (snd out = None ->
                forall e, read_karyotype E cfg self0 = Raise e ->
                          e = TypeError \/ e = ZeroDivisionError)).
  { intros E self0 Hself. fold (gathered E cfg self0) in Hself. split.
    - intros e He. apply read_karyotype_gate. rewrite <- Hself. exact He.
    - intros Hnone e Hrun.
      destruct (read_karyotype_raise_cases Image E cfg self0 e Hcfg Hrun)
        as [[Hgate _]|[_ [_ He]]]; [|assumption].
      rewrite <- Hself in Hgate. unfold out in Hnone. congruence. }
  destruct (id_info_cases Image cfg Hcfg self)
    as [[Hlen Hout]|[[Hlen [idx [l [n [Hw Hout]]]]]|[Hlen [Hsz [st' [_ Hout]]]]]];
    fold st in Hlen, Hout; fold rows in Hout; unfold out in *; rewrite Hout in *;
    cbn [fst snd] in *.
  - split; [split; [intros _; now left|discriminate]|]. split; [|split].
    + intros e He. inversion He; subst. left. repeat split. assumption.
    + intros e _. repeat split.
    + exact Hread.
  - split; [|split; [|split]].
    + split; [|discriminate]. intros _. right.
      destruct Hw as [[key Hkey] [Hn [Hne _]]]. rewrite Hcfg in Hn.
      exists idx, key, l, n. repeat split; assumption.
    + intros e He. inversion He; subst. right. split; [assumption|].
      split; [|reflexivity]. exists idx, l, n. split; [assumption|reflexivity].
    + intros e _. repeat split.
    + exact Hread.
  - split; [|split; [|split]]; try (intros e He; discriminate).
    + split; [intros H; now elim H|].
      intros [H|[idx [key [l [n [Hrow [Hn Hne]]]]]]]; [contradiction|].
      exfalso. apply Hne.
      assert (Hs : nth_error (row_sizes rows) idx = Some (length l)).
      { unfold row_sizes. now rewrite nth_error_map, Hrow. }
      unfold rows, st in Hs. rewrite Hsz in Hs. congruence.
    + exact Hread.
Qed.

(** ** The polygon geometry *)

Lemma polygon_list_set_spec :
  forall fs, list_set_spec Polygon.Image (Polygon.externals fs).
Proof.
  intros fs l. split.
  - apply NoDup_nodup.
  - intros x. apply nodup_In.
Qed.

Lemma last_app_cons :
  forall (A : Type) (l1 l2 : list A) (x d d' : A),
    last (l1 ++ x :: l2) d = last (x :: l2) d'.
Proof.
  intros A l1 l2 x d d'. induction l1 as [|y t IH].
  - simpl app. revert x. induction l2 as [|z u IHu]; intros x; [reflexivity|].
    change (last (z :: u) d = last (z :: u) d'). apply IHu.
  - destruct t as [|y' t']; simpl in *; exact IH.
Qed.

Lemma split_at :
  forall (A : Type) (l : list A) (i : nat),
    i < length l ->
    exists l1 x l2,
      l = l1 ++ x :: l2
      /\ firstn (S i) l = l1 ++ [x]
      /\ skipn i l = x :: l2.
Proof.
  intros A l. induction l as [|y t IH]; intros i Hi; simpl in Hi; [lia|].
  destruct i as [|i].
  - exists [], y, t. simpl. tauto.
  - destruct (IH i) as [l1 [x [l2 [H1 [H2 H3]]]]]; [lia|].
    exists (y :: l1), x, l2. split; [simpl; now rewrite H1|].
    split; [|assumption].
    change (y :: firstn (S i) t = y :: l1 ++ [x]). now rewrite H2.
Qed.

(** *** The sums of Green's formula over a splice *)

Section Green.

Local Open Scope Z_scope.

Variable f : Point -> Point -> Z.
Hypothesis f_anti : forall p q, f p q + f q p = 0.

Definition path_sum (prev : Point) (c : Contour) : Z :=
  Polygon.sum_edges f (Polygon.edges_from prev c).

Definition green (c : Contour) : Z := Polygon.sum_edges f (Polygon.edges c).

Lemma path_sum_nil : forall prev, path_sum prev [] = 0.
Proof. reflexivity. Qed.

Lemma path_sum_cons :
  forall prev p c, path_sum prev (p :: c) = f prev p + path_sum p c.
Proof. reflexivity. Qed.

Lemma path_sum_app :
  forall c1 c2 prev,
    path_sum prev (c1 ++ c2) = path_sum prev c1 + path_sum (last c1 prev) c2.
Proof.
  induction c1 as [|p t IH]; intros c2 prev.
  - simpl app. rewrite path_sum_nil. simpl last. lia.
  - change ((p :: t) ++ c2) with (p :: (t ++ c2)).
    rewrite !path_sum_cons, IH.
    replace (last (p :: t) prev) with (last t p); [lia|].
    destruct t as [|y u]; [reflexivity|].
    change (last (y :: u) p = last (y :: u) prev).
    apply (last_app_cons _ [] u y).
Qed.

Lemma green_path :
  forall c, green c = path_sum (last c (0, 0)) c.
Proof. reflexivity. Qed.

Lemma f_diag : forall p, f p p = 0.
Proof. intros p. pose proof (f_anti p p). lia. Qed.

(** The two crossings between the contours cancel. *)
Lemma green_splice_parts :
  forall (A B C D : Contour) (p q : Point),
    green ((A ++ [p]) ++ (q :: D) ++ (C ++ [q]) ++ (p :: B))
    = green (A ++ p :: B) + green (C ++ q :: D).
Proof.
  intros A B C D p q. rewrite !green_path.
  replace (last ((A ++ [p]) ++ (q :: D) ++ (C ++ [q]) ++ p :: B) (0, 0))
    with (last (p :: B) (0, 0)).
  2:{ rewrite !app_assoc. symmetry. apply last_app_cons. }
  rewrite (last_app_cons _ A B p (0, 0) (0, 0)).
  rewrite (last_app_cons _ C D q (0, 0) (0, 0)).
  set (z := last (p :: B) (0, 0)). set (w := last (q :: D) (0, 0)).
  rewrite !path_sum_app, !path_sum_cons, !path_sum_nil.
  rewrite !last_last.
  assert (Hw : last (q :: D) p = w) by (apply (last_app_cons _ [] D q)).
  rewrite Hw.
  pose proof (f_anti p q). lia.
Qed.

Lemma green_splice :
  forall (c1 c2 : Contour) (i j : nat),
    (i < length c1 /\ j < length c2)%nat
    \/ (i = O /\ j = O /\ (c1 = [] \/ c2 = [])) ->
    green (Polygon.merge_two_contours_by_npi c1 c2 i j) = green c1 + green c2.
Proof.
  intros c1 c2 i j [[Hi Hj]|[-> [-> Hnil]]];
    unfold Polygon.merge_two_contours_by_npi.
  - destruct (split_at _ c1 i Hi) as [A [p [B [H1 [H2 H3]]]]].
    destruct (split_at _ c2 j Hj) as [C [q [D [H4 [H5 H6]]]]].
    rewrite H2, H3, H5, H6, H1, H4.
    apply green_splice_parts.
  - destruct Hnil as [->| ->].
    + simpl. rewrite app_nil_r. destruct c2 as [|q D]; [reflexivity|].
      simpl firstn. rewrite !green_path.
      rewrite (last_app_cons _ (q :: D) [] q (0, 0) (0, 0)).
      simpl (last [q] (0, 0)).
      rewrite path_sum_app, !path_sum_cons, !path_sum_nil, f_diag.
      replace (last (q :: D) q) with (last (q :: D) (0, 0))
        by (apply (last_app_cons _ [] D q)).
      lia.
    + destruct c1 as [|p B]; [reflexivity|].
      change (green (p :: p :: B) = green (p :: B) + green []).
      rewrite !green_path.
      change (last (p :: p :: B) (0, 0)) with (last (p :: B) (0, 0)).
      rewrite !path_sum_cons, path_sum_nil, f_diag. lia.
Qed.

End Green.

(** ** The charts *)

Lemma not_In_existsb :
  forall (x : nat) (l : list nat), existsb (Nat.eqb x) l = false -> ~ In x l.
Proof.
  intros x l H Hin. apply existsb_nat_eqb in Hin. congruence.
Qed.

(** The constructor builds the object of a chart from its file. *)
Lemma chart_object_built :
  forall cntrs,
    __init__ (Polygon.chart_externals cntrs) (Some Polygon.chart_fp)
    = ([io_exists Polygon.chart_fp; io_imread Polygon.chart_fp],
       Ok (Polygon.chart_object cntrs)).
Proof. intros cntrs. reflexivity. Qed.

(** The chart with a small piece passes [_id_info]. *)
Lemma id_info_raises_iff_layout_violated_witness :
  let cfg := karyotype_ini in
  let c := Polygon.chart_with_piece in
  let self :=
    with_cntr_dicts (gather_contours (Polygon.chart_externals c) c)
      (Polygon.chart_object c) in
  let st := cntr_dicts self in
  let rows := label_rows cfg st in
  let out := _id_info cfg self in
  id_num_in_rows cfg = [5; 7; 6; 6]
  /\ (snd out <> None
      <-> length (label_char_rows cfg st) <> 4
          \/ exists idx key l n,
               nth_error rows idx = Some (key, l)
               /\ nth_error [5; 7; 6; 6] idx = Some n
               /\ length l <> n)
  /\ snd out = None
  /\ row_sizes rows = [5; 7; 6; 6].
Proof.
  split; [reflexivity|]. split.
  - exact (proj1 (id_info_raises_iff_layout_violated Polygon.Image karyotype_ini
                    (with_cntr_dicts
                       (gather_contours
                          (Polygon.chart_externals Polygon.chart_with_piece)
                          Polygon.chart_with_piece)
                       (Polygon.chart_object Polygon.chart_with_piece))
                    eq_refl)).
  - split; vm_compute; reflexivity.
Defined.

(** The chart with one label too many in the first row: the second gate
    raises for a row of 6 labels, and the object then holds the four rows
    of label characters that line 195 stored, 25 strokes, where it held
    none before. *)
Lemma label_strokes_are_stored_before_the_gate :
  let cfg := karyotype_ini in
  let c := Polygon.chart_extra_label in
  let E := Polygon.chart_externals c in
  let self :=
    with_cntr_dicts
      (gather_contours E
         (find_external_contours E (img_img (img (Polygon.chart_object c)))
            (BIN_THRESH cfg)))
      (Polygon.chart_object c) in
  let out := _id_info cfg self in
  length (label_char_rows cfg (cntr_dicts self)) = 4
  /\ snd out = Some (ValueError_row_id_num 1 6 5)
  /\ read_karyotype E cfg (Polygon.chart_object c)
     = Raise (ValueError_row_id_num 1 6 5)
  /\ id_char_cntr_dicts self = []
  /\ id_char_cntr_dicts_orgby_cy self = []
  /\ map (fun l => length l) (id_char_cntr_dicts (fst out)) = [6; 7; 6; 6]
  /\ row_sizes (id_char_cntr_dicts_orgby_cy (fst out)) = [6; 7; 6; 6]
  /\ keys (id_char_cntr_dicts_orgby_cy (fst out)) = [200; 400; 600; 800]%Z.
Proof. repeat split; vm_compute; reflexivity. Qed.

(** Two strokes 5 pixels apart collapse to the first of them. *)
Lemma collapse_compares_with_previous_record_witness :
  let cfg := karyotype_ini in
  let st := Polygon.two_strokes in
  (cx (get st 1%nat) - cx (get st 0%nat) = 5)%Z
  /\ (5 <= ID_CHAR_X_TOLERANCE cfg)%Z
  /\ collapse_row cfg st (sorted_by (fun x => cx (get st x)) [0; 1]) = [0].
Proof.
  cbv zeta.
  assert (Hcx : (cx (get Polygon.two_strokes 1%nat)
                 - cx (get Polygon.two_strokes 0%nat) = 5)%Z) by reflexivity.
  assert (Htol : (5 <= ID_CHAR_X_TOLERANCE karyotype_ini)%Z)
    by (vm_compute; discriminate).
  split; [exact Hcx|]. split; [exact Htol|].
  exact (proj2 (proj2 (proj2 (proj2 (proj2
           (collapse_compares_with_previous_record karyotype_ini
              Polygon.two_strokes))))) 0 1 Hcx Htol).
Defined.

(** Three strokes at 100, 130 and 160 with a tolerance of 40: the third
    one is 60 pixels from the stroke that was kept, and 30 pixels from the
    stroke before it.  The code keeps the first stroke only; a comparison
    with the stroke kept last keeps the first and the third. *)
Lemma third_stroke_is_dropped :
  let cfg := karyotype_ini in
  let st := Polygon.three_strokes in
  let row := sorted_by (fun x => cx (get st x)) [0; 1; 2] in
  row = [0; 1; 2]
  /\ map (fun r => cx (get st r)) row = [100; 130; 160]%Z
  /\ ID_CHAR_X_TOLERANCE cfg = 40%Z
  /\ collapse_row cfg st row = [0]
  /\ collapse_row_kept cfg st row = [0; 2].
Proof. repeat split; vm_compute; reflexivity. Qed.

(** The state of a chart that the classification accepts. *)
Lemma chart_classified_ok :
  forall c,
    is_ok (classify (Polygon.chart_externals c) karyotype_ini
             (Polygon.chart_object c)) = true ->
    classify (Polygon.chart_externals c) karyotype_ini (Polygon.chart_object c)
    = Ok (Polygon.chart_self c, Polygon.chart_store c, Polygon.chart_rows c).
Proof.
  intros c H.
  unfold Polygon.chart_self, Polygon.chart_store, Polygon.chart_rows,
    Polygon.chart_classified.
  destruct (classify _ _ _) as [[[s st] l]|e]; [reflexivity|discriminate].
Qed.

Lemma chart_merged_ok :
  forall c,
    is_ok (merge_fragments (Polygon.chart_externals c) karyotype_ini
             (Polygon.chart_store c) (Polygon.chart_rows c)) = true ->
    merge_fragments (Polygon.chart_externals c) karyotype_ini
      (Polygon.chart_store c) (Polygon.chart_rows c)
    = Ok (fst (Polygon.chart_merged c), snd (Polygon.chart_merged c)).
Proof.
  intros c H. unfold Polygon.chart_merged.
  destruct (merge_fragments _ _ _ _) as [[st l]|e]; [reflexivity|discriminate].
Qed.

(** C1.  Not every contour that is not a label character gets a
    chromosome number, although the comment of line 306 says that all left
    contours have one when the loop of lines 288 to 304 ends.  On the chart
    with a small piece the contour 26 lies below the last row of labels: it
    is no label character, the classification gives it no chromosome number
    and puts it in no row, and the output of [read_karyotype] does not hold
    it. *)
Theorem contour_below_the_last_row_is_dropped :
  let c := Polygon.chart_with_piece in
  let E := Polygon.chart_externals c in
  let self' := Polygon.chart_self c in
  let st := Polygon.chart_store c in
  let left := Polygon.chart_rows c in
  classify E karyotype_ini (Polygon.chart_object c) = Ok (self', st, left)
  /\ length st = 27
  /\ cntr (get st 26) = Polygon.box 300 900 10 10
  /\ existsb (Nat.eqb 26) (concat (id_char_cntr_dicts self')) = false
  /\ keys (id_cntr_dicts_orgby_cy self') = [200; 400; 600; 800]%Z
  /\ cy (get st 26) = 905%Z
  /\ chromo_id (get st 26) = None
  /\ chromo_idx (get st 26) = None
  /\ existsb (Nat.eqb 26) (concat (values left)) = false
  /\ exists out,
       read_karyotype E karyotype_ini (Polygon.chart_object c) = Ok out
       /\ chromo_cntr_dicts out = [[24]]
       /\ chromo_id (get (cntr_dicts out) 26) = None.
Proof.
  cbv zeta. split; [apply chart_classified_ok; vm_compute; reflexivity|].
  repeat (split; [vm_compute; reflexivity|]).
  eexists. split; [vm_compute; reflexivity|].
  split; vm_compute; reflexivity.
Qed.

(** On the same chart the contour 24 lies in the band of the first row. *)
Lemma contour_inside_a_band_is_classified_witness :
  let c := Polygon.chart_with_piece in
  let E := Polygon.chart_externals c in
  let cfg := karyotype_ini in
  let self := Polygon.chart_object c in
  let self' := Polygon.chart_self c in
  let st := Polygon.chart_store c in
  let left := Polygon.chart_rows c in
  let r := 24 in
  let cy_keys := keys (id_cntr_dicts_orgby_cy self') in
  (id_num_in_rows cfg = [5; 7; 6; 6]
   /\ classify E cfg self = Ok (self', st, left)
   /\ r < length st
   /\ ~ In r (concat (id_char_cntr_dicts self')))
  /\ find_row (cy (get st r)) cy_keys 0 = Some 200%Z
  /\ cntr_idx (get st r) = r
  /\ NoDup (concat (values left))
  /\ (exists pre post,
        cy_keys = pre ++ 200%Z :: post
        /\ (last pre 0 < cy (get st r))%Z /\ (cy (get st r) < 200)%Z)
  /\ (exists l, In (200%Z, l) left /\ In r l)
  /\ (forall k' l', In (k', l') left -> In r l' -> k' = 200%Z)
  /\ exists id idx,
       chromo_id (get st r) = Some id
       /\ chromo_idx (get st r) = Some idx
       /\ nth_error chromo_id_list idx = Some id.
Proof.
  cbv zeta.
  assert (Hcl : classify (Polygon.chart_externals Polygon.chart_with_piece)
                  karyotype_ini (Polygon.chart_object Polygon.chart_with_piece)
                = Ok (Polygon.chart_self Polygon.chart_with_piece,
                      Polygon.chart_store Polygon.chart_with_piece,
                      Polygon.chart_rows Polygon.chart_with_piece))
    by (apply chart_classified_ok; vm_compute; reflexivity).
  assert (Hlen : 24 < length (Polygon.chart_store Polygon.chart_with_piece))
    by (vm_compute; lia).
  assert (Hnot : ~ In 24 (concat (id_char_cntr_dicts
                                    (Polygon.chart_self Polygon.chart_with_piece))))
    by (apply not_In_existsb; vm_compute; reflexivity).
  assert (Hrow : find_row (cy (get (Polygon.chart_store Polygon.chart_with_piece) 24))
                   (keys (id_cntr_dicts_orgby_cy
                            (Polygon.chart_self Polygon.chart_with_piece))) 0
                 = Some 200%Z)
    by (vm_compute; reflexivity).
  split; [split; [reflexivity|]; split; [exact Hcl|]; split; assumption|].
  split; [exact Hrow|].
  pose proof (contour_inside_a_band_is_classified Polygon.Image
                (Polygon.chart_externals Polygon.chart_with_piece)
                karyotype_ini (Polygon.chart_object Polygon.chart_with_piece)
                (Polygon.chart_self Polygon.chart_with_piece)
                (Polygon.chart_store Polygon.chart_with_piece)
                (Polygon.chart_rows Polygon.chart_with_piece) 24
                eq_refl Hcl Hlen Hnot) as H.
  cbv zeta in H. rewrite Hrow in H.
  destruct H as [H1 [H2 [H3 [H4 [H5 H6]]]]].
  split; [exact H1|]. split; [exact H2|]. split; [exact H3|].
  split; [exact H4|]. split; [exact H5|exact H6].
Defined.

(** The contour 24 of the chart with a small piece and the labels of the
    first row. *)
Lemma classified_by_first_nearest_label_witness :
  let c := Polygon.chart_with_piece in
  let E := Polygon.chart_externals c in
  let cfg := karyotype_ini in
  let self := Polygon.chart_object c in
  let self' := Polygon.chart_self c in
  let st := Polygon.chart_store c in
  let left := Polygon.chart_rows c in
  let k := 200%Z in
  let l := [25; 24] in
  let r := 24 in
  (id_num_in_rows cfg = [5; 7; 6; 6]
   /\ classify E cfg self = Ok (self', st, left)
   /\ In (k, l) left
   /\ In r l)
  /\ dict_item k (id_cntr_dicts_orgby_cy self') = [23; 22; 21; 20; 19]
  /\ chromo_id (get st r) = Some "1"%string
  /\ distance_to_id (get st r) = Some (sqrt_of 4900)
  /\ exists j lab,
       nth_error (dict_item k (id_cntr_dicts_orgby_cy self')) j = Some lab
       /\ chromo_id (get st r) = chromo_id (get st lab)
       /\ chromo_idx (get st r) = chromo_idx (get st lab)
       /\ (exists id, chromo_id (get st r) = Some id)
       /\ distance_to_id (get st r) = Some (sqrt_of (d2 (get st r) (get st lab)))
       /\ (forall lab', In lab' (dict_item k (id_cntr_dicts_orgby_cy self')) ->
             (d2 (get st r) (get st lab) <= d2 (get st r) (get st lab'))%Z)
       /\ (forall j' lab',
             j' < j ->
             nth_error (dict_item k (id_cntr_dicts_orgby_cy self')) j' = Some lab' ->
             (d2 (get st r) (get st lab) < d2 (get st r) (get st lab'))%Z).
Proof.
  cbv zeta.
  assert (Hcl : classify (Polygon.chart_externals Polygon.chart_with_piece)
                  karyotype_ini (Polygon.chart_object Polygon.chart_with_piece)
                = Ok (Polygon.chart_self Polygon.chart_with_piece,
                      Polygon.chart_store Polygon.chart_with_piece,
                      Polygon.chart_rows Polygon.chart_with_piece))
    by (apply chart_classified_ok; vm_compute; reflexivity).
  assert (Hin : In (200%Z, [25; 24]) (Polygon.chart_rows Polygon.chart_with_piece))
    by (vm_compute; left; reflexivity).
  assert (Hr : In 24 [25; 24]) by (right; left; reflexivity).
  split; [split; [reflexivity|]; split; [exact Hcl|]; split; assumption|].
  split; [vm_compute; reflexivity|]. split; [vm_compute; reflexivity|].
  split; [vm_compute; reflexivity|].
  exact (classified_by_first_nearest_label Polygon.Image
           (Polygon.chart_externals Polygon.chart_with_piece)
           karyotype_ini (Polygon.chart_object Polygon.chart_with_piece)
           (Polygon.chart_self Polygon.chart_with_piece)
           (Polygon.chart_store Polygon.chart_with_piece)
           (Polygon.chart_rows Polygon.chart_with_piece)
           200%Z [25; 24] 24 eq_refl Hcl Hin Hr).
Defined.

(** The labels of the chart with a small piece. *)
Lemma labels_carry_the_canonical_numbers_witness :
  let c := Polygon.chart_with_piece in
  let E := Polygon.chart_externals c in
  let cfg := karyotype_ini in
  let self := Polygon.chart_object c in
  let self' := Polygon.chart_self c in
  let st := Polygon.chart_store c in
  let left := Polygon.chart_rows c in
  let labels := concat (id_cntr_dicts self') in
  (id_num_in_rows cfg = [5; 7; 6; 6]
   /\ classify E cfg self = Ok (self', st, left))
  /\ labels = [23; 22; 21; 20; 19; 18; 17; 16; 15; 14; 13; 12;
               11; 10; 9; 8; 7; 6; 5; 4; 3; 2; 1; 0]
  /\ id_cntr_dicts self' = values (id_cntr_dicts_orgby_cy self')
  /\ map (@length ref) (id_cntr_dicts self') = [5; 7; 6; 6]
  /\ NoDup labels
  /\ map (fun r => chromo_id (get (cntr_dicts self') r)) labels
     = map Some chromo_id_list
  /\ map (fun r => chromo_idx (get (cntr_dicts self') r)) labels
     = map Some (seq 0 24)
  /\ map (fun r => chromo_id (get st r)) labels = map Some chromo_id_list
  /\ map (fun r => chromo_idx (get st r)) labels = map Some (seq 0 24)
  /\ (forall r, id_consistent (get st r))
  /\ (forall st' left',
        merge_fragments E cfg st left = Ok (st', left') ->
        map (fun r => chromo_id (get st' r)) labels = map Some chromo_id_list
        /\ map (fun r => chromo_idx (get st' r)) labels = map Some (seq 0 24)
        /\ forall r, id_consistent (get st' r)).
Proof.
  cbv zeta.
  assert (Hcl : classify (Polygon.chart_externals Polygon.chart_with_piece)
                  karyotype_ini (Polygon.chart_object Polygon.chart_with_piece)
                = Ok (Polygon.chart_self Polygon.chart_with_piece,
                      Polygon.chart_store Polygon.chart_with_piece,
                      Polygon.chart_rows Polygon.chart_with_piece))
    by (apply chart_classified_ok; vm_compute; reflexivity).
  split; [split; [reflexivity|exact Hcl]|].
  split; [vm_compute; reflexivity|].
  exact (labels_carry_the_canonical_numbers Polygon.Image
           (Polygon.chart_externals Polygon.chart_with_piece)
           karyotype_ini (Polygon.chart_object Polygon.chart_with_piece)
           (Polygon.chart_self Polygon.chart_with_piece)
           (Polygon.chart_store Polygon.chart_with_piece)
           (Polygon.chart_rows Polygon.chart_with_piece) eq_refl Hcl).
Defined.

(** The chart with two whole chromosomes: nothing is merged. *)
Lemma no_merge_without_small_pieces_witness :
  let c := Polygon.chart_whole in
  let E := Polygon.chart_externals c in
  let cfg := karyotype_ini in
  let self := Polygon.chart_object c in
  let self' := Polygon.chart_self c in
  let st := Polygon.chart_store c in
  let left := Polygon.chart_rows c in
  (id_num_in_rows cfg = [5; 7; 6; 6]
   /\ list_set_spec Polygon.Image E
   /\ classify E cfg self = Ok (self', st, left))
  /\ left = [(200%Z, [24; 25])]
  /\ merge_fragments E cfg st left = Ok (st, left)
  /\ (forall k row Y del,
        In (k, row) left -> not_fragmented cfg st row Y ->
        merge_chromo_id E cfg row (st, del) Y = Ok (st, del))
  /\ (forall st' left' k row Y,
        merge_fragments E cfg st left = Ok (st', left') ->
        In (k, row) left -> not_fragmented cfg st row Y ->
        same_chromo_id st' (dict_item k left') Y = same_chromo_id st row Y
        /\ forall r, In r (same_chromo_id st row Y) -> get st' r = get st r)
  /\ (forall st' left' k row,
        merge_fragments E cfg st left = Ok (st', left') ->
        In (k, row) left ->
        (forall Y, not_fragmented cfg st row Y) ->
        dict_item k left' = row
        /\ length (dict_item k left') = length row
        /\ forall r, In r row -> get st' r = get st r)
  /\ ((forall k row Y, In (k, row) left -> not_fragmented cfg st row Y) ->
      merge_fragments E cfg st left = Ok (st, left)).
Proof.
  cbv zeta.
  assert (Hcl : classify (Polygon.chart_externals Polygon.chart_whole)
                  karyotype_ini (Polygon.chart_object Polygon.chart_whole)
                = Ok (Polygon.chart_self Polygon.chart_whole,
                      Polygon.chart_store Polygon.chart_whole,
                      Polygon.chart_rows Polygon.chart_whole))
    by (apply chart_classified_ok; vm_compute; reflexivity).
  split; [split; [reflexivity|];
          split; [apply polygon_list_set_spec|exact Hcl]|].
  split; [vm_compute; reflexivity|]. split; [vm_compute; reflexivity|].
  exact (no_merge_without_small_pieces Polygon.Image
           (Polygon.chart_externals Polygon.chart_whole)
           karyotype_ini (Polygon.chart_object Polygon.chart_whole)
           (Polygon.chart_self Polygon.chart_whole)
           (Polygon.chart_store Polygon.chart_whole)
           (Polygon.chart_rows Polygon.chart_whole)
           eq_refl
           (polygon_list_set_spec (Polygon.chart_files Polygon.chart_whole))
           Hcl).
Defined.

(** *** The area of a splice *)

Lemma fold_left_invariant :
  forall (A B : Type) (P : A -> Prop) (f : A -> B -> A) (l : list B) (init : A),
    (forall acc x, In x l -> P acc -> P (f acc x)) ->
    P init -> P (fold_left f l init).
Proof.
  intros A B P f l. induction l as [|x t IH]; intros init Hstep Hinit;
    [assumption|].
  simpl. apply IH.
  - intros acc y Hy. apply Hstep. now right.
  - apply Hstep; [now left|assumption].
Qed.

Lemma enumerate_In :
  forall (A : Type) (l : list A) (i : nat) (x : A),
    In (i, x) (enumerate l) -> i < length l.
Proof.
  intros A l i x H. unfold enumerate in H. apply in_combine_l in H.
  apply in_seq in H. lia.
Qed.

(** The indices that the distance of two contours returns are indices of
    their points. *)
Lemma polygon_distance_indices :
  forall (c1 c2 : Contour) (d : distance) (i j : nat),
    Polygon.get_distance_between_two_contours c1 c2 = (d, i, j) ->
    (i < length c1 /\ j < length c2)
    \/ (i = 0 /\ j = 0 /\ (c1 = [] \/ c2 = [])).
Proof.
  intros c1 c2 d i j H.
  set (P := fun best : distance * nat * nat =>
              (snd (fst best) < length c1 /\ snd best < length c2)
              \/ (snd (fst best) = 0 /\ snd best = 0)).
  assert (HP : P (Polygon.get_distance_between_two_contours c1 c2)).
  { unfold Polygon.get_distance_between_two_contours.
    apply fold_left_invariant; [|right; split; reflexivity].
    intros best [i0 p] Hi Hbest. apply fold_left_invariant; [|assumption].
    intros best' [j0 q] Hj Hbest'. cbn [fst snd].
    destruct (distance_ltb _ _); [|assumption].
    left. cbn [fst snd]. split; eapply enumerate_In; eassumption. }
  rewrite H in HP. unfold P in HP. cbn [fst snd] in HP.
  destruct HP as [HP|[-> ->]]; [now left|].
  destruct c1 as [|p c1]; [right; tauto|].
  destruct c2 as [|q c2]; [right; tauto|].
  left. simpl. lia.
Qed.

Lemma cross_anti :
  forall p q : Point, (Polygon.cross p q + Polygon.cross q p = 0)%Z.
Proof. intros p q. unfold Polygon.cross. lia. Qed.

Lemma polygon_a00_splice :
  forall (small main : Contour),
    Polygon.a00 (Polygon.splice_nearest small main)
    = (Polygon.a00 small + Polygon.a00 main)%Z.
Proof.
  intros small main. unfold Polygon.splice_nearest.
  destruct (Polygon.get_distance_between_two_contours small main)
    as [[d i] j] eqn:Hd.
  apply (green_splice Polygon.cross cross_anti).
  eapply polygon_distance_indices. eassumption.
Qed.

(** The area of the splice of two contours that run in the same direction
    is the sum of their areas. *)
Lemma polygon_area_splice :
  forall (small main : Contour),
    (0 <= Polygon.a00 small * Polygon.a00 main)%Z ->
    (Polygon.contourArea (Polygon.splice_nearest small main)
     == Polygon.contourArea small + Polygon.contourArea main)%Q.
Proof.
  intros small main Hxy. unfold Polygon.contourArea.
  rewrite polygon_a00_splice.
  set (x := Polygon.a00 small) in *. set (y := Polygon.a00 main) in *.
  unfold Qeq, Qplus. simpl.
  assert (Hs : (0 <= x /\ 0 <= y)%Z \/ (x <= 0 /\ y <= 0)%Z) by nia.
  lia.
Qed.

(** The area of a record of the classification is the area of its
    contour. *)
Lemma classified_area :
  forall (Image : Type) (E : Externals Image) (cfg : Config)
         (self self' : Karyotype Image) (st : store) (left : dict (list ref))
         (r : ref),
    id_num_in_rows cfg = [5; 7; 6; 6] ->
    classify E cfg self = Ok (self', st, left) ->
    r < length st ->
    area (get st r) = contourArea E (cntr (get st r)).
Proof.
  intros Image E cfg self self' st left r Hcfg Hcl Hlen.
  destruct (classify_unfold Image E cfg Hcfg self self' st left Hcl)
    as [stA [Hasg [Hsz [Hself [Hleft Hst]]]]].
  assert (Hst' : st = classified E cfg self stA) by (now subst).
  destruct (classified_effect Image E cfg self stA Hasg) as [HlenC _].
  assert (Hgeo := classified_geometry Image E cfg self stA Hasg r).
  rewrite <- Hst' in Hgeo, HlenC. rewrite HlenC in Hlen.
  assert (Ha : area (get st r) = area (get (gathered E cfg self) r))
    by (unfold geometry in Hgeo; now inversion Hgeo).
  assert (Hc : cntr (get st r) = cntr (get (gathered E cfg self) r))
    by (unfold geometry in Hgeo; now inversion Hgeo).
  rewrite Ha, Hc.
  unfold gathered in *. rewrite gather_contours_length in Hlen.
  rewrite gather_contours_get by assumption.
  unfold _gather_contours_dict.
  destruct (negb _); [reflexivity|].
  destruct (minAreaRect E _) as [[[x y] s] a]. reflexivity.
Qed.

(** *** The centroid of a splice *)

Lemma small_and_main_disjoint :
  forall (thr : Q) (f : ref -> Q) (l : list ref) (r : ref),
    In r (filter (fun r => Qlt_bool (f r) thr) l) ->
    ~ In r (filter (fun r => Qle_bool thr (f r)) l).
Proof.
  intros thr f l r Hs Hm. apply filter_In in Hs, Hm.
  destruct Hs as [_ Hs]. destruct Hm as [_ Hm].
  unfold Qlt_bool in Hs. rewrite Hm in Hs. discriminate.
Qed.

Local Open Scope Z_scope.

(** [int(n / d)] truncates toward zero: the bounds of a quotient. *)
Lemma quot_lower :
  forall N D t : Z, 0 < D ->
    (t <= Z.quot N D <-> (0 < t -> t * D <= N) /\ (t <= 0 -> (t - 1) * D < N)).
Proof.
  intros N D t HD.
  pose proof (Z.quot_rem' N D) as Hqr.
  destruct (Z_lt_le_dec N 0) as [Hneg|Hpos].
  - pose proof (Z.rem_bound_pos_neg N D HD (Z.lt_le_incl _ _ Hneg)) as Hr.
    split; intros H; [split; intros Ht|]; nia.
  - pose proof (Z.rem_bound_pos N D Hpos HD) as Hr.
    split; intros H; [split; intros Ht|]; nia.
Qed.

Lemma quot_upper :
  forall N D t : Z, 0 < D ->
    (Z.quot N D <= t <-> (0 <= t -> N < (t + 1) * D) /\ (t < 0 -> N <= t * D)).
Proof.
  intros N D t HD.
  pose proof (Z.quot_rem' N D) as Hqr.
  destruct (Z_lt_le_dec N 0) as [Hneg|Hpos].
  - pose proof (Z.rem_bound_pos_neg N D HD (Z.lt_le_incl _ _ Hneg)) as Hr.
    split; intros H; [split; intros Ht|]; nia.
  - pose proof (Z.rem_bound_pos N D Hpos HD) as Hr.
    split; intros H; [split; intros Ht|]; nia.
Qed.

(** The quotient of the sums lies where the two quotients lie. *)
Lemma quot_mediant :
  forall N1 D1 N2 D2 lo hi : Z,
    0 < D1 -> 0 < D2 ->
    lo < Z.quot N1 D1 < hi ->
    lo < Z.quot N2 D2 < hi ->
    lo < Z.quot (N1 + N2) (D1 + D2) < hi.
Proof.
  intros N1 D1 N2 D2 lo hi H1 H2 [A1 A2] [B1 B2].
  assert (HD : 0 < D1 + D2) by lia.
  assert (A1' : lo + 1 <= Z.quot N1 D1) by lia.
  assert (B1' : lo + 1 <= Z.quot N2 D2) by lia.
  assert (A2' : Z.quot N1 D1 <= hi - 1) by lia.
  assert (B2' : Z.quot N2 D2 <= hi - 1) by lia.
  apply quot_lower in A1', B1'; try assumption.
  apply quot_upper in A2', B2'; try assumption.
  assert (L : lo + 1 <= Z.quot (N1 + N2) (D1 + D2)).
  { apply quot_lower; [assumption|]. split; intros Ht; nia. }
  assert (U : Z.quot (N1 + N2) (D1 + D2) <= hi - 1).
  { apply quot_upper; [assumption|]. split; intros Ht; nia. }
  lia.
Qed.

(** The exact centroid of a polygon with area, truncated as [int] does. *)
Definition centroid_x (c : Contour) : Z :=
  Z.quot (Z.sgn (Polygon.a00 c) * Polygon.a10 c) (3 * Z.abs (Polygon.a00 c)).
Definition centroid_y (c : Contour) : Z :=
  Z.quot (Z.sgn (Polygon.a00 c) * Polygon.a01 c) (3 * Z.abs (Polygon.a00 c)).

(** [int(m / m00)] for a first moment [m] of [cv2.moments]. *)
Lemma py_int_moment_ratio :
  forall (n a : Z),
    a <> 0 ->
    py_int (Qmake (Z.sgn a * n) 6 / Qmake (Z.abs a) 2)%Q
    = Z.quot (Z.sgn a * n) (3 * Z.abs a).
Proof.
  intros n a Ha. unfold py_int, Qdiv, Qmult, Qinv. 
  destruct a as [|p|p]; [now elim Ha| |]; cbn [Z.abs Qnum Qden Z.sgn].
  - replace (Z.pos (6 * p)) with (3 * Z.pos p * 2) by lia.
    apply Z.quot_mul_cancel_r; lia.
  - replace (Z.pos (6 * p)) with (3 * Z.pos p * 2) by lia.
    apply Z.quot_mul_cancel_r; lia.
Qed.

Lemma polygon_m00_zero :
  forall c, Qeq_bool (m00 (Polygon.moments c)) 0 = true <-> Polygon.a00 c = 0.
Proof.
  intros c. unfold Polygon.moments. cbn [m00]. rewrite Qeq_bool_iff.
  unfold Qeq. simpl. lia.
Qed.

Lemma a10_anti :
  forall p q : Point,
    Polygon.cross p q * (fst p + fst q) + Polygon.cross q p * (fst q + fst p) = 0.
Proof. intros p q. unfold Polygon.cross. ring. Qed.

Lemma a01_anti :
  forall p q : Point,
    Polygon.cross p q * (snd p + snd q) + Polygon.cross q p * (snd q + snd p) = 0.
Proof. intros p q. unfold Polygon.cross. ring. Qed.

(** The sums of Green's formula of a splice at two points of the contours
    are the sums of those of the two contours. *)
Lemma polygon_sums_splice :
  forall (c1 c2 : Contour) (d : distance) (i j : nat),
    Polygon.get_distance_between_two_contours c1 c2 = (d, i, j) ->
    let merged := Polygon.merge_two_contours_by_npi c1 c2 i j in
    Polygon.a00 merged = Polygon.a00 c1 + Polygon.a00 c2
    /\ Polygon.a10 merged = Polygon.a10 c1 + Polygon.a10 c2
    /\ Polygon.a01 merged = Polygon.a01 c1 + Polygon.a01 c2.
Proof.
  intros c1 c2 d i j Hd merged. subst merged.
  apply polygon_distance_indices in Hd.
  split; [|split].
  - now apply (green_splice Polygon.cross cross_anti).
  - now apply (green_splice (fun p q => Polygon.cross p q * (fst p + fst q)) a10_anti).
  - now apply (green_splice (fun p q => Polygon.cross p q * (snd p + snd q)) a01_anti).
Qed.

(** The same for the centroids of two polygons that run in one
    direction, the first of which may enclose no area. *)
Lemma centroid_mediant :
  forall x y nx ny lo hi : Z,
    0 <= x * y -> y <> 0 -> (x = 0 -> nx = 0) ->
    lo < Z.quot (Z.sgn y * ny) (3 * Z.abs y) < hi ->
    (x <> 0 -> lo < Z.quot (Z.sgn x * nx) (3 * Z.abs x) < hi) ->
    lo < Z.quot (Z.sgn (x + y) * (nx + ny)) (3 * Z.abs (x + y)) < hi.
Proof.
  intros x y nx ny lo hi Hxy Hy Hflat Hm Hs.
  destruct (Z.eq_dec x 0) as [Hx|Hx].
  - subst x. rewrite (Hflat eq_refl). now rewrite !Z.add_0_l.
  - specialize (Hs Hx).
    assert (Hsign : (0 < x /\ 0 < y) \/ (x < 0 /\ y < 0)) by nia.
    destruct Hsign as [[Hx0 Hy0]|[Hx0 Hy0]].
    + rewrite (Z.sgn_pos (x + y)) by lia. rewrite (Z.abs_eq (x + y)) by lia.
      rewrite (Z.sgn_pos x), (Z.abs_eq x) in Hs by lia.
      rewrite (Z.sgn_pos y), (Z.abs_eq y) in Hm by lia.
      replace (1 * (nx + ny)) with (1 * nx + 1 * ny) by ring.
      replace (3 * (x + y)) with (3 * x + 3 * y) by ring.
      apply quot_mediant; try assumption; lia.
    + rewrite (Z.sgn_neg (x + y)) by lia. rewrite (Z.abs_neq (x + y)) by lia.
      rewrite (Z.sgn_neg x), (Z.abs_neq x) in Hs by lia.
      rewrite (Z.sgn_neg y), (Z.abs_neq y) in Hm by lia.
      replace (-1 * (nx + ny)) with (-1 * nx + -1 * ny) by ring.
      replace (3 * - (x + y)) with (3 * - x + 3 * - y) by ring.
      apply quot_mediant; try assumption; lia.
Qed.

Local Close Scope Z_scope.

(** A record carries the descriptors that [_gather_contours_dict] computes
    for its contour. *)
Definition built {Image : Type} (E : Externals Image) (c : ContourRecord) : Prop :=
  geometry c = geometry (_gather_contours_dict E (cntr_idx c) (cntr c)).

(** Lines 359 to 366 write what [_gather_contours_dict] computes, when
    they return. *)
Lemma update_merged_cnt_built :
  forall (Image : Type) (E : Externals Image) (st st' : store) (main : ref)
         (merged_cnt : Contour),
    update_merged_cnt E st main merged_cnt = Ok st' ->
    Qeq_bool (m00 (moments E merged_cnt)) 0 = false
    /\ st' = modify (set_merged_cnt E merged_cnt
                       (m10 (moments E merged_cnt) / m00 (moments E merged_cnt))%Q
                       (m01 (moments E merged_cnt) / m00 (moments E merged_cnt))%Q)
               main st
    /\ forall c, built E (set_merged_cnt E merged_cnt
                       (m10 (moments E merged_cnt) / m00 (moments E merged_cnt))%Q
                       (m01 (moments E merged_cnt) / m00 (moments E merged_cnt))%Q c).
Proof.
  intros Image E st st' main merged_cnt H.
  unfold update_merged_cnt, py_div in H.
  destruct (Qeq_bool (m00 (moments E merged_cnt)) 0) eqn:Hz; [discriminate|].
  cbn [bind] in H. inversion H. split; [reflexivity|]. split; [reflexivity|].
  intros c. unfold built, geometry, _gather_contours_dict.
  cbn [set_merged_cnt cntr_idx cntr area rect min_area_rect cx cy center].
  rewrite Hz. reflexivity.
Qed.

(** On polygons: the area and, for a contour with area, the centroid. *)
Lemma built_polygon :
  forall (fs : Polygon.Files) (c : ContourRecord),
    built (Polygon.externals fs) c ->
    area c = Polygon.contourArea (cntr c)
    /\ (Polygon.a00 (cntr c) <> 0%Z -> cy c = centroid_y (cntr c)
                                      /\ cx c = centroid_x (cntr c)).
Proof.
  intros fs c H. unfold built, geometry, _gather_contours_dict in H.
  change (moments (Polygon.externals fs)) with Polygon.moments in H.
  change (contourArea (Polygon.externals fs)) with Polygon.contourArea in H.
  change (minAreaRect (Polygon.externals fs)) with Polygon.minAreaRect in H.
  split.
  - destruct (negb _) in H.
    + cbn in H. now inversion H.
    + destruct (Polygon.minAreaRect (cntr c)) as [[[x y] s] a].
      cbn in H. now inversion H.
  - intros Ha.
    assert (Hz : Qeq_bool (m00 (Polygon.moments (cntr c))) 0 = false).
    { destruct (Qeq_bool _ 0) eqn:Hz; [|reflexivity].
      apply polygon_m00_zero in Hz. contradiction. }
    rewrite Hz in H. cbn [negb] in H.
    unfold Polygon.moments in H. cbn [m00 m10 m01] in H.
    rewrite !py_int_moment_ratio in H by assumption.
    cbn [cntr_idx cntr area rect min_area_rect cx cy center] in H.
    inversion H as [[H1 H2 H3 H4 H5]]. unfold centroid_x, centroid_y.
    split; congruence.
Qed.


(** The main branch that the search finds, with the indices that the
    distance to it returned. *)
Lemma nearest_main_branch_reach :
  forall (Image : Type) (E : Externals Image) st small mains acc m i j,
    snd (nearest_main_branch E st small mains acc) = Some (m, i, j) ->
    (In m mains
     /\ exists d, get_distance_between_two_contours E
                    (cntr (get st small)) (cntr (get st m)) = (d, i, j))
    \/ snd acc = Some (m, i, j).
Proof.
  intros Image E st small mains. induction mains as [|x t IH];
    intros acc m i j; simpl.
  - intros H; now right.
  - destruct (get_distance_between_two_contours E (cntr (get st small))
                (cntr (get st x))) as [[d i0] j0] eqn:Hd.
    intros H. apply IH in H. destruct H as [[H1 H2]|H].
    + left. split; [now right|assumption].
    + destruct (distance_ltb d (fst acc)); simpl in H.
      * inversion H; subst. left. split; [now left|]. exists d. exact Hd.
      * now right.
Qed.

(** The contours of a chart run in one direction: the signed areas of any
    two of them have one sign, and a contour that encloses no area, a point
    or a line that is traced forth and back, has no first moments either. *)
Definition one_direction (cntrs : list Contour) : Prop :=
  (forall c c', In c cntrs -> In c' cntrs ->
                (0 <= Polygon.a00 c * Polygon.a00 c')%Z)
  /\ (forall c, In c cntrs -> Polygon.a00 c = 0%Z ->
                Polygon.a10 c = 0%Z /\ Polygon.a01 c = 0%Z).

Section PolygonMerge.

Variable fs : Polygon.Files.
Variable cntrs : list Contour.
Hypothesis one_way : one_direction cntrs.
Variables lo hi : Z.

(** A record of a row as the classification leaves it. *)
Definition piece_ok (s : store) (x : ref) : Prop :=
  In (cntr (get s x)) cntrs
  /\ built (Polygon.externals fs) (get s x)
  /\ (lo < cy (get s x) < hi)%Z.

(** A main branch during the merge of the small pieces of its number. *)
Definition main_ok (s : store) (m : ref) : Prop :=
  m < length s
  /\ built (Polygon.externals fs) (get s m)
  /\ Polygon.a00 (cntr (get s m)) <> 0%Z
  /\ (forall c0, In c0 cntrs ->
                 (0 <= Polygon.a00 (cntr (get s m)) * Polygon.a00 c0)%Z)
  /\ (lo < cy (get s m) < hi)%Z.

(** One small piece: the main branches stay as [main_ok] says, and the
    update of the main branch does not raise. *)
Lemma merge_small_piece_polygon :
  forall (mains : list ref) (s : store) (del : list nat) (x : ref),
    piece_ok s x ->
    (forall m, In m mains -> main_ok s m) ->
    ~ In x mains ->
    match merge_small_piece (Polygon.externals fs) mains (s, del) x with
    | Ok (s', del') =>
        (forall m, In m mains -> main_ok s' m)
        /\ (forall r, ~ In r mains -> get s' r = get s r)
        /\ del' = del ++ [cntr_idx (get s x)]
    | Raise e => e = TypeError
    end.
Proof.
  intros mains s del x [Hx_in [Hx_built Hx_band]] Hmains Hx_not.
  unfold merge_small_piece.
  destruct (snd (nearest_main_branch (Polygon.externals fs) s x mains (inf, None)))
    as [[[m i] j]|] eqn:Hnear; [|reflexivity].
  apply nearest_main_branch_reach in Hnear.
  destruct Hnear as [[Hm [d Hd]]|Hacc]; [|discriminate].
  change (get_distance_between_two_contours (Polygon.externals fs))
    with Polygon.get_distance_between_two_contours in Hd.
  change (merge_two_contours_by_npi (Polygon.externals fs))
    with Polygon.merge_two_contours_by_npi.
  set (merged := Polygon.merge_two_contours_by_npi (cntr (get s x))
                   (cntr (get s m)) i j).
  destruct (polygon_sums_splice _ _ d i j Hd) as [S0 [S1 S2]].
  fold merged in S0, S1, S2.
  destruct (Hmains m Hm) as [Hm_len [Hm_built [Hm_a [Hm_dir Hm_band]]]].
  destruct one_way as [Hdir Hflat].
  assert (Hxm : (0 <= Polygon.a00 (cntr (get s x)) * Polygon.a00 (cntr (get s m)))%Z).
  { rewrite Z.mul_comm. now apply Hm_dir. }
  assert (Ha : Polygon.a00 merged <> 0%Z) by (rewrite S0; nia).
  destruct (update_merged_cnt (Polygon.externals fs) s m merged)
    as [s'|e] eqn:Hup.
  2:{ exfalso. unfold update_merged_cnt, py_div in Hup.
      change (moments (Polygon.externals fs)) with Polygon.moments in Hup.
      destruct (Qeq_bool (m00 (Polygon.moments merged)) 0) eqn:Hz.
      - apply polygon_m00_zero in Hz. contradiction.
      - discriminate. }
  cbn [bind].
  destruct (update_merged_cnt_built _ _ s s' m merged Hup) as [Hz [Hs' Hb]].
  set (f := set_merged_cnt (Polygon.externals fs) merged
              (m10 (moments (Polygon.externals fs) merged)
               / m00 (moments (Polygon.externals fs) merged))%Q
              (m01 (moments (Polygon.externals fs) merged)
               / m00 (moments (Polygon.externals fs) merged))%Q) in *.
  assert (Hxm_ne : x <> m) by (intros ->; contradiction).
  assert (Hget_m : get s' m = f (get s m)).
  { rewrite Hs'. now apply get_modify_eq. }
  assert (Hget_o : forall r, r <> m -> get s' r = get s r).
  { intros r Hr. rewrite Hs'. apply get_modify_ne. congruence. }
  split; [|split].
  - intros m' Hm'. destruct (Nat.eq_dec m' m) as [->|Hne].
    + unfold main_ok. rewrite Hget_m.
      split; [rewrite Hs', modify_length; assumption|].
      split; [apply Hb|].
      assert (Hc : cntr (f (get s m)) = merged) by reflexivity.
      rewrite Hc. split; [assumption|]. split.
      * intros c0 Hc0. rewrite S0.
        pose proof (Hdir _ _ Hx_in Hc0). pose proof (Hm_dir c0 Hc0). nia.
      * destruct (built_polygon fs (f (get s m)) (Hb (get s m))) as [_ Hcy].
        rewrite Hc in Hcy. destruct (Hcy Ha) as [Hcy' _]. rewrite Hcy'.
        unfold centroid_y. rewrite S0, S2.
        destruct (built_polygon fs (get s m) Hm_built) as [_ Hcm].
        destruct (Hcm Hm_a) as [Hcm' _].
        apply centroid_mediant; try assumption.
        -- intros H0. now destruct (Hflat _ Hx_in H0).
        -- fold (centroid_y (cntr (get s m))). now rewrite <- Hcm'.
        -- intros Hx0. destruct (built_polygon fs (get s x) Hx_built) as [_ Hcx].
           destruct (Hcx Hx0) as [Hcx' _].
           fold (centroid_y (cntr (get s x))). now rewrite <- Hcx'.
    + destruct (Hmains m' Hm') as [K1 [K2 [K3 [K4 K5]]]].
      unfold main_ok. rewrite (Hget_o m' Hne).
      split; [rewrite Hs', modify_length; assumption|]. tauto.
  - intros r Hr. apply Hget_o. intros ->. contradiction.
  - now rewrite (Hget_o x Hxm_ne).
Qed.

Lemma small_pieces_polygon :
  forall (mains smalls : list ref) (s : store) (del : list nat),
    (forall x, In x smalls -> piece_ok s x /\ ~ In x mains) ->
    (forall m, In m mains -> main_ok s m) ->
    match for_each (merge_small_piece (Polygon.externals fs) mains) smalls (s, del) with
    | Ok (s', del') =>
        (forall m, In m mains -> main_ok s' m)
        /\ (forall r, ~ In r mains -> get s' r = get s r)
    | Raise e => e = TypeError
    end.
Proof.
  intros mains smalls. induction smalls as [|x t IH]; intros s del Hsm Hmains.
  - simpl. split; [assumption|reflexivity].
  - cbn [for_each].
    destruct (Hsm x (or_introl eq_refl)) as [Hx Hxn].
    pose proof (merge_small_piece_polygon mains s del x Hx Hmains Hxn) as Hstep.
    destruct (merge_small_piece (Polygon.externals fs) mains (s, del) x)
      as [[s1 del1]|e]; cbn [bind]; [|assumption].
    destruct Hstep as [Hm1 [Hout1 _]].
    specialize (IH s1 del1).
    destruct (for_each (merge_small_piece (Polygon.externals fs) mains) t (s1, del1))
      as [[s' del']|e].
    + destruct IH as [K1 K2]; [|assumption|].
      { intros y Hy. destruct (Hsm y (or_intror Hy)) as [Hy1 Hy2].
        split; [|assumption]. unfold piece_ok. now rewrite (Hout1 y Hy2). }
      split; [assumption|]. intros r Hr. now rewrite (K2 r Hr), (Hout1 r Hr).
    + apply IH; [|assumption].
      intros y Hy. destruct (Hsm y (or_intror Hy)) as [Hy1 Hy2].
      split; [|assumption]. unfold piece_ok. now rewrite (Hout1 y Hy2).
Qed.

Lemma py_max_nonneg :
  forall l : list Q, (forall x, In x l -> (0 <= x)%Q) -> (0 <= py_max l)%Q.
Proof.
  intros [|x t] H; simpl; [apply Qle_refl|].
  assert (Hx : (0 <= x)%Q) by (apply H; now left).
  assert (Ht : forall y, In y t -> (0 <= y)%Q) by (intros y Hy; apply H; now right).
  clear H. revert x Hx. induction t as [|y u IH]; intros x Hx; simpl;
    [assumption|].
  apply IH.
  - intros z Hz. apply Ht. now right.
  - destruct (Qlt_bool x y); [apply Ht; now left|assumption].
Qed.

(** The step of one chromosome number on a row of the classification:
    every record of the row keeps descriptors that are those of its contour
    and a vertical centroid between the two limits, and the step raises no
    [ZeroDivisionError] but that of line 328. *)
Lemma merge_chromo_id_polygon :
  forall (cfg : Config) (row : list ref) (Y : option string) (st : store)
         (del : list nat),
    (forall r, In r row -> r < length st /\ piece_ok st r) ->
    match merge_chromo_id (Polygon.externals fs) cfg row (st, del) Y with
    | Ok (stY, delY) =>
        forall r, In r row ->
          built (Polygon.externals fs) (get stY r)
          /\ (lo < cy (get stY r) < hi)%Z
          /\ (get stY r = get st r \/ Polygon.a00 (cntr (get stY r)) <> 0%Z)
    | Raise e =>
        e = TypeError
        \/ (e = ZeroDivisionError
            /\ 1 < length (same_chromo_id st row Y)
            /\ (py_max (map (fun r => area (get st r)) (same_chromo_id st row Y))
                == 0)%Q)
    end.
Proof.
  intros cfg row Y st del Hrow.
  assert (Hkeep : forall r, In r row ->
            built (Polygon.externals fs) (get st r)
            /\ (lo < cy (get st r) < hi)%Z
            /\ (get st r = get st r \/ Polygon.a00 (cntr (get st r)) <> 0%Z)).
  { intros r Hr. destruct (Hrow r Hr) as [_ [_ [H1 H2]]]. tauto. }
  unfold merge_chromo_id. cbn [fst]. fold (same_chromo_id st row Y).
  set (same := same_chromo_id st row Y).
  destruct (Nat.leb_spec (length same) 1) as [Hle|Hgt]; [exact Hkeep|].
  set (max_area := py_max (map (fun r => area (get st r)) same)).
  unfold py_div.
  destruct (Qeq_bool max_area 0) eqn:Hz.
  { cbn [bind]. right. split; [reflexivity|]. split; [assumption|].
    now apply Qeq_bool_iff. }
  cbn [bind].
  destruct (Qlt_bool (SMALL_PIECE_AREA_RATIO cfg) _); [exact Hkeep|].
  set (smalls := filter (fun r => Qlt_bool (area (get st r) / max_area)%Q
                                    (SMALL_PIECE_AREA_RATIO cfg)) same).
  set (mains := filter (fun r => Qle_bool (SMALL_PIECE_AREA_RATIO cfg)
                                   (area (get st r) / max_area)%Q) same).
  assert (Hsame : forall r, In r same -> In r row).
  { intros r Hr. apply same_chromo_id_In in Hr. tauto. }
  assert (Harea : forall r, In r row ->
            area (get st r) = Polygon.contourArea (cntr (get st r))).
  { intros r Hr. destruct (Hkeep r Hr) as [Hb _].
    now destruct (built_polygon fs _ Hb). }
  assert (Hnonneg : forall r, In r row -> (0 <= area (get st r))%Q).
  { intros r Hr. rewrite (Harea r Hr). unfold Polygon.contourArea, Qle. simpl. lia. }
  assert (Hmax : (0 <= max_area)%Q).
  { apply py_max_nonneg. intros q Hq. apply in_map_iff in Hq.
    destruct Hq as [r [<- Hr]]. apply Hnonneg. now apply Hsame. }
  assert (Hsm : forall x, In x smalls -> piece_ok st x /\ ~ In x mains).
  { intros x Hx. split.
    - apply Hrow, Hsame. apply filter_In in Hx. tauto.
    - now apply (small_and_main_disjoint (SMALL_PIECE_AREA_RATIO cfg)
                   (fun r => (area (get st r) / max_area)%Q) same). }
  destruct smalls as [|x0 rest] eqn:Hsmalls.
  { simpl. exact Hkeep. }
  rewrite <- Hsmalls in *.
  assert (Hx0 : In x0 smalls) by (rewrite Hsmalls; now left).
  assert (Hmains : forall m, In m mains -> main_ok st m).
  { intros m Hm. apply filter_In in Hm. destruct Hm as [Hm_same Hm_thr].
    destruct (Hrow m (Hsame m Hm_same)) as [Hlen [Hin [Hb Hband]]].
    split; [assumption|]. split; [assumption|]. split; [|split; [|assumption]].
    - intros Ha0.
      pose proof Hx0 as Hx0'. apply filter_In in Hx0'.
      destruct Hx0' as [Hx_same Hx_thr].
      apply Qle_bool_iff in Hm_thr. apply Qlt_bool_iff in Hx_thr.
      assert (Hm0 : (area (get st m) == 0)%Q).
      { rewrite (Harea m (Hsame m Hm_same)). unfold Polygon.contourArea.
        rewrite Ha0. reflexivity. }
      assert (Hx_pos : (0 <= area (get st x0) / max_area)%Q).
      { unfold Qdiv. apply Qmult_le_0_compat.
        - apply Hnonneg, Hsame. assumption.
        - now apply Qinv_le_0_compat. }
      rewrite Hm0 in Hm_thr. unfold Qdiv in Hm_thr. rewrite Qmult_0_l in Hm_thr.
      apply (Qlt_irrefl 0).
      apply (Qle_lt_trans _ (area (get st x0) / max_area)%Q); [assumption|].
      now apply (Qlt_le_trans _ (SMALL_PIECE_AREA_RATIO cfg)).
    - intros c0 Hc0. destruct one_way as [Hdir _]. now apply Hdir. }
  pose proof (small_pieces_polygon mains smalls st del Hsm Hmains) as Hloop.
  destruct (for_each (merge_small_piece (Polygon.externals fs) mains) smalls (st, del))
    as [[s' del']|e]; [|now left].
  destruct Hloop as [K1 K2]. intros r Hr.
  destruct (in_dec Nat.eq_dec r mains) as [Hin|Hnot].
  - destruct (K1 r Hin) as [_ [Hb [Ha [_ Hband]]]]. tauto.
  - rewrite (K2 r Hnot). destruct (Hkeep r Hr) as [H1 [H2 _]]. tauto.
Qed.

End PolygonMerge.

Lemma NoDup_split_unique :
  forall (A : Type) (l p q p' q' : list A) (k : A),
    NoDup l -> l = p ++ k :: q -> l = p' ++ k :: q' -> p = p'.
Proof.
  intros A l p. revert l. induction p as [|a p IH]; intros l q p' q' k Hnd H1 H2.
  - destruct p' as [|a' p']; [reflexivity|]. exfalso.
    subst l. simpl in H2. inversion H2; subst a' q.
    inversion Hnd as [|? ? Hk _]; subst. apply Hk.
    apply in_or_app. right. now left.
  - destruct p' as [|a' p'].
    + exfalso. subst l. simpl in H2. inversion H2; subst a q'.
      inversion Hnd as [|? ? Hk _]; subst. apply Hk.
      apply in_or_app. right. now left.
    + subst l. simpl in H2. inversion H2; subst a'. f_equal.
      inversion Hnd as [|? ? _ Hnd']; subst.
      eapply IH; [exact Hnd'|reflexivity|eassumption].
Qed.

(** The record of a contour after the classification carries the
    descriptors that [_gather_contours_dict] gave to the contour. *)
Lemma classified_built :
  forall (Image : Type) (E : Externals Image) (cfg : Config)
         (self self' : Karyotype Image) (st : store) (left : dict (list ref))
         (r : ref),
    id_num_in_rows cfg = [5; 7; 6; 6] ->
    classify E cfg self = Ok (self', st, left) ->
    r < length st ->
    let cntrs := find_external_contours E (img_img (img self)) (BIN_THRESH cfg) in
    r < length cntrs
    /\ geometry (get st r) = geometry (_gather_contours_dict E r (nth r cntrs [])).
Proof.
  intros Image E cfg self self' st left r Hcfg Hcl Hlen cntrs.
  destruct (classify_unfold Image E cfg Hcfg self self' st left Hcl)
    as [stA [Hasg [Hsz [Hself [Hleft Hst]]]]].
  assert (Hst' : st = classified E cfg self stA) by (now subst).
  destruct (classified_effect Image E cfg self stA Hasg) as [HlenC _].
  assert (Hgeo := classified_geometry Image E cfg self stA Hasg r).
  rewrite <- Hst' in Hgeo, HlenC. rewrite HlenC in Hlen.
  unfold gathered in *. fold cntrs in Hlen, Hgeo.
  rewrite gather_contours_length in Hlen.
  split; [assumption|]. rewrite Hgeo. now rewrite gather_contours_get.
Qed.

Lemma classified_keys_NoDup :
  forall (Image : Type) (E : Externals Image) (cfg : Config)
         (self self' : Karyotype Image) (st : store) (left : dict (list ref)),
    id_num_in_rows cfg = [5; 7; 6; 6] ->
    classify E cfg self = Ok (self', st, left) ->
    NoDup (keys (id_cntr_dicts_orgby_cy self')).
Proof.
  intros Image E cfg self self' st left Hcfg Hcl.
  destruct (classify_unfold Image E cfg Hcfg self self' st left Hcl)
    as [stA [Hasg [Hsz [Hself [Hleft Hst]]]]].
  rewrite Hself. apply label_rows_keys_NoDup.
Qed.

(** The records of a row of the classification, on polygons. *)
Lemma classified_row_pieces :
  forall (fs : Polygon.Files) (cfg : Config)
         (self self' : Karyotype Polygon.Image) (st : store)
         (left : dict (list ref)) (k : Z) (row : list ref) (pre post : list Z),
    id_num_in_rows cfg = [5; 7; 6; 6] ->
    classify (Polygon.externals fs) cfg self = Ok (self', st, left) ->
    In (k, row) left ->
    keys (id_cntr_dicts_orgby_cy self') = pre ++ k :: post ->
    forall r, In r row ->
      r < length st
      /\ cntr_idx (get st r) = r
      /\ piece_ok fs (img_img (img self)) (last pre 0%Z) k st r.
Proof.
  intros fs cfg self self' st left k row pre post Hcfg Hcl Hrow Hkeys r Hr.
  destruct (classify_rows_wf Polygon.Image _ cfg self self' st left Hcfg Hcl)
    as [_ [_ Hwf]].
  destruct (Hwf r) as [Hlen Hidx]; [eapply In_values_concat; eassumption|].
  split; [assumption|]. split; [assumption|].
  destruct (classified_built Polygon.Image _ cfg self self' st left r Hcfg Hcl Hlen)
    as [Hlen' Hgeo].
  change (find_external_contours (Polygon.externals fs) (img_img (img self))
            (BIN_THRESH cfg)) with (img_img (img self)) in Hlen', Hgeo.
  assert (Hc : cntr (get st r) = nth r (img_img (img self)) []).
  { unfold geometry in Hgeo. inversion Hgeo as [[H1 H2]]. rewrite H2.
    unfold _gather_contours_dict.
    destruct (negb _); [reflexivity|].
    destruct (minAreaRect _ _) as [[[x y] s] a]. reflexivity. }
  split; [|split].
  - rewrite Hc. now apply nth_In.
  - unfold built. rewrite Hidx, Hc. exact Hgeo.
  - pose proof (classified_row_band Polygon.Image _ cfg self self' st left k row r
                  Hcfg Hcl Hrow Hr) as Hband.
    apply find_row_Some in Hband.
    destruct Hband as [pre' [post' [Hk [Hlo Hhi]]]].
    assert (Hpre : pre' = pre).
    { eapply (NoDup_split_unique Z); [|exact Hk|exact Hkeys].
      eapply classified_keys_NoDup; eassumption. }
    subst pre'. lia.
Qed.

(** The state of a record of a row after the merge, on polygons traced in
    one direction. *)
Lemma merged_row_record :
  forall (fs : Polygon.Files) (cfg : Config)
         (self self' : Karyotype Polygon.Image) (st : store)
         (left : dict (list ref)) (st' : store) (left' : dict (list ref))
         (k : Z) (row : list ref) (pre post : list Z) (r : ref),
    id_num_in_rows cfg = [5; 7; 6; 6] ->
    one_direction (img_img (img self)) ->
    classify (Polygon.externals fs) cfg self = Ok (self', st, left) ->
    merge_fragments (Polygon.externals fs) cfg st left = Ok (st', left') ->
    In (k, row) left ->
    keys (id_cntr_dicts_orgby_cy self') = pre ++ k :: post ->
    In r row ->
    built (Polygon.externals fs) (get st' r)
    /\ (last pre 0 < cy (get st' r) < k)%Z
    /\ (get st' r = get st r \/ Polygon.a00 (cntr (get st' r)) <> 0%Z).
Proof.
  intros fs cfg self self' st left st' left' k row pre post r
         Hcfg Hdir Hcl Hrun Hrow Hkeys Hr.
  destruct (classify_rows_wf Polygon.Image _ cfg self self' st left Hcfg Hcl)
    as [Hnk [Hnd Hwf]].
  assert (Hidx : forall x, In x (concat (values left)) -> cntr_idx (get st x) = x).
  { intros x Hx. now apply Hwf. }
  destruct (merge_fragments_spec Polygon.Image _ cfg st left st' left'
              (polygon_list_set_spec fs) Hnk Hnd Hidx Hrun)
    as [del [_ [_ [_ [_ [Hstep _]]]]]].
  destruct (Hstep k row r Hrow Hr) as [stY [delY [Y1 [Y2 _]]]].
  unfold step_alone in Y1. rewrite Y2.
  pose proof (merge_chromo_id_polygon fs (img_img (img self)) Hdir (last pre 0%Z) k
                cfg row (chromo_id (get st r)) st []) as Hpoly.
  rewrite Y1 in Hpoly. apply Hpoly; [|assumption].
  intros x Hx.
  destruct (classified_row_pieces fs cfg self self' st left k row pre post
              Hcfg Hcl Hrow Hkeys x Hx) as [H1 [_ H2]].
  split; assumption.
Qed.

(** ** The exceptions of the merge, step by step *)



(** C5.  On polygons that the tracer returns, all traced in one
    direction: every record of a row of the final output, also one whose
    centroid a merge has recomputed, has its vertical centroid strictly
    between the vertical centroid of the row of labels above (0 for the
    first row) and that of the labels of its own row, hence inside the band
    of that row; the four boundaries ascend, and the record carries the
    number of a label of that row. *)
Theorem final_rows_lie_in_their_bands :
  forall (fs : Polygon.Files) (cfg : Config)
         (self self' : Karyotype Polygon.Image) (st : store)
         (left : dict (list ref)) (st' : store) (left' : dict (list ref))
         (k : Z) (row' : list ref) (r : ref),
    id_num_in_rows cfg = [5; 7; 6; 6] ->
    one_direction (find_external_contours (Polygon.externals fs)
                     (img_img (img self)) (BIN_THRESH cfg)) ->
    classify (Polygon.externals fs) cfg self = Ok (self', st, left) ->
    merge_fragments (Polygon.externals fs) cfg st left = Ok (st', left') ->
    In (k, row') left' ->
    In r row' ->
    let cy_keys := keys (id_cntr_dicts_orgby_cy self') in
    ascending cy_keys
    /\ NoDup cy_keys
    /\ length cy_keys = 4
    /\ exists pre post lab id,
         cy_keys = pre ++ k :: post
         /\ (last pre 0 < cy (get st' r))%Z
         /\ (cy (get st' r) < k)%Z
         /\ In lab (dict_item k (id_cntr_dicts_orgby_cy self'))
         /\ chromo_id (get st' lab) = Some id
         /\ chromo_id (get st' r) = Some id.
Proof.
  intros fs cfg self self' st left st' left' k row' r
         Hcfg Hdir Hcl Hrun Hin Hr cy_keys.
  destruct (classified_keys Polygon.Image _ cfg self self' st left Hcfg Hcl)
    as [Hasc Hlen].
  split; [assumption|].
  split; [eapply classified_keys_NoDup; eassumption|].
  split; [assumption|].
  destruct (merge_fragments_rows Polygon.Image _ cfg st left st' left' Hrun)
    as [_ Hrows].
  destruct (Hrows k row' r Hin Hr) as [row [Hrow Hrr]].
  pose proof (classified_row_band Polygon.Image _ cfg self self' st left k row r
                Hcfg Hcl Hrow Hrr) as Hband.
  apply find_row_Some in Hband. destruct Hband as [pre [post [Hk _]]].
  destruct (merged_row_record fs cfg self self' st left st' left' k row pre post r
              Hcfg Hdir Hcl Hrun Hrow Hk Hrr) as [_ [Hcy _]].
  destruct (classified_row_record Polygon.Image _ cfg self self' st left k row r
              Hcfg Hcl Hrow Hrr)
    as [j [lab [J [id [H1 [_ [H3 [_ [H5 _]]]]]]]]].
  pose proof (merge_fragments_ids Polygon.Image _ cfg st left st' left' Hrun)
    as Hids.
  exists pre, post, lab, id.
  split; [assumption|]. split; [lia|]. split; [lia|].
  split; [eapply nth_error_In; eassumption|].
  split.
  - rewrite (ids_chromo_id _ _ (Hids lab)). assumption.
  - rewrite (ids_chromo_id _ _ (Hids r)). assumption.
Qed.


(** A check of [one_direction] on the contours of a chart. *)
Definition one_directionb (cntrs : list Contour) : bool :=
  forallb
    (fun c =>
       forallb (fun c' => (0 <=? Polygon.a00 c * Polygon.a00 c')%Z) cntrs
       && (negb (Polygon.a00 c =? 0)%Z
           || ((Polygon.a10 c =? 0)%Z && (Polygon.a01 c =? 0)%Z)))
    cntrs.

Lemma one_directionb_spec :
  forall cntrs, one_directionb cntrs = true -> one_direction cntrs.
Proof.
  intros cntrs H. unfold one_directionb in H. rewrite forallb_forall in H.
  split.
  - intros c c' Hc Hc'. specialize (H c Hc). apply andb_true_iff in H.
    destruct H as [H _]. rewrite forallb_forall in H.
    apply Z.leb_le. now apply H.
  - intros c Hc Ha. specialize (H c Hc). apply andb_true_iff in H.
    destruct H as [_ H]. rewrite Ha in H. cbn in H.
    apply andb_true_iff in H. destruct H as [H1 H2].
    apply Z.eqb_eq in H1, H2. tauto.
Qed.


(** C9.  On polygons, with the splice that runs along the small piece to
    its nearest point, around the main branch from its nearest point and
    back, and two contours that run in the same direction, as the contours
    of a tracer do: when exactly two records of a row carry a chromosome
    number and the smaller of their areas over the larger is below the
    threshold (a threshold of at most 1), then after a merge that returns
    the row holds exactly one record of that number, the record with the
    larger area; its contour is the splice of the two contours and its area
    is the sum of the two areas, which is not less than either of them. *)
Theorem merge_of_two_leaves_the_larger :
  forall (fs : Polygon.Files) (cfg : Config)
         (self self' : Karyotype Polygon.Image) (st : store)
         (left : dict (list ref)) (st' : store) (left' : dict (list ref))
         (k : Z) (row : list ref) (Y : option string) (a b : ref) (q : Q),
    let E := Polygon.externals fs in
    id_num_in_rows cfg = [5; 7; 6; 6] ->
    classify E cfg self = Ok (self', st, left) ->
    merge_fragments E cfg st left = Ok (st', left') ->
    In (k, row) left ->
    same_chromo_id st row Y = [a; b] ->
    area_ratio st [a; b] = Ok q ->
    (q < SMALL_PIECE_AREA_RATIO cfg)%Q ->
    (SMALL_PIECE_AREA_RATIO cfg <= 1)%Q ->
    (0 <= Polygon.a00 (cntr (get st a)) * Polygon.a00 (cntr (get st b)))%Z ->
    exists small main,
      ((small = a /\ main = b) \/ (small = b /\ main = a))
      /\ (area (get st small) < area (get st main))%Q
      /\ same_chromo_id st' (dict_item k left') Y = [main]
      /\ length (same_chromo_id st' (dict_item k left') Y) = 1
      /\ cntr (get st' main)
         = Polygon.splice_nearest (cntr (get st small)) (cntr (get st main))
      /\ area (get st' main) = Polygon.contourArea (cntr (get st' main))
      /\ (area (get st' main) == area (get st a) + area (get st b))%Q
      /\ (area (get st a) <= area (get st' main))%Q
      /\ (area (get st b) <= area (get st' main))%Q.
Proof.
  intros fs cfg self self' st left st' left' k row Y a b q E
         Hcfg Hcl Hrun Hrow Hsame Hq Hlt Hthr Hdir.
  destruct (merge_of_two_spec Polygon.Image E cfg self self' st left st' left'
              k row Y a b q Hcfg (polygon_list_set_spec fs) Hcl Hrun Hrow
              Hsame Hq Hlt Hthr)
    as [small [main [d [i [j [Hcase [Harea [Hone [Hlen [Hd [Hc Ha]]]]]]]]]]].
  change (get_distance_between_two_contours E) with
    Polygon.get_distance_between_two_contours in Hd.
  change (merge_two_contours_by_npi E) with
    Polygon.merge_two_contours_by_npi in Hc.
  change (contourArea E) with Polygon.contourArea in Ha.
  assert (Hsplice : cntr (get st' main)
                    = Polygon.splice_nearest (cntr (get st small))
                        (cntr (get st main))).
  { unfold Polygon.splice_nearest. now rewrite Hd. }
  destruct (classify_rows_wf Polygon.Image E cfg self self' st left Hcfg Hcl)
    as [_ [_ Hwf]].
  assert (Hin : forall r, In r [a; b] ->
                  area (get st r) = Polygon.contourArea (cntr (get st r))).
  { intros r Hr. rewrite <- Hsame in Hr. apply same_chromo_id_In in Hr.
    destruct Hr as [Hr _].
    apply (classified_area Polygon.Image E cfg self self' st left r Hcfg Hcl).
    apply Hwf. eapply In_values_concat; eassumption. }
  assert (Hs : area (get st small) = Polygon.contourArea (cntr (get st small))).
  { apply Hin. destruct Hcase as [[-> ->]|[-> ->]]; simpl; tauto. }
  assert (Hm : area (get st main) = Polygon.contourArea (cntr (get st main))).
  { apply Hin. destruct Hcase as [[-> ->]|[-> ->]]; simpl; tauto. }
  pose proof (polygon_area_splice (cntr (get st small)) (cntr (get st main)))
    as Hsame_dir.
  cbv zeta in Hsame_dir. rewrite <- Hsplice, <- Ha in Hsame_dir.
  rewrite <- Hs, <- Hm in Hsame_dir.
  exists small, main.
  split; [assumption|]. split; [assumption|]. split; [assumption|].
  split; [assumption|]. split; [assumption|]. split; [assumption|].
  assert (Hnonneg : forall r, In r [a; b] -> (0 <= area (get st r))%Q).
  { intros r Hr. rewrite (Hin r Hr). unfold Polygon.contourArea, Qle. simpl.
    lia. }
  assert (Hsum : (area (get st' main)
                  == area (get st small) + area (get st main))%Q).
  { apply Hsame_dir. destruct Hcase as [[-> ->]|[-> ->]]; lia. }
  assert (Ha0 := Hnonneg a (or_introl eq_refl)).
  assert (Hb0 := Hnonneg b (or_intror (or_introl eq_refl))).
  destruct Hcase as [[-> ->]|[-> ->]]; rewrite Hsum.
  - split; [reflexivity|]. split.
    + rewrite <- (Qplus_0_r (area (get st a))) at 1.
      apply Qplus_le_r. assumption.
    + rewrite <- (Qplus_0_l (area (get st b))) at 1.
      apply Qplus_le_l. assumption.
  - split; [apply Qplus_comm|]. split.
    + rewrite <- (Qplus_0_l (area (get st a))) at 1.
      apply Qplus_le_l. assumption.
    + rewrite <- (Qplus_0_r (area (get st b))) at 1.
      apply Qplus_le_r. assumption.
Qed.

(** The chart with a small piece: the chromosome 24, with the piece 25
    merged into it, is the record of the final row of the label "1", and
    its vertical centroid 130 lies between 0 and 200. *)
Lemma final_rows_lie_in_their_bands_witness :
  let c := Polygon.chart_with_piece in
  let fs := Polygon.chart_files c in
  let cfg := karyotype_ini in
  let self := Polygon.chart_object c in
  let self' := Polygon.chart_self c in
  let st := Polygon.chart_store c in
  let left := Polygon.chart_rows c in
  let st' := fst (Polygon.chart_merged c) in
  let left' := snd (Polygon.chart_merged c) in
  let k := 200%Z in
  let row' := [24] in
  let r := 24 in
  let cy_keys := keys (id_cntr_dicts_orgby_cy self') in
  (id_num_in_rows cfg = [5; 7; 6; 6]
   /\ one_direction (find_external_contours (Polygon.externals fs)
                       (img_img (img self)) (BIN_THRESH cfg))
   /\ classify (Polygon.externals fs) cfg self = Ok (self', st, left)
   /\ merge_fragments (Polygon.externals fs) cfg st left = Ok (st', left')
   /\ In (k, row') left'
   /\ In r row')
  /\ cy_keys = [200; 400; 600; 800]%Z
  /\ cntr (get st' r) <> cntr (get st r)
  /\ cy (get st' r) = 130%Z
  /\ ascending cy_keys
  /\ NoDup cy_keys
  /\ length cy_keys = 4
  /\ exists pre post lab id,
       cy_keys = pre ++ k :: post
       /\ (last pre 0 < cy (get st' r))%Z
       /\ (cy (get st' r) < k)%Z
       /\ In lab (dict_item k (id_cntr_dicts_orgby_cy self'))
       /\ chromo_id (get st' lab) = Some id
       /\ chromo_id (get st' r) = Some id.
Proof.
  cbv zeta.
  assert (Hdir : one_direction
                   (find_external_contours
                      (Polygon.externals (Polygon.chart_files Polygon.chart_with_piece))
                      (img_img (img (Polygon.chart_object Polygon.chart_with_piece)))
                      (BIN_THRESH karyotype_ini)))
    by (apply one_directionb_spec; vm_compute; reflexivity).
  assert (Hcl : classify (Polygon.chart_externals Polygon.chart_with_piece)
                  karyotype_ini (Polygon.chart_object Polygon.chart_with_piece)
                = Ok (Polygon.chart_self Polygon.chart_with_piece,
                      Polygon.chart_store Polygon.chart_with_piece,
                      Polygon.chart_rows Polygon.chart_with_piece))
    by (apply chart_classified_ok; vm_compute; reflexivity).
  assert (Hrun : merge_fragments
                   (Polygon.chart_externals Polygon.chart_with_piece)
                   karyotype_ini
                   (Polygon.chart_store Polygon.chart_with_piece)
                   (Polygon.chart_rows Polygon.chart_with_piece)
                 = Ok (fst (Polygon.chart_merged Polygon.chart_with_piece),
                       snd (Polygon.chart_merged Polygon.chart_with_piece)))
    by (apply chart_merged_ok; vm_compute; reflexivity).
  assert (Hin : In (200%Z, [24])
                  (snd (Polygon.chart_merged Polygon.chart_with_piece)))
    by (vm_compute; left; reflexivity).
  assert (Hr : In 24 [24]) by (left; reflexivity).
  split.
  { split; [reflexivity|]. split; [exact Hdir|]. split; [exact Hcl|].
    split; [exact Hrun|]. split; assumption. }
  split; [vm_compute; reflexivity|]. split; [vm_compute; discriminate|].
  split; [vm_compute; reflexivity|].
  exact (final_rows_lie_in_their_bands
           (Polygon.chart_files Polygon.chart_with_piece)
           karyotype_ini (Polygon.chart_object Polygon.chart_with_piece)
           (Polygon.chart_self Polygon.chart_with_piece)
           (Polygon.chart_store Polygon.chart_with_piece)
           (Polygon.chart_rows Polygon.chart_with_piece)
           (fst (Polygon.chart_merged Polygon.chart_with_piece))
           (snd (Polygon.chart_merged Polygon.chart_with_piece))
           200%Z [24] 24 eq_refl Hdir Hcl Hrun Hin Hr).
Defined.


(** The chart with a small piece: the piece 25 is merged into the
    chromosome 24, whose area grows from 1200 to 1216. *)
Lemma merge_of_two_leaves_the_larger_witness :
  let c := Polygon.chart_with_piece in
  let E := Polygon.externals (Polygon.chart_files c) in
  let cfg := karyotype_ini in
  let self := Polygon.chart_object c in
  let self' := Polygon.chart_self c in
  let st := Polygon.chart_store c in
  let left := Polygon.chart_rows c in
  let st' := fst (Polygon.chart_merged c) in
  let left' := snd (Polygon.chart_merged c) in
  let k := 200%Z in
  let row := [25; 24] in
  let Y := Some "1"%string in
  let a := 25 in
  let b := 24 in
  let q := ((32 # 2) / (2400 # 2))%Q in
  (id_num_in_rows cfg = [5; 7; 6; 6]
   /\ classify E cfg self = Ok (self', st, left)
   /\ merge_fragments E cfg st left = Ok (st', left')
   /\ In (k, row) left
   /\ same_chromo_id st row Y = [a; b]
   /\ area_ratio st [a; b] = Ok q
   /\ (q < SMALL_PIECE_AREA_RATIO cfg)%Q
   /\ (SMALL_PIECE_AREA_RATIO cfg <= 1)%Q
   /\ (0 <= Polygon.a00 (cntr (get st a)) * Polygon.a00 (cntr (get st b)))%Z)
  /\ area (get st' b) = (2432 # 2)%Q
  /\ exists small main,
       ((small = a /\ main = b) \/ (small = b /\ main = a))
       /\ (area (get st small) < area (get st main))%Q
       /\ same_chromo_id st' (dict_item k left') Y = [main]
       /\ length (same_chromo_id st' (dict_item k left') Y) = 1
       /\ cntr (get st' main)
          = Polygon.splice_nearest (cntr (get st small)) (cntr (get st main))
       /\ area (get st' main) = Polygon.contourArea (cntr (get st' main))
       /\ (area (get st' main) == area (get st a) + area (get st b))%Q
       /\ (area (get st a) <= area (get st' main))%Q
       /\ (area (get st b) <= area (get st' main))%Q.
Proof.
  cbv zeta.
  assert (Hcl : classify (Polygon.chart_externals Polygon.chart_with_piece)
                  karyotype_ini (Polygon.chart_object Polygon.chart_with_piece)
                = Ok (Polygon.chart_self Polygon.chart_with_piece,
                      Polygon.chart_store Polygon.chart_with_piece,
                      Polygon.chart_rows Polygon.chart_with_piece))
    by (apply chart_classified_ok; vm_compute; reflexivity).
  assert (Hrun : merge_fragments
                   (Polygon.chart_externals Polygon.chart_with_piece)
                   karyotype_ini
                   (Polygon.chart_store Polygon.chart_with_piece)
                   (Polygon.chart_rows Polygon.chart_with_piece)
                 = Ok (fst (Polygon.chart_merged Polygon.chart_with_piece),
                       snd (Polygon.chart_merged Polygon.chart_with_piece)))
    by (apply chart_merged_ok; vm_compute; reflexivity).
  assert (Hin : In (200%Z, [25; 24]) (Polygon.chart_rows Polygon.chart_with_piece))
    by (vm_compute; left; reflexivity).
  assert (Hsame : same_chromo_id (Polygon.chart_store Polygon.chart_with_piece)
                    [25; 24] (Some "1"%string) = [25; 24])
    by (vm_compute; reflexivity).
  assert (Hq : area_ratio (Polygon.chart_store Polygon.chart_with_piece) [25; 24]
               = Ok ((32 # 2) / (2400 # 2))%Q)
    by (vm_compute; reflexivity).
  assert (Hlt : ((32 # 2) / (2400 # 2) < SMALL_PIECE_AREA_RATIO karyotype_ini)%Q)
    by (vm_compute; reflexivity).
  assert (Hthr : (SMALL_PIECE_AREA_RATIO karyotype_ini <= 1)%Q)
    by (vm_compute; discriminate).
  assert (Hdir : (0 <= Polygon.a00
                         (cntr (get (Polygon.chart_store Polygon.chart_with_piece)
                                  25%nat))
                       * Polygon.a00
                           (cntr (get (Polygon.chart_store Polygon.chart_with_piece)
                                    24%nat)))%Z)
    by (vm_compute; discriminate).
  split.
  { split; [reflexivity|]. split; [exact Hcl|]. split; [exact Hrun|].
    split; [exact Hin|]. split; [exact Hsame|]. split; [exact Hq|].
    split; [exact Hlt|]. split; assumption. }
  split; [vm_compute; reflexivity|].
  exact (merge_of_two_leaves_the_larger
           (Polygon.chart_files Polygon.chart_with_piece)
           karyotype_ini (Polygon.chart_object Polygon.chart_with_piece)
           (Polygon.chart_self Polygon.chart_with_piece)
           (Polygon.chart_store Polygon.chart_with_piece)
           (Polygon.chart_rows Polygon.chart_with_piece)
           (fst (Polygon.chart_merged Polygon.chart_with_piece))
           (snd (Polygon.chart_merged Polygon.chart_with_piece))
           200%Z [25; 24] (Some "1"%string) 25 24 ((32 # 2) / (2400 # 2))%Q
           eq_refl Hcl Hrun Hin Hsame Hq Hlt Hthr Hdir).
Defined.

(** * Further properties of the code *)
(** ** The groups of label characters, once more *)

Section MergeByCyClosed.

Variable cfg : Config.
Variable d : dict (list ref).
Hypothesis d_keys : NoDup (keys d).

(** The loop of lines 168 to 176 with what it has done: every group that
    it has passed is a row or is merged into one, and every group within
    the tolerance of a row is merged. *)
Lemma merge_given_loop_closed :
  forall todo done merged mk,
    d = done ++ todo ->
    merge_inv d merged mk ->
    incl (keys merged) (keys done) ->
    incl (keys done) (keys merged ++ mk) ->
    (forall g, In g (keys merged) -> closed_row cfg d g mk) ->
    let r := fold_left (merge_given cfg d) todo (merged, mk) in
    merge_inv d (fst r) (snd r)
    /\ incl (keys d) (keys (fst r) ++ snd r)
    /\ (forall g, In g (keys (fst r)) -> closed_row cfg d g (snd r)).
Proof.
  induction todo as [|[g gl] t IH];
    intros done merged mk Hd Hinv Hdone Hcov Hclosed; simpl.
  - split; [assumption|]. split; [|assumption].
    intros a Ha. apply Hcov. rewrite Hd, app_nil_r in Ha. exact Ha.
  - assert (Hd' : d = (done ++ [(g, gl)]) ++ t) by (now rewrite <- app_assoc).
    assert (Hgd : In (g, gl) d).
    { rewrite Hd. apply in_or_app. right. now left. }
    destruct (existsb (Z.eqb g) mk) eqn:Hex.
    + apply existsb_Z_eqb in Hex.
      apply (IH (done ++ [(g, gl)])); try assumption.
      * rewrite keys_app. intros a Ha. apply in_or_app. left. now apply Hdone.
      * rewrite keys_app. intros a Ha. apply in_app_or in Ha.
        destruct Ha as [Ha|[<-|[]]]; [now apply Hcov|].
        apply in_or_app. now right.
    + assert (Hgmk : ~ In g mk).
      { intros H. apply existsb_Z_eqb in H. congruence. }
      assert (Hgm : ~ In g (keys merged)).
      { intros H. apply Hdone in H.
        pose proof d_keys as Hnd. rewrite Hd, keys_app in Hnd.
        apply NoDup_app_inv in Hnd. destruct Hnd as [_ [_ Hdis]].
        apply (Hdis g H). now left. }
      assert (Hget : dict_get g merged = None) by (now apply dict_get_None).
      rewrite (dict_set_new _ g gl merged Hget).
      destruct Hinv as [Hnd [Hincl Hperm]].
      assert (Hinv1 : merge_inv d (merged ++ [(g, gl)]) mk).
      { unfold merge_inv. rewrite keys_app, values_app, concat_app. simpl.
        rewrite app_nil_r.
        assert (Hp : Permutation ((keys merged ++ [g]) ++ mk)
                       (g :: keys merged ++ mk)).
        { rewrite <- app_assoc. simpl. symmetry. apply Permutation_middle. }
        split; [|split].
        - apply (Permutation_NoDup (Permutation_sym Hp)).
          constructor; [|assumption].
          intros H. apply in_app_or in H. tauto.
        - intros a Ha. apply (Permutation_in _ Hp) in Ha.
          destruct Ha as [<-|Ha]; [now apply (In_keys g gl)|now apply Hincl].
        - unfold items. rewrite (Permutation_flat_map _ Hp). simpl.
          rewrite (dict_item_In d d_keys g gl Hgd).
          rewrite Permutation_app_comm. now apply Permutation_app_head. }
      destruct (merge_chk_loop cfg d d_keys g d (merged ++ [(g, gl)]) mk)
        as [K1 [K2 [K3 [K4 K5]]]]; try assumption.
      { intros a Ha; exact Ha. }
      { rewrite keys_app. apply in_or_app. right. now left. }
      { rewrite keys_app. intros g' Hg' Hne. apply Hclosed.
        apply in_app_or in Hg'. simpl in Hg'.
        destruct Hg' as [Hg'|[Hg'|[]]]; [assumption|congruence]. }
      match goal with
      | |- context [fold_left (merge_given cfg d) t ?s] =>
          destruct s as [m1 mk1] eqn:Hloop
      end.
      cbn [fst snd] in K1, K2, K3, K4, K5.
      apply (IH (done ++ [(g, gl)])); try assumption.
      * rewrite K2, !keys_app. simpl. intros a Ha. apply in_app_or in Ha.
        apply in_or_app. destruct Ha as [Ha|Ha]; [left; now apply Hdone|now right].
      * rewrite K2, !keys_app. intros a Ha. apply in_app_or in Ha.
        destruct Ha as [Ha|[<-|[]]].
        -- apply Hcov in Ha. apply in_app_or in Ha. apply in_or_app.
           destruct Ha as [Ha|Ha]; [left; apply in_or_app; now left|].
           right. now apply K4.
        -- apply in_or_app. left. apply in_or_app. right. now left.
      * rewrite K2, keys_app. intros g' Hg'. apply in_app_or in Hg'.
        destruct Hg' as [Hg'|[<-|[]]].
        -- eapply closed_row_incl; [eassumption|]. now apply Hclosed.
        -- intros k Hk Hne Hnear. now apply K5.
Qed.

Lemma items_keys : items d (keys d) = concat (values d).
Proof.
  unfold items.
  assert (H : forall l, incl l d ->
                flat_map (fun k => dict_item k d) (keys l) = concat (values l)).
  { induction l as [|[k v] t IH]; intros Hl; [reflexivity|].
    simpl. rewrite (dict_item_In d d_keys k v) by (apply Hl; now left).
    rewrite IH; [reflexivity|]. intros a Ha. apply Hl. now right. }
  apply H. intros a Ha; exact Ha.
Qed.

End MergeByCyClosed.

Lemma dict_set_In :
  forall (V : Type) (k : Z) (v : V) (d : dict V) (k' : Z) (v' : V),
    In (k', v') (dict_set k v d) -> (k' = k /\ v' = v) \/ In (k', v') d.
Proof.
  intros V k v d k' v'. induction d as [|[k0 v0] t IH]; simpl.
  - intros [H|[]]. inversion H; subst. now left.
  - destruct (Z.eqb_spec k k0) as [->|Hne].
    + intros [H|H]; [inversion H; subst; now left|right; now right].
    + intros [H|H]; [right; now left|].
      destruct (IH H) as [H'|H']; [now left|right; now right].
Qed.

(** Every record of a group has the key of the group as its vertical
    centroid (lines 158 to 163). *)
Lemma organize_by_cy_key :
  forall (st : store) (l : list ref) (k : Z) (g : list ref) (r : ref),
    In (k, g) (organize_by_cy st l) -> In r g -> cy (get st r) = k.
Proof.
  intros st l. unfold organize_by_cy.
  apply (fold_left_invariant _ _
           (fun d : dict (list ref) =>
              forall k g r, In (k, g) d -> In r g -> cy (get st r) = k)).
  - intros d x _ Hd k g r Hin Hr.
    destruct (dict_append_In _ _ _ _ _ _ Hin Hr) as [[-> ->]|[l0 [H1 H2]]];
      [reflexivity|]. now apply (Hd k l0).
  - intros k g r [].
Qed.

Section MergeByCyNear.

Variable cfg : Config.
Variable d : dict (list ref).
Hypothesis d_keys : NoDup (keys d).

(** The records of a row come from groups within the tolerance of the
    key of the row. *)
Definition near_rows (merged : dict (list ref)) : Prop :=
  forall g l r,
    In (g, l) merged -> In r l ->
    exists k, In r (dict_item k d)
              /\ (k = g \/ (Z.abs (g - k) <= ID_CHAR_Y_TOLERANCE cfg)%Z).

Lemma merge_chk_near :
  forall g chks acc,
    incl chks d ->
    near_rows (fst acc) ->
    near_rows (fst (fold_left (merge_chk cfg g) chks acc)).
Proof.
  intros g chks. induction chks as [|[ck cl] t IH]; intros [merged mk] Hsub Hnear;
    [assumption|].
  cbn [fold_left]. apply IH; [intros a Ha; apply Hsub; now right|].
  unfold merge_chk.
  destruct (negb (g =? ck)%Z
            && (Z.abs (g - ck) <=? ID_CHAR_Y_TOLERANCE cfg)%Z
            && negb (existsb (Z.eqb ck) mk)) eqn:Hc; [|assumption].
  apply andb_prop in Hc. destruct Hc as [Hc _].
  apply andb_prop in Hc. destruct Hc as [_ Hc]. apply Z.leb_le in Hc.
  cbn [fst] in *. intros g' l' r Hin Hr.
  apply dict_set_In in Hin. destruct Hin as [[-> ->]|Hin];
    [|now apply (Hnear g' l')].
  apply in_app_or in Hr. destruct Hr as [Hr|Hr].
  - unfold dict_item in Hr.
    destruct (dict_get g merged) as [l0|] eqn:Hget; [|destruct Hr].
    apply dict_get_In in Hget. now apply (Hnear g l0).
  - exists ck. split; [|now right].
    rewrite (dict_item_In d d_keys ck cl); [assumption|].
    apply Hsub. now left.
Qed.

Lemma merge_given_near :
  forall todo acc,
    incl todo d ->
    near_rows (fst acc) ->
    near_rows (fst (fold_left (merge_given cfg d) todo acc)).
Proof.
  induction todo as [|[g gl] t IH]; intros [merged mk] Hsub Hnear;
    [assumption|].
  cbn [fold_left]. apply IH; [intros a Ha; apply Hsub; now right|].
  unfold merge_given. destruct (existsb (Z.eqb g) mk); [assumption|].
  apply merge_chk_near; [intros a Ha; exact Ha|].
  cbn [fst] in *. intros g' l' r Hin Hr.
  apply dict_set_In in Hin. destruct Hin as [[-> ->]|Hin];
    [|now apply (Hnear g' l')].
  exists g. split; [|now left].
  rewrite (dict_item_In d d_keys g gl); [assumption|]. apply Hsub. now left.
Qed.

End MergeByCyNear.

(** X1.  The grouping of the label characters by vertical centroid and
    the merge of the groups (lines 158 to 176) lose and repeat no
    candidate: the rows hold the contours that passed the area filter, each
    once.  No key names two rows, every record of a row has the key of the
    row as vertical centroid or one within the vertical tolerance of it, and
    the keys of any two rows differ by more than the tolerance. *)
Theorem merged_rows_partition_the_candidates :
  forall (cfg : Config) (st : store),
    let cands := filter_id_cntr_dicts cfg st in
    let rows := merge_by_cy cfg (organize_by_cy st cands) in
    Permutation (concat (values rows)) cands
    /\ NoDup (keys rows)
    /\ (forall g l r,
          In (g, l) rows -> In r l ->
          cy (get st r) = g
          \/ (Z.abs (g - cy (get st r)) <= ID_CHAR_Y_TOLERANCE cfg)%Z)
    /\ (forall g g',
          In g (keys rows) -> In g' (keys rows) -> g <> g' ->
          (ID_CHAR_Y_TOLERANCE cfg < Z.abs (g - g'))%Z).
Proof.
  intros cfg st cands rows. subst rows.
  set (d := organize_by_cy st cands).
  assert (Hd : NoDup (keys d)) by apply organize_by_cy_keys.
  unfold merge_by_cy.
  destruct (merge_given_loop_closed cfg d Hd d [] [] [])
    as [[Hnd [Hincl Hperm]] [Hcov Hclosed]].
  - reflexivity.
  - split; [constructor|]. split; [intros a []|constructor].
  - intros a [].
  - intros a [].
  - intros g [].
  - split; [|split; [|split]].
    + apply (Permutation_trans Hperm).
      apply (Permutation_trans (l' := concat (values d)));
        [|apply organize_by_cy_perm].
      rewrite <- (items_keys d Hd). unfold items.
      apply Permutation_flat_map.
      apply NoDup_Permutation; [assumption|assumption|].
      intros k. split; [apply Hincl|apply Hcov].
    + apply NoDup_app_inv in Hnd. tauto.
    + intros g l r Hin Hr.
      destruct (merge_given_near cfg d Hd d ([], [])
                  (fun a Ha => Ha) (fun g l r H => match H with end)
                  g l r Hin Hr) as [k [Hk Hnear]].
      assert (Hcy : cy (get st r) = k).
      { unfold dict_item in Hk.
        destruct (dict_get k d) as [l0|] eqn:Hget; [|destruct Hk].
        apply dict_get_In in Hget.
        now apply (organize_by_cy_key st cands k l0). }
      rewrite Hcy. destruct Hnear as [->|Hnear]; [now left|now right].
    + intros g g' Hg Hg' Hne.
      destruct (Z.lt_ge_cases (ID_CHAR_Y_TOLERANCE cfg) (Z.abs (g - g')))
        as [Hlt|Hge]; [assumption|exfalso].
      apply NoDup_app_inv in Hnd. destruct Hnd as [_ [_ Hdis]].
      apply (Hdis g' Hg'). apply (Hclosed g Hg g').
      * apply Hincl. apply in_or_app. now left.
      * congruence.
      * lia.
Qed.

(** ** Charts with too few label characters *)

Lemma concat_length_ge :
  forall (A : Type) (m : nat) (ls : list (list A)),
    (forall l, In l ls -> m <= length l) ->
    m * length ls <= length (concat ls).
Proof.
  intros A m ls. induction ls as [|l t IH]; intros H; simpl; [lia|].
  rewrite length_app.
  assert (m <= length l) by (apply H; now left).
  assert (m * length t <= length (concat t)) by (apply IH; intros; apply H; now right).
  lia.
Qed.

(** The rows that pass the size filter of lines 179 to 182 hold at least
    [ROW_ID_CHAR_MIN_NUM] candidates each, and no candidate twice. *)
Lemma label_char_rows_bound :
  forall (cfg : Config) (st : store),
    ROW_ID_CHAR_MIN_NUM cfg * length (label_char_rows cfg st)
    <= length (filter_id_cntr_dicts cfg st).
Proof.
  intros cfg st.
  apply (Nat.le_trans _ (length (concat (values (label_char_rows cfg st))))).
  - unfold values at 1. rewrite <- (length_map snd (label_char_rows cfg st)).
    apply concat_length_ge. intros l Hl. fold (values (label_char_rows cfg st)) in Hl.
    unfold values in Hl.
    apply in_map_iff in Hl. destruct Hl as [[k l0] [Heq Hin]]. simpl in Heq.
    subst l0. unfold label_char_rows, filter_row_size in Hin.
    apply filter_In in Hin. destruct Hin as [_ Hsz]. simpl in Hsz.
    apply andb_prop in Hsz. destruct Hsz as [Hsz _]. now apply Nat.leb_le.
  - apply NoDup_incl_length; [apply label_char_rows_NoDup|].
    intros r Hr. apply label_char_rows_id_char in Hr. destruct Hr as [H1 H2].
    unfold filter_id_cntr_dicts. apply filter_In. split; [|assumption].
    apply in_seq. lia.
Qed.

(** X2.  When fewer than four times [ROW_ID_CHAR_MIN_NUM] contours pass
    the area filter of the label characters, as on a chart without
    contours, [_id_info] raises the error of the row count (line 186) with
    a count below 4 and leaves the object as it was, and [read_karyotype]
    raises the same error. *)
Theorem few_candidates_fail_the_row_count :
  forall (Image : Type) (E : Externals Image) (cfg : Config)
         (self : Karyotype Image),
    let st := gathered E cfg self in
    length (filter_id_cntr_dicts cfg st) < 4 * ROW_ID_CHAR_MIN_NUM cfg ->
    exists n,
      n < 4
      /\ n = length (label_char_rows cfg st)
      /\ _id_info cfg (with_cntr_dicts st self)
         = (with_cntr_dicts st self, Some (ValueError_row_count n))
      /\ read_karyotype E cfg self = Raise (ValueError_row_count n).
Proof.
  intros Image E cfg self st Hfew.
  pose proof (label_char_rows_bound cfg st) as Hb.
  exists (length (label_char_rows cfg st)).
  assert (Hn : length (label_char_rows cfg st) < 4) by nia.
  split; [assumption|]. split; [reflexivity|].
  assert (Hid : _id_info cfg (with_cntr_dicts st self)
                = (with_cntr_dicts st self,
                   Some (ValueError_row_count (length (label_char_rows cfg st))))).
  { unfold _id_info. cbn [cntr_dicts with_cntr_dicts].
    destruct (Nat.eqb_spec (length (label_char_rows cfg st)) 4) as [H4|H4];
      [lia|reflexivity]. }
  split; [assumption|].
  unfold read_karyotype, classify. fold (gathered E cfg self). fold st.
  now rewrite Hid.
Qed.

(** A chart with 19 labels: the first row has four of its five labels. *)
Lemma few_candidates_fail_the_row_count_witness :
  let E := Polygon.chart_externals (firstn 19 Polygon.labels) in
  let cfg := karyotype_ini in
  let self := Polygon.chart_object (firstn 19 Polygon.labels) in
  let st := gathered E cfg self in
  length (filter_id_cntr_dicts cfg st) < 4 * ROW_ID_CHAR_MIN_NUM cfg
  /\ exists n,
       n < 4
       /\ n = length (label_char_rows cfg st)
       /\ _id_info cfg (with_cntr_dicts st self)
          = (with_cntr_dicts st self, Some (ValueError_row_count n))
       /\ read_karyotype E cfg self = Raise (ValueError_row_count n).
Proof.
  cbv zeta.
  assert (H : length (filter_id_cntr_dicts karyotype_ini
                        (gathered (Polygon.chart_externals (firstn 19 Polygon.labels)) karyotype_ini
                           (Polygon.chart_object (firstn 19 Polygon.labels))))
              < 4 * ROW_ID_CHAR_MIN_NUM karyotype_ini)
    by (vm_compute; lia).
  split; [exact H|].
  exact (few_candidates_fail_the_row_count Polygon.Image
           (Polygon.chart_externals (firstn 19 Polygon.labels)) karyotype_ini (Polygon.chart_object (firstn 19 Polygon.labels))
           H).
Defined.

(** ** The labels of a row after the collapse *)

Lemma ForallOrdPairs_snoc :
  forall (A : Type) (R : A -> A -> Prop) (l : list A) (x : A),
    ForallOrdPairs R l -> Forall (fun a => R a x) l ->
    ForallOrdPairs R (l ++ [x]).
Proof.
  intros A R l x. induction l as [|a t IH]; intros Hl Hx; simpl.
  - constructor; constructor.
  - inversion Hl; subst. inversion Hx; subst. constructor.
    + apply Forall_app. split; [assumption|]. constructor; [assumption|constructor].
    + now apply IH.
Qed.

Lemma ascending_snoc :
  forall (l : list Z) (x : Z),
    ascending (l ++ [x]) -> ascending l /\ forall y, In y l -> (y <= x)%Z.
Proof.
  induction l as [|a t IH]; intros x H; simpl in *.
  - split; [exact I|]. intros y [].
  - destruct H as [Ha Ht]. destruct (IH x Ht) as [H1 H2]. split.
    + split; [|assumption]. intros y Hy. apply Ha. apply in_or_app. now left.
    + intros y [<-|Hy]; [|now apply H2]. apply Ha. apply in_or_app. right. now left.
Qed.

Lemma last_In :
  forall (A : Type) (l : list A) (d : A), l <> [] -> In (last l d) l.
Proof.
  intros A l d. induction l as [|a t IH]; intros Hne; [congruence|].
  destruct t as [|b u]; [now left|]. right. apply IH. discriminate.
Qed.

Section Spaced.

Variable cfg : Config.
Variable st : store.

(** The horizontal centroids of [a] and [b] are more than the tolerance
    apart, [b] to the right. *)
Definition spaced (a b : ref) : Prop :=
  (ID_CHAR_X_TOLERANCE cfg < cx (get st b) - cx (get st a))%Z.

Lemma collapse_row_spaced :
  forall l,
    ascending (map (fun r => cx (get st r)) l) ->
    ForallOrdPairs spaced (collapse_row cfg st l).
Proof.
  intros l. induction l as [|r pre IH] using rev_ind; intros Hasc.
  - constructor.
  - rewrite map_app in Hasc. simpl in Hasc.
    apply ascending_snoc in Hasc. destruct Hasc as [Hpre Hle].
    rewrite collapse_row_snoc.
    destruct (kept_after cfg st pre r) eqn:Hk;
      [|rewrite app_nil_r; now apply IH].
    apply ForallOrdPairs_snoc; [now apply IH|].
    apply Forall_forall. intros a Ha.
    apply (proj1 (collapse_row_sub cfg st pre)) in Ha.
    destruct pre as [|p pre']; [destruct Ha|].
    unfold kept_after in Hk. apply Z.ltb_lt in Hk.
    set (z := last (p :: pre') O) in *.
    assert (Hz : In z (p :: pre')) by (apply last_In; discriminate).
    assert (Hzr : (cx (get st z) <= cx (get st r))%Z).
    { apply Hle. now apply (in_map (fun r => cx (get st r))). }
    assert (Haz : (cx (get st a) <= cx (get st z))%Z).
    { clear - Hpre Ha. unfold z. clear z.
      revert a Ha. induction (p :: pre') as [|q t IHt]; intros a Ha;
        [destruct Ha|].
      simpl in Hpre. destruct Hpre as [Hq Ht].
      destruct t as [|q' t'].
      - destruct Ha as [<-|[]]. simpl. lia.
      - change (last (q :: q' :: t') O) with (last (q' :: t') O).
        destruct Ha as [<-|Ha]; [|now apply IHt].
        apply Hq. apply (in_map (fun r => cx (get st r))).
        apply last_In. discriminate. }
    unfold spaced. lia.
Qed.

Lemma collapse_row_fixed :
  forall l, ForallOrdPairs spaced l -> collapse_row cfg st l = l.
Proof.
  intros l. induction l as [|r pre IH] using rev_ind; intros Hsp;
    [reflexivity|].
  rewrite collapse_row_snoc.
  assert (Hpre : ForallOrdPairs spaced pre /\ Forall (fun a => spaced a r) pre).
  { clear IH. induction pre as [|a t IHt]; [split; constructor|].
    simpl in Hsp. inversion Hsp as [|? ? Ha Ht]; subst.
    apply Forall_app in Ha. destruct Ha as [Ha Har].
    destruct (IHt Ht) as [H1 H2]. split.
    - now constructor.
    - constructor; [now inversion Har|assumption]. }
  destruct Hpre as [Hpre Hr]. rewrite (IH Hpre).
  replace (kept_after cfg st pre r) with true; [reflexivity|].
  symmetry. unfold kept_after. destruct pre as [|p pre']; [reflexivity|].
  apply Z.ltb_lt.
  assert (Hz : In (last (p :: pre') O) (p :: pre')) by (apply last_In; discriminate).
  rewrite Forall_forall in Hr. specialize (Hr _ Hz). unfold spaced in Hr. lia.
Qed.

End Spaced.

(** X3.  After the collapse of lines 203 to 213 the labels of a row stand
    from left to right with more than the horizontal tolerance between the
    horizontal centroids of any two of them, and a second collapse of the
    row would drop none of them. *)
Theorem labels_of_a_row_are_spaced :
  forall (cfg : Config) (st : store) (k : Z) (row : list ref),
    In (k, row) (label_rows cfg st) ->
    ForallOrdPairs (spaced cfg st) row
    /\ collapse_row cfg st row = row.
Proof.
  intros cfg st k row Hin.
  assert (Hsp : ForallOrdPairs (spaced cfg st) row).
  { unfold label_rows, collapse_rows in Hin. apply in_map_iff in Hin.
    destruct Hin as [[k0 l0] [Heq Hin]]. simpl in Heq. inversion Heq; subst.
    apply collapse_row_spaced.
    unfold sort_rows_by_cx in Hin. apply in_map_iff in Hin.
    destruct Hin as [[k1 l1] [Heq1 Hin]]. simpl in Heq1. inversion Heq1; subst.
    apply sorted_by_ascending. }
  split; [assumption|now apply collapse_row_fixed].
Qed.

(** The first row of labels of the chart with a small piece. *)
Lemma labels_of_a_row_are_spaced_witness :
  let cfg := karyotype_ini in
  let c := Polygon.chart_with_piece in
  let st := gathered (Polygon.chart_externals c) cfg (Polygon.chart_object c) in
  let row := [23; 22; 21; 20; 19] in
  In (200%Z, row) (label_rows cfg st)
  /\ map (fun r => cx (get st r)) row = [100; 200; 300; 400; 500]%Z
  /\ ForallOrdPairs (spaced cfg st) row
  /\ collapse_row cfg st row = row.
Proof.
  cbv zeta.
  assert (H : In (200%Z, [23; 22; 21; 20; 19])
                (label_rows karyotype_ini
                   (gathered (Polygon.chart_externals Polygon.chart_with_piece)
                      karyotype_ini
                      (Polygon.chart_object Polygon.chart_with_piece))))
    by (vm_compute; left; reflexivity).
  split; [exact H|]. split; [vm_compute; reflexivity|].
  exact (labels_of_a_row_are_spaced karyotype_ini
           (gathered (Polygon.chart_externals Polygon.chart_with_piece)
              karyotype_ini (Polygon.chart_object Polygon.chart_with_piece))
           200%Z [23; 22; 21; 20; 19] H).
Defined.

(** ** The file name of a chart *)

(** The number of dots of a string. *)
Fixpoint count_dots (s : string) : nat :=
  match s with
  | EmptyString => 0
  | String c t => if Ascii.eqb c "."%char then S (count_dots t) else count_dots t
  end.

(** ["."join(fields)]. *)
Fixpoint join_dot (fields : list string) : string :=
  match fields with
  | [] => EmptyString
  | f :: rest =>
      match rest with
      | [] => f
      | _ :: _ => (f ++ String "."%char (join_dot rest))%string
      end
  end.

Lemma split_dot_length : forall s, length (split_dot s) = S (count_dots s).
Proof.
  induction s as [|c t IH]; simpl; [reflexivity|].
  destruct (Ascii.eqb c "."); simpl; [now rewrite IH|].
  destruct (split_dot t) as [|f fs]; simpl in *; [discriminate|assumption].
Qed.

Lemma join_split_dot : forall s, join_dot (split_dot s) = s.
Proof.
  induction s as [|c t IH]; simpl; [reflexivity|].
  destruct (Ascii.eqb_spec c "."%char) as [->|Hne].
  - pose proof (split_dot_not_nil t) as Hnil.
    simpl. destruct (split_dot t) as [|f fs]; [congruence|].
    now rewrite IH.
  - destruct (split_dot t) as [|f fs] eqn:Hs; simpl in *.
    + exfalso. now apply (split_dot_not_nil t).
    + destruct fs as [|g gs]; simpl in *; now rewrite IH.
Qed.

Lemma split_dot_fields :
  forall s f, In f (split_dot s) -> count_dots f = 0.
Proof.
  induction s as [|c t IH]; simpl; intros f Hf.
  - destruct Hf as [<-|[]]. reflexivity.
  - destruct (Ascii.eqb c ".") eqn:Hc.
    + destruct Hf as [<-|Hf]; [reflexivity|now apply IH].
    + destruct (split_dot t) as [|g gs].
      * destruct Hf as [<-|[]]. simpl. now rewrite Hc.
      * destruct Hf as [<-|Hf].
        -- simpl. rewrite Hc. apply IH. now left.
        -- apply IH. now right.
Qed.

(** X4.  The constructor (lines 100 to 114) builds an object exactly when
    the path exists, its file name has three dots and the file is an image.
    The four fields of the object have no dot, and joined by dots they are
    the file name again.  Without a path it raises [ValueError]; for a path
    that does not exist it raises [FileNotFoundError] and reads nothing. *)
Theorem constructor_accepts_three_dots :
  forall (Image : Type) (E : Externals Image) (fp : string),
    let fname := snd (os_path_split E fp) in
    (is_ok (snd (__init__ E (Some fp))) = true
     <-> os_path_exists E fp = true
         /\ count_dots fname = 3
         /\ imread E fp <> None)
    /\ (forall self,
          snd (__init__ E (Some fp)) = Ok self ->
          let fields := [case_id self; pic_id self;
                         img_type (img self); img_fext (img self)] in
          img_fp (img self) = fp
          /\ img_fname (img self) = fname
          /\ join_dot fields = fname
          /\ (forall f, In f fields -> count_dots f = 0)
          /\ imread E fp = Some (img_img (img self)))
    /\ (os_path_exists E fp = false ->
        __init__ E (Some fp) = ([io_exists fp], Raise (FileNotFoundError fp)))
    /\ snd (__init__ E None) = Raise (ValueError "karyotype_img_fp is None").
Proof.
  intros Image E fp fname. subst fname. unfold __init__.
  destruct (os_path_exists E fp); simpl.
  2:{ split; [split; [discriminate|intros [H _]; discriminate]|].
      split; [discriminate|]. split; reflexivity. }
  destruct (os_path_split E fp) as [fpath fname]; simpl.
  pose proof (split_dot_length fname) as Hlen.
  pose proof (join_split_dot fname) as Hjoin.
  pose proof (split_dot_fields fname) as Hfields.
  split; [|split; [|split; [discriminate|reflexivity]]].
  - destruct (split_dot fname) as [|a [|b [|c [|d [|e l]]]]]; simpl in *;
      try (split; [discriminate|intros [_ [H _]]; lia]).
    destruct (imread E fp) as [image|]; simpl.
    + split; [intros _|reflexivity].
      split; [reflexivity|]. split; [lia|discriminate].
    + split; [discriminate|]. intros [_ [_ H]]. now elim H.
  - intros self Hself.
    destruct (split_dot fname) as [|a [|b [|c [|d [|e l]]]]]; simpl in *;
      try discriminate.
    destruct (imread E fp) as [image|]; simpl in *; [|discriminate].
    inversion Hself as [Hs]. clear Hself. subst self. simpl.
    split; [reflexivity|]. split; [reflexivity|]. split; [assumption|].
    split; [assumption|reflexivity].
Qed.

(** ** The order of the rows of the output *)

(** The keys of a dict filled by [dict_append], in the order in which
    the keys come up first. *)
Definition see (acc : list Z) (k : Z) : list Z :=
  if existsb (Z.eqb k) acc then acc else acc ++ [k].

Definition first_seen (ks : list Z) : list Z := fold_left see ks [].

Lemma dict_append_keys :
  forall (A : Type) (k : Z) (r : A) (d : dict (list A)),
    keys (dict_append k r d) = see (keys d) k.
Proof.
  intros A k r d. unfold dict_append, see.
  destruct (dict_get k d) as [l|] eqn:Hget.
  - rewrite (dict_set_keys _ k (l ++ [r]) l d Hget).
    replace (existsb (Z.eqb k) (keys d)) with true; [reflexivity|].
    symmetry. apply existsb_Z_eqb. apply dict_get_In in Hget.
    unfold keys. change k with (fst (k, l)). now apply in_map.
  - rewrite (dict_set_new _ k [r] d Hget), keys_app. simpl.
    replace (existsb (Z.eqb k) (keys d)) with false; [reflexivity|].
    symmetry. destruct (existsb (Z.eqb k) (keys d)) eqn:Hex; [|reflexivity].
    apply existsb_Z_eqb in Hex. apply dict_get_None in Hget. contradiction.
Qed.

Lemma dict_append_nonempty :
  forall (A : Type) (k : Z) (r : A) (d : dict (list A)),
    (forall k' l', In (k', l') d -> l' <> []) ->
    forall k' l', In (k', l') (dict_append k r d) -> l' <> [].
Proof.
  intros A k r d Hd k' l' Hin. unfold dict_append in Hin.
  destruct (dict_get k d) as [l|]; apply dict_set_In in Hin;
    destruct Hin as [[_ ->]|Hin]; try (now apply (Hd k'));
    [destruct l|]; discriminate.
Qed.

(** The key of the band of a contour, if it lies in one. *)
Definition band_of (st : store) (cy_keys : list Z) (r : ref) : list Z :=
  match find_row (cy (get st r)) cy_keys 0 with
  | Some k => [k]
  | None => []
  end.

Lemma organize_fold_keys :
  forall st cy_keys l d,
    keys (fold_left (organize_step st cy_keys) l d)
    = fold_left see (flat_map (band_of st cy_keys) l) (keys d).
Proof.
  intros st cy_keys l. induction l as [|r t IH]; intros d; [reflexivity|].
  simpl. rewrite IH, fold_left_app. f_equal.
  unfold organize_step, band_of, row_of.
  destruct (find_row (cy (get st r)) cy_keys 0) as [k|]; [|reflexivity].
  simpl. apply dict_append_keys.
Qed.

Lemma organize_fold_nonempty :
  forall st cy_keys l d,
    (forall k' l', In (k', l') d -> l' <> []) ->
    forall k' l',
      In (k', l') (fold_left (organize_step st cy_keys) l d) -> l' <> [].
Proof.
  intros st cy_keys l d Hd.
  apply (fold_left_invariant _ _
           (fun d : dict (list ref) => forall k' l', In (k', l') d -> l' <> []));
    [|assumption].
  intros acc x _ Hacc. unfold organize_step.
  destruct (row_of st cy_keys x); [|assumption].
  now apply dict_append_nonempty.
Qed.

(** X5.  The rows of the other contours (lines 266 to 283) stand in the
    output in the order in which the contour extractor returned the first
    contour of each band, not from top to bottom; a band without a contour
    has no row.  No row is empty, every row is sorted by horizontal
    centroid, and the merge keeps the keys and their order. *)
Theorem rows_stand_in_order_of_first_contour :
  forall (Image : Type) (E : Externals Image) (cfg : Config)
         (self self' : Karyotype Image) (st : store) (left : dict (list ref)),
    id_num_in_rows cfg = [5; 7; 6; 6] ->
    classify E cfg self = Ok (self', st, left) ->
    let others :=
      filter (fun r => negb (existsb (Nat.eqb r)
                               (concat (id_char_cntr_dicts self'))))
        (seq 0 (length st)) in
    keys left
    = first_seen
        (flat_map (band_of st (keys (id_cntr_dicts_orgby_cy self'))) others)
    /\ (forall k row,
          In (k, row) left ->
          row <> [] /\ ascending (map (fun r => cx (get st r)) row))
    /\ (forall st' left',
          merge_fragments E cfg st left = Ok (st', left') ->
          keys left' = keys left).
Proof.
  intros Image E cfg self self' st left Hcfg Hcl others.
  destruct (classify_unfold Image E cfg Hcfg self self' st left Hcl)
    as [stA [Hasg [Hsz [Hself [Hleft Hst]]]]].
  assert (Hst' : st = classified E cfg self stA) by (now subst).
  destruct (classified_effect Image E cfg self stA Hasg) as [HlenC _].
  rewrite <- Hst' in HlenC.
  assert (Hgeo : forall r, geometry (get st r) = geometry (get stA r)).
  { intros r. rewrite Hst'.
    rewrite (classified_geometry Image E cfg self stA Hasg r).
    symmetry. apply (stA_geometry Image E cfg self stA Hasg). }
  assert (Hcy : forall r, cy (get stA r) = cy (get st r)).
  { intros r. specialize (Hgeo r). unfold geometry in Hgeo. now inversion Hgeo. }
  assert (Hcx : forall r, cx (get stA r) = cx (get st r)).
  { intros r. specialize (Hgeo r). unfold geometry in Hgeo. now inversion Hgeo. }
  assert (Hkeys : keys (id_cntr_dicts_orgby_cy self') = keys (id_rows E cfg self)).
  { rewrite Hself. reflexivity. }
  assert (Hchars : concat (id_char_cntr_dicts self') = id_chars E cfg self).
  { rewrite Hself. reflexivity. }
  assert (Hothers : left_cntr_dicts stA (id_chars E cfg self) = others).
  { unfold left_cntr_dicts, others.
    rewrite Hchars, HlenC, (stA_length Image E cfg self stA Hasg).
    apply filter_ext_in. intros r Hr. apply in_seq in Hr.
    destruct (stA_wf Image E cfg self stA Hasg r) as [Hidx _];
      [rewrite (stA_length Image E cfg self stA Hasg); lia|].
    now rewrite Hidx. }
  split; [|split].
  - rewrite Hleft. unfold left_rows.
    rewrite sort_rows_by_cx_keys, organize_fold_keys, Hothers, Hkeys.
    unfold first_seen. f_equal. apply flat_map_ext. intros r.
    unfold band_of. now rewrite Hcy.
  - intros k row Hin. rewrite Hleft in Hin. unfold left_rows in Hin.
    apply sort_rows_by_cx_In in Hin. destruct Hin as [l [Hl ->]]. split.
    + apply organize_fold_nonempty in Hl; [|intros k' l' []].
      intros Hnil. apply Hl.
      assert (Hlen := sorted_by_length ref (fun r => cx (get stA r)) l).
      rewrite Hnil in Hlen. destruct l; [reflexivity|discriminate].
    + rewrite (map_ext _ (fun r => cx (get stA r)))
        by (intros r; symmetry; apply Hcx).
      apply sorted_by_ascending.
  - intros st' left' Hrun.
    now destruct (merge_fragments_rows Image E cfg st left st' left' Hrun).
Qed.

(** A chart whose extractor returns a chromosome of the third band before
    a chromosome of the first band. *)
Definition chart_two_bands : Polygon.Image :=
  Polygon.labels ++ [Polygon.box 90 500 20 60; Polygon.box 90 100 20 60].

Lemma rows_stand_in_order_of_first_contour_witness :
  let c := chart_two_bands in
  let E := Polygon.chart_externals c in
  let cfg := karyotype_ini in
  let self := Polygon.chart_object c in
  let self' := Polygon.chart_self c in
  let st := Polygon.chart_store c in
  let left := Polygon.chart_rows c in
  let others :=
    filter (fun r => negb (existsb (Nat.eqb r)
                             (concat (id_char_cntr_dicts self'))))
      (seq 0 (length st)) in
  (id_num_in_rows cfg = [5; 7; 6; 6]
   /\ classify E cfg self = Ok (self', st, left))
  /\ keys left = [600; 200]%Z
  /\ keys left
     = first_seen
         (flat_map (band_of st (keys (id_cntr_dicts_orgby_cy self'))) others)
  /\ (forall k row,
        In (k, row) left ->
        row <> [] /\ ascending (map (fun r => cx (get st r)) row))
  /\ (forall st' left',
        merge_fragments E cfg st left = Ok (st', left') ->
        keys left' = keys left).
Proof.
  cbv zeta.
  assert (Hcl : classify (Polygon.chart_externals chart_two_bands)
                  karyotype_ini (Polygon.chart_object chart_two_bands)
                = Ok (Polygon.chart_self chart_two_bands,
                      Polygon.chart_store chart_two_bands,
                      Polygon.chart_rows chart_two_bands))
    by (apply chart_classified_ok; vm_compute; reflexivity).
  split; [split; [reflexivity|exact Hcl]|].
  split; [vm_compute; reflexivity|].
  exact (rows_stand_in_order_of_first_contour Polygon.Image
           (Polygon.chart_externals chart_two_bands) karyotype_ini
           (Polygon.chart_object chart_two_bands)
           (Polygon.chart_self chart_two_bands)
           (Polygon.chart_store chart_two_bands)
           (Polygon.chart_rows chart_two_bands) eq_refl Hcl).
Defined.

(** ** The removal of the small pieces, as a whole *)

(** X6.  The removal of lines 373 to 380 deletes by position, from the
    last marked position to the first, and so removes from a row exactly
    the records whose [cntr_idx] is in the list of merged pieces: the other
    records stay, in their order, and the keys of the rows stay. *)
Theorem deletion_by_position_is_a_filter :
  forall (st : store) (small_cnts_need_delete : list nat)
         (rows : dict (list ref)),
    delete_rows st small_cnts_need_delete rows
    = map (fun kv =>
             (fst kv,
              filter (fun r => negb (existsb (Nat.eqb (cntr_idx (get st r)))
                                       small_cnts_need_delete))
                (snd kv)))
        rows.
Proof.
  intros st del rows. unfold delete_rows. apply map_ext. intros [k row].
  simpl. now rewrite delete_small_cnts_filter.
Qed.

(** The step of one chromosome number on a store whose records carry
    their positions: the pieces that it deletes are records of the row that
    it leaves as they are, and it deletes none unless a main branch of the
    same number stays. *)
Lemma merge_chromo_id_outcome :
  forall (Image : Type) (E : Externals Image) (cfg : Config)
         (st : store) (row : list ref) (Y : option string)
         (stY : store) (delY : list nat),
    (forall r, In r row -> cntr_idx (get st r) = r) ->
    merge_chromo_id E cfg row (st, []) Y = Ok (stY, delY) ->
    (forall r, In r delY ->
       In r (same_chromo_id st row Y) /\ get stY r = get st r)
    /\ (delY <> [] ->
        exists m, In m (same_chromo_id st row Y) /\ ~ In m delY).
Proof.
  intros Image E cfg st row Y stY delY Hidx Hrun.
  unfold merge_chromo_id in Hrun. cbn [fst] in Hrun.
  fold (same_chromo_id st row Y) in Hrun.
  set (same := same_chromo_id st row Y) in *.
  destruct (length same <=? 1).
  { inversion Hrun; subst. split; [intros r []|intros H; now elim H]. }
  destruct (py_div _ _) as [ratio|e]; [|discriminate]. cbn [bind] in Hrun.
  destruct (Qlt_bool (SMALL_PIECE_AREA_RATIO cfg) ratio).
  { inversion Hrun; subst. split; [intros r []|intros H; now elim H]. }
  set (max_area := py_max (map (fun r => area (get st r)) same)) in *.
  set (smalls := filter (fun r => Qlt_bool (area (get st r) / max_area)%Q
                                    (SMALL_PIECE_AREA_RATIO cfg)) same) in *.
  set (mains := filter (fun r => Qle_bool (SMALL_PIECE_AREA_RATIO cfg)
                                   (area (get st r) / max_area)%Q) same) in *.
  assert (Hsame : forall r, In r same -> In r row).
  { intros r Hr. apply same_chromo_id_In in Hr. tauto. }
  assert (Hsmalls : forall r, In r smalls -> In r same /\ ~ In r mains).
  { intros r Hr. split; [apply filter_In in Hr; tauto|].
    now apply (small_and_main_disjoint (SMALL_PIECE_AREA_RATIO cfg)
                 (fun r => (area (get st r) / max_area)%Q) same). }
  pose proof (small_pieces_frame Image E mains smalls st st [] []
                eq_refl (fun r _ => eq_refl)) as Hf.
  rewrite Hrun in Hf. destruct Hf as [Hdel [_ [_ [_ [_ [_ [Hkeep _]]]]]]].
  simpl in Hdel.
  assert (HdelY : delY = smalls).
  { rewrite Hdel. rewrite <- (map_id smalls) at 2. apply map_ext_in.
    intros r Hr. apply Hidx, Hsame. now apply Hsmalls. }
  split.
  - intros r Hr. rewrite HdelY in Hr. destruct (Hsmalls r Hr) as [H1 H2].
    split; [assumption|]. now apply Hkeep.
  - intros Hne. rewrite HdelY in Hne.
    destruct smalls as [|s rest] eqn:Hs; [now elim Hne|].
    cbn [for_each] in Hrun.
    destruct (merge_small_piece E mains (st, []) s) as [[s1 d1]|e] eqn:Hstep;
      [|discriminate].
    pose proof (merge_small_piece_frame Image E mains s st st [] []
                  (fun r _ => eq_refl)) as Hone.
    rewrite Hstep in Hone.
    destruct Hone as [main [m [qx [qy [Hmain _]]]]].
    exists main. split; [unfold mains in Hmain; apply filter_In in Hmain; tauto|].
    rewrite HdelY. intros Hin. now apply (Hsmalls main Hin).
Qed.

(** A record of a row after the merge. *)
Lemma merge_record_outcome :
  forall (Image : Type) (E : Externals Image) (cfg : Config)
         (self self' : Karyotype Image) (st : store) (left : dict (list ref))
         (st' : store) (left' : dict (list ref))
         (k : Z) (row : list ref) (r : ref),
    id_num_in_rows cfg = [5; 7; 6; 6] ->
    list_set_spec Image E ->
    classify E cfg self = Ok (self', st, left) ->
    merge_fragments E cfg st left = Ok (st', left') ->
    In (k, row) left ->
    In r row ->
    chromo_id (get st' r) = chromo_id (get st r)
    /\ (In r (dict_item k left')
        \/ (~ In r (dict_item k left') /\ get st' r = get st r))
    /\ exists m,
         In m row /\ In m (dict_item k left')
         /\ chromo_id (get st' m) = chromo_id (get st r).
Proof.
  intros Image E cfg self self' st left st' left' k row r
         Hcfg Hset Hcl Hrun Hrow Hr.
  destruct (classify_rows_wf Image E cfg self self' st left Hcfg Hcl)
    as [Hkeys [Hnd Hwf]].
  assert (Hidx : forall x, In x (concat (values left)) -> cntr_idx (get st x) = x).
  { intros x Hx. now apply Hwf. }
  assert (Hidx_row : forall x, In x row -> cntr_idx (get st x) = x).
  { intros x Hx. apply Hidx. eapply In_values_concat; eassumption. }
  destruct (merge_fragments_spec Image E cfg st left st' left'
              Hset Hkeys Hnd Hidx Hrun)
    as [del [_ [_ [Hids [_ [Hstep Hitem]]]]]].
  assert (Hid : forall x, chromo_id (get st' x) = chromo_id (get st x)).
  { intros x. apply ids_chromo_id. apply Hids. }
  assert (Hkept : forall x, In x row -> ~ In x del -> In x (dict_item k left')).
  { intros x Hx Hdel. rewrite (Hitem k row Hrow). apply filter_In.
    split; [assumption|]. apply negb_true_iff.
    destruct (existsb (Nat.eqb x) del) eqn:Hex; [|reflexivity].
    apply existsb_nat_eqb in Hex. contradiction. }
  assert (Hgone : forall x, In x del -> ~ In x (dict_item k left')).
  { intros x Hdel Hin. rewrite (Hitem k row Hrow) in Hin.
    apply filter_In in Hin. destruct Hin as [_ Hin].
    apply negb_true_iff in Hin.
    assert (Hex : existsb (Nat.eqb x) del = true) by (now apply existsb_nat_eqb).
    congruence. }
  destruct (Hstep k row r Hrow Hr) as [stY [delY [Y1 [Y2 Y3]]]].
  unfold step_alone in Y1.
  destruct (merge_chromo_id_outcome Image E cfg st row _ stY delY Hidx_row Y1)
    as [Hdeleted Hmain].
  split; [apply Hid|].
  destruct (in_dec Nat.eq_dec r delY) as [Hin|Hnot].
  - destruct (Hdeleted r Hin) as [_ Hsame].
    split.
    + right. split; [apply Hgone; now apply Y3|]. now rewrite Y2.
    + destruct Hmain as [m [Hm Hmdel]]; [intros Hnil; now rewrite Hnil in Hin|].
      apply same_chromo_id_In in Hm. destruct Hm as [Hmrow HmY].
      exists m. split; [assumption|]. split; [|now rewrite Hid].
      apply Hkept; [assumption|]. intros Hmd.
      destruct (Hstep k row m Hrow Hmrow) as [stM [delM [M1 [M2 M3]]]].
      unfold step_alone in M1. rewrite HmY, Y1 in M1.
      inversion M1; subst stM delM. apply Hmdel. now apply M3.
  - assert (Hrk : In r (dict_item k left')).
    { apply Hkept; [assumption|]. intros Hd. apply Hnot. now apply Y3. }
    split; [now left|]. exists r. split; [assumption|].
    split; [assumption|apply Hid].
Qed.

(** X7.  After a merge that returns, a record of a row either stays in
    the row, or it is a merged piece: then the store still holds it as it
    was, and the row keeps a record with the same chromosome number.  So
    the merge changes the descriptors only of records that stay, and no
    chromosome number of a row is lost. *)
Theorem merge_keeps_every_number_of_a_row :
  forall (Image : Type) (E : Externals Image) (cfg : Config)
         (self self' : Karyotype Image) (st : store) (left : dict (list ref))
         (st' : store) (left' : dict (list ref))
         (k : Z) (row : list ref) (r : ref),
    id_num_in_rows cfg = [5; 7; 6; 6] ->
    list_set_spec Image E ->
    classify E cfg self = Ok (self', st, left) ->
    merge_fragments E cfg st left = Ok (st', left') ->
    In (k, row) left ->
    In r row ->
    chromo_id (get st' r) = chromo_id (get st r)
    /\ (In r (dict_item k left')
        \/ (~ In r (dict_item k left') /\ get st' r = get st r))
    /\ exists m,
         In m row /\ In m (dict_item k left')
         /\ chromo_id (get st' m) = chromo_id (get st r).
Proof.
  intros Image E cfg self self' st left st' left' k row r
         Hcfg Hset Hcl Hrun Hrow Hr.
  exact (merge_record_outcome Image E cfg self self' st left st' left' k row r
           Hcfg Hset Hcl Hrun Hrow Hr).
Qed.

(** ** The exceptions of [read_karyotype] *)

(** X8.  With the expected numbers of labels 5, 7, 6 and 6,
    [read_karyotype] raises in two ways only.  Either [_id_info] raises at
    one of its two gates, and that [ValueError] is what [read_karyotype]
    raises; or the labels pass, the classification of lines 255 to 304 runs
    to its end, and the merge raises [ZeroDivisionError] (the divisions of
    lines 328 and 363) or [TypeError] (no main branch at line 356).  It
    raises no [IndexError]: [cy_keys[0]], [id_num_in_rows[idx]] and
    [chromo_id_list[chromo_idx]] are read in range whenever they are
    reached. *)
Theorem read_karyotype_raises_in_two_ways :
  forall (Image : Type) (E : Externals Image) (cfg : Config)
         (self : Karyotype Image) (e : exn),
    id_num_in_rows cfg = [5; 7; 6; 6] ->
    read_karyotype E cfg self = Raise e ->
    let gate := snd (_id_info cfg (with_cntr_dicts (gathered E cfg self) self)) in
    (gate = Some e
     /\ ((exists n, n <> 4 /\ e = ValueError_row_count n)
         \/ exists row found expected,
              found <> expected /\ e = ValueError_row_id_num row found expected))
    \/ (gate = None
        /\ (exists self' st left,
              classify E cfg self = Ok (self', st, left)
              /\ merge_fragments E cfg st left = Raise e)
        /\ (e = TypeError \/ e = ZeroDivisionError)).
Proof.
  intros Image E cfg self e Hcfg Hrun.
  exact (read_karyotype_raise_cases Image E cfg self e Hcfg Hrun).
Qed.

(** ** Contours without area *)

Lemma py_max_zero :
  forall l : list Q, (forall x, In x l -> (x == 0)%Q) -> (py_max l == 0)%Q.
Proof.
  intros [|x t] H; simpl; [reflexivity|].
  assert (Hx : (x == 0)%Q) by (apply H; now left).
  assert (Ht : forall y, In y t -> (y == 0)%Q) by (intros y Hy; apply H; now right).
  clear H. revert x Hx. induction t as [|y u IH]; intros x Hx; simpl;
    [assumption|].
  apply IH.
  - intros z Hz. apply Ht. now right.
  - destruct (Qlt_bool x y); [apply Ht; now left|assumption].
Qed.

(** X9.  When two or more contours of a row carry the same chromosome
    number and none of them has an area, as contours of thin lines have
    none, the quotient of line 328 divides by zero: the step of that number
    raises [ZeroDivisionError], and [read_karyotype] does not return. *)
Theorem contours_without_area_abort_the_merge :
  forall (Image : Type) (E : Externals Image) (cfg : Config)
         (self self' : Karyotype Image) (st : store) (left : dict (list ref))
         (k : Z) (row : list ref) (Y : option string),
    id_num_in_rows cfg = [5; 7; 6; 6] ->
    list_set_spec Image E ->
    classify E cfg self = Ok (self', st, left) ->
    In (k, row) left ->
    2 <= length (same_chromo_id st row Y) ->
    (forall r, In r (same_chromo_id st row Y) -> (area (get st r) == 0)%Q) ->
    (forall del, merge_chromo_id E cfg row (st, del) Y = Raise ZeroDivisionError)
    /\ exists e,
         read_karyotype E cfg self = Raise e
         /\ (e = TypeError \/ e = ZeroDivisionError).
Proof.
  intros Image E cfg self self' st left k row Y Hcfg Hset Hcl Hrow Hlen Hzero.
  assert (Hstep : forall del,
             merge_chromo_id E cfg row (st, del) Y = Raise ZeroDivisionError).
  { intros del. unfold merge_chromo_id. cbn [fst].
    fold (same_chromo_id st row Y).
    destruct (Nat.leb_spec (length (same_chromo_id st row Y)) 1) as [H|_];
      [lia|].
    unfold py_div.
    replace (Qeq_bool (py_max (map (fun r => area (get st r))
                                 (same_chromo_id st row Y))) 0) with true;
      [reflexivity|].
    symmetry. apply Qeq_bool_iff. apply py_max_zero. intros x Hx.
    apply in_map_iff in Hx. destruct Hx as [r [<- Hr]]. now apply Hzero. }
  split; [assumption|].
  unfold read_karyotype. rewrite Hcl. cbn [bind].
  destruct (merge_fragments E cfg st left) as [[st' left']|e] eqn:Hrun.
  - exfalso.
    destruct (classify_rows_wf Image E cfg self self' st left Hcfg Hcl)
      as [Hkeys [Hnd Hwf]].
    assert (Hidx : forall x, In x (concat (values left)) -> cntr_idx (get st x) = x).
    { intros x Hx. now apply Hwf. }
    destruct (merge_fragments_spec Image E cfg st left st' left'
                Hset Hkeys Hnd Hidx Hrun)
      as [del [_ [_ [_ [_ [Hone _]]]]]].
    destruct (same_chromo_id st row Y) as [|r rest] eqn:Hsame;
      [simpl in Hlen; lia|].
    assert (Hr : In r (same_chromo_id st row Y)) by (rewrite Hsame; now left).
    apply same_chromo_id_In in Hr. destruct Hr as [Hr HY].
    destruct (Hone k row r Hrow Hr) as [stY [delY [Y1 _]]].
    unfold step_alone in Y1. rewrite HY, Hstep in Y1. discriminate.
  - cbn [bind]. exists e. split; [reflexivity|].
    now apply (merge_fragments_raises Image E cfg st left).
Qed.

(** A chart with two strokes of one pixel above the label "1". *)
Definition chart_two_lines : Polygon.Image :=
  Polygon.labels ++ [[(90, 100); (110, 100)]; [(90, 120); (110, 120)]]%Z.

Lemma contours_without_area_abort_the_merge_witness :
  let c := chart_two_lines in
  let E := Polygon.chart_externals c in
  let cfg := karyotype_ini in
  let self := Polygon.chart_object c in
  let self' := Polygon.chart_self c in
  let st := Polygon.chart_store c in
  let left := Polygon.chart_rows c in
  let k := 200%Z in
  let row := [24; 25] in
  let Y := Some "1"%string in
  (id_num_in_rows cfg = [5; 7; 6; 6]
   /\ list_set_spec Polygon.Image E
   /\ classify E cfg self = Ok (self', st, left)
   /\ In (k, row) left
   /\ 2 <= length (same_chromo_id st row Y)
   /\ (forall r, In r (same_chromo_id st row Y) -> (area (get st r) == 0)%Q))
  /\ read_karyotype E cfg self = Raise ZeroDivisionError
  /\ (forall del, merge_chromo_id E cfg row (st, del) Y = Raise ZeroDivisionError)
  /\ exists e,
       read_karyotype E cfg self = Raise e
       /\ (e = TypeError \/ e = ZeroDivisionError).
Proof.
  cbv zeta.
  assert (Hcl : classify (Polygon.chart_externals chart_two_lines)
                  karyotype_ini (Polygon.chart_object chart_two_lines)
                = Ok (Polygon.chart_self chart_two_lines,
                      Polygon.chart_store chart_two_lines,
                      Polygon.chart_rows chart_two_lines))
    by (apply chart_classified_ok; vm_compute; reflexivity).
  assert (Hin : In (200%Z, [24; 25]) (Polygon.chart_rows chart_two_lines))
    by (vm_compute; left; reflexivity).
  assert (Hsame : same_chromo_id (Polygon.chart_store chart_two_lines) [24; 25]
                    (Some "1"%string) = [24; 25])
    by (vm_compute; reflexivity).
  assert (Hlen : 2 <= length (same_chromo_id (Polygon.chart_store chart_two_lines)
                                [24; 25] (Some "1"%string)))
    by (rewrite Hsame; simpl; lia).
  assert (Hzero : forall r,
             In r (same_chromo_id (Polygon.chart_store chart_two_lines)
                     [24; 25] (Some "1"%string)) ->
             (area (get (Polygon.chart_store chart_two_lines) r) == 0)%Q).
  { rewrite Hsame. intros r [<-|[<-|[]]]; vm_compute; reflexivity. }
  split.
  { split; [reflexivity|]. split; [apply polygon_list_set_spec|].
    split; [exact Hcl|]. split; [exact Hin|]. split; assumption. }
  split; [vm_compute; reflexivity|].
  exact (contours_without_area_abort_the_merge Polygon.Image
           (Polygon.chart_externals chart_two_lines) karyotype_ini
           (Polygon.chart_object chart_two_lines)
           (Polygon.chart_self chart_two_lines)
           (Polygon.chart_store chart_two_lines)
           (Polygon.chart_rows chart_two_lines)
           200%Z [24; 25] (Some "1"%string) eq_refl
           (polygon_list_set_spec (Polygon.chart_files chart_two_lines))
           Hcl Hin Hlen Hzero).
Defined.

(** ** The output of [read_karyotype] *)

Lemma read_karyotype_Ok :
  forall (Image : Type) (E : Externals Image) (cfg : Config)
         (self out : Karyotype Image),
    read_karyotype E cfg self = Ok out ->
    exists self' st left st' left',
      classify E cfg self = Ok (self', st, left)
      /\ merge_fragments E cfg st left = Ok (st', left')
      /\ out = with_chromo left' (with_cntr_dicts st' self').
Proof.
  intros Image E cfg self out H. unfold read_karyotype in H.
  destruct (classify E cfg self) as [[[self' st] left]|e] eqn:Hcl;
    [|discriminate].
  cbn [bind] in H.
  destruct (merge_fragments E cfg st left) as [[st' left']|e] eqn:Hm;
    [|discriminate].
  cbn [bind] in H. inversion H. exists self', st, left, st', left'.
  split; [reflexivity|]. split; [assumption|reflexivity].
Qed.

Lemma classified_row_nonempty :
  forall (Image : Type) (E : Externals Image) (cfg : Config)
         (self self' : Karyotype Image) (st : store) (left : dict (list ref))
         (k : Z) (row : list ref),
    id_num_in_rows cfg = [5; 7; 6; 6] ->
    classify E cfg self = Ok (self', st, left) ->
    In (k, row) left -> row <> [].
Proof.
  intros Image E cfg self self' st left k row Hcfg Hcl Hin.
  destruct (classify_unfold Image E cfg Hcfg self self' st left Hcl)
    as [stA [_ [_ [_ [Hleft _]]]]].
  rewrite Hleft in Hin. unfold left_rows in Hin.
  apply sort_rows_by_cx_In in Hin. destruct Hin as [l [Hl ->]].
  apply organize_fold_nonempty in Hl; [|intros k' l' []].
  intros Hnil. apply Hl.
  assert (Hlen := sorted_by_length ref (fun r => cx (get stA r)) l).
  rewrite Hnil in Hlen. destruct l; [reflexivity|discriminate].
Qed.

Lemma classified_row_key :
  forall (Image : Type) (E : Externals Image) (cfg : Config)
         (self self' : Karyotype Image) (st : store) (left : dict (list ref))
         (k : Z) (row : list ref),
    id_num_in_rows cfg = [5; 7; 6; 6] ->
    classify E cfg self = Ok (self', st, left) ->
    In (k, row) left -> In k (keys (id_cntr_dicts_orgby_cy self')).
Proof.
  intros Image E cfg self self' st left k row Hcfg Hcl Hin.
  pose proof (classified_row_nonempty Image E cfg self self' st left k row
                Hcfg Hcl Hin) as Hne.
  destruct row as [|r t]; [congruence|].
  apply (find_row_In (cy (get st r)) _ 0).
  apply (classified_row_band Image E cfg self self' st left k (r :: t) r
           Hcfg Hcl Hin). now left.
Qed.

Lemma classified_row_not_label :
  forall (Image : Type) (E : Externals Image) (cfg : Config)
         (self self' : Karyotype Image) (st : store) (left : dict (list ref))
         (k : Z) (row : list ref) (r : ref),
    id_num_in_rows cfg = [5; 7; 6; 6] ->
    classify E cfg self = Ok (self', st, left) ->
    In (k, row) left -> In r row ->
    ~ In r (concat (id_char_cntr_dicts self')).
Proof.
  intros Image E cfg self self' st left k row r Hcfg Hcl Hin Hr.
  destruct (classify_unfold Image E cfg Hcfg self self' st left Hcl)
    as [stA [Hasg [_ [Hself [Hleft _]]]]].
  rewrite Hleft in Hin.
  destruct (left_rows_In Image E cfg self stA Hasg k row r Hin Hr)
    as [_ [Hnot _]].
  rewrite Hself. exact Hnot.
Qed.

Lemma merge_fragments_length :
  forall (Image : Type) (E : Externals Image) cfg st left st' left',
    merge_fragments E cfg st left = Ok (st', left') ->
    length st' = length st.
Proof.
  intros Image E cfg st left st' left' Hrun.
  unfold merge_fragments in Hrun.
  destruct (merge_rows E cfg st left) as [[st1 del]|e] eqn:Hrows; [|discriminate].
  cbn [bind] in Hrun. inversion Hrun; subst st1 left'. clear Hrun.
  unfold merge_rows in Hrows.
  set (R := fun s s' : store * list nat => length (fst s') = length (fst s)).
  assert (Hrefl : forall s, R s s) by (intros s; reflexivity).
  assert (Htrans : forall s1 s2 s3, R s1 s2 -> R s2 s3 -> R s1 s3).
  { intros s1 s2 s3 H12 H23. unfold R in *. congruence. }
  apply (for_each_preserves _ _ R (merge_row E cfg) Hrefl Htrans (values left)
           ) with (s := (st, [])) (s' := (st', del)); [|assumption].
  intros s row s' _ Hrow. unfold merge_row in Hrow.
  apply (for_each_preserves _ _ R (merge_chromo_id E cfg row) Hrefl Htrans
           (list_set E (map (fun r => chromo_id (get (fst s) r)) row))
           ) with (s := s) (s' := s'); [|exact Hrow].
  intros [sa da] Y [sb db] _ Hstep. unfold R. cbn [fst].
  pose proof (merge_chromo_id_frame Image E cfg row Y sa sa da da eq_refl
                (fun r _ => eq_refl) (fun r _ _ => eq_refl)) as Hf.
  rewrite Hstep in Hf.
  destruct Hf as [d [_ [_ [_ [Hlen _]]]]]. exact Hlen.
Qed.

Lemma delete_rows_NoDup :
  forall st del (rows : dict (list ref)),
    NoDup (concat (values rows)) ->
    NoDup (concat (values (delete_rows st del rows))).
Proof.
  intros st del rows. apply NoDup_concat_sub.
  unfold delete_rows, values. rewrite map_map. simpl.
  induction rows as [|[k row] t IH]; simpl; constructor; [|assumption].
  rewrite delete_small_cnts_filter. split.
  - intros x Hx. apply filter_In in Hx. tauto.
  - apply NoDup_filter.
Qed.

(** What [read_karyotype] returns about a record of its rows. *)
Lemma final_record :
  forall (Image : Type) (E : Externals Image) (cfg : Config)
         (self out : Karyotype Image) (k : Z) (row : list ref) (r : ref),
    id_num_in_rows cfg = [5; 7; 6; 6] ->
    read_karyotype E cfg self = Ok out ->
    In (k, row) (chromo_cntr_dicts_orgby_cy out) ->
    In r row ->
    let st := cntr_dicts out in
    r < length st
    /\ cntr_idx (get st r) = r
    /\ ~ In r (concat (id_char_cntr_dicts out))
    /\ exists lab id idx,
         In lab (dict_item k (id_cntr_dicts_orgby_cy out))
         /\ nth_error chromo_id_list idx = Some id
         /\ chromo_id (get st r) = Some id
         /\ chromo_idx (get st r) = Some idx
         /\ chromo_id (get st lab) = Some id
         /\ chromo_idx (get st lab) = Some idx.
Proof.
  intros Image E cfg self out k row r Hcfg Hrun Hin Hr st.
  destruct (read_karyotype_Ok Image E cfg self out Hrun)
    as [self' [st0 [left [st' [left' [Hcl [Hm Hout]]]]]]].
  subst st. rewrite Hout in *.
  cbn [with_chromo with_cntr_dicts cntr_dicts chromo_cntr_dicts_orgby_cy
       id_char_cntr_dicts id_cntr_dicts_orgby_cy] in *.
  destruct (merge_fragments_rows Image E cfg st0 left st' left' Hm) as [_ Hrows].
  destruct (Hrows k row r Hin Hr) as [row0 [Hrow0 Hr0]].
  destruct (classify_rows_wf Image E cfg self self' st0 left Hcfg Hcl)
    as [_ [_ Hwf]].
  destruct (Hwf r (In_values_concat left k row0 r Hrow0 Hr0)) as [Hlen Hidx].
  pose proof (merge_fragments_ids Image E cfg st0 left st' left' Hm) as Hids.
  assert (Hid : forall x, chromo_id (get st' x) = chromo_id (get st0 x)
                          /\ chromo_idx (get st' x) = chromo_idx (get st0 x)
                          /\ cntr_idx (get st' x) = cntr_idx (get st0 x)).
  { intros x. specialize (Hids x). unfold ids in Hids. now inversion Hids. }
  split; [now rewrite (merge_fragments_length Image E cfg st0 left st' left' Hm)|].
  split; [destruct (Hid r) as [_ [_ H]]; now rewrite H|].
  split; [now apply (classified_row_not_label Image E cfg self self' st0 left
                       k row0 r Hcfg Hcl)|].
  destruct (classified_row_record Image E cfg self self' st0 left k row0 r
              Hcfg Hcl Hrow0 Hr0)
    as [j [lab [J [id [H1 [H2 [H3 [H4 [H5 [H6 _]]]]]]]]]].
  exists lab, id, J. split; [eapply nth_error_In; eassumption|].
  split; [assumption|].
  destruct (Hid r) as [R1 [R2 _]]. destruct (Hid lab) as [L1 [L2 _]].
  rewrite R1, R2, L1, L2. tauto.
Qed.

(** The rows of the output, the labels and the records of the rows. *)
Lemma read_karyotype_rows_labelled_core :
  forall (Image : Type) (E : Externals Image) (cfg : Config)
         (self out : Karyotype Image),
    id_num_in_rows cfg = [5; 7; 6; 6] ->
    read_karyotype E cfg self = Ok out ->
    chromo_cntr_dicts out = values (chromo_cntr_dicts_orgby_cy out)
    /\ length (concat (values (id_cntr_dicts_orgby_cy out))) = 24
    /\ forall k row r,
         In (k, row) (chromo_cntr_dicts_orgby_cy out) -> In r row ->
         r < length (cntr_dicts out)
         /\ cntr_idx (get (cntr_dicts out) r) = r
         /\ ~ In r (concat (id_char_cntr_dicts out))
         /\ exists lab id idx,
              In lab (dict_item k (id_cntr_dicts_orgby_cy out))
              /\ nth_error chromo_id_list idx = Some id
              /\ chromo_id (get (cntr_dicts out) r) = Some id
              /\ chromo_idx (get (cntr_dicts out) r) = Some idx
              /\ chromo_id (get (cntr_dicts out) lab) = Some id
              /\ chromo_idx (get (cntr_dicts out) lab) = Some idx.
Proof.
  intros Image E cfg self out Hcfg Hrun.
  assert (Hrec := fun k row r =>
            final_record Image E cfg self out k row r Hcfg Hrun).
  destruct (read_karyotype_Ok Image E cfg self out Hrun)
    as [self' [st0 [left [st' [left' [Hcl [Hm Hout]]]]]]].
  split; [rewrite Hout; reflexivity|]. split; [|exact Hrec].
  destruct (classify_unfold Image E cfg Hcfg self self' st0 left Hcl)
    as [stA [Hasg [Hsz [Hself _]]]].
  rewrite Hout, Hself. cbn.
  apply (id_labels_length Image E cfg self Hsz).
Qed.

(** X10.  The rows that [read_karyotype] stores (lines 387 and 388): their
    keys are vertical centroids of label rows, no key twice, and no record
    stands twice in the rows.  Every record of a row is a contour of the
    extraction that is no label character; it carries a number of the
    sequence "1" to "Y" with the index of that number, and a label of the
    row of its key carries the same number and index. *)
Theorem read_karyotype_rows_are_labelled :
  forall (Image : Type) (E : Externals Image) (cfg : Config)
         (self out : Karyotype Image),
    id_num_in_rows cfg = [5; 7; 6; 6] ->
    read_karyotype E cfg self = Ok out ->
    let st := cntr_dicts out in
    let rows := chromo_cntr_dicts_orgby_cy out in
    chromo_cntr_dicts out = values rows
    /\ length st
       = length (find_external_contours E (img_img (img self)) (BIN_THRESH cfg))
    /\ NoDup (keys rows)
    /\ incl (keys rows) (keys (id_cntr_dicts_orgby_cy out))
    /\ NoDup (concat (values rows))
    /\ forall k row r,
         In (k, row) rows -> In r row ->
         r < length st
         /\ cntr_idx (get st r) = r
         /\ ~ In r (concat (id_char_cntr_dicts out))
         /\ exists lab id idx,
              In lab (dict_item k (id_cntr_dicts_orgby_cy out))
              /\ nth_error chromo_id_list idx = Some id
              /\ chromo_id (get st r) = Some id
              /\ chromo_idx (get st r) = Some idx
              /\ chromo_id (get st lab) = Some id
              /\ chromo_idx (get st lab) = Some idx.
Proof.
  intros Image E cfg self out Hcfg Hrun st rows.
  assert (Hrec := fun k row r =>
            final_record Image E cfg self out k row r Hcfg Hrun).
  destruct (read_karyotype_Ok Image E cfg self out Hrun)
    as [self' [st0 [left [st' [left' [Hcl [Hm Hout]]]]]]].
  subst st rows. rewrite Hout in *.
  cbn [with_chromo with_cntr_dicts cntr_dicts chromo_cntr_dicts_orgby_cy
       chromo_cntr_dicts id_char_cntr_dicts id_cntr_dicts_orgby_cy] in *.
  destruct (merge_fragments_rows Image E cfg st0 left st' left' Hm)
    as [Hkeys Hrows].
  destruct (classify_rows_wf Image E cfg self self' st0 left Hcfg Hcl)
    as [Hnd [Hndc Hwf]].
  split; [reflexivity|]. split.
  { rewrite (merge_fragments_length Image E cfg st0 left st' left' Hm).
    destruct (classify_unfold Image E cfg Hcfg self self' st0 left Hcl)
      as [stA [Hasg [_ [_ [Hleft Hst]]]]].
    assert (Hst' : st0 = classified E cfg self stA) by (now subst).
    destruct (classified_effect Image E cfg self stA Hasg) as [HlenC _].
    rewrite Hst', HlenC. unfold gathered. apply gather_contours_length. }
  split; [now rewrite Hkeys|]. split.
  { rewrite Hkeys. intros k Hk. unfold keys in Hk. apply in_map_iff in Hk.
    destruct Hk as [[k0 row] [Heq Hin]]. simpl in Heq. subst k0.
    now apply (classified_row_key Image E cfg self self' st0 left k row). }
  split; [|exact Hrec].
  unfold merge_fragments in Hm.
  destruct (merge_rows E cfg st0 left) as [[st1 del]|e]; [|discriminate].
  cbn [bind] in Hm. inversion Hm; subst. now apply delete_rows_NoDup.
Qed.

(** ** The drawing of the chromosome numbers *)

Definition text_of (op : canvas_op) : list string :=
  match op with putText text _ => [text] | drawContours _ _ => [] end.

Lemma draw_row_ok :
  forall (st : store) (cntrs : list ref) (off : nat) (canvas : list canvas_op),
    (forall r, In r cntrs -> exists id, chromo_id (get st r) = Some id) ->
    exists drawn,
      for_each (draw_chromo_cntr st) (combine (seq off (length cntrs)) cntrs) canvas
      = Ok (canvas ++ drawn)
      /\ length drawn = 2 * length cntrs
      /\ flat_map text_of drawn
         = flat_map (fun r => match chromo_id (get st r) with
                              | Some id => [id]
                              | None => []
                              end) cntrs.
Proof.
  intros st cntrs. induction cntrs as [|r t IH]; intros off canvas Hid.
  - exists []. simpl. rewrite app_nil_r. repeat split; reflexivity.
  - destruct (Hid r (or_introl eq_refl)) as [id Hr].
    simpl combine. cbn [for_each]. unfold draw_chromo_cntr at 1. rewrite Hr.
    cbn [bind].
    assert (Ht : forall x, In x t -> exists id, chromo_id (get st x) = Some id)
      by (intros x Hx; apply Hid; now right).
    match goal with
    | |- context [for_each _ _ ?c] =>
        destruct (IH (S off) c Ht) as [drawn [H1 [H2 H3]]]
    end.
    eexists. rewrite H1, <- !app_assoc. split; [reflexivity|].
    split.
    + simpl. rewrite H2. simpl. lia.
    + simpl. rewrite Hr, H3. reflexivity.
Qed.

Lemma draw_rows_ok :
  forall (st : store) (rows : list (list ref)) (canvas : list canvas_op),
    (forall r, In r (concat rows) -> exists id, chromo_id (get st r) = Some id) ->
    exists drawn,
      for_each (fun canvas cntrs =>
                  for_each (draw_chromo_cntr st) (enumerate cntrs) canvas)
        rows canvas
      = Ok (canvas ++ drawn)
      /\ length drawn = 2 * length (concat rows)
      /\ flat_map text_of drawn
         = flat_map (fun r => match chromo_id (get st r) with
                              | Some id => [id]
                              | None => []
                              end) (concat rows).
Proof.
  intros st rows. induction rows as [|row t IH]; intros canvas Hid.
  - exists []. simpl. rewrite app_nil_r. repeat split; reflexivity.
  - cbn [for_each]. unfold enumerate at 1.
    destruct (draw_row_ok st row 0 canvas) as [d1 [H1 [H2 H3]]].
    { intros r Hr. apply Hid. simpl. apply in_or_app. now left. }
    rewrite H1. cbn [bind].
    destruct (IH (canvas ++ d1)) as [d2 [K1 [K2 K3]]].
    { intros r Hr. apply Hid. simpl. apply in_or_app. now right. }
    exists (d1 ++ d2). rewrite K1, <- app_assoc. split; [reflexivity|].
    split.
    + simpl. rewrite !length_app, H2, K2. lia.
    + simpl. rewrite !flat_map_app, H3, K3. reflexivity.
Qed.

Lemma draw_id_cntrs_no_text :
  forall (Image : Type) (chart : Karyotype Image),
    flat_map text_of (draw_id_cntrs chart) = [].
Proof.
  intros Image chart. unfold draw_id_cntrs.
  induction (values (id_cntr_dicts_orgby_cy chart)) as [|row t IH];
    [reflexivity|].
  simpl. rewrite flat_map_app, IH, app_nil_r.
  clear. induction row as [|r u IHu]; [reflexivity|]. simpl. exact IHu.
Qed.

(** X11.  When the constructor and [read_karyotype] return for the chart
    file, the drawing of lines 30 to 60 of [main.py] does not raise: every
    record of the rows has a number to write.  It draws the outlines of the
    24 labels, then for every record of the rows, row by row, its outline
    and its number; the texts are the numbers of the records in that order,
    each one of "1" to "22", "X" and "Y". *)
Theorem main_draws_every_number :
  forall (Image : Type) (E : Externals Image) (cfg : Config)
         (KYT_IMG_FP : string) (karyotype_chart out : Karyotype Image),
    id_num_in_rows cfg = [5; 7; 6; 6] ->
    snd (__init__ E (Some KYT_IMG_FP)) = Ok karyotype_chart ->
    read_karyotype E cfg karyotype_chart = Ok out ->
    exists canvas,
      main E cfg KYT_IMG_FP = Ok canvas
      /\ length canvas = 24 + 2 * length (concat (chromo_cntr_dicts out))
      /\ map Some (flat_map text_of canvas)
         = map (fun r => chromo_id (get (cntr_dicts out) r))
             (concat (chromo_cntr_dicts out))
      /\ forall text, In text (flat_map text_of canvas) -> In text chromo_id_list.
Proof.
  intros Image E cfg fp chart out Hcfg Hinit Hrun.
  assert (Him : exists image, imread E fp = Some image).
  { unfold __init__ in Hinit.
    destruct (negb (os_path_exists E fp)); [discriminate|].
    destruct (os_path_split E fp) as [fpath fname].
    destruct (split_dot fname) as [|a [|b [|c [|d [|e l]]]]]; try discriminate.
    destruct (imread E fp) as [image|]; [eauto|discriminate]. }
  destruct Him as [image Him].
  pose proof (read_karyotype_rows_labelled_core Image E cfg chart out Hcfg Hrun)
    as [Hvals [Hlab Hrec]].
  assert (Hid : forall r, In r (concat (chromo_cntr_dicts out)) ->
                  exists id, chromo_id (get (cntr_dicts out) r) = Some id
                             /\ In id chromo_id_list).
  { intros r Hr. rewrite Hvals in Hr. apply in_concat in Hr.
    destruct Hr as [row [Hrow Hr]]. unfold values in Hrow.
    apply in_map_iff in Hrow. destruct Hrow as [[k row0] [Heq Hin]].
    simpl in Heq. subst row0.
    destruct (Hrec k row r Hin Hr) as [_ [_ [_ [lab [id [idx [_ [H1 [H2 _]]]]]]]]].
    exists id. split; [assumption|]. eapply nth_error_In; eassumption. }
  destruct (draw_rows_ok (cntr_dicts out) (chromo_cntr_dicts out)
              (draw_id_cntrs out)) as [drawn [H1 [H2 H3]]].
  { intros r Hr. destruct (Hid r Hr) as [id [H _]]. eauto. }
  exists (draw_id_cntrs out ++ drawn).
  assert (Hgreen := draw_id_cntrs_no_text Image out).
  assert (Htexts : map Some (flat_map text_of drawn)
                   = map (fun r => chromo_id (get (cntr_dicts out) r))
                       (concat (chromo_cntr_dicts out))).
  { rewrite H3. clear - Hid.
    induction (concat (chromo_cntr_dicts out)) as [|r t IH]; [reflexivity|].
    simpl. destruct (Hid r (or_introl eq_refl)) as [id [Hr _]]. rewrite Hr.
    simpl. f_equal. apply IH. intros x Hx. apply Hid. now right. }
  split; [|split; [|split]].
  - unfold main. rewrite Hinit. cbn [bind]. rewrite Hrun. cbn [bind].
    rewrite Him. unfold draw_chromo_cntrs. rewrite <- Hvals. exact H1.
  - rewrite length_app, H2. f_equal.
    unfold draw_id_cntrs. rewrite flat_map_concat_map, length_concat.
    rewrite map_map.
    rewrite (map_ext _ (@length ref)) by (intros l; apply length_map).
    rewrite <- length_concat. exact Hlab.
  - rewrite flat_map_app, Hgreen. exact Htexts.
  - intros text Ht. rewrite flat_map_app, Hgreen in Ht. simpl in Ht.
    assert (Hs : In (Some text) (map Some (flat_map text_of drawn)))
      by (now apply in_map).
    rewrite Htexts in Hs. apply in_map_iff in Hs.
    destruct Hs as [r [Hr Hin]]. destruct (Hid r Hin) as [id [H Hl]].
    congruence.
Qed.

(** ** The main branch of a small piece *)

Section NearestMain.

Variable Image : Type.
Variable E : Externals Image.
Variable st : store.
Variable small_piece : ref.

(** The distance of the small piece to a main branch, with the indices
    of the nearest points. *)
Definition reach (main : ref) : distance * nat * nat :=
  get_distance_between_two_contours E
    (cntr (get st small_piece)) (cntr (get st main)).

Definition reached (main : ref) : distance * option (ref * nat * nat) :=
  (fst (fst (reach main)), Some (main, snd (fst (reach main)), snd (reach main))).

Lemma nearest_main_branch_spec :
  forall mains acc,
    (nearest_main_branch E st small_piece mains acc = acc
     /\ forall x, In x mains ->
                  distance_ltb (fst (fst (reach x))) (fst acc) = false)
    \/ exists j x,
         nth_error mains j = Some x
         /\ nearest_main_branch E st small_piece mains acc = reached x
         /\ distance_ltb (fst (fst (reach x))) (fst acc) = true
         /\ (forall y, In y mains ->
               distance_ltb (fst (fst (reach y))) (fst (fst (reach x))) = false)
         /\ (forall j' y, j' < j -> nth_error mains j' = Some y ->
               distance_ltb (fst (fst (reach x))) (fst (fst (reach y))) = true).
Proof.
  induction mains as [|a t IH]; intros acc.
  - left. split; [reflexivity|intros x []].
  - cbn [nearest_main_branch]. fold (reach a).
    destruct (reach a) as [[d i] j0] eqn:Ha. cbn [fst snd].
    assert (Hd : fst (fst (reach a)) = d) by (now rewrite Ha).
    destruct (distance_ltb d (fst acc)) eqn:Ham.
    + destruct (IH (d, Some (a, i, j0)))
        as [[Hres Hnone]|[j [x [Hj [Hres [Hlt [Hmin Hfirst]]]]]]]; cbn [fst] in *.
      * right. exists 0, a. split; [reflexivity|].
        split; [rewrite Hres; unfold reached; now rewrite Ha|].
        rewrite Hd. split; [exact Ham|]. split.
        -- intros y [<-|Hy]; [rewrite Hd; apply distance_ltb_irrefl|now apply Hnone].
        -- intros j' y Hj'. lia.
      * right. exists (S j), x. split; [exact Hj|]. split; [exact Hres|].
        split; [eapply distance_ltb_trans; eassumption|]. split.
        -- intros y [<-|Hy]; [rewrite Hd; now apply distance_ltb_asym|now apply Hmin].
        -- intros [|j'] y Hj' Hy; cbn [nth_error] in Hy.
           ++ inversion Hy; subst y. now rewrite Hd.
           ++ apply (Hfirst j'); [lia|assumption].
    + destruct (IH acc)
        as [[Hres Hnone]|[j [x [Hj [Hres [Hlt [Hmin Hfirst]]]]]]].
      * left. split; [assumption|].
        intros y [<-|Hy]; [now rewrite Hd|now apply Hnone].
      * right. exists (S j), x. split; [exact Hj|]. split; [exact Hres|].
        split; [exact Hlt|]. split.
        -- intros y [<-|Hy]; [|now apply Hmin]. rewrite Hd.
           apply distance_ltb_asym. eapply distance_ltb_below; eassumption.
        -- intros [|j'] y Hj' Hy; cbn [nth_error] in Hy.
           ++ inversion Hy; subst y. rewrite Hd.
              eapply distance_ltb_below; eassumption.
           ++ apply (Hfirst j'); [lia|assumption].
Qed.

End NearestMain.

(** X12.  The search of lines 347 to 353 gives a small piece the first of
    the main branches whose contour distance to it is the smallest, with
    the two indices that the distance returned for that branch.  It finds
    none exactly when no main branch is at a finite distance, as when there
    is no main branch; the merge of the piece then raises [TypeError]
    (line 356), and in no other case. *)
Theorem small_piece_goes_to_first_nearest_main :
  forall (Image : Type) (E : Externals Image) (st : store) (small_piece : ref)
         (mains : list ref) (del : list nat),
    let found := nearest_main_branch E st small_piece mains (inf, None) in
    (snd found = None
     <-> forall x, In x mains -> fst (fst (reach Image E st small_piece x)) = inf)
    /\ (merge_small_piece E mains (st, del) small_piece = Raise TypeError
        <-> snd found = None)
    /\ forall main i j,
         snd found = Some (main, i, j) ->
         exists pos,
           nth_error mains pos = Some main
           /\ reach Image E st small_piece main = (fst found, i, j)
           /\ (forall y, In y mains ->
                 distance_ltb (fst (fst (reach Image E st small_piece y)))
                   (fst found) = false)
           /\ (forall pos' y, pos' < pos -> nth_error mains pos' = Some y ->
                 distance_ltb (fst found)
                   (fst (fst (reach Image E st small_piece y))) = true).
Proof.
  intros Image E st s mains del found. subst found.
  destruct (nearest_main_branch_spec Image E st s mains (inf, None))
    as [[Hres Hnone]|[j [x [Hj [Hres [Hlt [Hmin Hfirst]]]]]]]; cbn [fst] in *.
  - rewrite Hres. cbn [fst snd]. split; [|split].
    + split; [|reflexivity]. intros _ x Hx. specialize (Hnone x Hx).
      destruct (fst (fst (reach Image E st s x))); [reflexivity|discriminate].
    + split; [reflexivity|]. intros _. unfold merge_small_piece.
      now rewrite Hres.
    + intros main i j0 H. discriminate.
  - rewrite Hres. unfold reached. cbn [fst snd]. split; [|split].
    + split; [discriminate|]. intros Hall. exfalso.
      rewrite (Hall x) in Hlt by (eapply nth_error_In; eassumption).
      discriminate.
    + split; [|discriminate]. intros Hraise. exfalso.
      unfold merge_small_piece in Hraise. rewrite Hres in Hraise.
      unfold reached in Hraise. cbn [snd] in Hraise.
      match type of Hraise with
      | context [update_merged_cnt E st x ?m] =>
          destruct (update_merged_cnt_cases Image E x m)
            as [[_ Hr]|[_ [qx [qy Hok]]]];
            [rewrite Hr in Hraise|rewrite Hok in Hraise]; discriminate
      end.
    + intros main i j0 H. inversion H; subst main i j0. exists j.
      split; [assumption|]. split; [|split; assumption].
      destruct (reach Image E st s x) as [[d i] j0]. reflexivity.
Qed.

(** ** The records that are not in the rows *)

Lemma dict_item_values :
  forall (d : dict (list ref)) (k : Z) (r : ref),
    In r (dict_item k d) -> In r (concat (values d)).
Proof.
  intros d k r H. unfold dict_item in H.
  destruct (dict_get k d) as [l|] eqn:Hget; [|destruct H].
  apply dict_get_In in Hget. eapply In_values_concat; eassumption.
Qed.

(** X13.  [read_karyotype] recomputes the descriptors of no record outside
    the rows that it returns: the labels, the strokes of the labels, the
    contours outside every band and the pieces that were merged and removed
    keep the contour, area, rectangles and centroid that
    [_gather_contours_dict] gave them.  A record with other descriptors is a
    main branch that stands in a row. *)
Theorem records_outside_the_rows_keep_their_descriptors :
  forall (Image : Type) (E : Externals Image) (cfg : Config)
         (self out : Karyotype Image) (r : ref),
    id_num_in_rows cfg = [5; 7; 6; 6] ->
    list_set_spec Image E ->
    read_karyotype E cfg self = Ok out ->
    ~ In r (concat (chromo_cntr_dicts out)) ->
    let cntrs :=
      find_external_contours E (img_img (img self)) (BIN_THRESH cfg) in
    geometry (get (cntr_dicts out) r) = geometry (get (gather_contours E cntrs) r)
    /\ (r < length cntrs ->
        geometry (get (cntr_dicts out) r)
        = geometry (_gather_contours_dict E r (nth r cntrs []))).
Proof.
  intros Image E cfg self out r Hcfg Hset Hrun Hnot cntrs.
  assert (Hgeo : geometry (get (cntr_dicts out) r)
                 = geometry (get (gather_contours E cntrs) r)).
  { destruct (read_karyotype_Ok Image E cfg self out Hrun)
      as [self' [st [left [st' [left' [Hcl [Hm Hout]]]]]]].
    rewrite Hout in *.
    cbn [with_chromo with_cntr_dicts cntr_dicts chromo_cntr_dicts] in *.
    assert (Hsame : get st' r = get st r).
    { destruct (in_dec Nat.eq_dec r (concat (values left))) as [Hin|Hout'].
      - apply in_concat in Hin. destruct Hin as [row [Hrow Hr]].
        unfold values in Hrow. apply in_map_iff in Hrow.
        destruct Hrow as [[k row0] [Heq Hin]]. simpl in Heq. subst row0.
        destruct (merge_record_outcome Image E cfg self self' st left st' left'
                    k row r Hcfg Hset Hcl Hm Hin Hr)
          as [_ [[Hkept|[_ Heq]] _]]; [|assumption].
        exfalso. apply Hnot. now apply (dict_item_values left' k).
      - destruct (classify_rows_wf Image E cfg self self' st left Hcfg Hcl)
          as [Hkeys [Hnd Hwf]].
        assert (Hidx : forall x, In x (concat (values left)) ->
                                 cntr_idx (get st x) = x).
        { intros x Hx. now apply Hwf. }
        destruct (merge_fragments_spec Image E cfg st left st' left'
                    Hset Hkeys Hnd Hidx Hm)
          as [del [_ [_ [_ [Hframe _]]]]].
        now apply Hframe. }
    rewrite Hsame.
    destruct (classify_unfold Image E cfg Hcfg self self' st left Hcl)
      as [stA [Hasg [_ [_ [Hleft Hst]]]]].
    assert (Hst' : st = classified E cfg self stA) by (now subst).
    rewrite Hst'. apply (classified_geometry Image E cfg self stA Hasg). }
  split; [assumption|].
  intros Hlen. rewrite Hgeo. now rewrite gather_contours_get.
Qed.

(** ** The two records of the label characters *)

(** The groups of lines 158 to 176 hold the candidates, each once. *)
Lemma merge_by_cy_candidates :
  forall (cfg : Config) (st : store),
    Permutation
      (concat (values (merge_by_cy cfg
                         (organize_by_cy st (filter_id_cntr_dicts cfg st)))))
      (filter_id_cntr_dicts cfg st).
Proof.
  intros cfg st.
  set (cands := filter_id_cntr_dicts cfg st).
  set (d := organize_by_cy st cands).
  assert (Hd : NoDup (keys d)) by apply organize_by_cy_keys.
  unfold merge_by_cy.
  destruct (merge_given_loop_closed cfg d Hd d [] [] [])
    as [[Hnd [Hincl Hperm]] [Hcov Hclosed]].
  - reflexivity.
  - split; [constructor|]. split; [intros a []|constructor].
  - intros a [].
  - intros a [].
  - intros g [].
  - apply (Permutation_trans Hperm).
    apply (Permutation_trans (l' := concat (values d)));
      [|apply organize_by_cy_perm].
    rewrite <- (items_keys d Hd). unfold items.
    apply Permutation_flat_map.
    apply NoDup_Permutation; [assumption|assumption|].
    intros k. split; [apply Hincl|apply Hcov].
Qed.

(** X14.  When [_id_info] returns, the dict that line 194 saved as
    [id_char_cntr_dicts_orgby_cy] is the dict that lines 199 to 213 went on
    to update: it is the dict of the labels, [id_cntr_dicts_orgby_cy], and
    holds one record for each label.  The list [id_char_cntr_dicts] of line
    195 holds the four rows as they were before the sort and the collapse:
    its rows are the groups of label characters of lines 158 to 176 whose
    size passes the filter of lines 179 to 182, every one whole, and every
    label character belongs to one of the groups; the labels of a row are
    the collapse of the strokes of that row, sorted from left to right. *)
Theorem label_character_rows_are_shared :
  forall (Image : Type) (cfg : Config) (self : Karyotype Image),
    id_num_in_rows cfg = [5; 7; 6; 6] ->
    snd (_id_info cfg self) = None ->
    let out := fst (_id_info cfg self) in
    let st := cntr_dicts self in
    let groups :=
      merge_by_cy cfg (organize_by_cy st (filter_id_cntr_dicts cfg st)) in
    id_char_cntr_dicts_orgby_cy out = id_cntr_dicts_orgby_cy out
    /\ id_cntr_dicts out = values (id_cntr_dicts_orgby_cy out)
    /\ row_sizes (id_cntr_dicts_orgby_cy out) = [5; 7; 6; 6]
    /\ NoDup (concat (id_char_cntr_dicts out))
    /\ (forall r, In r (concat (id_char_cntr_dicts out)) ->
          r < length (cntr_dicts self)
          /\ is_id_char cfg (get (cntr_dicts self) r) = true)
    /\ Forall2 (fun labels strokes => incl labels strokes)
         (id_cntr_dicts out) (id_char_cntr_dicts out)
    /\ length (id_char_cntr_dicts out) = 4
    /\ (forall g,
          In g (id_char_cntr_dicts out)
          <-> exists k,
                In (k, g) groups
                /\ ROW_ID_CHAR_MIN_NUM cfg <= length g
                /\ length g <= ROW_ID_CHAR_MAX_NUM cfg)
    /\ (forall r,
          r < length st -> is_id_char cfg (get st r) = true ->
          exists k g, In (k, g) groups /\ In r g)
    /\ id_cntr_dicts out
       = map (fun strokes =>
                collapse_row cfg st (sorted_by (fun r => cx (get st r)) strokes))
           (id_char_cntr_dicts out).
Proof.
  intros Image cfg self Hcfg Hnone out st groups. subst out.
  destruct (id_info_cases Image cfg Hcfg self)
    as [[Hlen Hid]|[[Hlen [idx [l [n [Hw Hid]]]]]|[Hlen [Hsz [st' [_ Hid]]]]]];
    cbv zeta in Hid; rewrite Hid in *; cbn [fst snd] in *; try discriminate.
  cbv zeta in Hsz. unfold id_info_done.
  cbn [with_id with_cntr_dicts with_id_char id_char_cntr_dicts_orgby_cy
       id_cntr_dicts_orgby_cy id_cntr_dicts id_char_cntr_dicts cntr_dicts].
  split; [reflexivity|]. split; [reflexivity|]. split; [assumption|].
  split; [apply sorted_char_rows_NoDup|].
  split; [apply sorted_char_rows_id_char|].
  split.
  { pose proof (label_rows_sub cfg (cntr_dicts self)) as Hsub.
    induction Hsub as [|x y l0 l' [H _] _ IH]; constructor; assumption. }
  split.
  { unfold values, sorted_char_rows. rewrite length_map, sorted_by_length.
    exact Hlen. }
  split.
  { intros g. unfold values, sorted_char_rows, label_char_rows.
    fold st. fold groups. rewrite in_map_iff. split.
    - intros [[k g'] [Heq Hin]]. simpl in Heq. subst g'.
      apply sorted_by_In in Hin. unfold filter_row_size in Hin.
      apply filter_In in Hin. destruct Hin as [Hin Hsize]. simpl in Hsize.
      apply andb_true_iff in Hsize. destruct Hsize as [H1 H2].
      apply Nat.leb_le in H1, H2. exists k. tauto.
    - intros [k [Hin [H1 H2]]]. exists (k, g). split; [reflexivity|].
      apply sorted_by_In. unfold filter_row_size. apply filter_In.
      split; [assumption|]. simpl. apply andb_true_iff.
      split; apply Nat.leb_le; assumption. }
  split.
  { intros r Hr Hchar.
    assert (Hc : In r (filter_id_cntr_dicts cfg st)).
    { unfold filter_id_cntr_dicts. apply filter_In. split; [|assumption].
      apply in_seq. lia. }
    apply (Permutation_in _ (Permutation_sym (merge_by_cy_candidates cfg st)))
      in Hc.
    apply in_concat in Hc. destruct Hc as [g [Hg Hrg]].
    unfold values in Hg. apply in_map_iff in Hg.
    destruct Hg as [[k g'] [Heq Hin]]. simpl in Heq. subst g'.
    exists k, g. split; assumption. }
  unfold label_rows, collapse_rows, sort_rows_by_cx, values.
  rewrite !map_map. reflexivity.
Qed.

(** ** The charts, once more *)

(** What [read_karyotype] returns for a chart that it accepts. *)
Definition chart_output (cntrs : Polygon.Image) : Karyotype Polygon.Image :=
  match read_karyotype (Polygon.chart_externals cntrs) karyotype_ini
          (Polygon.chart_object cntrs) with
  | Ok out => out
  | Raise _ => Polygon.chart_object cntrs
  end.

Lemma chart_output_ok :
  forall c,
    is_ok (read_karyotype (Polygon.chart_externals c) karyotype_ini
             (Polygon.chart_object c)) = true ->
    read_karyotype (Polygon.chart_externals c) karyotype_ini
      (Polygon.chart_object c)
    = Ok (chart_output c).
Proof.
  intros c H. unfold chart_output.
  destruct (read_karyotype _ _ _) as [out|e]; [reflexivity|discriminate].
Qed.

(** The small piece 25 of the chart with a small piece is removed from
    its row, and the chromosome 24 stays with the number "1". *)
Lemma merge_keeps_every_number_of_a_row_witness :
  let c := Polygon.chart_with_piece in
  let E := Polygon.chart_externals c in
  let cfg := karyotype_ini in
  let self := Polygon.chart_object c in
  let self' := Polygon.chart_self c in
  let st := Polygon.chart_store c in
  let left := Polygon.chart_rows c in
  let st' := fst (Polygon.chart_merged c) in
  let left' := snd (Polygon.chart_merged c) in
  let k := 200%Z in
  let row := [25; 24] in
  let r := 25 in
  (id_num_in_rows cfg = [5; 7; 6; 6]
   /\ list_set_spec Polygon.Image E
   /\ classify E cfg self = Ok (self', st, left)
   /\ merge_fragments E cfg st left = Ok (st', left')
   /\ In (k, row) left
   /\ In r row)
  /\ dict_item k left' = [24]
  /\ chromo_id (get st' r) = chromo_id (get st r)
  /\ (In r (dict_item k left')
      \/ (~ In r (dict_item k left') /\ get st' r = get st r))
  /\ exists m,
       In m row /\ In m (dict_item k left')
       /\ chromo_id (get st' m) = chromo_id (get st r).
Proof.
  cbv zeta.
  assert (Hcl : classify (Polygon.chart_externals Polygon.chart_with_piece)
                  karyotype_ini (Polygon.chart_object Polygon.chart_with_piece)
                = Ok (Polygon.chart_self Polygon.chart_with_piece,
                      Polygon.chart_store Polygon.chart_with_piece,
                      Polygon.chart_rows Polygon.chart_with_piece))
    by (apply chart_classified_ok; vm_compute; reflexivity).
  assert (Hrun : merge_fragments
                   (Polygon.chart_externals Polygon.chart_with_piece)
                   karyotype_ini
                   (Polygon.chart_store Polygon.chart_with_piece)
                   (Polygon.chart_rows Polygon.chart_with_piece)
                 = Ok (fst (Polygon.chart_merged Polygon.chart_with_piece),
                       snd (Polygon.chart_merged Polygon.chart_with_piece)))
    by (apply chart_merged_ok; vm_compute; reflexivity).
  assert (Hin : In (200%Z, [25; 24]) (Polygon.chart_rows Polygon.chart_with_piece))
    by (vm_compute; left; reflexivity).
  assert (Hr : In 25 [25; 24]) by (left; reflexivity).
  split.
  { split; [reflexivity|]. split; [apply polygon_list_set_spec|].
    split; [exact Hcl|]. split; [exact Hrun|]. split; assumption. }
  split; [vm_compute; reflexivity|].
  exact (merge_keeps_every_number_of_a_row Polygon.Image
           (Polygon.chart_externals Polygon.chart_with_piece)
           karyotype_ini (Polygon.chart_object Polygon.chart_with_piece)
           (Polygon.chart_self Polygon.chart_with_piece)
           (Polygon.chart_store Polygon.chart_with_piece)
           (Polygon.chart_rows Polygon.chart_with_piece)
           (fst (Polygon.chart_merged Polygon.chart_with_piece))
           (snd (Polygon.chart_merged Polygon.chart_with_piece))
           200%Z [25; 24] 25 eq_refl
           (polygon_list_set_spec (Polygon.chart_files Polygon.chart_with_piece))
           Hcl Hrun Hin Hr).
Defined.

(** The chart with two lines of one chromosome number raises in the
    merge, at the division of line 328. *)
Lemma read_karyotype_raises_in_two_ways_witness :
  let c := chart_two_lines in
  let E := Polygon.chart_externals c in
  let cfg := karyotype_ini in
  let self := Polygon.chart_object c in
  let e := ZeroDivisionError in
  let gate := snd (_id_info cfg (with_cntr_dicts (gathered E cfg self) self)) in
  (id_num_in_rows cfg = [5; 7; 6; 6]
   /\ read_karyotype E cfg self = Raise e)
  /\ ((gate = Some e
       /\ ((exists n, n <> 4 /\ e = ValueError_row_count n)
           \/ exists row found expected,
                found <> expected
                /\ e = ValueError_row_id_num row found expected))
      \/ (gate = None
          /\ (exists self' st left,
                classify E cfg self = Ok (self', st, left)
                /\ merge_fragments E cfg st left = Raise e)
          /\ (e = TypeError \/ e = ZeroDivisionError))).
Proof.
  cbv zeta.
  assert (Hrun : read_karyotype (Polygon.chart_externals chart_two_lines)
                   karyotype_ini (Polygon.chart_object chart_two_lines)
                 = Raise ZeroDivisionError)
    by (vm_compute; reflexivity).
  split; [split; [reflexivity|exact Hrun]|].
  exact (read_karyotype_raises_in_two_ways Polygon.Image
           (Polygon.chart_externals chart_two_lines) karyotype_ini
           (Polygon.chart_object chart_two_lines) ZeroDivisionError
           eq_refl Hrun).
Defined.

(** The output for the chart with a small piece. *)
Lemma read_karyotype_rows_are_labelled_witness :
  let c := Polygon.chart_with_piece in
  let E := Polygon.chart_externals c in
  let cfg := karyotype_ini in
  let self := Polygon.chart_object c in
  let out := chart_output c in
  let st := cntr_dicts out in
  let rows := chromo_cntr_dicts_orgby_cy out in
  (id_num_in_rows cfg = [5; 7; 6; 6]
   /\ read_karyotype E cfg self = Ok out)
  /\ rows = [(200%Z, [24])]
  /\ chromo_cntr_dicts out = values rows
  /\ length st
     = length (find_external_contours E (img_img (img self)) (BIN_THRESH cfg))
  /\ NoDup (keys rows)
  /\ incl (keys rows) (keys (id_cntr_dicts_orgby_cy out))
  /\ NoDup (concat (values rows))
  /\ forall k row r,
       In (k, row) rows -> In r row ->
       r < length st
       /\ cntr_idx (get st r) = r
       /\ ~ In r (concat (id_char_cntr_dicts out))
       /\ exists lab id idx,
            In lab (dict_item k (id_cntr_dicts_orgby_cy out))
            /\ nth_error chromo_id_list idx = Some id
            /\ chromo_id (get st r) = Some id
            /\ chromo_idx (get st r) = Some idx
            /\ chromo_id (get st lab) = Some id
            /\ chromo_idx (get st lab) = Some idx.
Proof.
  cbv zeta.
  assert (Hrun : read_karyotype (Polygon.chart_externals Polygon.chart_with_piece)
                   karyotype_ini (Polygon.chart_object Polygon.chart_with_piece)
                 = Ok (chart_output Polygon.chart_with_piece))
    by (apply chart_output_ok; vm_compute; reflexivity).
  split; [split; [reflexivity|exact Hrun]|].
  split; [vm_compute; reflexivity|].
  exact (read_karyotype_rows_are_labelled Polygon.Image
           (Polygon.chart_externals Polygon.chart_with_piece) karyotype_ini
           (Polygon.chart_object Polygon.chart_with_piece)
           (chart_output Polygon.chart_with_piece) eq_refl Hrun).
Defined.

(** The script on the chart with a small piece: 24 outlines of labels,
    then the outline and the number of the chromosome. *)
Lemma main_draws_every_number_witness :
  let c := Polygon.chart_with_piece in
  let E := Polygon.chart_externals c in
  let cfg := karyotype_ini in
  let KYT_IMG_FP := Polygon.chart_fp in
  let karyotype_chart := Polygon.chart_object c in
  let out := chart_output c in
  (id_num_in_rows cfg = [5; 7; 6; 6]
   /\ snd (__init__ E (Some KYT_IMG_FP)) = Ok karyotype_chart
   /\ read_karyotype E cfg karyotype_chart = Ok out)
  /\ flat_map text_of
       (match main E cfg KYT_IMG_FP with Ok canvas => canvas | Raise _ => [] end)
     = ["1"%string]
  /\ exists canvas,
       main E cfg KYT_IMG_FP = Ok canvas
       /\ length canvas = 24 + 2 * length (concat (chromo_cntr_dicts out))
       /\ map Some (flat_map text_of canvas)
          = map (fun r => chromo_id (get (cntr_dicts out) r))
              (concat (chromo_cntr_dicts out))
       /\ forall text, In text (flat_map text_of canvas) -> In text chromo_id_list.
Proof.
  cbv zeta.
  assert (Hrun : read_karyotype (Polygon.chart_externals Polygon.chart_with_piece)
                   karyotype_ini (Polygon.chart_object Polygon.chart_with_piece)
                 = Ok (chart_output Polygon.chart_with_piece))
    by (apply chart_output_ok; vm_compute; reflexivity).
  split; [split; [reflexivity|]; split; [reflexivity|exact Hrun]|].
  split; [vm_compute; reflexivity|].
  exact (main_draws_every_number Polygon.Image
           (Polygon.chart_externals Polygon.chart_with_piece) karyotype_ini
           Polygon.chart_fp (Polygon.chart_object Polygon.chart_with_piece)
           (chart_output Polygon.chart_with_piece) eq_refl eq_refl Hrun).
Defined.

(** The merged piece 25 of the chart with a small piece. *)
Lemma records_outside_the_rows_keep_their_descriptors_witness :
  let c := Polygon.chart_with_piece in
  let E := Polygon.chart_externals c in
  let cfg := karyotype_ini in
  let self := Polygon.chart_object c in
  let out := chart_output c in
  let r := 25 in
  let cntrs :=
    find_external_contours E (img_img (img self)) (BIN_THRESH cfg) in
  (id_num_in_rows cfg = [5; 7; 6; 6]
   /\ list_set_spec Polygon.Image E
   /\ read_karyotype E cfg self = Ok out
   /\ ~ In r (concat (chromo_cntr_dicts out)))
  /\ geometry (get (cntr_dicts out) r) = geometry (get (gather_contours E cntrs) r)
  /\ (r < length cntrs ->
      geometry (get (cntr_dicts out) r)
      = geometry (_gather_contours_dict E r (nth r cntrs []))).
Proof.
  cbv zeta.
  assert (Hrun : read_karyotype (Polygon.chart_externals Polygon.chart_with_piece)
                   karyotype_ini (Polygon.chart_object Polygon.chart_with_piece)
                 = Ok (chart_output Polygon.chart_with_piece))
    by (apply chart_output_ok; vm_compute; reflexivity).
  assert (Hnot : ~ In 25 (concat (chromo_cntr_dicts
                                    (chart_output Polygon.chart_with_piece))))
    by (apply not_In_existsb; vm_compute; reflexivity).
  split.
  { split; [reflexivity|]. split; [apply polygon_list_set_spec|].
    split; assumption. }
  exact (records_outside_the_rows_keep_their_descriptors Polygon.Image
           (Polygon.chart_externals Polygon.chart_with_piece) karyotype_ini
           (Polygon.chart_object Polygon.chart_with_piece)
           (chart_output Polygon.chart_with_piece) 25 eq_refl
           (polygon_list_set_spec (Polygon.chart_files Polygon.chart_with_piece))
           Hrun Hnot).
Defined.

(** A chart whose label "1" is printed in two strokes, 10 pixels apart. *)
Definition chart_two_strokes : Polygon.Image :=
  Polygon.labels ++ [Polygon.label 110 200].

Lemma label_character_rows_are_shared_witness :
  let cfg := karyotype_ini in
  let c := chart_two_strokes in
  let self :=
    with_cntr_dicts (gather_contours (Polygon.chart_externals c) c)
      (Polygon.chart_object c) in
  let out := fst (_id_info cfg self) in
  let st := cntr_dicts self in
  let groups :=
    merge_by_cy cfg (organize_by_cy st (filter_id_cntr_dicts cfg st)) in
  (id_num_in_rows cfg = [5; 7; 6; 6]
   /\ snd (_id_info cfg self) = None)
  /\ dict_item 200%Z (id_cntr_dicts_orgby_cy out) = [23; 22; 21; 20; 19]
  /\ nth 0 (id_char_cntr_dicts out) [] = [19; 20; 21; 22; 23; 24]
  /\ id_char_cntr_dicts_orgby_cy out = id_cntr_dicts_orgby_cy out
  /\ id_cntr_dicts out = values (id_cntr_dicts_orgby_cy out)
  /\ row_sizes (id_cntr_dicts_orgby_cy out) = [5; 7; 6; 6]
  /\ NoDup (concat (id_char_cntr_dicts out))
  /\ (forall r, In r (concat (id_char_cntr_dicts out)) ->
        r < length (cntr_dicts self)
        /\ is_id_char cfg (get (cntr_dicts self) r) = true)
  /\ Forall2 (fun labels strokes => incl labels strokes)
       (id_cntr_dicts out) (id_char_cntr_dicts out)
  /\ length (id_char_cntr_dicts out) = 4
  /\ (forall g,
        In g (id_char_cntr_dicts out)
        <-> exists k,
              In (k, g) groups
              /\ ROW_ID_CHAR_MIN_NUM cfg <= length g
              /\ length g <= ROW_ID_CHAR_MAX_NUM cfg)
  /\ (forall r,
        r < length st -> is_id_char cfg (get st r) = true ->
        exists k g, In (k, g) groups /\ In r g)
  /\ id_cntr_dicts out
     = map (fun strokes =>
              collapse_row cfg st (sorted_by (fun r => cx (get st r)) strokes))
         (id_char_cntr_dicts out).
Proof.
  cbv zeta.
  assert (Hnone : snd (_id_info karyotype_ini
                         (with_cntr_dicts
                            (gather_contours
                               (Polygon.chart_externals chart_two_strokes)
                               chart_two_strokes)
                            (Polygon.chart_object chart_two_strokes))) = None)
    by (vm_compute; reflexivity).
  split; [split; [reflexivity|exact Hnone]|].
  split; [vm_compute; reflexivity|]. split; [vm_compute; reflexivity|].
  exact (label_character_rows_are_shared Polygon.Image karyotype_ini
           (with_cntr_dicts
              (gather_contours (Polygon.chart_externals chart_two_strokes)
                 chart_two_strokes)
              (Polygon.chart_object chart_two_strokes))
           eq_refl Hnone).
Defined.

(** ** A second call *)

(** [read_karyotype] reads the image, the case and the picture of the
    object and nothing else of it. *)
Lemma read_karyotype_reads_the_image :
  forall (Image : Type) (E : Externals Image) (cfg : Config)
         (self1 self2 : Karyotype Image),
    img self1 = img self2 ->
    case_id self1 = case_id self2 ->
    pic_id self1 = pic_id self2 ->
    read_karyotype E cfg self1 = read_karyotype E cfg self2.
Proof.
  intros Image E cfg self1 self2 Himg Hcase Hpic.
  unfold read_karyotype, classify, _id_info. rewrite Himg.
  cbn [cntr_dicts with_cntr_dicts].
  destruct (negb (length (label_char_rows cfg _) =? 4)); [reflexivity|].
  destruct (check_rows cfg _ 0); [reflexivity|].
  destruct (assign_rows _ _ 0) as [[st' n] [e|]]; [reflexivity|].
  cbn [with_id with_cntr_dicts with_id_char cntr_dicts id_char_cntr_dicts
       id_cntr_dicts_orgby_cy].
  destruct (organize_left _ _ _ []) as [left|e]; [|reflexivity].
  cbn [bind].
  destruct (merge_fragments E cfg _ _) as [[st'' left']|e]; [|reflexivity].
  cbn [bind]. unfold with_chromo, with_cntr_dicts, with_id, with_id_char.
  cbn. now rewrite Himg, Hcase, Hpic.
Qed.

(** X15.  A second call of [read_karyotype] on the object that a first
    call has filled starts from the image again (lines 243 to 249) and
    overwrites every attribute that the first call has set: it returns, and
    leaves the object as the first call left it. *)
Theorem read_karyotype_again_changes_nothing :
  forall (Image : Type) (E : Externals Image) (cfg : Config)
         (self out : Karyotype Image),
    read_karyotype E cfg self = Ok out ->
    read_karyotype E cfg out = Ok out.
Proof.
  intros Image E cfg self out Hrun.
  destruct (read_karyotype_Ok Image E cfg self out Hrun)
    as [self' [st [left [st' [left' [Hcl [Hm Hout]]]]]]].
  transitivity (read_karyotype E cfg self); [|assumption].
  apply read_karyotype_reads_the_image;
    rewrite Hout; cbn [with_chromo with_cntr_dicts img case_id pic_id];
    unfold classify in Hcl;
    destruct (_id_info cfg _) as [s [e|]] eqn:Hid; try discriminate;
    destruct (organize_left _ _ _ []) as [l|e]; try discriminate;
    cbn [bind] in Hcl; inversion Hcl; subst s; clear Hcl;
    unfold _id_info in Hid;
    destruct (negb (length (label_char_rows cfg _) =? 4)); try discriminate;
    destruct (check_rows cfg _ 0); try discriminate;
    destruct (assign_rows _ _ 0) as [[st1 n] [e|]]; try discriminate;
    inversion Hid; reflexivity.
Qed.

Lemma read_karyotype_again_changes_nothing_witness :
  let c := Polygon.chart_with_piece in
  let E := Polygon.chart_externals c in
  let cfg := karyotype_ini in
  let self := Polygon.chart_object c in
  let out := chart_output c in
  read_karyotype E cfg self = Ok out
  /\ chromo_cntr_dicts out = [[24]]
  /\ read_karyotype E cfg out = Ok out.
Proof.
  cbv zeta.
  assert (Hrun : read_karyotype (Polygon.chart_externals Polygon.chart_with_piece)
                   karyotype_ini (Polygon.chart_object Polygon.chart_with_piece)
                 = Ok (chart_output Polygon.chart_with_piece))
    by (apply chart_output_ok; vm_compute; reflexivity).
  split; [exact Hrun|]. split; [vm_compute; reflexivity|].
  exact (read_karyotype_again_changes_nothing Polygon.Image
           (Polygon.chart_externals Polygon.chart_with_piece) karyotype_ini
           (Polygon.chart_object Polygon.chart_with_piece)
           (chart_output Polygon.chart_with_piece) Hrun).
Defined.
